(* ===== verification/_CoqProject ===== *)
-Q . S2P
Prelude.v
Str.v
World.v
Log.v
Version.v
Replace.v
Frame.v
Types.v
Store.v
Host.v
Runner.v
Apply.v
Race.v
Protocol.v
Net.v
Config.v
Schedule.v
Helper.v
Tokens.v
Api.v
Sysinfo.v
Services.v
Auth.v
State.v
Server.v
AppState.v
Handlers.v
Scheduler.v
Reload.v
Daemon.v
Ops.v
System.v
Passes.v
Live.v
Derive.v
Wire.v
Toml.v
Router.v
Overlap.v
Logged.v
Records.v
Canvas.v
Boot.v
Cli.v
Agree.v
Kit.v
KitToml.v
TestsUpdate.v
TestsCrates.v
TestsDaemon.v
TestsServer.v
