(* ===== verification/Prelude.v ===== *)
(** * Abora Framework: a verification library

    ** The program

    The Abora Framework manages one host. Its daemon [aborad] serves an HTTP API
    on loopback: health, version, facts about the system, systemd services, and
    updates. It never installs anything itself: a scheduler (or a caller with the
    right token) writes an apply request next to the update store, and the root
    helper [abora-apply], started by systemd when that file appears, decides on
    its own whether to run [apt-get], and reports in a result file, which the
    daemon turns into a history entry. Both read the same configuration.

    <<
      CLI / client --HTTP--> Server --> Auth, Tokens        (who may do it)
                               |
                            Handlers --> Sysinfo, Services  (read the host)
                               |
      Scheduler ----------> State (UpdatesState) --> Store  (history on disk)
         |                     |    |
      Schedule (policy)      Host   +--apply-request.json--> Helper --> apt-get
         |                  (apt -s)  <------result.json-----/
      Config <-- Reload, Daemon (start, watch and reload)
    >>

    ** The files

    Each file models one source file (or one part of it) under [src/], and its
    definitions keep the names of the source. Shared ground:

    - [Prelude]: notations, [result], the [bool_norm] and [by_eval] tactics, the
      [abora] hint database, generic lemmas.
    - [Str]: Rust strings as lists of bytes, and the functions of the standard
      library the source uses ([trim], [lines], [split_once], [parse], UTF-8,
      decimal and hexadecimal text, sorting and deduplication).
    - [World]: the operating system. A [world] is the files, the number of system
      calls made, and the trace of everything visible from outside; [io A] is a
      state monad over it. The environment class [Env] gives the outcome of each
      call by its number: any call may fail, a write may be short, a program may
      exit in any way and change any file, clocks may show anything. Theorems
      quantify over [Env], so they hold under every such behaviour.
    - [Net]: IP and socket addresses, their syntax, and loopback.
    - [Replace]: the temporary-file-and-rename idiom, and its crash lemmas, shared
      by [Store] and [Apply].
    - [Frame]: invariants of the whole file system that an operation never leaves,
      not even between two system calls ([through]), and what a crash in the middle
      of an operation leaves ([cut]).

    The crates ([src/crates/]):

    - [Version]: [abora-core]. [Types]: [abora-update/lib.rs], with the class
      [UpdateProvider] (the trait) and the class [Serde] with its law [SerdeOk]
      (what a JSON codec promises to its users).
    - [Store]: [abora-update/store.rs]. [Host]: [host.rs], an instance of
      [UpdateProvider]; [Runner]: its command runner, with the loop that polls the
      child, the timeout and the threads that read the pipes. [Apply]: [apply.rs], the protocol between daemon and helper; [Race]:
      its [write_atomic] as single system calls on inodes, for several writers of
      one file.
    - [Config] and [Schedule]: [abora-config/lib.rs] and [schedule.rs].
    - [Log]: [abora-log]. [Api]: [abora-api]. [Sysinfo]: [abora-sysinfo].
      [Services]: [abora-services].

    What the [serde] derives and attributes of the source mean, for every type that
    leaves the program:

    - [Derive]: JSON values and the general rules (members, absent members,
      variants, unknown and repeated names). [Wire]: the types of the crates as JSON,
      written and read, with the laws of [SerdeOk] and [JsonOk].
    - [Toml]: structs described by their fields, the visitor and the serializer
      computed from the description, and the configuration and token file as such
      structs.

    The programs ([src/services/], [src/cli/], [src/boot/]):

    - [Helper]: [abora-apply/main.rs].
    - [Tokens], [Auth], [State], [AppState], [Server], [Handlers], [Scheduler],
      [Reload], [Daemon]: the files of [aborad] with those names ([AppState] is the
      first part of [state.rs], [Daemon] is [main.rs], whose watch loop is in
      [Reload]).
    - [Logged] and [Records]: the same operations with the log records they leave
      (those of the scheduler and the start, those of requests), and that without the
      records they are the same.
    - [Cli]: the command line client [abora/main.rs]; its commands are computations
      over what was sent and printed.
    - [Router]: the route table of [server.rs] around the layers of [Server] and the
      handlers of [Handlers], with their extractors and the bytes of their answers: a
      request from its method and target to its response. [Overlap]: the same with a
      gap between authorization and handler, in which the daemon may reload, and
      [Passes] a pass of the scheduler with gaps between its steps. [Agree]: the client and
      the daemon of one machine, and what the client prints of each answer.
    - [Canvas] and [Boot]: the boot screen [abora-boot], from the bytes of the
      framebuffer ([canvas.rs], [font.rs], [logo.rs]) to the scrolled screen
      ([main.rs]).

    The system:

    - [Protocol]: the update protocol in the abstract: names are offered, requests
      asked for, installs serve the request that waits. No files, no failures.
    - [Ops]: [request_apply] cut in two, at the point where another caller can come
      between its test and its write, a pass of the scheduler cut in five, and what each operation of the daemon and the
      helper may write.
    - [System]: the step relation of the whole host: steps of the scheduler's passes,
      callers who are admitted, later decide and later write, reads, the two halves of
      reloads, the helper, starts, anything other programs do to other files, and a crash at any system call of
      any of these.
    - [Live]: a host whose system calls do not fail, on which what is asked is
      answered.

    The unit tests of the source:

    - [Kit] and [KitToml]: SHA-256, JSON text, TOML text and test hosts, computed.
    - [TestsUpdate], [TestsCrates], [TestsDaemon], [TestsServer]: each test as a
      boolean of the same name, evaluated on the definitions above; those of the
      server go through [Router.handle], those of files through their text.

    ** How code becomes definitions

    A method that changes its object ([&mut self], or a lock's content) takes the
    old value and returns the new one; a function that touches the system is an
    [io]; [Result] is [result]; a panic, where one can happen, is a value
    ([outcome]). Machine integers are [N] with the wrap-around or the check of the
    source written out. Locks are held only inside single operations in the source,
    so an operation is a step, and the order of steps is a sequence. Operations that
    look and later act on what they saw are several steps in [System]: a request is
    admitted by the layer, decided by its handler and written
    ([Ops.request_apply_halves] shows that the last two in a row are the whole of
    [request_apply]), a reload swaps the configuration before the tokens, and a pass
    of the scheduler takes a snapshot of the configuration, publishes the policy, looks
    for a result, checks, and decides about an automatic request
    ([Ops.pass_in_steps]). Code that is
    not in the repository is a parameter: SHA-256 ([Sha256]), the text of TOML
    ([TomlText]; [ConfigToml] and [TokenToml] are what the other files use of it, with
    instances in [Toml]), the text of JSON ([JsonText]; [Serde] and [Json] likewise,
    with instances in [Derive] and [Wire]), the web framework ([Axum]), floating point ([parse_f64]), random
    hashes. Where a theorem relies on such code, the law is a class or a hypothesis,
    and a witness applies it with a concrete instance.

    ** What the theorems show

    - {e The system implements its protocol}: whatever callers, files, failures,
      crashes and restarts do, what waits in the request file and what has been
      installed follow the abstract machine
      ([System.system_refines_protocol]); so every install was asked for by someone
      entitled to it, for names that were offered, when policy permitted
      ([System.installs_authorised]). On a host that does not fail, a request is
      taken, answered and recorded ([Live.request_answered]). Two callers can both
      pass the test before either writes; the file then holds the second request,
      whole ([System.racing_requests]).
    - {e Over HTTP}: whatever the request, and whatever the daemon does between its
      authorization and its handler, serving it is some of the actions of [System], so
      all of the above holds while requests are served
      ([Overlap.overlapping_request]; [Router.request_is_actions] is the case without a
      gap); between the two halves of a reload a request is admitted as before or as
      after, with one exception ([Overlap.reload_window]); a request file is made by one kind of request
      only, from this machine with a token for it, when policy permits
      ([Router.only_apply_requests]); every request is answered with its id, and
      every error of the daemon with its envelope ([Router.answers_complete]). The
      client prints what the daemon's state says, from end to end
      ([Agree.updates_end_to_end], [Agree.client_shows_status]); a confirmed apply
      that succeeds leaves the request file that its last line names, a dry run or a
      failure leaves the file alone ([Agree.apply_end_to_end]).
    - {e The log}: of the credentials and the address of a request nothing is seen, in
      the log or anywhere else, but the decision and the name of the token
      ([Records.secrets_stay_out]); no request file without its audit record, no denial
      without a warning ([Records.applies_audited]).
    - {e Writers of one file}: [write_atomic] is some turns of the writer of [Race]
      ([Race.write_atomic_is_turns]); writers that take turns publish whole texts
      only ([Race.serialised_whole]); others publish nothing but bytes of the texts
      at their places ([Race.writers_blend]), which can be a torn file answered
      [Ok] ([Race.overlapping_writers_tear]).
    - {e Commands end}: the waiting loop leaves within the timeout, and the only way
      for a call never to return is a child that leaves its pipes to another process
      ([Runner.run_terminates]).
    - {e The daemon is well typed}: its configuration is always a validated one and
      its token hashes are 32 bytes, through every reload
      ([Daemon.daemon_well_typed]).
    - {e The helper is safe}: whatever the request, the files and the failures,
      the helper runs only [date], the simulation, one fixed install and a reboot,
      in that order, the install only when policy permits and only of names that are
      both asked for and offered ([Helper.helper_commands]); it does serve proper
      requests ([helper_installs]); and the result is on disk before a reboot
      ([result_before_reboot]).
    - {e The daemon admits only what it should}: [Auth.authorize_spec],
      [Server.serve_spec], [Tokens.find_spec], [Daemon.startup_safe]; a token made by
      the client is accepted ([Tokens.generated_token_accepted]).
    - {e Daemon and helper agree}: an accepted request is one the helper validates
      ([State.request_reaches_helper]); requests are guarded
      ([State.request_apply_guarded], [Handlers.apply_endpoint_spec],
      [Passes.interrupted_pass], also when reloads come between the steps of a pass); results are recorded once ([State.ingest_once]); the
      reachable update states satisfy an invariant ([State.reachable_sound]).
    - {e Files survive crashes}: [Store.save_crash_atomic],
      [Apply.write_atomic_crash_safe], [Store.change_durable],
      [Store.open_never_destroys]; the store refines an append-only log
      ([Store.store_refines_log]).
    - {e Configuration files}: what each document means, setting by setting, and
      which are refused ([Toml.config_meaning]); a written configuration is read back
      ([Toml.config_round_trip]); exactly the valid ones pass validation
      ([Config.validate_spec]).
    - {e Parsers and printers agree}: versions, clock times, durations, [date], apt
      simulations, query strings, os-release values, calendar dates.
    - {e The client asks first}: [Cli.apply_confirmed].
    - {e Drawing is exact and never out of bounds}: [Canvas.text_spec],
      [Canvas.blit_spec], [Boot.draw_spec], [Boot.screen_runs]. A drawing routine is
      described by what it does to each pixel ([Canvas.draws]), and routines compose.
    - {e Policy and reload}: [Schedule.permissions_spec], [Reload.reload_spec],
      [Reload.changes_complete]; [Reload.watch_spec] also shows that a hang-up signal
      never reloads.

    ** Bounds and fuel

    Symbolic links are followed at most 40 times, as Linux does. The fuel of
    [split_whitespace], [dec] and [chunks] is the length of the text, the number of
    bits of the number and the length of the list, which are enough since each step
    consumes one; the parsers of [Kit] and [KitToml] have twice the length of their text,
    and are only evaluated. The waiting loop of [Runner] needs [polls timeout] turns, one per
    50 ms of the timeout and two more ([Runner.run_terminates] proves it enough, and
    that more fuel changes nothing). Every other recursion is structural. The scheduler and the watch loop do not end: one pass,
    and any finite sequence of wake-ups, are modelled.

    ** What is not modelled

    The record a panic leaves besides those of its request, and those of a task that
    cannot be joined; the asynchronous runtime (the serving of a started daemon is a parameter of [Daemon.main]) and what
    [axum] does beyond the class [Axum], the texts of JSON and TOML and the wording of
    their errors, the client's argument parser, packaging, and the one test that needs
    a real [apt-get]. The threads of
    the boot screen are what they send for what they read ([Boot.kmsg_events],
    [Boot.fifo_events]). Sizes that overflow [usize] are written out where they come
    from outside ([Canvas.geometry]) and excluded in drawing. Operations interleave
    as [System] says: a check or a write is one step that a crash may cut, and a
    helper runs between the steps of the daemon, not inside them. Two writes of one
    file that alternate system call by system call are in [Race], not in [System],
    whose guarantees need writes that take turns. *)

From Stdlib Require Export Ascii.
From stdpp Require Export base tactics list strings gmap numbers option.
From Stdlib Require Export ZArith Lia.

#[global] Set Default Goal Selector "!".

(** A Rust [str]/[String] (or byte vector) is the list of its UTF-8 bytes; a
    string literal is coerced to it. *)
Abbreviation ascii := Ascii.ascii.
Abbreviation str := (list ascii).
Coercion String.list_ascii_of_string : string >-> list.

(** ** Fallible code: Rust's [Result]

    The error type comes first so that [result E] is a monad and stdpp's
    [x ← m; k] reads as Rust's [?]. *)

Inductive result (E A : Type) : Type :=
| Ok (a : A)
| Err (e : E).
Arguments Ok {E A} a.
Arguments Err {E A} e.

#[global] Instance result_ret E : MRet (result E) := fun A a => Ok a.
#[global] Instance result_bind E : MBind (result E) := fun A B f m =>
  match m with Ok a => f a | Err e => Err e end.
#[global] Instance result_fmap E : FMap (result E) := fun A B f m =>
  match m with Ok a => Ok (f a) | Err e => Err e end.
#[global] Instance result_eq_dec `{EqDecision E, EqDecision A} : EqDecision (result E A).
Proof. solve_decision. Defined.

(** [Result::map_err], [Result::ok], [Option::ok_or]. *)
Definition map_err {E F A} (f : E → F) (m : result E A) : result F A :=
  match m with Ok a => Ok a | Err e => Err (f e) end.
Definition ok {E A} (m : result E A) : option A :=
  match m with Ok a => Some a | Err _ => None end.
Definition ok_or {E A} (e : E) (o : option A) : result E A :=
  match o with Some a => Ok a | None => Err e end.
Definition is_ok {E A} (m : result E A) : bool :=
  match m with Ok _ => true | Err _ => false end.

(** ** Code that may panic

    [Panic] is an unwinding panic: an index or slice out of range. *)

Inductive outcome (A : Type) : Type :=
| Ret (a : A)
| Panic.
Arguments Ret {A} a.
Arguments Panic {A}.

#[global] Instance outcome_ret : MRet outcome := fun A a => Ret a.
#[global] Instance outcome_bind : MBind outcome := fun A B f m =>
  match m with Ret a => f a | Panic => Panic end.

(** [for a in l { .. }] over a state, where each step may panic. *)
Fixpoint for_each {A S} (f : A → S → outcome S) (l : list A) (s : S) : outcome S :=
  match l with [] => Ret s | a :: l => s ← f a s; for_each f l s end.

(** [slice::chunks]. *)
Fixpoint chunks_go {A} (fuel n : nat) (l : list A) : list (list A) :=
  match fuel, l with
  | O, _ | _, [] => []
  | S fuel, _ => take n l :: chunks_go fuel n (drop n l)
  end.
Definition chunks {A} (n : nat) (l : list A) : list (list A) := chunks_go (length l) n l.

(** ** Machine integers

    Unsigned values are [N]; [u64_max] and friends are the largest values of
    their types and [wrap64] is the wrap-around of release-mode arithmetic. *)

Definition u8_max : N := 255.
Definition u32_max : N := 4294967295.
Definition u64_max : N := 18446744073709551615.
Definition wrap64 (n : N) : N := (n mod 18446744073709551616)%N.

Lemma wrap64_small n : (n ≤ u64_max)%N → wrap64 n = n.
Proof. unfold wrap64, u64_max. intros. apply N.mod_small. lia. Qed.

(** ** Tactics *)

(** Split conjunctions and destruct booleans in hypotheses. *)
Ltac bool_norm :=
  repeat match goal with
  | H : andb _ _ = true |- _ => apply andb_true_iff in H; destruct H
  | H : orb _ _ = false |- _ => apply orb_false_iff in H; destruct H
  | H : negb _ = true |- _ => apply negb_true_iff in H
  | H : negb _ = false |- _ => apply negb_false_iff in H
  | H : bool_decide _ = true |- _ => apply bool_decide_eq_true_1 in H
  | H : bool_decide _ = false |- _ => apply bool_decide_eq_false_1 in H
  | H : (_ <=? _)%N = true |- _ => apply N.leb_le in H
  | H : (_ <=? _)%N = false |- _ => apply N.leb_gt in H
  | H : (_ <? _)%N = true |- _ => apply N.ltb_lt in H
  | H : (_ <? _)%N = false |- _ => apply N.ltb_ge in H
  | H : (_ =? _)%N = true |- _ => apply N.eqb_eq in H
  | H : (_ =? _)%N = false |- _ => apply N.eqb_neq in H
  | H : (_ =? _)%nat = true |- _ => apply Nat.eqb_eq in H
  | H : (_ =? _)%nat = false |- _ => apply Nat.eqb_neq in H
  | H : (_ <=? _)%nat = true |- _ => apply Nat.leb_le in H
  | H : (_ <=? _)%nat = false |- _ => apply Nat.leb_gt in H
  | H : (_ <? _)%nat = true |- _ => apply Nat.ltb_lt in H
  | H : (_ <? _)%nat = false |- _ => apply Nat.ltb_ge in H
  end.

(** Case split on the scrutinee of every match in the goal or a hypothesis,
    discarding the impossible branches. *)
Tactic Notation "split_matches" := repeat (case_match; simplify_eq/=; try done).

(** A closed decidable proposition, by computation. *)
Ltac by_eval :=
  match goal with |- ?P => apply (bool_decide_eq_true_1 P); vm_compute; reflexivity end.

Create HintDb abora discriminated.

(** ** Generic lemmas *)

Lemma forallb_app {A} (p : A → bool) l k :
  forallb p (l ++ k) = forallb p l && forallb p k.
Proof. induction l; simpl; [done|]. rewrite IHl. by rewrite andb_assoc. Qed.

Lemma forallb_elem {A} (p : A → bool) l x :
  forallb p l = true → x ∈ l → p x = true.
Proof. rewrite forallb_forall. intros H ?. apply H. by apply list_elem_of_In. Qed.

(** Consecutive slices of the same size cover a list. *)
Lemma concat_pages {A} (n k : nat) (m : list A) :
  0 < n → length m ≤ k * n →
  concat ((λ i, take n (drop (i * n) m)) <$> seq 0 k) = m.
Proof.
  intros Hn. revert m. induction k as [|k IH]; intros m Hm; simpl.
  - symmetry. apply nil_length_inv. lia.
  - rewrite drop_0, <-fmap_S_seq, <-list_fmap_compose.
    transitivity (take n m ++ drop n m); [|apply take_drop]. f_equal.
    rewrite <-(IH (drop n m)) by (rewrite length_drop; lia).
    f_equal. apply list_fmap_ext. intros _ i _. simpl. rewrite drop_drop. do 2 f_equal.
Qed.

Lemma foldl_ext {A B} (f g : B → A → B) l v :
  (∀ v a, f v a = g v a) → foldl f v l = foldl g v l.
Proof. intros Hfg. revert v. induction l as [|a l IH]; intros v; simpl; [done|]. by rewrite Hfg. Qed.

Lemma chunks_go_spec {A} fuel n (l : list A) :
  0 < n → length l ≤ fuel →
  concat (chunks_go fuel n l) = l ∧ Forall (λ c, length c ≤ n) (chunks_go fuel n l).
Proof.
  intros Hn. revert l. induction fuel as [|fuel IH]; intros l Hl.
  - by destruct l; [|simpl in Hl; lia].
  - destruct l as [|a l]; [done|]. cbn [chunks_go concat].
    destruct (IH (drop n (a :: l))) as [Hc Hf]; [rewrite length_drop; simpl in *; lia|]. split.
    + rewrite Hc. apply take_drop.
    + constructor; [rewrite length_take; lia|done].
Qed.

(** One element out of a list of which all have a property. *)
Lemma Forall_take_out {A} (P : A → Prop) (l k : list A) (x : A) :
  Forall P (l ++ x :: k) → P x ∧ Forall P (l ++ k).
Proof. rewrite !Forall_app, Forall_cons_iff. naive_solver. Qed.
