(* ===== verification/Str.v ===== *)
(** * Rust's [str] methods

    The part of the standard library's string API the framework uses, on the
    UTF-8 bytes of a string: ASCII predicates, trimming (Unicode white space),
    splitting, line iteration, integer parsing and decimal formatting, and the
    byte order of [String]. Predicates on [char]s that only hold of ASCII
    characters are predicates on bytes: every byte of a non-ASCII character is
    at least 128. *)

From S2P Require Import Prelude.
From stdpp Require Import sorting.

(** ** Bytes *)

Definition code (c : ascii) : N := Ascii.N_of_ascii c.
Definition chr (n : N) : ascii := Ascii.ascii_of_N n.

Definition in_range (lo hi : N) (c : ascii) : bool :=
  (lo <=? code c)%N && (code c <=? hi)%N.
Definition is_ascii_digit : ascii → bool := in_range 48 57.
Definition is_ascii_lowercase : ascii → bool := in_range 97 122.
Definition is_ascii_uppercase : ascii → bool := in_range 65 90.
Definition is_ascii_alphanumeric (c : ascii) : bool :=
  is_ascii_digit c || is_ascii_lowercase c || is_ascii_uppercase c.

Definition ascii_lower (c : ascii) : ascii :=
  if is_ascii_uppercase c then chr (code c + 32) else c.
Definition to_ascii_lowercase (s : str) : str := ascii_lower <$> s.
Definition eq_ignore_ascii_case (s t : str) : bool :=
  bool_decide (to_ascii_lowercase s = to_ascii_lowercase t).

(** [str::is_char_boundary]: the index is the end, or the byte there is not a
    UTF-8 continuation byte. *)
Definition is_char_boundary (s : str) (i : nat) : bool :=
  match s !! i with
  | Some c => negb (in_range 128 191 c)
  | None => (i =? length s)%nat
  end.

(** [&s[i..j]]: panics unless [i ≤ j ≤ len] and both are character boundaries. *)
Definition slice (s : str) (i j : nat) : outcome str :=
  if (i <=? j)%nat && (j <=? length s)%nat && is_char_boundary s i && is_char_boundary s j
  then Ret (take (j - i) (drop i s)) else Panic.

(** ** White space

    [char::is_whitespace]: the byte sequences of the characters with the
    Unicode property White_Space, of one, two and three bytes. *)

Definition ws1 (a : ascii) : bool := in_range 9 13 a || (code a =? 32)%N.
Definition ws2 (a b : ascii) : bool :=
  (code a =? 194)%N && ((code b =? 133)%N || (code b =? 160)%N).
Definition ws3 (a b c : ascii) : bool :=
  ((code a =? 225)%N && (code b =? 154)%N && (code c =? 128)%N)
  || ((code a =? 226)%N && (code b =? 128)%N &&
      (in_range 128 138 c || in_range 168 169 c || (code c =? 175)%N))
  || ((code a =? 226)%N && (code b =? 129)%N && (code c =? 159)%N)
  || ((code a =? 227)%N && (code b =? 128)%N && (code c =? 128)%N).

(** The rest after one leading white-space character, if there is one. *)
Definition strip_ws (s : str) : option str :=
  match s with
  | [] => None
  | a :: s1 =>
      if ws1 a then Some s1 else
      match s1 with
      | [] => None
      | b :: s2 =>
          if ws2 a b then Some s2 else
          match s2 with
          | c :: s3 => if ws3 a b c then Some s3 else None
          | [] => None
          end
      end
  end.

Fixpoint trim_start (s : str) : str :=
  match s with
  | [] => []
  | a :: s1 =>
      if ws1 a then trim_start s1 else
      match s1 with
      | [] => s
      | b :: s2 =>
          if ws2 a b then trim_start s2 else
          match s2 with
          | c :: s3 => if ws3 a b c then trim_start s3 else s
          | [] => s
          end
      end
  end.

(** The same from the end, on the reversed bytes. *)
Fixpoint trim_rev (s : str) : str :=
  match s with
  | [] => []
  | a :: s1 =>
      if ws1 a then trim_rev s1 else
      match s1 with
      | [] => s
      | b :: s2 =>
          if ws2 b a then trim_rev s2 else
          match s2 with
          | c :: s3 => if ws3 c b a then trim_rev s3 else s
          | [] => s
          end
      end
  end.

Definition trim_end (s : str) : str := rev (trim_rev (rev s)).
Definition trim (s : str) : str := trim_end (trim_start s).

(** [str::split_whitespace]: the maximal runs without white space. *)
Fixpoint split_whitespace_go (fuel : nat) (cur s : str) : list str :=
  let flush := match cur with [] => [] | _ => [rev cur] end in
  match fuel with
  | O => flush
  | S fuel =>
      match strip_ws s with
      | Some s' => flush ++ split_whitespace_go fuel [] s'
      | None =>
          match s with
          | [] => flush
          | c :: s' => split_whitespace_go fuel (c :: cur) s'
          end
      end
  end.
Definition split_whitespace (s : str) : list str := split_whitespace_go (S (length s)) [] s.

(** [char::is_whitespace] somewhere in the text. *)
Fixpoint any_whitespace (s : str) : bool :=
  match s with
  | [] => false
  | _ :: rest => match strip_ws s with Some _ => true | None => any_whitespace rest end
  end.

(** [std::str::from_utf8] accepts the bytes: no stray, missing or overlong
    sequence, no surrogate, nothing above U+10FFFF. *)
Definition is_cont (c : ascii) : bool := in_range 128 191 c.
Fixpoint valid_utf8 (s : str) : bool :=
  match s with
  | [] => true
  | a :: s1 =>
      if (code a <? 128)%N then valid_utf8 s1 else
      match s1 with
      | [] => false
      | b :: s2 =>
          if in_range 194 223 a then is_cont b && valid_utf8 s2 else
          match s2 with
          | [] => false
          | c :: s3 =>
              if in_range 224 239 a then
                (if (code a =? 224)%N then in_range 160 191 b
                 else if (code a =? 237)%N then in_range 128 159 b else is_cont b)
                && is_cont c && valid_utf8 s3
              else
              match s3 with
              | [] => false
              | d :: s4 =>
                  in_range 240 244 a
                  && (if (code a =? 240)%N then in_range 144 191 b
                      else if (code a =? 244)%N then in_range 128 143 b else is_cont b)
                  && is_cont c && is_cont d && valid_utf8 s4
              end
          end
      end
  end.

(** [String::from_utf8_lossy]: each maximal ill-formed part becomes U+FFFD. *)
Definition REPLACEMENT : str := [chr 239; chr 191; chr 189].
Definition second_ok (a b : ascii) : bool :=
  if (code a =? 224)%N then in_range 160 191 b
  else if (code a =? 237)%N then in_range 128 159 b
  else if (code a =? 240)%N then in_range 144 191 b
  else if (code a =? 244)%N then in_range 128 143 b
  else is_cont b.
Fixpoint utf8_lossy (s : str) : str :=
  match s with
  | [] => []
  | a :: s1 =>
      if (code a <? 128)%N then a :: utf8_lossy s1
      else if negb (in_range 194 244 a) then REPLACEMENT ++ utf8_lossy s1
      else
        match s1 with
        | [] => REPLACEMENT
        | b :: s2 =>
            if negb (second_ok a b) then REPLACEMENT ++ utf8_lossy s1
            else if in_range 194 223 a then a :: b :: utf8_lossy s2
            else
              match s2 with
              | [] => REPLACEMENT
              | c :: s3 =>
                  if negb (is_cont c) then REPLACEMENT ++ utf8_lossy s2
                  else if in_range 224 239 a then a :: b :: c :: utf8_lossy s3
                  else
                    match s3 with
                    | [] => REPLACEMENT
                    | d :: s4 =>
                        if is_cont d then a :: b :: c :: d :: utf8_lossy s4
                        else REPLACEMENT ++ utf8_lossy s3
                    end
              end
        end
  end.

(** [str::chars] of valid text: its code points. *)
Definition low6 (c : ascii) : N := (code c mod 64)%N.
Fixpoint chars (s : str) : list N :=
  match s with
  | [] => []
  | a :: s1 =>
      if (code a <? 128)%N then code a :: chars s1 else
      match s1 with
      | [] => []
      | b :: s2 =>
          if (code a <? 224)%N then (code a mod 32 * 64 + low6 b)%N :: chars s2 else
          match s2 with
          | [] => []
          | c :: s3 =>
              if (code a <? 240)%N then (code a mod 16 * 4096 + low6 b * 64 + low6 c)%N :: chars s3 else
              match s3 with
              | [] => []
              | d :: s4 =>
                  (code a mod 8 * 262144 + low6 b * 4096 + low6 c * 64 + low6 d)%N :: chars s4
              end
          end
      end
  end.

(** ** Searching and splitting *)

Fixpoint strip_prefix (p s : str) : option str :=
  match p with
  | [] => Some s
  | a :: p' =>
      match s with
      | b :: s' => if decide (a = b) then strip_prefix p' s' else None
      | [] => None
      end
  end.
Definition starts_with (p s : str) : bool :=
  match strip_prefix p s with Some _ => true | None => false end.
Definition ends_with (p s : str) : bool := starts_with (rev p) (rev s).

(** [str::find] of a substring: the first byte index where it occurs. *)
Fixpoint find_str (p s : str) : option nat :=
  if starts_with p s then Some 0 else
  match s with
  | [] => None
  | _ :: s' => S <$> find_str p s'
  end.
Definition contains (p s : str) : bool :=
  match find_str p s with Some _ => true | None => false end.

(** [str::find] of a [char] predicate that holds of every non-ASCII character
    or of none. *)
Fixpoint find_char (p : ascii → bool) (s : str) : option nat :=
  match s with
  | [] => None
  | c :: s' => if p c then Some 0 else S <$> find_char p s'
  end.

Fixpoint split_once (c : ascii) (s : str) : option (str * str) :=
  match s with
  | [] => None
  | a :: s' =>
      if decide (a = c) then Some ([], s')
      else '(l, r) ← split_once c s'; Some (a :: l, r)
  end.

(** [str::split]: never empty. *)
Fixpoint split (p : ascii → bool) (s : str) : list str :=
  match s with
  | [] => [[]]
  | a :: s' =>
      if p a then [] :: split p s'
      else match split p s' with
           | w :: ws => (a :: w) :: ws
           | [] => [[a]]
           end
  end.
Definition is_char (c a : ascii) : bool := bool_decide (a = c).

Definition LF : ascii := "010"%char.
Definition CR : ascii := "013"%char.

Definition strip_cr (s : str) : str :=
  match rev s with c :: r => if decide (c = CR) then rev r else s | [] => s end.
Fixpoint lines_go (cur s : str) : list str :=
  match s with
  | [] => match cur with [] => [] | _ => [rev cur] end
  | c :: s' =>
      if decide (c = LF) then strip_cr (rev cur) :: lines_go [] s'
      else lines_go (c :: cur) s'
  end.
(** [str::lines]. *)
Definition lines (s : str) : list str := lines_go [] s.

Fixpoint join (sep : str) (l : list str) : str :=
  match l with
  | [] => []
  | [x] => x
  | x :: l' => x ++ sep ++ join sep l'
  end.

Fixpoint trim_start_char (c : ascii) (s : str) : str :=
  match s with
  | [] => []
  | a :: s' => if decide (a = c) then trim_start_char c s' else s
  end.
Definition trim_end_char (c : ascii) (s : str) : str := rev (trim_start_char c (rev s)).

(** ** Integers *)

Definition digit_val (c : ascii) : option N :=
  if is_ascii_digit c then Some (code c - 48)%N else None.

Fixpoint digits_val (acc : N) (s : str) : option N :=
  match s with
  | [] => Some acc
  | c :: s' => d ← digit_val c; digits_val (10 * acc + d)%N s'
  end.

(** [s.parse::<uN>()] for the unsigned type whose largest value is [max]: an
    optional [+], at least one digit, no overflow. *)
Definition parse_uint (max : N) (s : str) : option N :=
  let ds := match s with
            | c :: s' => if decide (c = "+"%char) then s' else s
            | [] => []
            end in
  match ds with
  | [] => None
  | _ => n ← digits_val 0 ds; if (n <=? max)%N then Some n else None
  end.

Definition digit (n : N) : ascii := chr (48 + n).
Fixpoint dec_go (fuel : nat) (n : N) (acc : str) : str :=
  let acc' := digit (n mod 10) :: acc in
  match fuel with
  | O => acc'
  | S fuel => if (n <? 10)%N then acc' else dec_go fuel (n / 10) acc'
  end.
(** [format!("{n}")]. *)
Definition dec (n : N) : str := dec_go (N.to_nat (N.size n)) n [].
Definition dec_nat (n : nat) : str := dec (N.of_nat n).

(** [{:>w}] and [{:0w}]: padded on the left to at least [w] bytes. *)
Definition pad_left (c : ascii) (w : nat) (s : str) : str := replicate (w - length s) c ++ s.

(** ** The order of [String] *)

Fixpoint str_leb (s t : str) : bool :=
  match s, t with
  | [], _ => true
  | _ :: _, [] => false
  | a :: s', b :: t' =>
      if decide (a = b) then str_leb s' t' else (code a <? code b)%N
  end.
Definition str_le (s t : str) : Prop := str_leb s t = true.
#[global] Instance str_le_dec : RelDecision str_le.
Proof. intros s t. unfold str_le. apply _. Defined.

(** [Vec::sort] and [Vec::dedup]. *)
Definition sort_str (l : list str) : list str := merge_sort str_le l.
Fixpoint dedup (l : list str) : list str :=
  match l with
  | [] => []
  | x :: l' =>
      match l' with
      | y :: _ => if decide (x = y) then dedup l' else x :: dedup l'
      | [] => [x]
      end
  end.

(** ** Lemmas *)

Lemma strip_prefix_Some p s r : strip_prefix p s = Some r ↔ s = p ++ r.
Proof.
  revert s. induction p as [|a p IH]; intros s; simpl.
  - split; [by intros [= ->]|by intros ->].
  - destruct s as [|b s]; [done|]. case_decide as Hab.
    + subst. rewrite IH. split; [by intros ->|by intros [= ->]].
    + split; [done|]. by intros [= ].
Qed.

Lemma strip_prefix_app p r : strip_prefix p (p ++ r) = Some r.
Proof. by apply strip_prefix_Some. Qed.

Lemma starts_with_spec p s : starts_with p s = true ↔ ∃ r, s = p ++ r.
Proof.
  unfold starts_with. destruct (strip_prefix p s) as [r|] eqn:H.
  - apply strip_prefix_Some in H. split; eauto.
  - split; [done|]. intros [r ->]. by rewrite strip_prefix_app in H.
Qed.

Lemma starts_with_app p r : starts_with p (p ++ r) = true.
Proof. apply starts_with_spec. eauto. Qed.

Lemma split_once_Some c s l r :
  split_once c s = Some (l, r) ↔ s = l ++ c :: r ∧ c ∉ l.
Proof.
  revert l r. induction s as [|a s IH]; intros l r; simpl.
  { split; [done|]. by intros [?%app_cons_not_nil ?]. }
  case_decide as Hac.
  - subst. split.
    + intros [= <- <-]. split; [done|]. apply not_elem_of_nil.
    + intros [Heq Hin]. destruct l as [|x l]; simplify_eq/=; [done|]. set_solver.
  - destruct (split_once c s) as [[l' r']|] eqn:H; simpl.
    + destruct (proj1 (IH l' r') eq_refl) as [-> Hin].
      split.
      * intros [= <- <-]. split; [done|]. set_solver.
      * intros [Heq Hin']. destruct l as [|x l]; simplify_eq/=.
        assert (Some (l', r') = Some (l, r)) as [= -> ->]; [|done].
        apply IH. split; [done|]. set_solver.
    + split; [done|]. intros [Heq Hin']. destruct l as [|x l]; simplify_eq/=.
      assert (@None (str * str) = Some (l, r)); [|done].
      apply IH. split; [done|]. set_solver.
Qed.

Lemma split_once_app c l r : c ∉ l → split_once c (l ++ c :: r) = Some (l, r).
Proof. intros. by apply split_once_Some. Qed.

Lemma split_once_None c s : split_once c s = None ↔ c ∉ s.
Proof.
  split.
  - intros H Hin. apply list_elem_of_split in Hin as (l & r & ->).
    revert H. induction l as [|a l IH]; simpl; [by rewrite decide_True|].
    case_decide; [done|]. destruct (split_once c _) as [[]|]; [done|auto].
  - intros H. destruct (split_once c s) as [[l r]|] eqn:E; [|done].
    apply split_once_Some in E as [-> _]. set_solver.
Qed.

(** A separator outside a class of characters does not occur in a word of it. *)
Lemma forallb_not_elem (p : ascii → bool) s c :
  forallb p s = true → p c = false → c ∉ s.
Proof. intros H Hc Hin. by rewrite (forallb_elem _ _ _ H Hin) in Hc. Qed.

Lemma split_no_sep p s : (∀ c, c ∈ s → p c = false) → split p s = [s].
Proof.
  induction s as [|a s IH]; intros H; simpl; [done|].
  rewrite H by set_solver. rewrite IH; [done|]. set_solver.
Qed.

Lemma split_cons p s c t :
  (∀ a, a ∈ s → p a = false) → p c = true → split p (s ++ c :: t) = s :: split p t.
Proof.
  induction s as [|a s IH]; intros H Hc; simpl; [by rewrite Hc|].
  rewrite H by set_solver. rewrite IH; [done|set_solver|done].
Qed.

Lemma split_non_nil p s : split p s ≠ [].
Proof.
  induction s as [|a s IH]; simpl; [done|].
  destruct (p a); [done|]. by destruct (split p s).
Qed.

Lemma is_char_spec c a : is_char c a = true ↔ a = c.
Proof. apply bool_decide_eq_true. Qed.

(** The words found by [split] contain no separator. *)
Lemma split_no_seps p s w c : w ∈ split p s → c ∈ w → p c = false.
Proof.
  revert w. induction s as [|a s IH]; simpl; intros w Hw Hc.
  { apply list_elem_of_singleton in Hw as ->. by apply elem_of_nil in Hc. }
  destruct (p a) eqn:Ha.
  { apply elem_of_cons in Hw as [->|Hw]; [by apply elem_of_nil in Hc|by eapply IH]. }
  destruct (split p s) as [|w' ws] eqn:E; [by destruct (split_non_nil p s)|].
  apply elem_of_cons in Hw as [->|Hw].
  - apply elem_of_cons in Hc as [->|Hc]; [done|]. apply (IH w'); set_solver.
  - apply (IH w); set_solver.
Qed.

(** *** Decimal numbers *)

Lemma code_chr n : (n < 256)%N → code (chr n) = n.
Proof. unfold code, chr. by apply N_ascii_embedding. Qed.

Lemma chr_code c : chr (code c) = c.
Proof. apply ascii_N_embedding. Qed.

Lemma code_bound c : (code c < 256)%N.
Proof. apply N_ascii_bounded. Qed.

Lemma in_range_spec lo hi c :
  in_range lo hi c = true ↔ (lo ≤ code c ≤ hi)%N.
Proof. unfold in_range. rewrite andb_true_iff, !N.leb_le. done. Qed.

Lemma digit_is_digit n : (n < 10)%N → is_ascii_digit (digit n) = true.
Proof.
  intros. apply in_range_spec. unfold digit. rewrite code_chr by lia. lia.
Qed.

Lemma digit_val_digit n : (n < 10)%N → digit_val (digit n) = Some n.
Proof.
  intros H. unfold digit_val. rewrite digit_is_digit by done.
  unfold digit. rewrite code_chr by lia. f_equal. lia.
Qed.

Lemma dec_go_digits f n acc :
  forallb is_ascii_digit acc = true → forallb is_ascii_digit (dec_go f n acc) = true.
Proof.
  revert n acc. induction f as [|f IH]; intros n acc H;
    assert (is_ascii_digit (digit (n mod 10)) = true)
      by (apply digit_is_digit, N.mod_lt; done); simpl.
  - by rewrite H0.
  - case_match; simpl; [by rewrite H0|]. apply IH. simpl. by rewrite H0.
Qed.

Lemma dec_digits n : forallb is_ascii_digit (dec n) = true.
Proof. by apply dec_go_digits. Qed.

Lemma dec_go_val f n acc a :
  (n < 10 ^ N.of_nat (S f))%N →
  ∃ k, digits_val a (dec_go f n acc) = digits_val (a * 10 ^ k + n)%N acc ∧ (0 < k)%N.
Proof.
  revert n acc. induction f as [|f IH]; intros n acc Hn.
  - exists 1%N. simpl. rewrite digit_val_digit by (apply N.mod_lt; done). simpl.
    rewrite N.mod_small by lia. split; [|lia]. f_equal. lia.
  - simpl. case_match; bool_norm.
    + exists 1%N. simpl. rewrite digit_val_digit by (apply N.mod_lt; done). simpl.
      rewrite N.mod_small by lia. split; [|lia]. f_equal. lia.
    + destruct (IH (n / 10)%N (digit (n mod 10) :: acc)) as (k & Hk & ?).
      { apply N.Div0.div_lt_upper_bound.
        rewrite Nat2N.inj_succ, N.pow_succ_r' in Hn. done. }
      exists (N.succ k). split; [|lia]. rewrite Hk. simpl.
      rewrite digit_val_digit by (apply N.mod_lt; done). simpl. f_equal.
      rewrite N.pow_succ_r'. pose proof (N.div_mod' n 10). lia.
Qed.

Lemma dec_fuel n : (n < 10 ^ N.of_nat (S (N.to_nat (N.size n))))%N.
Proof.
  rewrite Nat2N.inj_succ, N2Nat.id.
  pose proof (N.size_gt n).
  assert (2 ^ N.size n ≤ 10 ^ N.size n)%N by (apply N.pow_le_mono_l; lia).
  rewrite N.pow_succ_r'. lia.
Qed.

Lemma dec_val n : digits_val 0 (dec n) = Some n.
Proof.
  unfold dec. destruct (dec_go_val _ n [] 0 (dec_fuel n)) as (k & -> & _).
  simpl. f_equal. 
Qed.

Lemma dec_go_non_nil f n acc : dec_go f n acc ≠ [].
Proof.
  revert n acc. induction f as [|f IH]; intros n acc; simpl; [done|].
  case_match; [done|]. apply IH.
Qed.

Lemma dec_non_nil n : dec n ≠ [].
Proof. apply dec_go_non_nil. Qed.

Lemma parse_uint_dec max n : (n ≤ max)%N → parse_uint max (dec n) = Some n.
Proof.
  intros H. unfold parse_uint.
  pose proof (dec_digits n) as Hd. pose proof (dec_val n) as Hv.
  pose proof (dec_non_nil n) as Hn.
  destruct (dec n) as [|c s] eqn:E; [done|].
  rewrite decide_False.
  - rewrite Hv. simpl. by rewrite (proj2 (N.leb_le _ _) H).
  - intros ->. done.
Qed.

Lemma parse_uint_le max s n : parse_uint max s = Some n → (n ≤ max)%N.
Proof.
  unfold parse_uint. intros H. case_match; [done|].
  destruct (digits_val _ _); simplify_eq/=. case_match eqn:E; simplify_eq. by apply N.leb_le in E.
Qed.

#[global] Instance dec_inj : Inj (=) (=) dec.
Proof. intros n m H. pose proof (dec_val n). pose proof (dec_val m). congruence. Qed.

(** On a word of digits [parse] fails only by overflow. *)
Lemma digits_val_Some a s : forallb is_ascii_digit s = true → is_Some (digits_val a s).
Proof.
  revert a. induction s as [|c s IH]; intros a; simpl; [eauto|].
  intros. bool_norm. unfold digit_val. rewrite H. simpl. auto.
Qed.

(** *** Sorting *)

#[global] Instance str_le_trans : Transitive str_le.
Proof.
  unfold str_le. intros s. induction s as [|a s IH]; intros [|b t] [|c u]; simpl; try done.
  repeat case_decide; subst; try done; rewrite ?N.ltb_lt; [by apply IH|lia..].
Qed.

Lemma str_leb_total s t : str_leb s t = true ∨ str_leb t s = true.
Proof.
  revert t. induction s as [|a s IH]; intros [|b t]; simpl; auto.
  destruct (decide (a = b)) as [->|Hab]; [rewrite decide_True by done; apply IH|].
  rewrite decide_False by congruence.
  rewrite !N.ltb_lt. destruct (N.lt_trichotomy (code a) (code b)) as [|[E|]]; auto.
  destruct Hab. by rewrite <-(chr_code a), E, chr_code.
Qed.

#[global] Instance str_le_total : Total str_le.
Proof. intros s t. apply str_leb_total. Qed.

#[global] Instance str_le_antisymm : AntiSymm (=) str_le.
Proof.
  unfold str_le. intros s. induction s as [|a s IH]; intros [|b t]; simpl; try done.
  repeat case_decide; subst; try done.
  - intros. f_equal. by apply IH.
  - rewrite !N.ltb_lt. intros. exfalso. lia.
Qed.

Lemma sort_str_Sorted l : Sorted str_le (sort_str l).
Proof. apply (Sorted_merge_sort str_le). Qed.

Lemma sort_str_Permutation l : sort_str l ≡ₚ l.
Proof. apply merge_sort_Permutation. Qed.

Lemma elem_of_dedup x l : x ∈ dedup l ↔ x ∈ l.
Proof.
  induction l as [|y l IH]; simpl; [done|].
  destruct l as [|z l]; [done|]. case_decide; set_solver.
Qed.

Lemma dedup_NoDup l : Sorted str_le l → NoDup (dedup l).
Proof.
  intros Hs. apply (Sorted_StronglySorted str_le) in Hs.
  induction Hs as [|x l Hs IH Hx]; simpl; [constructor|].
  destruct l as [|y l]; [apply NoDup_singleton|]. case_decide; [done|].
  constructor; [|done]. rewrite elem_of_dedup. intros Hin.
  apply elem_of_cons in Hin as [->|Hin]; [done|].
  destruct H. apply (anti_symm str_le).
  - rewrite Forall_forall in Hx. apply Hx. set_solver.
  - inversion Hs as [|?? _ Hy]; subst. rewrite Forall_forall in Hy. by apply Hy.
Qed.

Lemma dedup_Sorted l : Sorted str_le l → Sorted str_le (dedup l).
Proof.
  intros Hs. apply StronglySorted_Sorted. apply (Sorted_StronglySorted str_le) in Hs.
  induction Hs as [|x l Hs IH Hx]; simpl; [constructor|].
  destruct l as [|y l]; [repeat constructor|]. case_decide; [done|].
  constructor; [done|]. rewrite Forall_forall in *. intros z Hz. apply Hx. by apply elem_of_dedup.
Qed.

Lemma length_dedup l : length (dedup l) ≤ length l.
Proof.
  induction l as [|x l IH]; simpl; [lia|].
  destruct l as [|y l]; [done|]. case_decide; simpl in *; lia.
Qed.

(** Splitting at one character and joining with it is the identity. *)
Lemma split_join c s : join [c] (split (is_char c) s) = s.
Proof.
  induction s as [|a s IH]; [done|]. cbn [split].
  destruct (is_char c a) eqn:Ha.
  - apply is_char_spec in Ha as ->.
    destruct (split (is_char c) s) as [|w ws] eqn:E; [by destruct (split_non_nil (is_char c) s)|].
    by rewrite <-IH.
  - destruct (split (is_char c) s) as [|w ws] eqn:E; [by destruct (split_non_nil (is_char c) s)|].
    rewrite <-IH. by destruct ws.
Qed.

(** Joining words without the separator and splitting gives them back. *)
Lemma split_of_join c ws :
  ws ≠ [] → (∀ w, w ∈ ws → c ∉ w) → split (is_char c) (join [c] ws) = ws.
Proof.
  assert (Hc : ∀ w : str, c ∉ w → ∀ a, a ∈ w → is_char c a = false).
  { intros w Hw a Ha. destruct (is_char c a) eqn:E; [|done].
    apply is_char_spec in E as ->. done. }
  induction ws as [|w ws IH]; intros Hn Hw; [done|].
  destruct ws as [|w' ws].
  - simpl. apply split_no_sep, Hc, Hw. set_solver.
  - change (join [c] (w :: w' :: ws)) with (w ++ c :: join [c] (w' :: ws)).
    rewrite split_cons; [|apply Hc, Hw; set_solver|by apply is_char_spec].
    f_equal. apply IH; [done|]. set_solver.
Qed.

(** ** Trimming text that does not start or end in white space *)

(** A visible ASCII character. *)
Definition is_graphic (c : ascii) : bool := in_range 33 126 c.

Lemma graphic_not_ws a b c :
  is_graphic a = true →
  ws1 a = false ∧ ws2 a b = false ∧ ws3 a b c = false ∧ ws2 b a = false ∧ ws3 b c a = false.
Proof.
  unfold is_graphic. rewrite in_range_spec. intros Ha. unfold ws1, ws2, ws3, in_range.
  assert (H : ∀ n, (128 ≤ n)%N → (code a =? n)%N = false) by (intros; apply N.eqb_neq; lia).
  assert (H' : ∀ n, (128 ≤ n)%N → (n <=? code a)%N = false) by (intros; apply N.leb_gt; lia).
  rewrite !(H 194%N), !(H 225%N), !(H 226%N), !(H 227%N), !(H 133%N), !(H 160%N), !(H 128%N),
    !(H 175%N), !(H 159%N), !(H' 128%N), !(H' 168%N) by lia.
  rewrite (proj2 (N.eqb_neq (code a) 32)) by lia.
  rewrite (proj2 (N.leb_gt (code a) 13)) by lia.
  simpl. rewrite !andb_false_r. by destruct (9 <=? code a)%N.
Qed.

Lemma trim_start_id a s : is_graphic a = true → trim_start (a :: s) = a :: s.
Proof.
  intros Ha. simpl. destruct (graphic_not_ws a a a Ha) as (-> & _).
  destruct s as [|b s]; [done|]. destruct (graphic_not_ws a b a Ha) as (_ & -> & _).
  destruct s as [|c s]; [done|]. by destruct (graphic_not_ws a b c Ha) as (_ & _ & -> & _).
Qed.

Lemma trim_rev_id a s : is_graphic a = true → trim_rev (a :: s) = a :: s.
Proof.
  intros Ha. simpl. destruct (graphic_not_ws a a a Ha) as (-> & _).
  destruct s as [|b s]; [done|]. destruct (graphic_not_ws a b a Ha) as (_ & _ & _ & -> & _).
  destruct s as [|c s]; [done|]. by destruct (graphic_not_ws a c b Ha) as (_ & _ & _ & _ & ->).
Qed.

Lemma trim_end_id s a : is_graphic a = true → trim_end (s ++ [a]) = s ++ [a].
Proof.
  intros Ha. unfold trim_end. rewrite rev_unit, trim_rev_id by done. simpl. by rewrite rev_involutive.
Qed.

(** Text between two visible characters (possibly the same one) is trimmed. *)
Lemma trim_id s :
  (∃ a r, s = a :: r ∧ is_graphic a = true) → (∃ r a, s = r ++ [a] ∧ is_graphic a = true) →
  trim s = s.
Proof.
  intros (a & r & -> & Ha) (r' & b & Hs & Hb). unfold trim.
  rewrite trim_start_id, Hs by done. by apply trim_end_id.
Qed.

Lemma trim_graphic s : forallb is_graphic s = true → trim s = s.
Proof.
  destruct s as [|a s]; [done|]. intros H. apply trim_id.
  - simpl in H. bool_norm. by exists a, s.
  - destruct (exists_last (l := a :: s)) as (r & b & E); [done|].
    exists r, b. split; [done|]. rewrite E in H. rewrite forallb_app in H. simpl in H. by bool_norm.
Qed.

Lemma digit_graphic c : is_ascii_digit c = true → is_graphic c = true.
Proof. unfold is_ascii_digit, is_graphic. rewrite !in_range_spec. lia. Qed.

Lemma forallb_impl {A} (p q : A → bool) l :
  (∀ x, p x = true → q x = true) → forallb p l = true → forallb q l = true.
Proof. rewrite !forallb_forall. auto. Qed.

Lemma parse_uint_dec_any max n :
  parse_uint max (dec n) = if (max <? n)%N then None else Some n.
Proof.
  destruct (max <? n)%N eqn:E; bool_norm; [|by apply parse_uint_dec].
  destruct (parse_uint max (dec n)) as [k|] eqn:Ek; [|done].
  pose proof (parse_uint_le _ _ _ Ek). unfold parse_uint in Ek.
  pose proof (dec_digits n) as Hd. pose proof (dec_val n) as Hv.
  destruct (dec n) as [|c s] eqn:En; [by apply dec_non_nil in En|].
  rewrite decide_False in Ek by by intros ->. rewrite Hv in Ek. simpl in Ek.
  case_match; simplify_eq. bool_norm. lia.
Qed.

Lemma find_char_app p s c r :
  forallb (λ a, negb (p a)) s = true → p c = true → find_char p (s ++ c :: r) = Some (length s).
Proof.
  induction s as [|a s IH]; simpl; intros Hs Hc; [by rewrite Hc|].
  bool_norm. destruct (p a); [done|]. by rewrite IH.
Qed.

(** ** Lines *)

(** Lines, each ended by a line feed. *)
Definition unlines (ls : list str) : str := concat ((λ l, l ++ [LF]) <$> ls).

(** A line as it can be read back: no line feed, no trailing carriage return. *)
Definition clean_line (l : str) : Prop := (LF ∉ l) ∧ ∀ r, l ≠ r ++ [CR].

Lemma lines_go_app cur l s :
  LF ∉ l → lines_go cur (l ++ LF :: s) = strip_cr (rev cur ++ l) :: lines_go [] s.
Proof.
  revert cur. induction l as [|c l IH]; intros cur Hl; simpl.
  - by rewrite app_nil_r.
  - rewrite decide_False by (intros ->; apply Hl; left).
    rewrite IH by (intros Hin; apply Hl; by right). simpl. by rewrite <-app_assoc.
Qed.

Lemma strip_cr_clean l : (∀ r, l ≠ r ++ [CR]) → strip_cr l = l.
Proof.
  intros Hc. unfold strip_cr. destruct (rev l) as [|c r] eqn:E; [done|].
  case_decide; [|done]. subst c. exfalso. apply (Hc (rev r)).
  by rewrite <-(rev_involutive l), E.
Qed.

Lemma lines_unlines ls : Forall clean_line ls → lines (unlines ls) = ls.
Proof.
  unfold lines. induction 1 as [|l ls [Hl Hc] _ IH]; [done|].
  unfold unlines in *. simpl. rewrite <-app_assoc. simpl.
  rewrite lines_go_app by done. simpl. rewrite strip_cr_clean by done. by f_equal.
Qed.

Lemma clean_line_eval l : (LF ∉ l) ∧ last l ≠ Some CR → clean_line l.
Proof. intros [H1 H2]. split; [done|]. intros r ->. by rewrite last_snoc in H2. Qed.

(** ASCII text can be sliced anywhere. *)
Definition is_ascii (c : ascii) : bool := (code c <? 128)%N.

Lemma ascii_boundary s i : forallb is_ascii s = true → i ≤ length s → is_char_boundary s i = true.
Proof.
  intros Hs Hi. unfold is_char_boundary. destruct (s !! i) as [c|] eqn:E.
  - apply list_elem_of_lookup_2 in E. apply (forallb_elem _ _ _ Hs) in E.
    unfold is_ascii in E. unfold in_range. bool_norm. by rewrite (proj2 (N.leb_gt 128 (code c))).
  - apply lookup_ge_None_1 in E. apply Nat.eqb_eq. lia.
Qed.

Lemma slice_ascii s i j :
  forallb is_ascii s = true → i ≤ j → j ≤ length s → slice s i j = Ret (take (j - i) (drop i s)).
Proof.
  intros Hs Hi Hj. unfold slice. rewrite !ascii_boundary by (done || lia).
  by rewrite (proj2 (Nat.leb_le _ _) Hi), (proj2 (Nat.leb_le _ _) Hj).
Qed.
