(* ===== verification/World.v ===== *)
(** * The operating system: files, commands and clocks

    The effects the framework has on its host, as a state monad. A [world]
    holds the files by path, the number of system calls made so far and the
    trace of everything visible from outside: each file-system state passed
    through and each program run. What the host answers is an [Env]: any
    system call may fail, a command may answer anything and change any file.
    Theorems quantify over every [Env]. *)

From S2P Require Import Prelude Str.

(** ** Paths (std::path on Unix) *)

Definition slash : ascii := "/"%char.

(** The components of a path below its root: empty components and [.] are
    skipped, but a leading [.] of a relative path is kept. *)
Definition raw_components (p : str) : list str :=
  match split (is_char slash) p with
  | w :: ws =>
      (if decide (w = []) then [] else [w])
      ++ filter (λ x, x ≠ [] ∧ x ≠ ("." : str)) ws
  | [] => []
  end.
Definition is_absolute (p : str) : bool := starts_with "/" p.

(** [Path::parent], as the normalised text of the parent. *)
Definition parent (p : str) : option str :=
  match rev (raw_components p) with
  | [] => None
  | _ :: r =>
      let dir := join [slash] (rev r) in
      Some (if is_absolute p then slash :: dir else dir)
  end.

(** [PathBuf::join] with a relative file name. *)
Definition join_path (p name : str) : str :=
  match p with
  | [] => name
  | _ => if decide (List.last p slash = slash) then p ++ name else p ++ [slash] ++ name
  end.

(** ** State *)

Inductive node :=
| Regular (bytes : str) (mode : N) (mtime : N)
| Symlink (target : str)
| Directory.
#[global] Instance node_eq_dec : EqDecision node.
Proof. solve_decision. Defined.

(** The instances are named, so that no other is ever inferred. *)
Abbreviation files_t :=
  (@gmap (list ascii) (@list.list_eq_dec ascii Ascii.eq_dec)
         (@list_countable ascii Ascii.eq_dec Ascii.countable) node).

Inductive event :=
| Touched (after : files_t)
| Ran (program : str) (args : list str).

Record world := mkWorld {
  files : files_t;
  calls : nat;
  trace : list event;   (* newest first *)
}.

Inductive error_kind := NotFound | OtherError.
#[global] Instance error_kind_eq_dec : EqDecision error_kind.
Proof. solve_decision. Defined.
Record io_error := mkIoError { kind : error_kind; io_message : str }.
#[global] Instance io_error_eq_dec : EqDecision io_error.
Proof. solve_decision. Defined.

Definition enoent : io_error := mkIoError NotFound "No such file or directory (os error 2)".
Definition eisdir : io_error := mkIoError OtherError "Is a directory (os error 21)".
Definition eloop : io_error := mkIoError OtherError "Too many levels of symbolic links (os error 40)".
Definition enotdir : io_error := mkIoError OtherError "File exists (os error 17)".

(** How running a program ends, as the caller sees it: it never started, it was
    killed by the caller's timeout, or it exited with some output. *)
Inductive process_end :=
| SpawnFailed (e : str)
| WaitFailed (e : str)
| TimedOut
| Exited (success : bool) (status : str) (stdout stderr : str).

(** What the host does at its [n]-th call. Times are nanoseconds since the
    epoch. A failing write has written [short n] bytes. *)
Class Env := {
  io_fault : nat → option io_error;
  short : nat → nat;
  command_end : nat → str → list str → process_end;
  command_effect : nat → str → list str → files_t → files_t;
  system_time : nat → N;
  umask : N;
}.

(** ** The monad *)

Definition io (A : Type) : Type := world → A * world.
#[global] Instance io_ret : MRet io := fun A a w => (a, w).
#[global] Instance io_bind : MBind io := fun A B f m w => let '(a, w') := m w in f a w'.

(** [m?] for an effectful fallible computation. *)
Definition try {E A B} (m : io (result E A)) (f : A → io (result E B)) : io (result E B) :=
  r ← m; match r with Ok a => f a | Err e => mret (Err e) end.

(** The final path after following symbolic links (at most 40, as Linux does). *)
Fixpoint resolve_go (fuel : nat) (fs : files_t) (p : str) : option str :=
  match fs !! p with
  | Some (Symlink t) => match fuel with O => None | S fuel => resolve_go fuel fs t end
  | _ => Some p
  end.
Definition resolve (fs : files_t) (p : str) : option str := resolve_go 40 fs p.

Section with_env.
Context {env : Env}.

(** One system call: it counts, and the host may make it fail. *)
Definition syscall {A} (f : files_t → result io_error A) : io (result io_error A) :=
  λ w, (match io_fault (calls w) with Some e => Err e | None => f (files w) end,
        mkWorld (files w) (S (calls w)) (trace w)).

(** A call that changes files; [f] also sees the call number. *)
Definition syscall_write (on_fault : nat → files_t → files_t)
    (f : nat → files_t → result io_error files_t) : io (result io_error ()) :=
  λ w,
    let n := calls w in
    match io_fault n with
    | Some e => (Err e, mkWorld (on_fault n (files w)) (S n) (Touched (on_fault n (files w)) :: trace w))
    | None =>
        match f n (files w) with
        | Ok fs => (Ok (), mkWorld fs (S n) (Touched fs :: trace w))
        | Err e => (Err e, mkWorld (files w) (S n) (trace w))
        end
    end.

(** [std::fs::read]. *)
Definition fs_read (p : str) : io (result io_error str) :=
  syscall (λ fs,
    match resolve fs p with
    | None => Err eloop
    | Some q =>
        match fs !! q with
        | Some (Regular bytes _ _) => Ok bytes
        | Some _ => Err eisdir
        | None => Err enoent
        end
    end).

(** [std::fs::read_to_string]. *)
Definition not_utf8 : io_error := mkIoError OtherError "stream did not contain valid UTF-8".
Definition fs_read_to_string (p : str) : io (result io_error str) :=
  try (fs_read p) (λ bytes, mret (if valid_utf8 bytes then Ok bytes else Err not_utf8)).

(** [std::fs::symlink_metadata]: the node itself. *)
Definition symlink_metadata (p : str) : io (result io_error node) :=
  syscall (λ fs, match fs !! p with Some n => Ok n | None => Err enoent end).

(** [std::fs::metadata]: the node after following links. *)
Definition metadata (p : str) : io (result io_error node) :=
  syscall (λ fs,
    match resolve fs p with
    | None => Err eloop
    | Some q => match fs !! q with Some n => Ok n | None => Err enoent end
    end).

(** [Path::exists]: an error counts as absent. *)
Definition exists_path (p : str) : io bool :=
  r ← metadata p; mret (is_ok r).

Definition create_dir_all (p : str) : io (result io_error ()) :=
  syscall_write (λ _ fs, fs) (λ _ fs,
    match fs !! p with
    | Some (Regular _ _ _) => Err enotdir
    | Some _ => Ok fs
    | None => Ok (<[p := Directory]> fs)
    end).

(** [OpenOptions::write(true).create(true).truncate(true).mode(m).open]: an
    existing file keeps its mode. *)
Definition open_truncate (p : str) (m : N) : io (result io_error ()) :=
  syscall_write (λ _ fs, fs) (λ n fs,
    match resolve fs p with
    | None => Err eloop
    | Some q =>
        match fs !! q with
        | Some (Regular _ m' _) => Ok (<[q := Regular [] m' (system_time n)]> fs)
        | Some _ => Err eisdir
        | None => Ok (<[q := Regular [] (N.ldiff m umask) (system_time n)]> fs)
        end
    end).

Definition set_bytes (n : nat) (p bytes : str) (fs : files_t) : files_t :=
  match resolve fs p with
  | Some q =>
      match fs !! q with
      | Some (Regular _ m _) => <[q := Regular bytes m (system_time n)]> fs
      | _ => fs
      end
  | None => fs
  end.

(** [write_all] to the file just opened (empty); a failure may have written
    part of the bytes. *)
Definition write_all (p bytes : str) : io (result io_error ()) :=
  syscall_write (λ n fs, set_bytes n p (take (short n) bytes) fs)
                (λ n fs, Ok (set_bytes n p bytes fs)).

Definition sync_all : io (result io_error ()) := syscall (λ _, Ok ()).

Definition rename (src dst : str) : io (result io_error ()) :=
  syscall_write (λ _ fs, fs) (λ _ fs,
    match fs !! src, fs !! dst with
    | None, _ => Err enoent
    | Some _, Some Directory => Err eisdir
    | Some nd, _ => Ok (<[dst := nd]> (delete src fs))
    end).

Definition remove_file (p : str) : io (result io_error ()) :=
  syscall_write (λ _ fs, fs) (λ _ fs,
    match fs !! p with
    | None => Err enoent
    | Some Directory => Err eisdir
    | Some _ => Ok (delete p fs)
    end).

(** Run a program to its end; it may change files. *)
Definition run_command (program : str) (args : list str) : io process_end :=
  λ w,
    let n := calls w in
    let fs := command_effect n program args (files w) in
    (command_end n program args,
     mkWorld fs (S n) (Touched fs :: Ran program args :: trace w)).

(** [SystemTime::now]. *)
Definition time_now : io N :=
  λ w, (system_time (calls w), mkWorld (files w) (S (calls w)) (trace w)).

End with_env.

(** ** Lemmas on paths *)

Lemma raw_components_word p w : w ∈ raw_components p → (slash ∉ w) ∧ w ≠ [].
Proof.
  unfold raw_components. intros Hw.
  destruct (split (is_char slash) p) as [|v ws] eqn:E; [by apply elem_of_nil in Hw|].
  assert (Hsep : ∀ u, u ∈ v :: ws → slash ∉ u).
  { intros u Hu Hin. rewrite <-E in Hu.
    pose proof (split_no_seps _ _ _ _ Hu Hin) as H. done. }
  apply elem_of_app in Hw as [Hw|Hw].
  - case_decide; [by apply elem_of_nil in Hw|].
    apply list_elem_of_singleton in Hw as ->. split; [|done]. apply Hsep. set_solver.
  - apply list_elem_of_filter in Hw as [[? _] ?]. split; [|done]. apply Hsep. set_solver.
Qed.

Lemma length_filter_le {A} (P : A → Prop) `{!∀ x, Decision (P x)} (l : list A) :
  length (filter P l) ≤ length l.
Proof.
  induction l as [|x l IH]; [done|]. rewrite filter_cons. case_decide; simpl; lia.
Qed.

(** A path has at most as many components as the words it is joined from. *)
Lemma length_raw_components_join l (abs : bool) :
  (∀ w, w ∈ l → (slash ∉ w) ∧ w ≠ []) →
  length (raw_components (if abs then slash :: join [slash] l else join [slash] l)) ≤ length l.
Proof.
  intros Hl. destruct (decide (l = [])) as [->|Hn]; [by destruct abs|].
  assert (Hs : split (is_char slash) (join [slash] l) = l).
  { apply split_of_join; [done|]. intros w Hw. by apply Hl. }
  unfold raw_components. destruct abs.
  - assert (split (is_char slash) (slash :: join [slash] l) = [] :: l) as ->.
    { change (slash :: join [slash] l) with ([] ++ slash :: join [slash] l).
      rewrite split_cons by (set_solver || done). by rewrite Hs. }
    rewrite decide_True by done. simpl. apply length_filter_le.
  - rewrite Hs. destruct l as [|v l]; [done|].
    rewrite decide_False by (apply Hl; set_solver). simpl.
    apply le_n_S, length_filter_le.
Qed.

Lemma parent_ne p q : parent p = Some q → q ≠ p.
Proof.
  unfold parent. intros H ->.
  destruct (rev (raw_components p)) as [|x r] eqn:E; [done|].
  assert (Hp : raw_components p = rev r ++ [x]).
  { rewrite <-(rev_involutive (raw_components p)), E. done. }
  assert (Hl : ∀ w, w ∈ rev r → (slash ∉ w) ∧ w ≠ []).
  { intros w Hw. apply (raw_components_word p). rewrite Hp. set_solver. }
  pose proof (length_raw_components_join (rev r) (is_absolute p) Hl) as Hlen.
  injection H as H. rewrite H, Hp, length_app in Hlen. simpl in Hlen. lia.
Qed.

(** ** Reasoning about effects

    [spec P m Q]: from a world in [P], [m] ends with a value and a world in
    [Q]. *)

Definition spec {A} (P : world → Prop) (m : io A) (Q : A → world → Prop) : Prop :=
  ∀ w, P w → Q (m w).1 (m w).2.

Lemma spec_ret {A} (P : world → Prop) (a : A) (Q : A → world → Prop) :
  (∀ w, P w → Q a w) → spec P (mret a) Q.
Proof. intros H w HP. by apply H. Qed.

Lemma spec_bind {A B} P (m : io A) (f : A → io B) (M : A → world → Prop) Q :
  spec P m M → (∀ a, spec (M a) (f a) Q) → spec P (m ≫= f) Q.
Proof.
  intros Hm Hf w HP. unfold mbind, io_bind.
  specialize (Hm w HP). destruct (m w) as [a w']. by apply Hf.
Qed.

Lemma spec_conseq {A} (P P' : world → Prop) (m : io A) (Q Q' : A → world → Prop) :
  spec P' m Q' → (∀ w, P w → P' w) → (∀ a w, Q' a w → Q a w) → spec P m Q.
Proof. unfold spec. intros H HP HQ w HPw. by apply HQ, H, HP. Qed.

Lemma spec_try {E A B} P (m : io (result E A)) (f : A → io (result E B)) M Q :
  spec P m M → (∀ a, spec (M (Ok a)) (f a) Q) → (∀ e w, M (Err e) w → Q (Err e) w) →
  spec P (try m f) Q.
Proof.
  intros Hm Hf He. eapply spec_bind; [done|]. intros [a|e]; [apply Hf|]. apply spec_ret. auto.
Qed.

(** Since the trace was [tr], no program ran and every file-system state
    satisfied [I]; so does the current one. *)
Definition event_ok (I : files_t → Prop) (e : event) : Prop :=
  match e with Touched f => I f | Ran _ _ => False end.
Definition always (tr : list event) (I : files_t → Prop) (w : world) : Prop :=
  I (files w) ∧ ∃ evs, trace w = evs ++ tr ∧ Forall (event_ok I) evs.

Lemma always_refl (I : files_t → Prop) w : I (files w) → always (trace w) I w.
Proof. intros. split; [done|]. by exists []. Qed.

Section lemmas.
Context {env : Env}.

Lemma syscall_spec {A : Type} (P : world → Prop) (f : files_t → result io_error A) (Q : result io_error A → world → Prop) :
  (∀ w e, P w → Q (Err e) (mkWorld (files w) (S (calls w)) (trace w))) →
  (∀ w, P w → Q (f (files w)) (mkWorld (files w) (S (calls w)) (trace w))) →
  spec P (syscall f) Q.
Proof. intros He Hf w HP. unfold syscall; simpl. destruct (io_fault (calls w)); auto. Qed.

(** A write call under an invariant [I] on the files, with a precondition and
    a postcondition on the files. *)
Lemma syscall_write_spec (tr : list event) (I : files_t → Prop) (R : files_t → Prop)
    (T : result io_error () → files_t → Prop) on_fault f :
  (∀ n fs e, I fs → R fs → I (on_fault n fs) ∧ T (Err e) (on_fault n fs)) →
  (∀ n fs, I fs → R fs →
    match f n fs with Ok fs' => I fs' ∧ T (Ok ()) fs' | Err e => T (Err e) fs end) →
  spec (λ w, always tr I w ∧ R (files w)) (syscall_write on_fault f)
       (λ r w, always tr I w ∧ T r (files w)).
Proof.
  intros He Hf w [[Hi (evs & Ht & Hev)] HR]. unfold syscall_write.
  assert (Hnew : ∀ fs, I fs → always tr I (mkWorld fs (S (calls w)) (Touched fs :: trace w))).
  { intros fs HI. split; [done|]. exists (Touched fs :: evs). simpl. rewrite Ht. auto. }
  destruct (io_fault (calls w)) as [e|]; simpl.
  - destruct (He (calls w) (files w) e Hi HR) as [HI HS]. auto.
  - specialize (Hf (calls w) (files w) Hi HR).
    destruct (f (calls w) (files w)) as [fs|e]; simpl.
    + destruct Hf. auto.
    + split; [|done]. split; [done|]. by exists evs.
Qed.

(** A read-only call keeps any property of the files. *)
Lemma syscall_read_spec {A : Type} (tr : list event) (I R : files_t → Prop) (f : files_t → result io_error A) :
  spec (λ w, always tr I w ∧ R (files w)) (syscall f) (λ _ w, always tr I w ∧ R (files w)).
Proof. apply syscall_spec; done. Qed.

(** Not a link: calls on the path act on the path itself. *)
Definition not_link (fs : files_t) (p : str) : Prop := ∀ t, fs !! p ≠ Some (Symlink t).

Lemma resolve_not_link fs p : not_link fs p → resolve fs p = Some p.
Proof.
  intros H. unfold resolve. simpl. destruct (fs !! p) as [[]|] eqn:E; try done.
  by destruct (H target).
Qed.

End lemmas.

(** ** Which programs ran *)

(** The programs run so far, newest first. *)
Definition commands (w : world) : list (str * list str) :=
  omap (λ e, match e with Ran p args => Some (p, args) | Touched _ => None end) (trace w).

(** A computation that runs no program. *)
Definition quiet {A : Type} (m : io A) : Prop := ∀ w, commands (snd (m w)) = commands w.

(** A computation that neither runs a program nor changes a file. *)
Definition readonly {A : Type} (m : io A) : Prop :=
  ∀ w, files (snd (m w)) = files w ∧ commands (snd (m w)) = commands w.

Lemma quiet_ret {A : Type} (a : A) : quiet (mret a).
Proof. done. Qed.
Lemma quiet_bind {A B : Type} (m : io A) (f : A → io B) :
  quiet m → (∀ a, quiet (f a)) → quiet (m ≫= f).
Proof.
  intros Hm Hf w. unfold mbind, io_bind. specialize (Hm w). destruct (m w) as [a w1].
  by rewrite Hf.
Qed.
Lemma quiet_try {E A B : Type} (m : io (result E A)) (f : A → io (result E B)) :
  quiet m → (∀ a, quiet (f a)) → quiet (try m f).
Proof. intros Hm Hf. apply quiet_bind; [done|]. by intros [a|e]. Qed.
Lemma readonly_ret {A : Type} (a : A) : readonly (mret a).
Proof. done. Qed.
Lemma readonly_bind {A B : Type} (m : io A) (f : A → io B) :
  readonly m → (∀ a, readonly (f a)) → readonly (m ≫= f).
Proof.
  intros Hm Hf w. unfold mbind, io_bind. destruct (Hm w) as [H1 H2]. destruct (m w) as [a w1].
  destruct (Hf a w1) as [H3 H4]. simpl in *. by rewrite H3, H4.
Qed.
Lemma readonly_try {E A B : Type} (m : io (result E A)) (f : A → io (result E B)) :
  readonly m → (∀ a, readonly (f a)) → readonly (try m f).
Proof. intros Hm Hf. apply readonly_bind; [done|]. by intros [a|e]. Qed.
Lemma readonly_quiet {A : Type} (m : io A) : readonly m → quiet m.
Proof. intros H w. apply H. Qed.

Section programs.
Context {env : Env}.

Lemma readonly_syscall {A : Type} (f : files_t → result io_error A) : readonly (syscall f).
Proof. done. Qed.
Lemma readonly_time : readonly time_now.
Proof. done. Qed.
Lemma quiet_write on_fault f : quiet (syscall_write on_fault f).
Proof.
  intros w. unfold syscall_write. destruct (io_fault _); [done|]. by destruct (f _ _).
Qed.
Lemma run_command_commands p args w :
  commands (snd (run_command p args w)) = (p, args) :: commands w.
Proof. done. Qed.

End programs.

#[export] Hint Resolve quiet_ret quiet_bind quiet_try readonly_ret readonly_bind readonly_try
  readonly_quiet readonly_syscall readonly_time quiet_write : abora.

(** Follow the structure of a computation. *)
Ltac follow :=
  repeat first
    [ apply readonly_ret | apply quiet_ret | apply readonly_syscall | apply readonly_time
    | apply quiet_write
    | apply readonly_bind; [|intros ?] | apply readonly_try; [|intros ?]
    | apply quiet_bind; [|intros ?] | apply quiet_try; [|intros ?]
    | solve [eauto with abora] | case_match ].

(** ** Following a run forwards *)

Lemma bind_inv {A B : Type} (m : io A) (f : A → io B) w b w' :
  (m ≫= f) w = (b, w') → ∃ a w1, m w = (a, w1) ∧ f a w1 = (b, w').
Proof. unfold mbind, io_bind. destruct (m w) as [a w1]. eauto. Qed.

Lemma readonly_inv {A : Type} (m : io A) w a w1 :
  readonly m → m w = (a, w1) → files w1 = files w ∧ commands w1 = commands w.
Proof. intros H E. specialize (H w). by rewrite E in H. Qed.

Lemma quiet_inv {A : Type} (m : io A) w a w1 :
  quiet m → m w = (a, w1) → commands w1 = commands w.
Proof. intros H E. specialize (H w). by rewrite E in H. Qed.

(** [step_in H] runs the first call of the computation in [H]. *)
Tactic Notation "step_in" hyp(H) "as" simple_intropattern(a) ident(w1) ident(E) :=
  apply bind_inv in H as (a & w1 & E & H).
