(* ===== verification/Log.v ===== *)
(** * abora-log: levels, records and timestamps

    Models [crates/abora-log/src/lib.rs]: the severity threshold and its atomic
    rank, record construction and emission to a sink, the text encoding, and
    the UTC timestamp with its calendar arithmetic. JSON values and their
    rendering belong to [serde_json] and are parameters. *)

From S2P Require Import Prelude Str World.

Inductive Level := Off | Error | Warn | Info | Debug | Trace.
#[global] Instance Level_eq_dec : EqDecision Level.
Proof. solve_decision. Defined.

Definition level_to_string (l : Level) : str :=
  match l with
  | Off => "off" | Error => "error" | Warn => "warn"
  | Info => "info" | Debug => "debug" | Trace => "trace"
  end.

Definition level_from_str (s : str) : result str Level :=
  if decide (s = "off") then Ok Off
  else if decide (s = "error") then Ok Error
  else if decide (s = "warn") then Ok Warn
  else if decide (s = "info") then Ok Info
  else if decide (s = "debug") then Ok Debug
  else if decide (s = "trace") then Ok Trace
  else Err ("unknown log level `" ++ s
            ++ "` (expected one of: off, error, warn, info, debug, trace)").

(** The declaration order, as stored in the atomic. *)
Definition as_rank (l : Level) : N :=
  match l with Off => 0 | Error => 1 | Warn => 2 | Info => 3 | Debug => 4 | Trace => 5 end.
Definition from_rank (rank : N) : Level :=
  match rank with
  | 0%N => Off | 1%N => Error | 2%N => Warn | 3%N => Info | 4%N => Debug
  | _ => Trace
  end.

Inductive Format := Json | Text.
#[global] Instance Format_eq_dec : EqDecision Format.
Proof. solve_decision. Defined.
Definition format_to_string (f : Format) : str :=
  match f with Json => "json" | Text => "text" end.

(** [Redacted<T>] shows and serializes as the same text whatever it wraps. *)
Inductive Redacted (T : Type) := redact (value : T).
Arguments redact {T} value.
Definition redacted_to_string {T} (_ : Redacted T) : str := "<redacted>".

(** ** Timestamps *)

Open Scope Z_scope.

(** [civil_from_days]: [/] on [i64] truncates, the unsigned divisions are on
    non-negative values. *)
Definition civil_from_days (days : Z) : Z * Z * Z :=
  let z := days + 719468 in
  let era := Z.quot (if 0 <=? z then z else z - 146096) 146097 in
  let doe := z - era * 146097 in
  let yoe := (doe - doe / 1460 + doe / 36524 - doe / 146096) / 365 in
  let y := yoe + era * 400 in
  let doy := doe - (365 * yoe + yoe / 4 - yoe / 100) in
  let mp := (5 * doy + 2) / 153 in
  let d := doy - (153 * mp + 2) / 5 + 1 in
  let m := if mp <? 10 then mp + 3 else mp - 9 in
  let y := if m <=? 2 then y + 1 else y in
  (y, m, d).

(** [{:0w}] of a signed integer: the sign counts in the width. *)
Definition pad0 (w : nat) (n : Z) : str :=
  if n <? 0 then "-" ++ pad_left "0" (w - 1) (dec (Z.to_N (- n)))
  else pad_left "0" w (dec (Z.to_N n)).

(** [as i64] of a [u64]. *)
Definition as_i64 (n : N) : Z :=
  if Z.of_N n <? 2 ^ 63 then Z.of_N n else Z.of_N n - 2 ^ 64.

(** [utc_rfc3339_millis]; the duration is its seconds and milliseconds. *)
Definition utc_rfc3339_millis (as_secs : N) (subsec_millis : N) : str :=
  let secs := as_i64 as_secs in
  let days := secs / 86400 in
  let day_secs := secs mod 86400 in
  let '(year, month, day) := civil_from_days days in
  let h := day_secs / 3600 in
  let mi := (day_secs mod 3600) / 60 in
  let s := day_secs mod 60 in
  pad0 4 year ++ "-" ++ pad0 2 month ++ "-" ++ pad0 2 day ++ "T"
  ++ pad0 2 h ++ ":" ++ pad0 2 mi ++ ":" ++ pad0 2 s
  ++ "." ++ pad0 3 (Z.of_N subsec_millis) ++ "Z".

(** [rfc3339_now]; the clock counts nanoseconds. *)
Definition rfc3339_now `{Env} : io str :=
  now ← time_now;
  mret (utc_rfc3339_millis (now / 1000000000)%N (now mod 1000000000 / 1000000)%N).

Close Scope Z_scope.

(** ** Loggers and records *)

Section logger.
(** [serde_json::Value]: strings and levels as values, the rendering of one
    value and of an object. *)
Context {Value : Type}.
Context (string_value : str → Value) (level_value : Level → Value).
Context (value_to_string : Value → str) (object_to_string : gmap str Value → str).
(** The clock, and whether a write to the sink succeeds. *)
Context (now : str) (sink_ok : bool).

(** The shared logger: the atomic threshold, the fixed format and what the
    sink has received. *)
Record Logger := mkLogger {
  level_rank : N;
  format : Format;
  written : list str;
}.

Definition level (lg : Logger) : Level := from_rank (level_rank lg).
Definition set_level (l : Level) (lg : Logger) : Logger :=
  mkLogger (as_rank l) (format lg) (written lg).

Definition enabled (lg : Logger) (l : Level) : bool :=
  let threshold := level_rank lg in
  negb (threshold =? as_rank Off)%N && negb (bool_decide (l = Off)) && (as_rank l <=? threshold)%N.

(** A record under construction; [fields] is a [BTreeMap]. *)
Record RecordBuilder := mkRecord {
  rb_level : Level;
  rb_component : option str;
  rb_fields : gmap str Value;
}.

Definition record (l : Level) : RecordBuilder := mkRecord l None ∅.
Definition component (c : str) (r : RecordBuilder) : RecordBuilder :=
  mkRecord (rb_level r) (Some c) (rb_fields r).
(** [field]: a value that does not serialize is skipped. *)
Definition field (key : str) (v : option Value) (r : RecordBuilder) : RecordBuilder :=
  match v with
  | Some v => mkRecord (rb_level r) (rb_component r) (<[key := v]> (rb_fields r))
  | None => r
  end.

Definition LF_str : str := [LF].

Definition write_json (ts : str) (l : Level) (component : str)
    (fields : gmap str Value) (msg : str) : str :=
  let obj : gmap str Value :=
    <[("timestamp" : str) := string_value ts]>
    (<[("level" : str) := level_value l]>
    (<[("component" : str) := string_value component]>
    (<[("message" : str) := string_value msg]> ∅))) in
  (** the fields are inserted after, so they win *)
  object_to_string (fields ∪ obj) ++ LF_str.

(** Fields in key order, as a [BTreeMap] iterates. *)
Definition sorted_fields (fields : gmap str Value) : list (str * Value) :=
  omap (λ k, v ← fields !! k; Some (k, v)) (sort_str (fst <$> map_to_list fields)).

(** [Level]'s [Display] writes its name with [write_str], which does not pad, so
    the width in [{level:<5}] has no effect. *)
Definition write_text (ts : str) (l : Level) (component : str)
    (fields : gmap str Value) (msg : str) : str :=
  let name := level_to_string l in
  let line := ts ++ " " ++ name ++ " [" ++ component ++ "] " ++ msg in
  line ++ concat ((λ '(k, v), " " ++ k ++ "=" ++ value_to_string v) <$> sorted_fields fields)
  ++ LF_str.

Definition write_record (lg : Logger) (l : Level) (component : str)
    (fields : gmap str Value) (msg : str) : Logger :=
  let text := match format lg with
              | Json => write_json now l component fields msg
              | Text => write_text now l component fields msg
              end in
  if sink_ok then mkLogger (level_rank lg) (format lg) (written lg ++ [text]) else lg.

Definition emit (lg : Logger) (r : RecordBuilder) (msg : str) : Logger :=
  if enabled lg (rb_level r) then
    let component := match rb_component r with Some c => c | None => "framework" end in
    write_record lg (rb_level r) component (rb_fields r) msg
  else lg.

(** [LoggerBuilder], with its defaults; the writer is the sink. *)
Record LoggerBuilder := mkBuilder { lb_level : Level; lb_format : Format }.
Definition builder : LoggerBuilder := mkBuilder Info Json.
Definition builder_level (l : Level) (b : LoggerBuilder) : LoggerBuilder := mkBuilder l (lb_format b).
Definition builder_format (f : Format) (b : LoggerBuilder) : LoggerBuilder := mkBuilder (lb_level b) f.
Definition build_logger (b : LoggerBuilder) : Logger := mkLogger (as_rank (lb_level b)) (lb_format b) [].
Definition logger_new (l : Level) (f : Format) : Logger := build_logger (builder_format f (builder_level l builder)).

(** A record with no extra fields at a level: [Logger::error] and its companions,
    and what the macros of the same names expand to. *)
Definition log_error (msg : str) (lg : Logger) : Logger := emit lg (record Error) msg.
Definition log_warn (msg : str) (lg : Logger) : Logger := emit lg (record Warn) msg.
Definition log_info (msg : str) (lg : Logger) : Logger := emit lg (record Info) msg.
Definition log_debug (msg : str) (lg : Logger) : Logger := emit lg (record Debug) msg.
Definition log_trace (msg : str) (lg : Logger) : Logger := emit lg (record Trace) msg.

(** The process-wide default, a [OnceLock]: the first [set_global] wins, a later
    one gets its logger back. *)
Definition set_global (lg : Logger) (GLOBAL : option Logger) : result Logger () * option Logger :=
  match GLOBAL with
  | None => (Ok (), Some lg)
  | Some _ => (Err lg, GLOBAL)
  end.
Definition global (GLOBAL : option Logger) : option Logger := GLOBAL.

(** [install_panic_hook]'s record. *)
Definition panic_record (payload : str) (location : option str) (location_value : option str → option Value)
    (thread : str) (backtrace : option str) (lg : Logger) : Logger :=
  let r := field "location" (location_value location)
             (field "thread" (Some (string_value thread))
             (component "panic" (record Error))) in
  let r := match backtrace with
           | Some b => field "backtrace" (Some (string_value b)) r
           | None => r
           end in
  emit lg r ("panic: " ++ payload).

End logger.

(** ** The calendar

    The reference: the Gregorian leap-year rule and the day after a date. *)

Open Scope Z_scope.

Definition leap (y : Z) : bool :=
  (y mod 4 =? 0) && (negb (y mod 100 =? 0) || (y mod 400 =? 0)).
Definition month_length (y m : Z) : Z :=
  if m =? 2 then (if leap y then 29 else 28)
  else if (m =? 4) || (m =? 6) || (m =? 9) || (m =? 11) then 30 else 31.
Definition next_day (date : Z * Z * Z) : Z * Z * Z :=
  let '(y, m, d) := date in
  if d <? month_length y m then (y, m, d + 1)
  else if m <? 12 then (y, m + 1, 1) else (y + 1, 1, 1).

(** [civil_from_days] in stages: the year of the era (years start in March),
    and the month and day within the year. *)
Definition yoe_of (doe : Z) : Z := (doe - doe / 1460 + doe / 36524 - doe / 146096) / 365.
Definition year_start (yoe : Z) : Z := 365 * yoe + yoe / 4 - yoe / 100.
Definition month_day (doy : Z) : Z * Z :=
  let mp := (5 * doy + 2) / 153 in
  (if mp <? 10 then mp + 3 else mp - 9, doy - (153 * mp + 2) / 5 + 1).
Definition civil_of (era yoe doy : Z) : Z * Z * Z :=
  let '(m, d) := month_day doy in
  let y := yoe + era * 400 in
  (if m <=? 2 then y + 1 else y, m, d).

Lemma civil_from_days_stages days :
  civil_from_days days =
  let z := days + 719468 in
  let doe := z mod 146097 in
  civil_of (z / 146097) (yoe_of doe) (doe - year_start (yoe_of doe)).
Proof.
  unfold civil_from_days. set (z := days + 719468).
  assert (He : Z.quot (if 0 <=? z then z else z - 146096) 146097 = z / 146097).
  { destruct (0 <=? z) eqn:E.
    - apply Z.leb_le in E. apply Z.quot_div_nonneg; lia.
    - apply Z.leb_gt in E. Z.to_euclidean_division_equations. lia. }
  cbv zeta. rewrite He.
  assert (Hd : z - z / 146097 * 146097 = z mod 146097) by (rewrite Z.mod_eq by lia; lia).
  rewrite Hd. unfold civil_of, month_day, yoe_of, year_start. done.
Qed.

Lemma yoe_mono a b : 0 <= a -> a <= b -> b <= 146096 -> yoe_of a <= yoe_of b.
Proof.
  intros Ha Hab Hb. unfold yoe_of. apply Z.div_le_mono; [lia|].
  Z.to_euclidean_division_equations. lia.
Qed.

(** The length of the year [yoe] of an era: March to February, so the leap day
    belongs to the next calendar year. *)
Definition year_length (yoe : Z) : Z := if leap (yoe + 1) then 366 else 365.

(** A property of [0 .. n-1] checked by computation. *)
Fixpoint all_below (n : nat) (p : Z -> bool) : bool :=
  match n with O => true | S k => p (Z.of_nat k) && all_below k p end.
Lemma all_below_spec n p : all_below n p = true -> forall z, 0 <= z < Z.of_nat n -> p z = true.
Proof.
  induction n as [|k IH]; [lia|]. cbn [all_below]. intros H z Hz.
  apply andb_true_iff in H as [Hk H]. destruct (decide (z = Z.of_nat k)) as [->|]; [done|].
  apply IH; [done|lia].
Qed.

(** The formula for the year is right on the first and the last day of every
    year of an era, and the years follow each other. *)
Lemma year_bounds y :
  0 <= y < 400 ->
  yoe_of (year_start y) = y ∧ yoe_of (year_start y + year_length y - 1) = y ∧
  0 <= year_start y ∧ year_start y + year_length y <= 146097 ∧
  year_start y + year_length y = (if y =? 399 then 146097 else year_start (y + 1)).
Proof.
  intros Hy.
  assert (H := all_below_spec 400 (fun y =>
    (yoe_of (year_start y) =? y) && (yoe_of (year_start y + year_length y - 1) =? y)
    && (0 <=? year_start y) && (year_start y + year_length y <=? 146097)
    && (year_start y + year_length y =? (if y =? 399 then 146097 else year_start (y + 1))))
    ltac:(by vm_compute) y Hy).
  rewrite !andb_true_iff, !Z.eqb_eq, !Z.leb_le in H. tauto.
Qed.

Lemma year_exists (n : nat) doe :
  (n <= 399)%nat -> 0 <= doe < year_start (Z.of_nat n) + year_length (Z.of_nat n) ->
  exists y, 0 <= y <= Z.of_nat n ∧ year_start y <= doe < year_start y + year_length y.
Proof.
  induction n as [|n IH]; intros Hn Hd.
  - exists 0. change (year_start (Z.of_nat 0)) with 0 in Hd.
    change (year_start 0) with 0. change (Z.of_nat 0) with 0 in *. lia.
  - destruct (decide (year_start (Z.of_nat (S n)) <= doe)) as [Hle|Hlt].
    + exists (Z.of_nat (S n)). lia.
    + destruct (year_bounds (Z.of_nat n)) as (_ & _ & _ & _ & He); [lia|].
      rewrite (proj2 (Z.eqb_neq _ _)) in He by lia.
      replace (Z.of_nat n + 1) with (Z.of_nat (S n)) in He by lia.
      destruct (IH ltac:(lia)) as (y & Hy & Hb); [lia|]. exists y. lia.
Qed.

Lemma yoe_of_unique y doe :
  0 <= y < 400 -> year_start y <= doe < year_start y + year_length y -> yoe_of doe = y.
Proof.
  intros Hy Hb. destruct (year_bounds y Hy) as (H1 & H2 & H3 & H4 & _).
  apply Z.le_antisymm; [rewrite <-H2|rewrite <-H1 at 1]; apply yoe_mono; lia.
Qed.

(** The year and the day of the year of a day of the era. *)
Lemma yoe_of_spec doe :
  0 <= doe < 146097 ->
  let y := yoe_of doe in
  0 <= y < 400 ∧ 0 <= doe - year_start y < year_length y.
Proof.
  intros Hd.
  assert (H399 : year_start (Z.of_nat 399) + year_length (Z.of_nat 399) = 146097) by done.
  destruct (year_exists 399 doe) as (y & Hy & Hb); [lia|lia|].
  rewrite (yoe_of_unique y doe) by lia. cbv zeta. lia.
Qed.

Lemma month_day_step doy :
  0 <= doy < 364 ->
  let '(m, d) := month_day doy in
  let '(m', d') := month_day (doy + 1) in
  let len := if m =? 2 then 28 else month_length 1 m in
  (d < len ∧ m' = m ∧ d' = d + 1)
  ∨ (d = len ∧ m <> 2 ∧ d' = 1 ∧ m' = if m <? 12 then m + 1 else 1).
Proof.
  intros Hd.
  assert (H := all_below_spec 364 (fun doy =>
    let '(m, d) := month_day doy in
    let '(m', d') := month_day (doy + 1) in
    let len := if m =? 2 then 28 else month_length 1 m in
    (d <? len) && (m' =? m) && (d' =? d + 1)
    || (d =? len) && negb (m =? 2) && (d' =? 1) && (m' =? if m <? 12 then m + 1 else 1))
    ltac:(by vm_compute) doy Hd).
  cbv beta in H. destruct (month_day doy) as [m d], (month_day (doy + 1)) as [m' d']. cbv zeta in *.
  rewrite orb_true_iff, !andb_true_iff, !Z.eqb_eq, Z.ltb_lt, negb_true_iff, Z.eqb_neq in H.
  tauto.
Qed.

Lemma month_length_other y m : m <> 2 -> month_length y m = month_length 1 m.
Proof. intros H. unfold month_length. by rewrite (proj2 (Z.eqb_neq m 2) H). Qed.

Lemma leap_era era yoe : leap (yoe + era * 400 + 1) = leap (yoe + 1).
Proof.
  unfold leap. replace (yoe + era * 400 + 1) with (yoe + 1 + era * 400) by lia.
  rewrite Z_mod_plus_full.
  replace (era * 400) with (era * 100 * 4) by lia. rewrite Z_mod_plus_full.
  replace (era * 100 * 4) with (era * 4 * 100) by lia. by rewrite Z_mod_plus_full.
Qed.

Lemma next_day_in_year era yoe doy :
  0 <= doy -> doy + 1 < year_length yoe ->
  next_day (civil_of era yoe doy) = civil_of era yoe (doy + 1).
Proof.
  intros H0 H1. unfold civil_of. destruct (decide (doy = 364)) as [->|Hn].
  - change (month_day 364) with (2, 28). change (month_day (364 + 1)) with (2, 29).
    cbn -[month_length Z.mul]. unfold month_length. rewrite Z.eqb_refl.
    rewrite leap_era. unfold year_length in H1. by destruct (leap (yoe + 1)); [|lia].
  - assert (doy < 364) by (unfold year_length in H1; destruct (leap (yoe + 1)); lia).
    pose proof (month_day_step doy ltac:(lia)) as Hs.
    destruct (month_day doy) as [m d], (month_day (doy + 1)) as [m' d'].
    cbv zeta in Hs. unfold next_day.
    destruct (decide (m = 2)) as [->|Hm].
    + rewrite Z.eqb_refl in Hs. destruct Hs as [(Hd & -> & ->)|(_ & [] & _)]; [|done].
      rewrite (proj2 (Z.ltb_lt _ _)); [done|].
      unfold month_length. simpl. destruct (leap _); lia.
    + rewrite (proj2 (Z.eqb_neq m 2) Hm) in Hs. rewrite month_length_other by done.
      destruct Hs as [(Hd & -> & ->)|(-> & _ & -> & ->)].
      * by rewrite (proj2 (Z.ltb_lt _ _) Hd).
      * rewrite Z.ltb_irrefl. destruct (m <? 12) eqn:E.
        -- apply Z.ltb_lt in E. destruct (m <=? 2) eqn:E1, (m + 1 <=? 2) eqn:E2;
             rewrite ?Z.leb_le, ?Z.leb_gt in *; try done; lia.
        -- apply Z.ltb_ge in E. by rewrite (proj2 (Z.leb_gt m 2) ltac:(lia)).
Qed.

(** The last day of a March-based year is the last day of February. *)
Lemma next_day_new_year era yoe :
  next_day (civil_of era yoe (year_length yoe - 1)) = (yoe + 1 + era * 400, 3, 1).
Proof.
  unfold civil_of.
  unfold year_length. destruct (leap (yoe + 1)) eqn:E.
  - change (month_day (366 - 1)) with (2, 29). cbn -[month_length Z.mul].
    unfold month_length. rewrite Z.eqb_refl, leap_era, E. f_equal. f_equal. lia.
  - change (month_day (365 - 1)) with (2, 28). cbn -[month_length Z.mul].
    unfold month_length. rewrite Z.eqb_refl, leap_era, E. f_equal. f_equal. lia.
Qed.

Close Scope Z_scope.

Lemma enabled_rank lg l l' :
  enabled (set_level l' lg) l =
  bool_decide (l' ≠ Off) && bool_decide (l ≠ Off) && (as_rank l <=? as_rank l')%N.
Proof. by destruct l, l'. Qed.

Lemma level_rank_from l : from_rank (as_rank l) = l.
Proof. by destruct l. Qed.

Lemma readonly_now {env : Env} : readonly rfc3339_now.
Proof. unfold rfc3339_now. follow. Qed.
#[export] Hint Resolve readonly_now : abora.

(** ** Properties *)

(** The threshold decides what reaches the sink. After [set_level l'], on
    this or any shared handle, the level read back is [l']; a JSON record at
    level [l] adds exactly one line to a working sink when neither is [off]
    and [l] is at least as severe as [l'], and otherwise nothing changes. The
    line ends in the only line feed when the JSON encoder, as documented,
    prints compact text. *)
Theorem emission_threshold {Value : Type} (string_value : str → Value)
    (level_value : Level → Value) (value_to_string : Value → str)
    (object_to_string : gmap str Value → str) (now : str) (sink : bool)
    (lg : Logger) (l' : Level) (r : RecordBuilder (Value := Value)) (msg : str) :
  (∀ o, LF ∉ object_to_string o) →
  format lg = Json →
  let before := set_level l' lg in
  let after := emit string_value level_value value_to_string object_to_string
                 now sink before r msg in
  level after = l'
  ∧ written after = written lg ++
      (if bool_decide (l' ≠ Off) && bool_decide (rb_level r ≠ Off)
          && (as_rank (rb_level r) <=? as_rank l')%N && sink
       then [write_json string_value level_value object_to_string now (rb_level r)
               (default ("framework" : str) (rb_component r)) (rb_fields r) msg]
       else [])
  ∧ ∀ o, count_occ ascii_dec (object_to_string o ++ LF_str) LF = 1.
Proof.
  intros Hlf Hf before after. subst before after. unfold emit.
  rewrite enabled_rank. split; [|split].
  - unfold write_record, level. simpl.
    destruct (_ && _); [destruct sink|]; apply level_rank_from.
  - unfold write_record. simpl. rewrite Hf.
    destruct (_ && _); simpl; [destruct sink|]; rewrite ?app_nil_r; try done.
  - intros o. rewrite count_occ_app. simpl.
    destruct (ascii_dec LF LF) as [_|[]]; [|done].
    rewrite (proj1 (count_occ_not_In ascii_dec (object_to_string o) LF)); [done|].
    intros Hin. apply (Hlf o). by apply list_elem_of_In.
Qed.
Lemma emission_threshold_witness :
  written (emit (Value := str) (λ s, s) level_to_string (λ s, s) (λ o, "{}")
             "t" true (set_level Debug (logger_new Info Json)) (record Debug) "m")
  = [("{}" : str) ++ LF_str].
Proof.
  apply (emission_threshold (Value := str) (λ s, s) level_to_string (λ s, s) (λ o, "{}")
           "t" true (logger_new Info Json) Debug (record Debug) "m"); [|done].
  intros o. by apply (bool_decide_eq_true_1 (LF ∉ ("{}" : str))).
Defined.


(** The threshold and the format a logger is built with are those it has, and
    the first process-wide logger stays. *)
Lemma logger_new_level l f : level (logger_new l f) = l ∧ format (logger_new l f) = f.
Proof. by destruct l. Qed.
Lemma set_global_first (lg lg' : Logger) :
  set_global lg None = (Ok (), Some lg) ∧ set_global lg' (snd (set_global lg None)) = (Err lg', Some lg).
Proof. done. Qed.

(** C40: the timestamp calendar is the Gregorian one. Day 0 is 1970-01-01, and
    for every day, before the epoch or after it, the date of the next day is
    the day after by the leap-year rule; so every date is right. *)
Theorem civil_from_days_gregorian (days : Z) :
  civil_from_days 0 = (1970, 1, 1)%Z
  ∧ civil_from_days (days + 1) = next_day (civil_from_days days).
Proof.
  split; [done|]. rewrite !civil_from_days_stages. cbv zeta.
  replace (days + 1 + 719468)%Z with (days + 719468 + 1)%Z by lia.
  set (z := (days + 719468)%Z). set (era := (z / 146097)%Z). set (doe := (z mod 146097)%Z).
  assert (Hz : z = (146097 * era + doe)%Z) by (apply Z.div_mod; lia).
  assert (Hd : (0 <= doe < 146097)%Z) by (apply Z.mod_pos_bound; lia).
  destruct (yoe_of_spec doe Hd) as [Hy Hdoy]. set (y := yoe_of doe) in *.
  destruct (year_bounds y Hy) as (_ & _ & Hs & Hend & Hnext).
  destruct (decide (doe - year_start y + 1 < year_length y)%Z) as [Hin|Hlast].
  - rewrite next_day_in_year by lia.
    rewrite <-(Z.div_unique (z + 1) 146097 era (doe + 1)) by lia.
    rewrite <-(Z.mod_unique (z + 1) 146097 era (doe + 1)) by lia.
    rewrite (yoe_of_unique y (doe + 1)) by lia. f_equal. lia.
  - replace (doe - year_start y)%Z with (year_length y - 1)%Z by lia.
    rewrite next_day_new_year. destruct (y =? 399)%Z eqn:E; simpl in Hnext.
    + apply Z.eqb_eq in E.
      rewrite <-(Z.div_unique (z + 1) 146097 (era + 1) 0) by lia.
      rewrite <-(Z.mod_unique (z + 1) 146097 (era + 1) 0) by lia.
      rewrite E. change (yoe_of 0) with 0%Z. change (0 - year_start 0)%Z with 0%Z.
      unfold civil_of. change (month_day 0) with (3, 1)%Z. cbn -[Z.mul Z.add]. f_equal. f_equal. lia.
    + apply Z.eqb_neq in E.
      destruct (year_bounds (y + 1)) as (_ & _ & _ & Hend' & _); [lia|].
      assert (0 < year_length (y + 1))%Z by (unfold year_length; destruct (leap _); lia).
      rewrite <-(Z.div_unique (z + 1) 146097 era (doe + 1)) by lia.
      rewrite <-(Z.mod_unique (z + 1) 146097 era (doe + 1)) by lia.
      rewrite (yoe_of_unique (y + 1) (doe + 1)) by lia.
      replace (doe + 1 - year_start (y + 1))%Z with 0%Z by lia.
      unfold civil_of. change (month_day 0) with (3, 1)%Z. cbn -[Z.mul Z.add]. done.
Qed.
