(* ===== verification/Version.v ===== *)
(** * abora-core: the [Version] type and the shared constants

    Models [crates/abora-core/src/lib.rs]. *)

From S2P Require Import Prelude Str.

Definition FRAMEWORK_NAME : str := "Abora Framework".
(** [env!("CARGO_PKG_VERSION")], the workspace version of [Cargo.toml]. *)
Definition FRAMEWORK_VERSION : str := "0.1.0".
Definition DAEMON_NAME : str := "aborad".
Definition CLI_NAME : str := "abora".
Definition API_VERSION : str := "v1".
Definition API_PATH_PREFIX : str := "/api/v1".
Definition DEFAULT_LISTEN_ADDR : str := "127.0.0.1:7360".

Record Version := mkVersion {
  major : N;
  minor : N;
  patch : N;
  prerelease : option str;
  build : option str;
}.

#[global] Instance Version_eq_dec : EqDecision Version.
Proof. solve_decision. Defined.

(** The [u64] fields hold values of their type. *)
Definition version_wf (v : Version) : Prop :=
  (major v ≤ u64_max)%N ∧ (minor v ≤ u64_max)%N ∧ (patch v ≤ u64_max)%N.

Definition new (major minor patch : N) : Version :=
  mkVersion major minor patch None None.

(** One round of the loop over the three components. *)
Definition parse_component (part : str) : result str N :=
  let err := "invalid version number component `" ++ part ++ "`" in
  if bool_decide (part = []) || negb (forallb is_ascii_digit part) then Err err
  else ok_or err (parse_uint u64_max part).

(** The text before a separator, and the text after it if it is there. *)
Definition split_suffix (c : ascii) (s : str) : str * option str :=
  match split_once c s with
  | Some (head, suffix) => (head, Some suffix)
  | None => (s, None)
  end.

Definition parse (input : str) : result str Version :=
  let '(rest, build) := split_suffix "+" input in
  let '(rest, prerelease) := split_suffix "-" rest in
  match split (is_char ".") rest with
  | [a; b; c] =>
      ma ← parse_component a;
      mi ← parse_component b;
      pa ← parse_component c;
      Ok (mkVersion ma mi pa prerelease build)
  | _ => Err ("expected <major>.<minor>.<patch>, got `" ++ input ++ "`")
  end.

Definition current : Version :=
  match parse FRAMEWORK_VERSION with Ok v => v | Err _ => new 0 0 0 end.

(** [impl Display for Version]. *)
Definition to_string (v : Version) : str :=
  dec (major v) ++ "." ++ dec (minor v) ++ "." ++ dec (patch v)
  ++ match prerelease v with Some pre => "-" ++ pre | None => [] end
  ++ match build v with Some b => "+" ++ b | None => [] end.

(** ** Lemmas *)

Lemma parse_component_dec n :
  (n ≤ u64_max)%N → parse_component (dec n) = Ok n.
Proof.
  intros Hn. unfold parse_component. rewrite dec_digits, parse_uint_dec by done.
  rewrite bool_decide_eq_false_2 by apply dec_non_nil. done.
Qed.

Lemma parse_component_Ok p n :
  parse_component p = Ok n → (n ≤ u64_max)%N ∧ forallb is_ascii_digit p = true.
Proof.
  unfold parse_component. intros H. case_match eqn:E; [done|].
  apply orb_false_iff in E as [_ E]. apply negb_false_iff in E.
  destruct (parse_uint _ _) eqn:Hp; simplify_eq/=.
  eauto using parse_uint_le.
Qed.

Lemma dec_no_char c n : is_ascii_digit c = false → c ∉ dec n.
Proof. apply forallb_not_elem, dec_digits. Qed.

(** The numeric part of the text. *)
Definition core_string (a b c : N) : str := dec a ++ "." ++ dec b ++ "." ++ dec c.

Lemma core_no_char x a b c :
  is_ascii_digit x = false → x ≠ "."%char → x ∉ core_string a b c.
Proof.
  intros Hd Hdot. unfold core_string. rewrite !elem_of_app.
  pose proof (dec_no_char x a Hd). pose proof (dec_no_char x b Hd).
  pose proof (dec_no_char x c Hd). cbn. set_solver.
Qed.

Lemma split_core a b c :
  split (is_char ".") (core_string a b c) = [dec a; dec b; dec c].
Proof.
  assert (Hdot : ∀ n x, x ∈ dec n → is_char "."%char x = false).
  { intros n x Hx. destruct (is_char _ x) eqn:E; [|done].
    apply is_char_spec in E as ->. by destruct (dec_no_char "."%char n). }
  unfold core_string. cbn.
  rewrite split_cons by (eauto || done). f_equal.
  rewrite split_cons by (eauto || done). f_equal.
  apply split_no_sep. eauto.
Qed.

(** What a [Version] must satisfy for its text to determine it: a prerelease
    has no [+]. *)
Definition displayable (v : Version) : Prop :=
  version_wf v ∧ ∀ pre, prerelease v = Some pre → "+"%char ∉ pre.

(** A suffix with its separator, when there is one. *)
Definition suffix (c : ascii) (o : option str) : str :=
  match o with Some x => c :: x | None => [] end.

Lemma split_suffix_app c h o : c ∉ h → split_suffix c (h ++ suffix c o) = (h, o).
Proof.
  intros Hc. unfold split_suffix. destruct o as [x|]; simpl.
  - by rewrite split_once_app.
  - rewrite app_nil_r. by rewrite (proj2 (split_once_None c h) Hc).
Qed.

Lemma split_suffix_inv c s h o :
  split_suffix c s = (h, o) → s = h ++ suffix c o ∧ c ∉ h.
Proof.
  unfold split_suffix. destruct (split_once c s) as [[l r]|] eqn:E; intros [= <- <-].
  - by apply split_once_Some in E.
  - simpl. rewrite app_nil_r. by apply split_once_None in E.
Qed.

Lemma to_string_suffixes v :
  to_string v =
  (core_string (major v) (minor v) (patch v) ++ suffix "-" (prerelease v)) ++ suffix "+" (build v).
Proof.
  unfold to_string, core_string. rewrite <-!app_assoc.
  by destruct (prerelease v), (build v).
Qed.

Lemma parse_to_string v : displayable v → parse (to_string v) = Ok v.
Proof.
  intros [(Ha & Hb & Hc) Hpre]. unfold parse. rewrite to_string_suffixes.
  rewrite split_suffix_app.
  - rewrite split_suffix_app by by apply core_no_char.
    rewrite split_core, !parse_component_dec by done. by destruct v.
  - rewrite elem_of_app. intros [Hin|Hin].
    + revert Hin. by apply core_no_char.
    + destruct (prerelease v) as [p|]; [|by apply elem_of_nil in Hin].
      apply elem_of_cons in Hin as [|Hin]; [done|]. by eapply Hpre.
Qed.

(** A parsed version, and the shape of the text it came from. *)
Lemma parse_inv s v :
  parse s = Ok v →
  displayable v ∧
  ∃ a b c, s = ((a ++ "." ++ b ++ "." ++ c) ++ suffix "-" (prerelease v)) ++ suffix "+" (build v)
    ∧ parse_component a = Ok (major v) ∧ parse_component b = Ok (minor v)
    ∧ parse_component c = Ok (patch v).
Proof.
  unfold parse. intros H.
  destruct (split_suffix "+" s) as [r1 bu] eqn:E1.
  destruct (split_suffix "-" r1) as [r2 pre] eqn:E2.
  apply split_suffix_inv in E1 as [-> Hplus]. apply split_suffix_inv in E2 as [-> Hdash].
  pose proof (split_join "." r2) as Hj.
  destruct (split (is_char ".") r2) as [|a [|b [|c [|]]]] eqn:Es; try done.
  destruct (parse_component a) as [ma|] eqn:Ea; [|done].
  destruct (parse_component b) as [mb|] eqn:Eb; [|done].
  destruct (parse_component c) as [mc|] eqn:Ec; [|done].
  simplify_eq/=. split.
  - split.
    + repeat split; eapply parse_component_Ok; eauto.
    + intros p Hp. simpl in Hp. subst pre. set_solver.
  - exists a, b, c. done.
Qed.

(** ** Properties *)

(** Printing a [Version] and parsing the text gives it back exactly when
    its numbers fit [u64] and its prerelease has no [+]; every version that
    [parse] returns is of that kind, so parsing is idempotent up to printing. *)
Theorem version_round_trip v :
  (parse (to_string v) = Ok v ↔ displayable v)
  ∧ (∀ s, parse s = Ok v → parse (to_string v) = Ok v).
Proof.
  split; [split|].
  - intros H. by apply parse_inv in H as [? _].
  - apply parse_to_string.
  - intros s H. apply parse_to_string. by apply parse_inv in H as [? _].
Qed.

Lemma version_round_trip_witness :
  parse "1.02.3-alpha.1+build.7" = Ok (mkVersion 1 2 3 (Some ("alpha.1" : str)) (Some ("build.7" : str)))
  ∧ parse (to_string (mkVersion 1 2 3 (Some ("alpha.1" : str)) (Some ("build.7" : str))))
    = Ok (mkVersion 1 2 3 (Some ("alpha.1" : str)) (Some ("build.7" : str))).
Proof.
  split; [reflexivity|].
  apply (proj2 (version_round_trip _) "1.02.3-alpha.1+build.7"). reflexivity.
Defined.
