(* ===== verification/Replace.v ===== *)
(** * Replacing a file atomically

    The pattern of [store.rs]'s [save] and [apply.rs]'s [write_atomic]: write a
    temporary file next to the target, sync it, rename it over the target. The
    lemmas follow the target and the temporary file through each system call,
    failures included. *)

From S2P Require Import Prelude Str World.

(** The parent directory a path names, if it names one. *)
Definition parent_dir (path : str) : option str :=
  match parent path with Some [] => None | o => o end.

Definition tmp_path (path : str) : str := path ++ ".tmp".

Lemma tmp_path_ne path : tmp_path path ≠ path.
Proof.
  unfold tmp_path. intros H. apply (f_equal length) in H.
  rewrite length_app in H. simpl in H. lia.
Qed.

Lemma parent_dir_ne path dir : parent_dir path = Some dir → dir ≠ path.
Proof.
  unfold parent_dir. intros H. apply parent_ne.
  destruct (parent path) as [[|c q]|]; simplify_eq/=; done.
Qed.

Section replace.
Context {env : Env}.

(** The mode the temporary file has once opened. *)
Definition mode_of (fs : files_t) (p : str) (m : N) : N :=
  match fs !! p with Some (Regular _ m' _) => m' | _ => N.ldiff m umask end.

(** Before the rename: the target is untouched and the temporary file has
    some given content. *)
Definition staged (path tmp bytes : str) (old : option node) (md : N) (fs : files_t) : Prop :=
  fs !! path = old ∧ ∃ t, fs !! tmp = Some (Regular bytes md t).

Definition untouched (path tmp : str) (old : option node) (m md : N) (fs : files_t) : Prop :=
  fs !! path = old ∧ not_link fs tmp ∧ mode_of fs tmp m = md.

Lemma open_truncate_spec (tr : list event) (path tmp : str) (old : option node) (m md : N) (I : files_t → Prop) :
  tmp ≠ path → (∀ fs, fs !! path = old → I fs) →
  spec (λ w, always tr I w ∧ untouched path tmp old m md (files w))
    (open_truncate tmp m)
    (λ r w, always tr I w ∧ match r with
       | Ok _ => staged path tmp [] old md (files w) | Err _ => files w !! path = old end).
Proof.
  intros Hne HI. apply (syscall_write_spec tr I (untouched path tmp old m md)
    (λ r fs, match r with Ok _ => staged path tmp [] old md fs | Err _ => fs !! path = old end)).
  { intros n fs e Hi (Hp & _). done. }
  intros n fs Hi (Hp & Hl & Hm). rewrite (resolve_not_link _ _ Hl).
  unfold mode_of in Hm.
  assert (Hins : ∀ nd, (<[tmp:=nd]> fs) !! path = old) by (intros; by rewrite lookup_insert_ne).
  destruct (fs !! tmp) as [[b m' t|t|]|] eqn:E; try done.
  - split; [by apply HI|]. split; [done|]. exists (system_time n).
    by rewrite lookup_insert_eq, Hm.
  - split; [by apply HI|]. split; [done|]. exists (system_time n).
    by rewrite lookup_insert_eq, Hm.
Qed.

Lemma set_bytes_staged n path tmp old md b bytes fs :
  tmp ≠ path → staged path tmp b old md fs → staged path tmp bytes old md (set_bytes n tmp bytes fs).
Proof.
  intros Hne [Hp [t Ht]]. unfold set_bytes.
  rewrite resolve_not_link by (intros u; by rewrite Ht). rewrite Ht.
  split; [by rewrite lookup_insert_ne|]. exists (system_time n). by rewrite lookup_insert_eq.
Qed.

Lemma write_all_spec (tr : list event) (path tmp : str) (old : option node) (md : N) (b bytes : str) (I : files_t → Prop) :
  tmp ≠ path → (∀ fs, fs !! path = old → I fs) →
  spec (λ w, always tr I w ∧ staged path tmp b old md (files w))
    (write_all tmp bytes)
    (λ r w, always tr I w ∧ match r with
       | Ok _ => staged path tmp bytes old md (files w) | Err _ => files w !! path = old end).
Proof.
  intros Hne HI. apply (syscall_write_spec tr I (staged path tmp b old md)
    (λ r fs, match r with Ok _ => staged path tmp bytes old md fs | Err _ => fs !! path = old end)).
  - intros n fs e Hi Hs. apply (set_bytes_staged n path tmp old md b (take (short n) bytes)) in Hs; [|done].
    destruct Hs as [Hp _]. auto.
  - intros n fs Hi Hs. apply (set_bytes_staged n path tmp old md b bytes) in Hs; [|done].
    destruct Hs as [Hp Ht]. split; [by apply HI|]. done.
Qed.

Lemma rename_spec (tr : list event) (path tmp : str) (old : option node) (md : N) (bytes : str) (I : files_t → Prop) :
  tmp ≠ path → (∀ fs, fs !! path = old → I fs) →
  (∀ fs t, fs !! path = Some (Regular bytes md t) → I fs) →
  spec (λ w, always tr I w ∧ staged path tmp bytes old md (files w))
    (rename tmp path)
    (λ r w, always tr I w ∧ match r with
       | Ok _ => ∃ t, files w !! path = Some (Regular bytes md t)
       | Err _ => files w !! path = old end).
Proof.
  intros Hne HI HI'. apply (syscall_write_spec tr I (staged path tmp bytes old md)
    (λ r fs, match r with Ok _ => ∃ t, fs !! path = Some (Regular bytes md t)
             | Err _ => fs !! path = old end)).
  { intros n fs e Hi [Hp _]. done. }
  intros n fs Hi [Hp [t Ht]]. rewrite Ht.
  assert (Hnew : (<[path:=Regular bytes md t]> (delete tmp fs)) !! path = Some (Regular bytes md t))
    by by rewrite lookup_insert_eq.
  destruct (fs !! path) as [[]|]; try done; eauto.
Qed.

(** Writing a temporary file and renaming it over the target, shared with
    [write_atomic]. *)
Lemma staged_write_spec (tr : list event) (path tmp : str) (old : option node) (m md : N) (bytes : str) (I : files_t → Prop) :
  tmp ≠ path → (∀ fs, fs !! path = old → I fs) →
  (∀ fs t, fs !! path = Some (Regular bytes md t) → I fs) →
  spec (λ w, always tr I w ∧ untouched path tmp old m md (files w))
    (try (try (open_truncate tmp m) (λ _, try (write_all tmp bytes) (λ _, sync_all)))
       (λ _, rename tmp path))
    (λ r w, always tr I w ∧ match r with
       | Ok _ => ∃ t, files w !! path = Some (Regular bytes md t)
       | Err _ => files w !! path = old end).
Proof.
  intros Hne HI HI'.
  eapply spec_try with (M := λ r w, always tr I w ∧ match r with
    | Ok _ => staged path tmp bytes old md (files w) | Err _ => files w !! path = old end);
    [|intros []; by apply rename_spec|done].
  eapply spec_try; [by apply open_truncate_spec| |done]. intros [].
  eapply spec_try; [by apply write_all_spec| |].
  - intros []. eapply spec_conseq; [apply (syscall_read_spec tr I (staged path tmp bytes old md))|done|].
    intros [a|e] w [Hi Hs]; [done|]. split; [done|]. apply Hs.
  - done.
Qed.

(** Removing the temporary file leaves the target alone. *)
Lemma remove_file_spec (tr : list event) (path tmp : str) (old : option node) (I : files_t → Prop) :
  tmp ≠ path → (∀ fs, fs !! path = old → I fs) →
  spec (λ w, always tr I w ∧ files w !! path = old)
    (remove_file tmp) (λ _ w, always tr I w ∧ files w !! path = old).
Proof.
  intros Hne HI. apply (syscall_write_spec tr I (λ fs, fs !! path = old) (λ _ fs, fs !! path = old)).
  { done. }
  intros n fs Hi Hp. destruct (fs !! tmp) as [[]|]; try done;
    rewrite lookup_delete_ne by done; split; try done; apply HI; by rewrite lookup_delete_ne.
Qed.

Lemma create_dir_all_spec (tr : list event) (path tmp dir : str) (old : option node) (m md : N) (I : files_t → Prop) :
  dir ≠ path → (∀ fs, fs !! path = old → I fs) →
  spec (λ w, always tr I w ∧ untouched path tmp old m md (files w))
    (create_dir_all dir) (λ _ w, always tr I w ∧ untouched path tmp old m md (files w)).
Proof.
  intros Hne HI. apply (syscall_write_spec tr I (untouched path tmp old m md)
    (λ _, untouched path tmp old m md)).
  { done. }
  intros n fs Hi (Hp & Hl & Hm). destruct (fs !! dir) as [[]|] eqn:Ed; try done.
  assert (Hp' : (<[dir:=Directory]> fs) !! path = old) by by rewrite lookup_insert_ne.
  split; [by apply HI|]. split_and!; [done|..].
  - intros t. rewrite lookup_insert. case_decide; [done|apply Hl].
  - unfold mode_of in *. rewrite lookup_insert. case_decide; [|done].
    subst dir. by rewrite Ed in Hm.
Qed.

End replace.

(** A host where nothing fails and commands do nothing, for examples. *)
Definition steady_env : Env := {|
  io_fault _ := None;
  short _ := 0;
  command_end _ _ _ := Exited true [] [] [];
  command_effect _ _ _ fs := fs;
  system_time n := N.of_nat n;
  umask := 18;
|}.
