(* ===== verification/Frame.v ===== *)
(** * Invariants of every state passed through

    [Replace] follows one file through one replacement. Here an invariant of the
    whole file system is carried through whole operations of the components,
    programs included: [through I m] says that [m], started in [I], never leaves
    it, not even between two system calls, so that a crash anywhere leaves [I].
    What an operation may write is what the invariant must be closed under. *)

From S2P Require Import Prelude Str World Replace.

(** An event after which the files satisfy [I]. *)
Definition held (I : files_t → Prop) (e : event) : Prop :=
  match e with Touched fs => I fs | Ran _ _ => True end.

(** From [w] to [w'], every state satisfied [I]. *)
Definition passes (I : files_t → Prop) (w w' : world) : Prop :=
  I (files w') ∧ ∃ evs, trace w' = evs ++ trace w ∧ Forall (held I) evs.

Definition through {A : Type} (I : files_t → Prop) (m : io A) : Prop :=
  ∀ w, I (files w) → passes I w (snd (m w)).

(** [I] allows writing at [p], creating it or not, and removing it. *)
Record writable (I : files_t → Prop) (p : str) : Prop := {
  writable_no_link fs : I fs → not_link fs p;
  writable_insert fs nd : I fs → (∀ t, nd ≠ Symlink t) → I (<[p := nd]> fs);
}.
Definition removable (I : files_t → Prop) (p : str) : Prop := ∀ fs, I fs → I (delete p fs).

(** What [save] and [write_atomic] need of a path: its directory can be made, its
    temporary file written and removed, and the path itself replaced. *)
Record replaceable (I : files_t → Prop) (p : str) : Prop := {
  rep_parent d : parent_dir p = Some d → writable I d;
  rep_tmp : writable I (tmp_path p);
  rep_tmp_remove : removable I (tmp_path p);
  rep_path : writable I p;
}.

(** No program leaves [I]. *)
Class Inert {env : Env} (I : files_t → Prop) : Prop :=
  inert n program args fs : I fs → I (command_effect n program args fs).

(** ** Composition *)

Lemma held_mono (I J : files_t → Prop) e : (∀ fs, I fs → J fs) → held I e → held J e.
Proof. destruct e; simpl; auto. Qed.

Lemma passes_refl (I : files_t → Prop) w : I (files w) → passes I w w.
Proof. intros. split; [done|]. by exists []. Qed.

Lemma passes_trans I w w1 w2 : passes I w w1 → passes I w1 w2 → passes I w w2.
Proof.
  intros (_ & e1 & T1 & F1) (H & e2 & T2 & F2). split; [done|].
  exists (e2 ++ e1). rewrite T2, T1, app_assoc. split; [done|]. by apply Forall_app.
Qed.

Lemma passes_mono (I J : files_t → Prop) w w' :
  (∀ fs, I fs → J fs) → passes I w w' → passes J w w'.
Proof.
  intros H (Hi & evs & T & F). split; [auto|]. exists evs. split; [done|].
  eapply Stdlib.Lists.List.Forall_impl; [|exact F]. intros e. by apply held_mono.
Qed.

Lemma passes_and I J w w' : passes I w w' → passes J w w' → passes (λ fs, I fs ∧ J fs) w w'.
Proof.
  intros (? & e1 & T1 & F1) (? & e2 & T2 & F2). split; [done|].
  rewrite T1 in T2. apply app_inv_tail in T2 as ->. exists e2. split; [done|].
  rewrite Stdlib.Lists.List.Forall_forall in *. intros [fs|] Hin; [|done].
  split; [apply (F1 _ Hin)|apply (F2 _ Hin)].
Qed.

(** From a crash specification, which runs no program. *)
Lemma passes_always I w w' : always (trace w) I w' → passes I w w'.
Proof.
  intros (H1 & evs & T & F). split; [done|]. exists evs.
  split; [done|]. eapply Stdlib.Lists.List.Forall_impl; [|exact F]. by intros [].
Qed.

Lemma through_ret {A : Type} I (a : A) : through I (mret a).
Proof. intros w Hw. by apply passes_refl. Qed.

Lemma through_bind {A B : Type} I (m : io A) (f : A → io B) :
  through I m → (∀ a, through I (f a)) → through I (m ≫= f).
Proof.
  intros Hm Hf w Hw. unfold mbind, io_bind. specialize (Hm w Hw).
  destruct (m w) as [a w1]. simpl in *. eapply passes_trans; [exact Hm|]. apply Hf. by apply Hm.
Qed.

Lemma through_try {E A B : Type} I (m : io (result E A)) (f : A → io (result E B)) :
  through I m → (∀ a, through I (f a)) → through I (try m f).
Proof. intros Hm Hf. apply through_bind; [done|]. intros [a|e]; [apply Hf|apply through_ret]. Qed.

Lemma through_inv {A : Type} I (m : io A) w a w1 :
  through I m → I (files w) → m w = (a, w1) → passes I w w1.
Proof. intros Hm Hw E. specialize (Hm w Hw). by rewrite E in Hm. Qed.

(** ** System calls *)

Section calls.
Context {env : Env} (I : files_t → Prop).

Lemma through_syscall {A : Type} (f : files_t → result io_error A) : through I (syscall f).
Proof. intros w Hw. split; [done|]. by exists []. Qed.

Lemma through_time : through I time_now.
Proof. intros w Hw. split; [done|]. by exists []. Qed.

Lemma through_write on_fault f :
  (∀ n fs, I fs → I (on_fault n fs)) →
  (∀ n fs fs', I fs → f n fs = Ok fs' → I fs') → through I (syscall_write on_fault f).
Proof.
  intros He Hf w Hw. unfold syscall_write. destruct (io_fault (calls w)).
  - simpl. split; [by apply He|]. exists [Touched (on_fault (calls w) (files w))].
    split; [done|]. constructor; [by apply He|done].
  - destruct (f (calls w) (files w)) as [fs'|e] eqn:E; simpl; [|split; [done|by exists []]].
    split; [by eapply Hf|]. exists [Touched fs']. split; [done|].
    constructor; [by eapply Hf|done].
Qed.

Lemma through_command `{!Inert I} p args : through I (run_command p args).
Proof.
  intros w Hw. split; [by apply inert|]. eexists [_; _]. split; [done|].
  constructor; [by apply inert|]. by constructor.
Qed.

Lemma through_create_dir p : writable I p → through I (create_dir_all p).
Proof.
  intros Hp. apply through_write; [done|]. intros n fs fs' Hi.
  destruct (fs !! p) as [[]|]; intros [= <-]; try done. by apply (writable_insert _ _ Hp).
Qed.

Lemma through_open p m : writable I p → through I (open_truncate p m).
Proof.
  intros Hp. apply through_write; [done|]. intros n fs fs' Hi.
  rewrite (resolve_not_link fs p) by by apply (writable_no_link _ _ Hp).
  destruct (fs !! p) as [[]|]; intros [= <-]; by apply (writable_insert _ _ Hp).
Qed.

Lemma set_bytes_held n p bytes fs : writable I p → I fs → I (set_bytes n p bytes fs).
Proof.
  intros Hp Hi. unfold set_bytes.
  rewrite (resolve_not_link fs p) by by apply (writable_no_link _ _ Hp).
  destruct (fs !! p) as [[]|]; try done. by apply (writable_insert _ _ Hp).
Qed.

Lemma through_write_all p bytes : writable I p → through I (write_all p bytes).
Proof.
  intros Hp. apply through_write.
  - intros n fs Hi. by apply set_bytes_held.
  - intros n fs fs' Hi [= <-]. by apply set_bytes_held.
Qed.

Lemma through_remove p : removable I p → through I (remove_file p).
Proof.
  intros Hp. apply through_write; [done|]. intros n fs fs' Hi.
  destruct (fs !! p) as [[]|]; intros [= <-]; by apply Hp.
Qed.

Lemma through_rename src dst :
  (∀ fs, I fs → not_link fs src) → removable I src → writable I dst → through I (rename src dst).
Proof.
  intros Hl Hs Hd. apply through_write; [done|]. intros n fs fs' Hi.
  destruct (fs !! src) as [nd|] eqn:E; [|done].
  assert (Hn : I (<[dst := nd]> (delete src fs))).
  { apply (writable_insert _ _ Hd); [by apply Hs|]. intros t ->. by eapply Hl. }
  destruct (fs !! dst) as [[]|]; by intros [= <-].
Qed.

(** The replacement of a file, as [save] and [write_atomic] do it. *)
Lemma through_staged p m bytes :
  replaceable I p →
  through I (try (try (open_truncate (tmp_path p) m) (λ _, try (write_all (tmp_path p) bytes) (λ _, sync_all)))
               (λ _, rename (tmp_path p) p)).
Proof.
  intros [_ Ht Hr Hp]. apply through_try.
  - apply through_try; [by apply through_open|]. intros _.
    apply through_try; [by apply through_write_all|]. intros _. apply through_syscall.
  - intros _. apply through_rename; [apply (writable_no_link _ _ Ht)|done|done].
Qed.

End calls.

#[export] Hint Resolve through_ret through_syscall through_time through_command
  through_create_dir through_open through_write_all through_remove : abora.

(** Follow the structure of a computation. *)
Ltac keep :=
  repeat first
    [ apply through_ret | apply through_syscall | apply through_time
    | solve [eauto with abora]
    | apply through_bind; [|intros ?] | apply through_try; [|intros ?]
    | case_match ].

(** ** Where the machine may stop

    [cut w w' w1]: a computation went from [w] to [w'], and [w1] is a state on the
    way: some of its events have happened, the rest have not. *)

(** The files after the events, which started in [fs]. *)
Definition files_after (fs : files_t) (evs : list event) : files_t :=
  default fs (head (omap (λ e, match e with Touched fs => Some fs | Ran _ _ => None end) evs)).

Definition cut (w w' w1 : world) : Prop :=
  ∃ later done_, trace w' = later ++ done_ ++ trace w
    ∧ trace w1 = done_ ++ trace w ∧ files w1 = files_after (files w) done_.

Lemma files_after_held I fs evs : I fs → Forall (held I) evs → I (files_after fs evs).
Proof.
  unfold files_after. intros Hi H. induction H as [|e evs He H IH]; [done|].
  destruct e as [fs'|]; simpl; [exact He|]. done.
Qed.

Lemma cut_refl w w' : (∃ evs, trace w' = evs ++ trace w) → cut w w' w.
Proof. intros [evs H]. by exists evs, []. Qed.

(** Wherever it stops, the invariant holds. *)
Lemma passes_cut I w w' w1 : passes I w w' → I (files w) → cut w w' w1 → I (files w1).
Proof.
  intros (_ & evs & T' & F) Hw (later & dn & T & _ & ->).
  apply files_after_held; [done|]. rewrite T' in T. rewrite app_assoc in T.
  apply app_inv_tail in T as ->. by apply Forall_app in F as [_ F].
Qed.

(** What has run by then is what the whole computation ran, less the newest. *)
Lemma cut_commands w w' w1 : cut w w' w1 → ∃ l, commands w' = l ++ commands w1.
Proof.
  intros (later & dn & T & T1 & _). unfold commands. rewrite T1, T, !omap_app. eauto.
Qed.

Lemma cut_commands_old w w' w1 : cut w w' w1 → ∃ l, commands w1 = l ++ commands w.
Proof. intros (later & dn & _ & T1 & _). unfold commands. rewrite T1, omap_app. eauto. Qed.
