(* ===== verification/Types.v ===== *)
(** * abora-update: the update vocabulary

    Models [crates/abora-update/src/lib.rs]: channels, windows, statuses and
    the [UpdateProvider] trait, as a type class over the provider's state. *)

From S2P Require Import Prelude Str Version World.

Inductive Channel := Stable | Beta | Nightly | Custom (name : str).
#[global] Instance Channel_eq_dec : EqDecision Channel.
Proof. solve_decision. Defined.

(** [impl Display for Channel]. *)
Definition channel_to_string (c : Channel) : str :=
  match c with
  | Stable => "stable"
  | Beta => "beta"
  | Nightly => "nightly"
  | Custom name => "custom:" ++ name
  end.

Inductive RebootPolicy := Ask | Always | Never.
#[global] Instance RebootPolicy_eq_dec : EqDecision RebootPolicy.
Proof. solve_decision. Defined.

Inductive Weekday := Monday | Tuesday | Wednesday | Thursday | Friday | Saturday | Sunday.
#[global] Instance Weekday_eq_dec : EqDecision Weekday.
Proof. solve_decision. Defined.

Record MaintenanceWindow := mkWindow {
  days : list Weekday;
  start : str;
  end_ : str;
  max_duration_minutes : option N;
}.
#[global] Instance MaintenanceWindow_eq_dec : EqDecision MaintenanceWindow.
Proof. solve_decision. Defined.

Record AvailableUpdate := mkAvailable {
  au_channel : Channel;
  au_version : Version;
  au_component : str;
  au_summary : str;
  au_release_notes : option str;
  au_size_bytes : N;
  au_released_at : option str;
  au_checksums : option (list str);
}.
#[global] Instance AvailableUpdate_eq_dec : EqDecision AvailableUpdate.
Proof. solve_decision. Defined.

Record AvailableUpdates := mkAvailables {
  aus_channel : Channel;
  aus_updates : list AvailableUpdate;
}.

Inductive UpdateStatus :=
| UpToDate
| UpdateAvailable (versions : list str)
| Installing (component : str) (progress_percent : option N)
| StatusError (message : str).
#[global] Instance UpdateStatus_eq_dec : EqDecision UpdateStatus.
Proof. solve_decision. Defined.

Record RebootStatus := mkReboot {
  required : bool;
  reason : option str;
  pending_since : option str;
}.
#[global] Instance RebootStatus_eq_dec : EqDecision RebootStatus.
Proof. solve_decision. Defined.
Definition reboot_default : RebootStatus := mkReboot false None None.

Record UpdateHistoryEntry := mkEntry {
  applied_at : str;
  from_version : Version;
  to_version : Version;
  he_channel : Channel;
  he_component : str;
  he_succeeded : bool;
  he_note : option str;
}.
#[global] Instance UpdateHistoryEntry_eq_dec : EqDecision UpdateHistoryEntry.
Proof. solve_decision. Defined.

Inductive UpdateError :=
| NotImplemented (msg : str)
| Unsupported (msg : str)
| Conflict (msg : str)
| Source (msg : str).
#[global] Instance UpdateError_eq_dec : EqDecision UpdateError.
Proof. solve_decision. Defined.

(** The [thiserror] messages. *)
Definition update_error_to_string (e : UpdateError) : str :=
  match e with
  | NotImplemented m => "not implemented: " ++ m
  | Unsupported m => "unsupported: " ++ m
  | Conflict m => "update conflict: " ++ m
  | Source m => "update source failure: " ++ m
  end.

(** The trait; [P] is the provider's state, threaded through the methods that
    change it. *)
Class UpdateProvider `{!Env} (P : Type) := {
  check : Channel → P → io (result UpdateError AvailableUpdates * P);
  status : P → result UpdateError UpdateStatus;
  reboot_required : P → io (result UpdateError RebootStatus * P);
  history : P → result UpdateError (list UpdateHistoryEntry);
  apply : AvailableUpdate → P → result UpdateError ();
}.

(** The trait's default [apply]. *)
Definition default_apply {P} (_update : AvailableUpdate) (_ : P) : result UpdateError () :=
  Err (NotImplemented "apply is not implemented by this provider").

(** ** Serialization

    [serde_json] is a third-party library: an encoder and a decoder. What the
    framework relies on is that a value of the Rust type (one whose integers
    fit, [wf]) written by the first is read back by the second. *)
Class Serde (A : Type) := {
  encode_json : A → str;
  decode_json : str → option A;
}.
Class SerdeOk (A : Type) `{!Serde A} (wf : A → Prop) :=
  decode_encode a : wf a → decode_json (encode_json a) = Some a.

(** A concrete codec of any countable type: the bits of its code. *)
Fixpoint bits_of (p : positive) : str :=
  match p with
  | xH => []
  | xO p => "0"%char :: bits_of p
  | xI p => "1"%char :: bits_of p
  end.
Fixpoint of_bits (s : str) : option positive :=
  match s with
  | [] => Some xH
  | c :: s =>
      p ← of_bits s;
      if decide (c = "0"%char) then Some (xO p)
      else if decide (c = "1"%char) then Some (xI p) else None
  end.
Lemma of_bits_of p : of_bits (bits_of p) = Some p.
Proof. induction p as [p IH|p IH|]; simpl; [..|done]; by rewrite IH. Qed.

Definition countable_serde (A : Type) `{Countable A} : Serde A := {|
  encode_json a := bits_of (encode a);
  decode_json s := p ← of_bits s; decode p;
|}.
Lemma countable_serde_ok (A : Type) `{Countable A} (wf : A → Prop) :
  @SerdeOk A (countable_serde A) wf.
Proof. intros a _. simpl. rewrite of_bits_of. simpl. apply countable.decode_encode. Qed.

(** The stored types are countable, for the concrete codec. *)
#[global] Instance Channel_countable : Countable Channel.
Proof.
  refine (inj_countable'
    (λ c, match c with Stable => inl 0 | Beta => inl 1 | Nightly => inl 2 | Custom n => inr n end)
    (λ x : nat + str, match x with
       | inl 0 => Stable | inl 1 => Beta | inl _ => Nightly | inr n => Custom n end) _).
  by intros [].
Defined.
#[global] Instance Version_countable : Countable Version.
Proof.
  refine (inj_countable'
    (λ v, (major v, minor v, patch v, prerelease v, build v))
    (λ '(a, b, c, p, u), mkVersion a b c p u) _).
  by intros [].
Defined.
#[global] Instance RebootStatus_countable : Countable RebootStatus.
Proof.
  refine (inj_countable' (λ r, (required r, reason r, pending_since r))
    (λ '(a, b, c), mkReboot a b c) _).
  by intros [].
Defined.
#[global] Instance UpdateHistoryEntry_countable : Countable UpdateHistoryEntry.
Proof.
  refine (inj_countable'
    (λ e, (applied_at e, from_version e, to_version e, he_channel e, he_component e,
           he_succeeded e, he_note e))
    (λ '(a, b, c, d, e, f, g), mkEntry a b c d e f g) _).
  by intros [].
Defined.
