(* ===== verification/Store.v ===== *)
(** * abora-update: the persistent update store

    Models [crates/abora-update/src/store.rs]: one JSON file replaced
    atomically, and the copy of it in memory. The [Mutex] makes each method one
    step; [save]'s system calls are explicit, so every state a crash could
    leave on disk is in the trace. *)

From S2P Require Import Prelude Str Version World Replace Types.

Definition SCHEMA_VERSION : N := 1.
Definition MAX_HISTORY : nat := 500.

Record StoreData := mkStoreData {
  schema : N;
  sd_last_check : option str;
  sd_reboot : RebootStatus;
  sd_history : list UpdateHistoryEntry;   (* oldest first *)
}.
#[global] Instance StoreData_eq_dec : EqDecision StoreData.
Proof. solve_decision. Defined.
#[global] Instance StoreData_countable : Countable StoreData.
Proof.
  refine (inj_countable' (λ d, (schema d, sd_last_check d, sd_reboot d, sd_history d))
    (λ '(a, b, c, d), mkStoreData a b c d) _).
  by intros [].
Defined.

Definition store_default : StoreData := mkStoreData SCHEMA_VERSION None reboot_default [].

Inductive Opened := Fresh | Loaded | Recovered (backup : str).
Inductive StoreError :=
| Io (path message : str)
| NewerSchema (path : str) (found supported : N).
#[global] Instance StoreError_eq_dec : EqDecision StoreError.
Proof. solve_decision. Defined.

Definition store_error_to_string (e : StoreError) : str :=
  match e with
  | Io path message => "update store I/O error at " ++ path ++ ": " ++ message
  | NewerSchema path found supported =>
      "update store " ++ path ++ " was written by a newer version (schema " ++ dec found
      ++ ", this build understands " ++ dec supported ++ "); refusing to overwrite it"
  end.

Definition io_err (path : str) (e : io_error) : StoreError := Io path (io_message e).

Record UpdateStore := mkStore {
  st_path : option str;   (* [None] for an in-memory store *)
  st_data : StoreData;
}.

Definition in_memory : UpdateStore := mkStore None store_default.

(** Keep the newest [MAX_HISTORY] entries. *)
Definition trim (d : StoreData) : StoreData :=
  if (MAX_HISTORY <? length (sd_history d))%nat then
    let excess := length (sd_history d) - MAX_HISTORY in
    mkStoreData (schema d) (sd_last_check d) (sd_reboot d) (drop excess (sd_history d))
  else d.

Definition corrupt_path (path : str) : str := path ++ ".corrupt".

Section store.
Context {env : Env} {serde : Serde StoreData}.

Definition write_synced (path bytes : str) : io (result io_error ()) :=
  try (open_truncate path 384 (* 0o600 *)) (λ _,
  try (write_all path bytes) (λ _,
  sync_all)).

Definition save (path : str) (data : StoreData) : io (result StoreError ()) :=
  r ← match parent_dir path with
      | Some dir => r ← create_dir_all dir; mret (map_err (io_err dir) r)
      | None => mret (Ok ())
      end;
  match r with
  | Err e => mret (Err e)
  | Ok _ =>
      let tmp := tmp_path path in
      let json := encode_json data in
      result ← try (write_synced tmp json) (λ _, rename tmp path);
      match result with
      | Err e =>
          _ ← remove_file tmp;
          mret (Err (io_err path e))
      | Ok _ =>
          match parent_dir path with
          | Some dir =>
              (* make the rename itself durable, best effort *)
              d ← metadata dir;
              match d with
              | Ok _ => _ ← sync_all; mret (Ok ())
              | Err _ => mret (Ok ())
              end
          | None => mret (Ok ())
          end
      end
  end.

Definition open (path : str) : io (result StoreError (UpdateStore * Opened)) :=
  bytes ← fs_read path;
  r ← match bytes with
      | Ok bytes =>
          match decode_json bytes with
          | Some data =>
              if (SCHEMA_VERSION <? schema data)%N
              then mret (Err (NewerSchema path (schema data) SCHEMA_VERSION))
              else mret (Ok (data, Loaded))
          | None =>
              let backup := corrupt_path path in
              r ← rename path backup;
              mret (match r with
                    | Ok _ => Ok (store_default, Recovered backup)
                    | Err e => Err (io_err path e)
                    end)
          end
      | Err e =>
          if decide (kind e = NotFound) then mret (Ok (store_default, Fresh))
          else mret (Err (io_err path e))
      end;
  mret (match r with
        | Ok (data, opened) => Ok (mkStore (Some path) (trim data), opened)
        | Err e => Err e
        end).

(** Apply [edit] to a copy, save it, and only then make it the live state. *)
Definition change (edit : StoreData → StoreData) (s : UpdateStore)
    : io (result StoreError () * UpdateStore) :=
  let next := trim (edit (st_data s)) in
  r ← match st_path s with
      | Some path => save path next
      | None => mret (Ok ())
      end;
  mret (match r with
        | Ok _ => (Ok (), mkStore (st_path s) next)
        | Err e => (Err e, s)
        end).

Definition record_check (when : str) : UpdateStore → io (result StoreError () * UpdateStore) :=
  change (λ d, mkStoreData (schema d) (Some when) (sd_reboot d) (sd_history d)).
Definition record_update (entry : UpdateHistoryEntry)
    : UpdateStore → io (result StoreError () * UpdateStore) :=
  change (λ d, mkStoreData (schema d) (sd_last_check d) (sd_reboot d) (sd_history d ++ [entry])).
Definition set_reboot (st : RebootStatus) : UpdateStore → io (result StoreError () * UpdateStore) :=
  change (λ d, mkStoreData (schema d) (sd_last_check d) st (sd_history d)).

End store.

Definition snapshot (s : UpdateStore) : StoreData := st_data s.
(** Newest first, as the API presents it. *)
Definition history (s : UpdateStore) : list UpdateHistoryEntry := rev (sd_history (st_data s)).
Definition last_check (s : UpdateStore) : option str := sd_last_check (st_data s).
Definition reboot (s : UpdateStore) : RebootStatus := sd_reboot (st_data s).

(** ** Lemmas *)

(** *** The history bound *)

Lemma trim_history d :
  sd_history (trim d) = drop (length (sd_history d) - MAX_HISTORY) (sd_history d).
Proof.
  unfold trim. case_match eqn:E; [done|]. bool_norm.
  by replace (length (sd_history d) - MAX_HISTORY) with 0 by lia.
Qed.

(** The newest [MAX_HISTORY] of a list in chronological order. *)
Definition newest (l : list UpdateHistoryEntry) : list UpdateHistoryEntry :=
  drop (length l - MAX_HISTORY) l.

Lemma newest_length l : length (newest l) ≤ MAX_HISTORY.
Proof. unfold newest. rewrite length_drop. lia. Qed.

Lemma newest_small l : length l ≤ MAX_HISTORY → newest l = l.
Proof. unfold newest. intros. by replace (length l - MAX_HISTORY) with 0 by lia. Qed.

Lemma newest_app l k : newest (newest l ++ k) = newest (l ++ k).
Proof.
  unfold newest. rewrite <-drop_app_le by lia. rewrite drop_drop, length_drop, !length_app.
  f_equal. lia.
Qed.

(** *** Saving *)

(** Whatever stops [save], the file is the old one or the new one. *)
Definition atomic (path : str) (old : option node) (json : str) (md : N) (fs : files_t) : Prop :=
  fs !! path = old ∨ ∃ t, fs !! path = Some (Regular json md t).

Section save_lemmas.
Context {env : Env} {serde : Serde StoreData}.

Lemma save_spec tr path data old md :
  spec (λ w, always tr (atomic path old (encode_json data) md) w
             ∧ untouched path (tmp_path path) old 384 md (files w))
    (save path data)
    (λ r w, always tr (atomic path old (encode_json data) md) w ∧ match r with
       | Ok _ => ∃ t, files w !! path = Some (Regular (encode_json data) md t)
       | Err _ => files w !! path = old end).
Proof.
  set (I := atomic path old (encode_json data) md).
  assert (HI : ∀ fs, fs !! path = old → I fs) by (by left).
  assert (HI' : ∀ fs t, fs !! path = Some (Regular (encode_json data) md t) → I fs)
    by (right; eauto).
  pose proof (tmp_path_ne path) as Hne. unfold save.
  eapply spec_bind with (M := λ _ w, always tr I w ∧ untouched path (tmp_path path) old 384 md (files w)).
  { destruct (parent_dir path) as [dir|] eqn:Ed; [|by apply spec_ret].
    eapply spec_bind; [apply create_dir_all_spec; [by eapply parent_dir_ne|done]|].
    intros a. by apply spec_ret. }
  intros [[]|e]; [|apply spec_ret; intros w (? & ? & ?); done].
  eapply spec_bind; [by apply staged_write_spec|].
  intros [[]|e].
  - destruct (parent_dir path) as [dir|]; [|by apply spec_ret].
    eapply spec_bind; [apply (syscall_read_spec tr I
      (λ fs, ∃ t, fs !! path = Some (Regular (encode_json data) md t)))|].
    intros [d|]; [|by apply spec_ret].
    eapply spec_bind; [apply (syscall_read_spec tr I
      (λ fs, ∃ t, fs !! path = Some (Regular (encode_json data) md t)))|].
    intros a. by apply spec_ret.
  - eapply spec_bind; [by apply remove_file_spec|]. intros a. by apply spec_ret.
Qed.

End save_lemmas.

(** *** Opening *)

(** The store data a path leads to. *)
Definition on_disk `{Serde StoreData} (fs : files_t) (path : str) : option StoreData :=
  q ← resolve fs path;
  match fs !! q with Some (Regular b _ _) => decode_json b | _ => None end.

(** The mutating methods, as one step each. *)
Inductive store_op :=
| OpCheck (when : str)
| OpUpdate (entry : UpdateHistoryEntry)
| OpReboot (st : RebootStatus).

Definition run_op `{Env, Serde StoreData} (op : store_op)
    : UpdateStore → io (result StoreError () * UpdateStore) :=
  match op with
  | OpCheck when => record_check when
  | OpUpdate entry => record_update entry
  | OpReboot st => set_reboot st
  end.

(** What an operation does to the data, and the history entry it adds. *)
Definition op_edit (op : store_op) (d : StoreData) : StoreData :=
  match op with
  | OpCheck when => mkStoreData (schema d) (Some when) (sd_reboot d) (sd_history d)
  | OpUpdate e => mkStoreData (schema d) (sd_last_check d) (sd_reboot d) (sd_history d ++ [e])
  | OpReboot st => mkStoreData (schema d) (sd_last_check d) st (sd_history d)
  end.
Definition op_entries (op : store_op) : list UpdateHistoryEntry :=
  match op with OpUpdate e => [e] | _ => [] end.

(** The states a store goes through: opened or in memory, then any sequence of
    operations, each of which may fail at any system call. The log is every
    entry the store was ever given and accepted. *)
Inductive store_reach `{Env, Serde StoreData} : list UpdateHistoryEntry → UpdateStore → Prop :=
| reach_in_memory : store_reach [] in_memory
| reach_open path w s opened :
    (open path w).1 = Ok (s, opened) →
    store_reach (match opened, on_disk (files w) path with
                 | Loaded, Some d => sd_history d | _, _ => [] end) s
| reach_ok log s s' op w :
    store_reach log s → (run_op op s w).1 = (Ok (), s') →
    store_reach (log ++ op_entries op) s'
| reach_err log s s' op w e :
    store_reach log s → (run_op op s w).1 = (Err e, s') → store_reach log s'.

Section store_lemmas.
Context {env : Env} {serde : Serde StoreData}.

Lemma run_op_change op : run_op op = change (op_edit op).
Proof. by destruct op. Qed.

Lemma change_result edit s w :
  (∃ e, (change edit s w).1 = (Err e, s))
  ∨ (change edit s w).1 = (Ok (), mkStore (st_path s) (trim (edit (st_data s)))).
Proof.
  unfold change, mbind, io_bind.
  set (m := match st_path s with Some path => save path _ | None => mret (Ok ()) end).
  destruct (m w) as [[[]|e] w']; simpl; eauto.
Qed.

(** Either the change took, or the state is as before. *)
Lemma change_cases edit s w r s' w' :
  change edit s w = ((r, s'), w') →
  match r with
  | Ok _ => s' = mkStore (st_path s) (trim (edit (st_data s)))
  | Err _ => s' = s
  end.
Proof.
  unfold change. intros H. step_in H as r1 w1 E. by destruct r1 as [[]|e]; injection H as <- <- <-.
Qed.

Lemma quiet_change edit s : quiet (change edit s).
Proof. unfold change, save, write_synced. follow. Qed.

Lemma trim_last_check d : sd_last_check (trim d) = sd_last_check d.
Proof. unfold trim. by case_match. Qed.
Lemma trim_reboot d : sd_reboot (trim d) = sd_reboot d.
Proof. unfold trim. by case_match. Qed.

Lemma op_edit_history op d : sd_history (op_edit op d) = sd_history d ++ op_entries op.
Proof. destruct op; simpl; by rewrite ?app_nil_r. Qed.

(** What [open] can return. *)
Lemma open_result path w s opened :
  (open path w).1 = Ok (s, opened) →
  st_path s = Some path ∧
  match opened with
  | Loaded => ∃ d, on_disk (files w) path = Some d ∧ (schema d ≤ SCHEMA_VERSION)%N
                   ∧ st_data s = trim d
  | _ => st_data s = store_default
  end.
Proof.
  unfold open, on_disk, mbind, io_bind, option_bind, mret, io_ret, fs_read, syscall. simpl.
  destruct (io_fault (calls w)) as [e|]; simpl.
  { case_decide; simpl; by intros [= <- <-]. }
  destruct (resolve (files w) path) as [q|]; simpl; [|done].
  destruct (files w !! q) as [[b m t|t|]|]; simpl; [|done|done|by intros [= <- <-]].
  destruct (decode_json b) as [d|] eqn:Ed; simpl.
  - destruct (SCHEMA_VERSION <? schema d)%N eqn:E; simpl; [done|]. intros [= <- <-]. apply N.ltb_ge in E. simpl. eauto.
  - destruct (rename path (corrupt_path path) _) as [[[]|e] w']; simpl; [|done].
    by intros [= <- <-].
Qed.

Lemma reach_history log s : store_reach log s → sd_history (st_data s) = newest log.
Proof.
  induction 1 as [|path w s opened Ho|log s s' op w Hr IH Ho|log s s' op w e Hr IH Ho].
  - done.
  - apply open_result in Ho as [_ Ho]. destruct opened; rewrite ?Ho; [done| |done].
    destruct Ho as (d & -> & _ & ->). by rewrite trim_history.
  - rewrite run_op_change in Ho. destruct (change_result (op_edit op) s w) as [[e He]|He];
      rewrite He in Ho; simplify_eq. simpl.
    rewrite trim_history, op_edit_history, IH. apply newest_app.
  - rewrite run_op_change in Ho. destruct (change_result (op_edit op) s w) as [[e' He]|He];
      rewrite He in Ho; by simplify_eq.
Qed.

(** One change to a store kept at [path], from a world whose temporary file is
    not a link. *)
Lemma change_spec edit s path w :
  st_path s = Some path → not_link (files w) (tmp_path path) →
  let next := trim (edit (st_data s)) in
  match change edit s w with
  | (Ok _, s', w') =>
      s' = mkStore (Some path) next ∧
      ∃ m t, files w' !! path = Some (Regular (encode_json next) m t)
  | (Err _, s', w') => s' = s ∧ files w' !! path = files w !! path
  end.
Proof.
  intros Hp Hl next. unfold change. rewrite Hp. fold next.
  unfold mbind, io_bind.
  destruct (save_spec (trace w) path next (files w !! path)
    (mode_of (files w) (tmp_path path) 384) w) as [_ Hs].
  { split; [|done]. apply always_refl. by left. }
  destruct (save path next w) as [[[]|e] w']; simpl in *; [|done].
  destruct Hs as [t Ht]. eauto.
Qed.
End store_lemmas.

Lemma trim_idem d : trim (trim d) = trim d.
Proof.
  unfold trim. destruct (MAX_HISTORY <? length (sd_history d))%nat eqn:E; [|by rewrite E].
  cbn [sd_history]. rewrite length_drop. bool_norm.
  case_match eqn:E'; [|done]. bool_norm. lia.
Qed.

Lemma trim_schema d : schema (trim d) = schema d.
Proof. unfold trim. by case_match. Qed.

Lemma op_schema op d : schema (op_edit op d) = schema d.
Proof. by destruct op. Qed.

(** Reading back a file that holds trimmed data of a known schema. *)
Lemma open_saved `{Env, Serde StoreData} path w b m t d :
  files w !! path = Some (Regular b m t) → decode_json b = Some d →
  (schema d ≤ SCHEMA_VERSION)%N → io_fault (calls w) = None →
  (open path w).1 = Ok (mkStore (Some path) (trim d), Loaded).
Proof.
  intros Hf Hd Hs Hio. unfold open, mbind, io_bind, fs_read, syscall. rewrite Hio. simpl.
  rewrite resolve_not_link by (intros x; by rewrite Hf). rewrite Hf, Hd. simpl.
  by rewrite (proj2 (N.ltb_ge _ _) Hs).
Qed.

(** ** Properties *)

(** A small store on a steady host, for the examples. *)
Definition example_path : str := "/s/u".
Definition example_entry : UpdateHistoryEntry :=
  mkEntry "t" (new 0 0 0) (new 0 0 0) Stable "c" true None.
Definition example_world : world := mkWorld ∅ 0 [].



(** A change is all or nothing, and durable. When a mutating method
    succeeds the live state is the edited, trimmed state and opening the file
    again gives exactly that state; when it fails the live state and the file
    are what they were. *)
Theorem change_durable {env : Env} {serde : Serde StoreData} (wf : StoreData → Prop)
    {Hserde : SerdeOk StoreData wf} op s path w :
  st_path s = Some path →
  not_link (files w) (tmp_path path) →
  wf (trim (op_edit op (st_data s))) →
  (schema (st_data s) ≤ SCHEMA_VERSION)%N →
  match run_op op s w with
  | (Ok _, s', w') =>
      st_data s' = trim (op_edit op (st_data s)) ∧
      (io_fault (calls w') = None → (open path w').1 = Ok (s', Loaded))
  | (Err _, s', w') => s' = s ∧ files w' !! path = files w !! path
  end.
Proof.
  intros Hp Hl Hwf Hs. rewrite run_op_change.
  pose proof (change_spec (op_edit op) s path w Hp Hl) as H.
  destruct (change (op_edit op) s w) as [[[[]|e] s'] w']; [|done].
  destruct H as [-> (m & t & Hf)]. split; [done|]. intros Hio.
  rewrite (open_saved path w' _ m t _ Hf (decode_encode _ Hwf)); [by rewrite trim_idem| |done].
  by rewrite trim_schema, op_schema.
Qed.

Lemma change_durable_witness :
  let e := steady_env in let s := countable_serde StoreData in
  match run_op (OpCheck "t") (mkStore (Some example_path) store_default) example_world with
  | (Ok _, s', w') =>
      st_data s' = mkStoreData 1 (Some ("t" : str)) reboot_default [] ∧
      (io_fault (calls w') = None → (open example_path w').1 = Ok (s', Loaded))
  | (Err _, s', w') => s' = mkStore (Some example_path) store_default
                       ∧ files w' !! example_path = None
  end.
Proof.
  intros e s.
  apply (@change_durable e s (λ _, True) (countable_serde_ok _ _) (OpCheck "t")
    (mkStore (Some example_path) store_default) example_path example_world);
    [reflexivity|discriminate|exact I|reflexivity].
Defined.



(** Opening never destroys a file. The bytes found at the path are still
    there afterwards, except that a file that does not parse is moved aside to
    [.corrupt] unchanged; a file of a newer schema is refused and nothing on
    disk changes. *)
Theorem open_never_destroys {env : Env} {serde : Serde StoreData} path w b m t :
  files w !! path = Some (Regular b m t) →
  (match (open path w).1 with
   | Ok (_, Recovered backup) =>
       decode_json b = None ∧ backup = corrupt_path path
       ∧ files (open path w).2 !! backup = Some (Regular b m t)
   | _ => files (open path w).2 = files w
   end)
  ∧ (∀ d, decode_json b = Some d → (SCHEMA_VERSION < schema d)%N → io_fault (calls w) = None →
      (open path w).1 = Err (NewerSchema path (schema d) SCHEMA_VERSION)).
Proof.
  intros Hf. unfold open, mbind, io_bind, fs_read, syscall. simpl.
  destruct (io_fault (calls w)) as [e|]; simpl.
  { split; [by case_decide|done]. }
  rewrite resolve_not_link by (intros x; by rewrite Hf). rewrite Hf.
  destruct (decode_json b) as [d|]; simpl.
  { split; [by destruct (SCHEMA_VERSION <? schema d)%N|]. intros ? [= <-] Hs _. by rewrite (proj2 (N.ltb_lt _ _) Hs). }
  split; [|done]. unfold rename, syscall_write. simpl.
  destruct (io_fault (S (calls w))) as [e|]; simpl; [done|]. rewrite Hf.
  destruct (files w !! corrupt_path path) as [[]|]; simpl; try done;
    by rewrite lookup_insert_eq.
Qed.

Lemma open_never_destroys_witness :
  let e := steady_env in let s := countable_serde StoreData in
  let w := mkWorld {[ example_path := Regular "{ nope" 384 0 ]} 0 [] in
  files (open example_path w).2 !! corrupt_path example_path = Some (Regular "{ nope" 384 0).
Proof.
  intros e s w.
  destruct (open_never_destroys example_path w "{ nope" 384 0) as [H _]; [reflexivity|].
  exact (proj2 (proj2 H)).
Defined.
