(* ===== verification/Host.v ===== *)
(** * abora-update: host packages

    Models [crates/abora-update/src/host.rs]: running a program with a timeout,
    reading [apt-get]'s simulation, and the provider that checks for updates. *)

From S2P Require Import Prelude Str World Replace Log Version Types Store.

(** ** Running programs *)

(** [tail]: the last [max] bytes, cut on a character boundary; the fuel of the
    search for the boundary is what is left of the text. *)
Fixpoint next_boundary (fuel : nat) (text : str) (start : nat) : nat :=
  match fuel with
  | O => start
  | S fuel => if is_char_boundary text start then start else next_boundary fuel text (S start)
  end.
Definition tail (text : str) (max : nat) : str :=
  if (length text <=? max)%nat then Str.trim text
  else Str.trim (drop (next_boundary max text (length text - max)) text).

Definition COMMAND_TIMEOUT : N := 120.

(** What [SystemRunner::run] makes of the end of its child, with its timeout in
    seconds. A pipe that is not UTF-8 reads as empty. *)
Definition finish (timeout : N) (program : str) (e : process_end) : result str str :=
  match e with
  | SpawnFailed e => Err ("could not run " ++ program ++ ": " ++ e)
  | WaitFailed e => Err ("waiting for " ++ program ++ ": " ++ e)
  | TimedOut => Err (program ++ " timed out after " ++ dec timeout ++ "s")
  | Exited success status out err =>
      let out := if valid_utf8 out then out else [] in
      let err := if valid_utf8 err then err else [] in
      if success then Ok out
      else if decide (Str.trim err = []) then Err (program ++ " exited with " ++ status)
      else Err (program ++ " exited with " ++ status ++ ": " ++ tail err 600)
  end.

(** [SystemRunner::run]; its waiting is in [Runner]. *)
Definition run `{Env} (timeout : N) (program : str) (args : list str) : io (result str str) :=
  e ← run_command program args;
  mret (finish timeout program e).

(** ** The simulation *)

Record PackageUpgrade := mkUpgrade {
  pu_name : str;
  pu_from : option str;
  pu_to : str;
  pu_source : str;
}.
#[global] Instance PackageUpgrade_eq_dec : EqDecision PackageUpgrade.
Proof. solve_decision. Defined.

Definition package_char (c : ascii) : bool :=
  is_ascii_lowercase c || is_ascii_digit c || bool_decide (c ∈ ("+-.:" : str)).
Definition valid_package_name (name : str) : bool :=
  negb (bool_decide (name = [])) && (length name <=? 200)%nat
  && negb (starts_with "-" name || starts_with "." name)
  && forallb package_char name.

Definition parse_inst_line (line : str) : option PackageUpgrade :=
  rest ← strip_prefix "Inst " line;
  '(name, rest) ← split_once " " rest;
  if negb (valid_package_name name) then None else
  '(from, rest) ← match strip_prefix "[" rest with
                  | Some after =>
                      '(from, tail) ← split_once "]" after;
                      Some (Some from, trim_start tail)
                  | None => Some (None, rest)
                  end;
  inner ← strip_prefix "(" rest;
  let inner := match split_once ")" inner with Some (inside, _) => inside | None => inner end in
  let '(to, source) := match split_once " " inner with
                       | Some p => p
                       | None => (inner, [])
                       end in
  if decide (to = []) then None else Some (mkUpgrade name from to source).

Definition parse_simulation (output : str) : list PackageUpgrade :=
  omap parse_inst_line (lines output).

(** The part of [s] before the first byte that satisfies [p]. *)
Definition before (p : ascii → bool) (s : str) : str :=
  match find_char p s with Some n => take n s | None => s end.
Definition version_from_debian (version : str) : Version :=
  let no_epoch := match split_once ":" version with Some (_, v) => v | None => version end in
  let first := before (λ c, negb (is_ascii_digit c) && negb (is_char "." c)) no_epoch in
  let parts := split (is_char ".") first in
  let next i := default 0%N (p ← parts !! i; parse_uint u64_max p) in
  Version.new (next 0) (next 1) (next 2).

(** ** The provider *)

Inductive LastCheck := LastUpdates (versions : list str) | LastFailed (message : str).

(** The store is shared with the daemon's state, which reads it through here. *)
Record HostPackageProvider := mkHost {
  hp_store : UpdateStore;
  reboot_marker : str;
  last : option LastCheck;
}.
Definition set_last (v : LastCheck) (p : HostPackageProvider) : HostPackageProvider :=
  mkHost (hp_store p) (reboot_marker p) (Some v).
Definition set_store (s : UpdateStore) (p : HostPackageProvider) : HostPackageProvider :=
  mkHost s (reboot_marker p) (last p).

Definition host_new (s : UpdateStore) : HostPackageProvider :=
  mkHost s "/var/run/reboot-required" None.

(** [PathBuf::with_extension("pkgs")] of a path whose file name has no dot. *)
Definition pkgs_path (marker : str) : str := marker ++ ".pkgs".

Definition SIMULATE : list str := ["-s" : str; "-o" : str; "Debug::NoLocking=1" : str; "upgrade" : str].

Definition store_err (e : StoreError) : UpdateError := Source (store_error_to_string e).

Definition to_available (ch : Channel) (u : PackageUpgrade) : AvailableUpdate :=
  mkAvailable ch (version_from_debian (pu_to u)) (pu_name u)
    (match pu_from u with
     | Some from => pu_name u ++ ": " ++ from ++ " -> " ++ pu_to u ++ " (" ++ pu_source u ++ ")"
     | None => pu_name u ++ ": new, " ++ pu_to u ++ " (" ++ pu_source u ++ ")"
     end)
    None 0 None None.

Section provider.
Context {env : Env} {serde : Serde StoreData}.

Definition host_check (ch : Channel) (p : HostPackageProvider)
    : io (result UpdateError AvailableUpdates * HostPackageProvider) :=
  output ← run COMMAND_TIMEOUT "apt-get" SIMULATE;
  match output with
  | Err message => mret (Err (Source message), set_last (LastFailed message) p)
  | Ok out =>
      let upgrades := parse_simulation out in
      let p := set_last (LastUpdates ((λ u, pu_name u ++ " " ++ pu_to u) <$> upgrades)) p in
      now ← rfc3339_now;
      '(r, store) ← record_check now (hp_store p);
      let p := set_store store p in
      match r with
      | Err e => mret (Err (store_err e), p)
      | Ok _ => mret (Ok (mkAvailables ch (to_available ch <$> upgrades)), p)
      end
  end.

Definition host_status (p : HostPackageProvider) : result UpdateError UpdateStatus :=
  match last p with
  | None => Err (Conflict "no update check has run yet")
  | Some (LastFailed message) => Ok (StatusError message)
  | Some (LastUpdates []) => Ok UpToDate
  | Some (LastUpdates versions) => Ok (UpdateAvailable versions)
  end.

Definition host_reboot_required (p : HostPackageProvider)
    : io (result UpdateError RebootStatus * HostPackageProvider) :=
  let current := Store.reboot (hp_store p) in
  present ← exists_path (reboot_marker p);
  if negb present then
    if required current then
      '(r, store) ← set_reboot reboot_default (hp_store p);
      mret (_ ← map_err store_err r; Ok reboot_default, set_store store p)
    else mret (Ok reboot_default, p)
  else if required current then mret (Ok current, p)
  else
    text ← fs_read_to_string (pkgs_path (reboot_marker p));
    let packages := match text with
                    | Ok s => let j := join ", " (take 5 (lines s)) in
                              if decide (j = []) then None else Some j
                    | Err _ => None
                    end in
    now ← rfc3339_now;
    let status := mkReboot true
      (Some (match packages with
             | Some p => "updated packages need a reboot: " ++ p
             | None => "the system reports that a reboot is required"
             end))
      (Some now) in
    '(r, store) ← set_reboot status (hp_store p);
    mret (_ ← map_err store_err r; Ok status, set_store store p).

#[global] Instance host_provider : UpdateProvider HostPackageProvider := {|
  check := host_check;
  status := host_status;
  reboot_required := host_reboot_required;
  Types.history p := Ok (Store.history (hp_store p));
  Types.apply := default_apply;
|}.

End provider.

(** ** Lemmas *)

Lemma run_inv {env : Env} timeout p args w r w1 :
  run timeout p args w = (r, w1) → commands w1 = (p, args) :: commands w.
Proof. unfold run. intros H. step_in H as e w2 E. injection E as <- <-. by injection H as <- <-. Qed.

Lemma readonly_exists {env : Env} p : readonly (exists_path p).
Proof. unfold exists_path, metadata. follow. Qed.
#[export] Hint Resolve readonly_exists : abora.

(** *** The simulation's text *)

Definition inst_line (u : PackageUpgrade) : str :=
  "Inst " ++ pu_name u ++ " "
  ++ match pu_from u with Some from => "[" ++ from ++ "] " | None => [] end
  ++ "(" ++ pu_to u ++ " " ++ pu_source u ++ ")".

(** An upgrade whose parts do not contain the delimiters. *)
Record wf_upgrade (u : PackageUpgrade) : Prop := {
  wf_name : valid_package_name (pu_name u) = true;
  wf_from : ∀ f, pu_from u = Some f → ("]"%char ∉ f) ∧ LF ∉ f;
  wf_to : pu_to u ≠ [] ∧ (" "%char ∉ pu_to u) ∧ (")"%char ∉ pu_to u) ∧ LF ∉ pu_to u;
  wf_source : (")"%char ∉ pu_source u) ∧ LF ∉ pu_source u;
}.

Lemma valid_name_char name c :
  valid_package_name name = true → package_char c = false → c ∉ name.
Proof.
  unfold valid_package_name. intros H Hc. bool_norm. by eapply forallb_not_elem.
Qed.

Lemma parse_inst_line_round u tail :
  wf_upgrade u → parse_inst_line (inst_line u ++ tail) = Some u.
Proof.
  intros [Hn Hf (Ht & Hts & Htp & _) [Hs _]]. unfold parse_inst_line, inst_line.
  rewrite <-!app_assoc, strip_prefix_app. simpl.
  rewrite split_once_app by by eapply valid_name_char. simpl. rewrite Hn. simpl.
  assert (Hin : split_once ")" ((pu_to u ++ " "%char :: pu_source u) ++ ")"%char :: tail)
                = Some (pu_to u ++ " "%char :: pu_source u, tail)).
  { apply split_once_app. rewrite not_elem_of_app, not_elem_of_cons. by split_and!. }
  rewrite <-app_assoc in Hin.
  destruct u as [name [from|] to source]; simpl in *.
  - destruct (Hf from eq_refl) as [Hb _]. rewrite <-!app_assoc. simpl.
    rewrite split_once_app by done. cbn [mbind option_bind].
    assert (Htr : ∀ x, trim_start (" "%char :: "("%char :: x) = "("%char :: x)
      by (intros x; by apply (trim_start_id "(" x)).
    rewrite Htr. simpl. rewrite Hin.
    rewrite split_once_app by done. by rewrite decide_False.
  - rewrite Hin. rewrite split_once_app by done. by rewrite decide_False.
Qed.

Lemma inst_line_clean u : wf_upgrade u → clean_line (inst_line u).
Proof.
  intros [Hn Hf (_ & _ & _ & Ht) [_ Hs]]. pose proof (valid_name_char _ LF Hn eq_refl) as Hl.
  unfold inst_line. split.
  - rewrite !not_elem_of_app. split_and!; try done; try by apply (bool_decide_eq_true_1 (LF ∉ _)).
    destruct (pu_from u) as [f|]; [|apply not_elem_of_nil].
    rewrite !not_elem_of_app. destruct (Hf f eq_refl).
    split_and!; try done; by apply (bool_decide_eq_true_1 (LF ∉ _)).
  - intros r E. rewrite !app_assoc in E. by apply app_inj_tail in E as [_ E].
Qed.

Lemma parse_inst_line_valid line u :
  parse_inst_line line = Some u → valid_package_name (pu_name u) = true ∧ pu_to u ≠ [].
Proof.
  unfold parse_inst_line. intros H.
  destruct (strip_prefix "Inst " line) as [rest|]; [|done]. simpl in H.
  destruct (split_once " " rest) as [[name rest']|]; [|done]. simpl in H.
  destruct (valid_package_name name) eqn:Hn; [|done]. simpl in H.
  apply bind_Some in H as ([from rest2] & _ & H). simpl in H.
  apply bind_Some in H as (inner & _ & H).
  destruct (match split_once " " _ with Some p => p | None => _ end) as [to source].
  case_decide; [done|]. by injection H as <-.
Qed.

(** A line of the simulation's output. *)
Inductive out_line := Upgrade (u : PackageUpgrade) (trailer : str) | Noise (line : str).
Definition line_text (l : out_line) : str :=
  match l with Upgrade u trailer => inst_line u ++ trailer | Noise line => line end.
Definition line_upgrade (l : out_line) : option PackageUpgrade :=
  match l with Upgrade u _ => Some u | Noise _ => None end.
Definition wf_line (l : out_line) : Prop :=
  clean_line (line_text l) ∧
  match l with
  | Upgrade u _ => wf_upgrade u
  | Noise line => starts_with "Inst " line = false
  end.

(** ** Properties *)

(** C32: [apt-get]'s simulation is read back. From the text of any list of
    upgrades, in [apt]'s format and with any other lines around and after them,
    exactly these upgrades are parsed, in order; and whatever the text, each
    parsed upgrade has a valid package name and a target version. *)
Theorem simulation_round_trip (ls : list out_line) :
  Forall wf_line ls →
  parse_simulation (unlines (line_text <$> ls)) = omap line_upgrade ls
  ∧ ∀ output u, u ∈ parse_simulation output →
      valid_package_name (pu_name u) = true ∧ pu_to u ≠ [].
Proof.
  intros Hls. split.
  - unfold parse_simulation. rewrite lines_unlines by (induction Hls as [|l ls [? _]]; by constructor).
    induction Hls as [|l ls [_ Hl] _ IH]; [done|]. csimpl. rewrite IH.
    replace (parse_inst_line (line_text l)) with (line_upgrade l); [done|].
    destruct l as [u t|s]; cbn [line_text line_upgrade]; [by rewrite parse_inst_line_round|].
    unfold parse_inst_line. unfold starts_with in Hl. by destruct (strip_prefix "Inst " s).
  - intros output u Hu. unfold parse_simulation in Hu.
    apply list_elem_of_omap in Hu as (line & _ & Hu). by apply parse_inst_line_valid in Hu.
Qed.
Lemma simulation_round_trip_witness :
  parse_simulation (unlines ["NOTE: simulation" : str; "Inst zlib1g [1] (2 Ubuntu:24.04 [amd64]) []" : str])
  = [mkUpgrade "zlib1g" (Some ("1" : str)) "2" "Ubuntu:24.04 [amd64]"].
Proof.
  apply (simulation_round_trip [Noise "NOTE: simulation";
    Upgrade (mkUpgrade "zlib1g" (Some ("1" : str)) "2" "Ubuntu:24.04 [amd64]") " []"]).
  repeat apply Forall_cons; [split|split|constructor].
  - apply clean_line_eval. by_eval.
  - reflexivity.
  - apply clean_line_eval. by_eval.
  - split; [reflexivity| |by_eval|by_eval]. intros f [= <-]. by_eval.
Defined.

(** ** The provider's behaviour *)

Section provider_lemmas.
Context {env : Env} {serde : Serde StoreData}.

Definition last_check_of (p : HostPackageProvider) : option str := Store.last_check (hp_store p).

Lemma quiet_reboot_required (p : HostPackageProvider) : quiet (host_reboot_required p).
Proof.
  unfold host_reboot_required, exists_path, metadata, set_reboot, fs_read_to_string, fs_read.
  follow; apply quiet_change.
Qed.

Lemma reboot_marker_kept (p : HostPackageProvider) w r p' w' :
  host_reboot_required p w = ((r, p'), w') → reboot_marker p' = reboot_marker p.
Proof.
  unfold host_reboot_required. intros H. step_in H as b w1 E1. destruct b; simpl in H.
  - destruct (required _); [by injection H as <- <- <-|].
    step_in H as t w2 E2. step_in H as n w3 E3. step_in H as rs w4 E4. destruct rs as [r1 s1].
    by injection H as <- <- <-.
  - destruct (required _); [|by injection H as <- <- <-].
    step_in H as rs w4 E4. destruct rs as [r1 s1]. by injection H as <- <- <-.
Qed.

Lemma set_reboot_inv st s w r s' w' :
  set_reboot st s w = ((r, s'), w') → is_ok r = true → Store.reboot s' = st.
Proof.
  intros H Hr. apply change_cases in H. destruct r; [|done]. subst s'.
  unfold Store.reboot. simpl. by rewrite trim_reboot.
Qed.

Lemma reboot_required_inv (p : HostPackageProvider) w st p' w' :
  host_reboot_required p w = ((Ok st, p'), w') →
  (if required st then Store.reboot (hp_store p') = st
   else st = reboot_default ∧ required (Store.reboot (hp_store p')) = false)
  ∧ required st = fst (exists_path (reboot_marker p) w).
Proof.
  unfold host_reboot_required. intros H. step_in H as b w1 E1. rewrite E1. destruct b; simpl in H.
  - destruct (required _) eqn:Er; [injection H as <- <- <-; by rewrite Er|].
    step_in H as t w2 E2. step_in H as n w3 E3. step_in H as rs w4 E4. destruct rs as [r1 s1].
    apply set_reboot_inv in E4; destruct r1 as [[]|e]; simpl in H; try done.
    by injection H as <- <- <-.
  - destruct (required _) eqn:Er; [|injection H as <- <- <-; by rewrite Er].
    step_in H as rs w4 E4. destruct rs as [r1 s1].
    apply set_reboot_inv in E4; destruct r1 as [[]|e]; simpl in H; try done.
    injection H as <- <- <-. simpl. by rewrite E4.
Qed.

(** A check is read-only on the system, and honest. The only program it
    runs is the simulation. If that fails, the error is returned and the status
    reports it; otherwise the status lists what was found and, when the time of
    the check could be stored, every parsed upgrade is returned, in order, under
    its package name, and the stored time of the last check is new. *)
Theorem check_spec (ch : Channel) (p : HostPackageProvider) w r p' w' :
  host_check ch p w = ((r, p'), w') →
  let ran := fst (run COMMAND_TIMEOUT "apt-get" SIMULATE w) in
  commands w' = ("apt-get" : str, SIMULATE) :: commands w
  ∧ match ran with
    | Err m => r = Err (Source m) ∧ host_status p' = Ok (StatusError m) ∧ hp_store p' = hp_store p
    | Ok out =>
        let ups := parse_simulation out in
        host_status p' = Ok (if decide (ups = []) then UpToDate
                             else UpdateAvailable ((λ u, pu_name u ++ " " ++ pu_to u) <$> ups))
        ∧ match r with
          | Ok a => aus_updates a = to_available ch <$> ups ∧ au_component <$> aus_updates a = pu_name <$> ups
                    ∧ is_Some (last_check_of p')
          | Err _ => hp_store p' = hp_store p
          end
    end.
Proof.
  intros H ran. subst ran. unfold host_check in H. step_in H as ans w1 E1. rewrite E1. simpl.
  apply run_inv in E1. destruct ans as [out|m].
  - step_in H as now w2 E2. apply readonly_inv in E2 as [_ C2]; [|apply readonly_now].
    step_in H as rs w3 E3. destruct rs as [rr st].
    pose proof (quiet_inv _ _ _ _ (quiet_change _ _) E3) as C3.
    pose proof (change_cases _ _ _ _ _ _ E3) as Hst.
    assert (Hs : ∀ q, last q = last (set_last (LastUpdates ((λ u, pu_name u ++ " " ++ pu_to u) <$> parse_simulation out)) p) →
      host_status q = Ok (if decide (parse_simulation out = []) then UpToDate
        else UpdateAvailable ((λ u, pu_name u ++ " " ++ pu_to u) <$> parse_simulation out))).
    { intros q Hq. unfold host_status. rewrite Hq. simpl. by destruct (parse_simulation out). }
    destruct rr as [[]|e]; injection H as <- <- <-; (split; [by rewrite C3, C2, E1|]);
      (split; [by apply Hs|]).
    + split; [done|]. split.
      * simpl. rewrite <-list_fmap_compose. done.
      * unfold last_check_of, Store.last_check. simpl. rewrite Hst. simpl.
        rewrite trim_last_check. by eexists.
    + done.
  - by injection H as <- <- <-.
Qed.

(** The reboot report is stable. A successful answer is what the store now
    holds; it asks for a reboot exactly when the marker was seen. While the marker
    stays, asking again with the store unchanged gives the same answer, its time
    and reason included, without touching the store. *)
Theorem reboot_required_stable (p : HostPackageProvider) w st p' w' :
  host_reboot_required p w = ((Ok st, p'), w') →
  (if required st then Store.reboot (hp_store p') = st
   else st = reboot_default ∧ required (Store.reboot (hp_store p')) = false)
  ∧ required st = fst (exists_path (reboot_marker p) w)
  ∧ commands w' = commands w
  ∧ ∀ w2, required st = fst (exists_path (reboot_marker p') w2) →
      ∃ w3, host_reboot_required p' w2 = ((Ok st, p'), w3).
Proof.
  intros H. pose proof (quiet_inv _ _ _ _ (quiet_reboot_required p) H) as Hq.
  assert (Hmark : reboot_marker p' = reboot_marker p) by by eapply reboot_marker_kept.
  apply reboot_required_inv in H as [Hs Hp]. split; [exact Hs|]. split; [done|]. split; [done|].
  intros w2 Hw2. unfold host_reboot_required, mbind at 1, io_bind at 1.
  destruct (exists_path (reboot_marker p') w2) as [b w3] eqn:Eb. simpl in Hw2. subst b.
  exists w3. destruct (required st) eqn:Er; simpl.
  - by rewrite Hs, Er.
  - destruct Hs as [-> Hs]. by rewrite Hs.
Qed.

End provider_lemmas.

(** A simulation with one upgrade, and a store in memory. *)
Definition example_provider : HostPackageProvider := host_new in_memory.
Definition example_world : world := mkWorld {[ ("/var/run/reboot-required" : str) := Regular [] 420 0 ]} 0 [].

Lemma check_spec_witness :
  let e := steady_env in let s := countable_serde StoreData in
  commands (snd (host_check Stable example_provider example_world))
  = ("apt-get" : str, SIMULATE) :: commands example_world.
Proof.
  intros e s.
  apply (check_spec Stable example_provider example_world
    (fst (fst (host_check Stable example_provider example_world)))
    (snd (fst (host_check Stable example_provider example_world)))).
  reflexivity.
Defined.

Lemma reboot_required_stable_witness :
  let e := steady_env in let s := countable_serde StoreData in
  let r := host_reboot_required example_provider example_world in
  commands (snd r) = commands example_world.
Proof.
  intros e s r.
  apply (reboot_required_stable example_provider example_world
    (mkReboot true (Some ("the system reports that a reboot is required" : str))
       (Some ("1970-01-01T00:00:00.000Z" : str)))
    (snd (fst r)) (snd r)).
  vm_compute. reflexivity.
Defined.
