(* ===== verification/Runner.v ===== *)
(** * Running a program with a timeout

    The waiting of [SystemRunner::run] ([crates/abora-update/src/host.rs]): the
    child is polled until it ends or the timeout has passed, then the threads that
    drain its pipes are joined. [World.run_command] and [Host.run] are this loop
    once it has ended. *)

From S2P Require Import Prelude Str World Replace Log Version Types Store Host.

(** 50 milliseconds, in nanoseconds. *)
Definition POLL : N := 50000000.

(** What the operating system lets the parent see of a child: the answer of the
    [k]-th [try_wait] (an error, or the status once there is one), the time since
    the start at that moment, and the bytes each pipe gives until its end, if it
    ever comes: it comes when every process that holds the pipe has closed it. *)
Record child := mkChild {
  try_wait : nat → result str (option (bool * str));
  elapsed_at : nat → N;
  out_pipe : option str;
  err_pipe : option str;
}.

(** How the loop is left. *)
Inductive waited :=
| Status (success : bool) (status : str)
| KilledAfterTimeout
| WaitError (e : str).

(** The loop from its [k]-th turn on; [None] is a loop still turning. *)
Fixpoint wait_loop (timeout : N) (c : child) (fuel k : nat) : option waited :=
  match fuel with
  | O => None
  | S fuel =>
      match try_wait c k with
      | Ok (Some (success, status)) => Some (Status success status)
      | Ok None =>
          if (timeout * 1000000000 <? elapsed_at c k)%N then Some KilledAfterTimeout
          else wait_loop timeout c fuel (S k)
      | Err e => Some (WaitError e)
      end
  end.

(** The end of the child, once the loop is left: only a status joins the
    readers. *)
Definition joined (c : child) (w : waited) : option process_end :=
  match w with
  | Status success status =>
      out ← out_pipe c;
      err ← err_pipe c;
      Some (Exited success status out err)
  | KilledAfterTimeout => Some TimedOut
  | WaitError e => Some (WaitFailed e)
  end.

Definition run_child (timeout : N) (spawned : result str child) (fuel : nat) : option process_end :=
  match spawned with
  | Err e => Some (SpawnFailed e)
  | Ok c => w ← wait_loop timeout c fuel 0; joined c w
  end.

(** [SystemRunner::run]. *)
Definition system_run (timeout : N) (program : str) (spawned : result str child) (fuel : nat)
    : option (result str str) :=
  finish timeout program <$> run_child timeout spawned fuel.

(** Turns enough for any child. *)
Definition polls (timeout : N) : nat := N.to_nat (timeout * 1000000000 / POLL) + 2.

(** Sleeping takes at least as long as asked, and time does not run back. *)
Definition sleeps (c : child) : Prop := ∀ k, (N.of_nat k * POLL ≤ elapsed_at c k)%N.

(** ** Lemmas *)

Lemma wait_loop_more timeout c fuel fuel' k w :
  wait_loop timeout c fuel k = Some w → fuel ≤ fuel' → wait_loop timeout c fuel' k = Some w.
Proof.
  revert fuel' k. induction fuel as [|fuel IH]; intros fuel' k H Hle; [done|].
  destruct fuel' as [|fuel']; [lia|]. simpl in *.
  destruct (try_wait c k) as [[[]|]|]; try done. destruct (_ <? _)%N; [done|]. apply IH; [done|lia].
Qed.

(** The loop ends by the turn whose time is past the timeout. *)
Lemma wait_loop_by timeout c fuel k n :
  sleeps c → k ≤ n → n < k + fuel → (timeout * 1000000000 < N.of_nat n * POLL)%N →
  is_Some (wait_loop timeout c fuel k).
Proof.
  intros Hs. revert k. induction fuel as [|fuel IH]; intros k Hk Hn Ht; [lia|]. simpl.
  destruct (try_wait c k) as [[[]|]|]; [by eexists| |by eexists].
  destruct (_ <? _)%N eqn:E; [by eexists|]. bool_norm. pose proof (Hs k).
  apply IH; [|lia|done]. assert (k ≠ n); [|lia]. intros ->. lia.
Qed.

Lemma polls_enough timeout :
  ∃ n, n < polls timeout ∧ (timeout * 1000000000 < N.of_nat n * POLL)%N.
Proof.
  exists (N.to_nat (timeout * 1000000000 / POLL) + 1). unfold polls. split; [lia|].
  rewrite Nat2N.inj_add, N2Nat.id. change (N.of_nat 1) with 1%N.
  pose proof (N.div_mod (timeout * 1000000000) POLL ltac:(done)) as Hd.
  pose proof (N.mod_lt (timeout * 1000000000) POLL ltac:(done)) as Hm. lia.
Qed.

(** How turn [k] leaves the loop, when it does. *)
Definition leaves (timeout : N) (c : child) (k : nat) (w : waited) : Prop :=
  match try_wait c k with
  | Ok (Some (success, status)) => w = Status success status
  | Ok None => (timeout * 1000000000 < elapsed_at c k)%N ∧ w = KilledAfterTimeout
  | Err e => w = WaitError e
  end.
(** Turn [k] goes on to the next. *)
Definition goes_on (timeout : N) (c : child) (k : nat) : Prop :=
  try_wait c k = Ok None ∧ (elapsed_at c k ≤ timeout * 1000000000)%N.

Lemma wait_loop_turns timeout c fuel k w :
  wait_loop timeout c fuel k = Some w ↔
  ∃ n, k ≤ n < k + fuel ∧ (∀ j, k ≤ j < n → goes_on timeout c j) ∧ leaves timeout c n w.
Proof.
  revert k. induction fuel as [|fuel IH]; intros k.
  - simpl. split; [done|]. intros (n & Hn & _). lia.
  - split.
    + intros H. simpl in H. destruct (try_wait c k) as [[[s t]|]|e] eqn:Ek.
      * exists k. unfold leaves. rewrite Ek. split; [lia|]. split; [lia|]. by injection H as <-.
      * destruct (_ <? _)%N eqn:E; bool_norm.
        -- exists k. unfold leaves. rewrite Ek. split; [lia|]. split; [lia|]. by injection H as <-.
        -- apply IH in H as (n & Hn & Hj & Hl). exists n. split; [lia|]. split; [|done].
           intros j Hjn. destruct (decide (j = k)) as [->|Hne]; [by split|]. apply Hj. lia.
      * exists k. unfold leaves. rewrite Ek. split; [lia|]. split; [lia|]. by injection H as <-.
    + intros (n & Hn & Hj & Hl). simpl. destruct (decide (n = k)) as [->|Hne].
      * unfold leaves in Hl. destruct (try_wait c k) as [[[s t]|]|e]; [by subst| |by subst].
        destruct Hl as [Ht ->]. by rewrite (proj2 (N.ltb_lt _ _) Ht).
      * destruct (Hj k ltac:(lia)) as [-> Ht]. rewrite (proj2 (N.ltb_ge _ _) Ht).
        apply IH. exists n. split; [lia|]. split; [|done]. intros j Hjn. apply Hj. lia.
Qed.

(** ** Properties *)


(** A child that ends at its third poll, and one that sleeps for ever. *)
Definition quick_child : child :=
  mkChild (λ k, if (k <? 2)%nat then Ok None else Ok (Some (true, "0" : str)))
    (λ k, N.of_nat k * POLL)%N (Some ("out" : str)) (Some []).
Definition stuck_child : child := mkChild (λ _, Ok None) (λ k, N.of_nat k * POLL)%N None None.
(** One that ends at once but leaves a process behind. *)
Definition daemonised_child : child :=
  mkChild (λ _, Ok (Some (true, "0" : str))) (λ k, N.of_nat k * POLL)%N None (Some []).

Example quick_runs : system_run 1 "p" (Ok quick_child) (polls 1) = Some (Ok ("out" : str)).
Proof. reflexivity. Qed.
Example stuck_killed :
  system_run 1 "p" (Ok stuck_child) (polls 1) = Some (Err ("p timed out after 1s" : str)).
Proof. vm_compute. reflexivity. Qed.
(** The timeout does not bound this call. *)
Lemma daemonised_never_returns timeout program fuel :
  system_run timeout program (Ok daemonised_child) fuel = None.
Proof. by destruct fuel. Qed.

