(* ===== verification/Apply.v ===== *)
(** * abora-update: what the daemon and the root helper share

    Models [crates/abora-update/src/apply.rs]: the request and result files and
    the rules both sides check them by. *)

From S2P Require Import Prelude Str World Replace Types Host.

Definition MAX_PACKAGES : nat := 2000.
(** Ten minutes, in nanoseconds. *)
Definition MAX_REQUEST_AGE : N := 600000000000.
Definition MAX_FILE_BYTES : N := 1048576.
Definition REQUEST_FILE_NAME : str := "apply-request.json".

Record ApplyRequest := mkRequest {
  ar_id : str;
  ar_requested_at : str;
  ar_requested_by : str;
  ar_packages : list str;
}.
#[global] Instance ApplyRequest_eq_dec : EqDecision ApplyRequest.
Proof. solve_decision. Defined.

Record ApplyResult := mkResult {
  res_id : str;
  res_started_at : str;
  res_finished_at : str;
  res_succeeded : bool;
  res_packages : list str;
  res_note : option str;
  res_reboot_started : bool;
}.
#[global] Instance ApplyResult_eq_dec : EqDecision ApplyResult.
Proof. solve_decision. Defined.

Definition id_char (c : ascii) : bool := is_ascii_alphanumeric c || is_char "-" c.
Definition valid_request_id (id : str) : bool :=
  (8 <=? length id)%nat && (length id <=? 64)%nat && forallb id_char id.

Definition find_invalid (packages : list str) : option str :=
  head (filter (λ p, valid_package_name p = false) packages).

Definition validate_request (r : ApplyRequest) : result str () :=
  if negb (valid_request_id (ar_id r)) then Err ("request id is not valid" : str)
  else if bool_decide (ar_packages r = []) then Err ("request names no packages" : str)
  else if (MAX_PACKAGES <? length (ar_packages r))%nat
  then Err ("request names more than " ++ dec_nat MAX_PACKAGES ++ " packages")
  else match find_invalid (ar_packages r) with
       | Some bad => Err ("request contains an invalid package name (" ++ dec_nat (length bad) ++ " bytes)")
       | None => Ok ()
       end.

Definition FIXED_ARGS : list str :=
  ["-y" : str; "--no-remove" : str;
   "-o" : str; "Dpkg::Options::=--force-confold" : str;
   "-o" : str; "Dpkg::Options::=--force-confdef" : str;
   "install" : str; "--only-upgrade" : str; "--" : str].
Definition install_args (packages : list str) : list str := FIXED_ARGS ++ packages.

Section files.
Context {env : Env}.

Definition write_atomic (path bytes : str) (mode : N) : io (result io_error ()) :=
  try (match parent_dir path with
       | Some parent => create_dir_all parent
       | None => mret (Ok ())
       end) (λ _,
  let tmp := tmp_path path in
  r ← try (try (open_truncate tmp mode) (λ _, try (write_all tmp bytes) (λ _, sync_all)))
        (λ _, rename tmp path);
  match r with
  | Err e => _ ← remove_file tmp; mret (Err e)
  | Ok _ => mret (Ok ())
  end).

Definition with_path (path : str) (e : io_error) : str := path ++ ": " ++ io_message e.

(** How long ago [mtime] was; a time in the future counts as now. *)
Definition age_of (now mtime : N) : N := (now - mtime)%N.

Definition read_regular_file (path : str) (max_age : option N) : io (result str str) :=
  meta ← symlink_metadata path;
  match meta with
  | Err e => mret (Err (with_path path e))
  | Ok (Regular bytes _ mtime) =>
      if (MAX_FILE_BYTES <? N.of_nat (length bytes))%N
      then mret (Err (path ++ " is larger than " ++ dec MAX_FILE_BYTES ++ " bytes"))
      else
        old ← match max_age with
              | Some max_age =>
                  now ← time_now;
                  mret (if (max_age <? age_of now mtime)%N
                        then Some (path ++ " is older than "
                                   ++ dec (max_age / 1000000000 / 60) ++ " minutes")
                        else None)
              | None => mret None
              end;
        match old with
        | Some e => mret (Err e)
        | None => r ← fs_read path; mret (map_err (with_path path) r)
        end
  | Ok _ => mret (Err (path ++ " is not a regular file"))
  end.

End files.

(** ** Lemmas *)

Section lemmas.
Context {env : Env}.

Lemma readonly_read_regular path max_age : readonly (read_regular_file path max_age).
Proof. unfold read_regular_file. follow. Qed.

Lemma quiet_write_atomic path bytes mode : quiet (write_atomic path bytes mode).
Proof. unfold write_atomic. follow. Qed.

(** What a successful read found: a regular file, small, and not too old by a
    clock read on the way. *)
Lemma read_regular_ok path max_age w bytes w1 :
  read_regular_file path max_age w = (Ok bytes, w1) →
  ∃ m t, files w !! path = Some (Regular bytes m t)
         ∧ (N.of_nat (length bytes) ≤ MAX_FILE_BYTES)%N
         ∧ ∀ a, max_age = Some a → (age_of (system_time (S (calls w))) t ≤ a)%N.
Proof.
  unfold read_regular_file, symlink_metadata, syscall, mbind, io_bind.
  destruct (io_fault (calls w)); [done|].
  destruct (files w !! path) as [[b m t| |]|] eqn:E; try done.
  destruct (MAX_FILE_BYTES <? _)%N eqn:El; [done|]. bool_norm.
  assert (Hl : resolve (files w) path = Some path)
    by (apply resolve_not_link; intros t'; by rewrite E).
  destruct max_age as [a|]; simpl; unfold mret, io_ret.
  - destruct (a <? _)%N eqn:Ea; [done|]. simpl. bool_norm. rewrite Hl.
    destruct (io_fault _); [done|]. rewrite E. intros [= -> _].
    exists m, t. split; [done|]. split; [done|]. by intros ? [= <-].
  - rewrite Hl. destruct (io_fault _); [done|]. rewrite E. intros [= -> _]. by exists m, t.
Qed.

(** [write_atomic] replaces the file or leaves it, and no program runs. At no
    moment does the path hold anything but the old node or all of the bytes. *)
Lemma write_atomic_spec path bytes mode old md w :
  untouched path (tmp_path path) old mode md (files w) →
  let I fs := fs !! path = old ∨ ∃ t, fs !! path = Some (Regular bytes md t) in
  let '(r, w') := write_atomic path bytes mode w in
  always (trace w) I w'
  ∧ match r with
    | Ok _ => ∃ t, files w' !! path = Some (Regular bytes md t)
    | Err _ => files w' !! path = old
    end.
Proof.
  intros Hu I. pose proof (tmp_path_ne path) as Hne.
  assert (H : spec (λ w', always (trace w) I w' ∧ untouched path (tmp_path path) old mode md (files w'))
    (write_atomic path bytes mode)
    (λ r w', always (trace w) I w' ∧ match r with
       | Ok _ => ∃ t, files w' !! path = Some (Regular bytes md t)
       | Err _ => files w' !! path = old end)).
  { unfold write_atomic. eapply spec_try with (M := λ _ w',
      always (trace w) I w' ∧ untouched path (tmp_path path) old mode md (files w')).
    - destruct (parent_dir path) as [dir|] eqn:Ed; [|by apply spec_ret].
      apply create_dir_all_spec; [by apply parent_dir_ne|by left].
    - intros []. eapply spec_bind; [apply staged_write_spec; [done|by left|by right; eauto]|].
      intros [[]|e]; [by apply spec_ret|].
      eapply spec_bind; [apply remove_file_spec; [done|by left]|]. intros r. by apply spec_ret.
    - intros e w' [Hi Hu']. split; [done|]. apply Hu'. }
  specialize (H w). destruct (write_atomic path bytes mode w) as [r w']. apply H.
  split; [|done]. apply always_refl. left. apply Hu.
Qed.

(** A valid package name is not taken for an option. *)
Lemma valid_name_no_option p : valid_package_name p = true →
  p ≠ [] ∧ starts_with "-" p = false ∧ forallb package_char p = true ∧ length p ≤ 200.
Proof. unfold valid_package_name. intros H. by bool_norm. Qed.

Lemma find_invalid_None ps :
  find_invalid ps = None ↔ Forall (λ p, valid_package_name p = true) ps.
Proof.
  unfold find_invalid. induction ps as [|p ps IH]; [done|].
  rewrite filter_cons, Forall_cons_iff. destruct (valid_package_name p) eqn:E; simpl.
  - rewrite IH. naive_solver.
  - naive_solver.
Qed.

Lemma validate_request_ok r : validate_request r = Ok () ↔
  valid_request_id (ar_id r) = true ∧ ar_packages r ≠ [] ∧ length (ar_packages r) ≤ MAX_PACKAGES
  ∧ Forall (λ p, valid_package_name p = true) (ar_packages r).
Proof.
  rewrite <-find_invalid_None. unfold validate_request.
  destruct (valid_request_id _); simpl; [|naive_solver].
  rewrite bool_decide_decide. destruct (decide _); [naive_solver|].
  destruct (MAX_PACKAGES <? _)%nat eqn:E; bool_norm; [split; [done|lia]|].
  destruct (find_invalid _); naive_solver.
Qed.

End lemmas.

#[export] Hint Resolve readonly_read_regular quiet_write_atomic : abora.

(** ** Properties *)

(** The files the two sides exchange are replaced atomically. Whatever
    fails, and wherever the machine stops, the path holds the old file or all of
    the new bytes; success means the new bytes are there, an error that the old
    file is still there. *)
Theorem write_atomic_crash_safe {env : Env} path bytes mode w :
  not_link (files w) (tmp_path path) →
  let '(r, w') := write_atomic path bytes mode w in
  let new fs := ∃ m t, fs !! path = Some (Regular bytes m t) in
  always (trace w) (λ fs, fs !! path = files w !! path ∨ new fs) w'
  ∧ match r with Ok _ => new (files w') | Err _ => files w' !! path = files w !! path end.
Proof.
  intros Hl. pose proof (write_atomic_spec path bytes mode (files w !! path)
    (mode_of (files w) (tmp_path path) mode) w) as H.
  destruct (write_atomic path bytes mode w) as [r w'].
  destruct H as [Ha Hr]; [by split_and!|]. split.
  - destruct Ha as (Hi & evs & Ht & He). split; [destruct Hi; eauto|].
    exists evs. split; [done|]. eapply Forall_impl; [|exact He].
    intros [fs|]; simpl; [|done]. intros [|]; eauto.
  - destruct r; [|done]. destruct Hr. eauto.
Qed.
Lemma write_atomic_crash_safe_witness :
  let w := mkWorld ∅ 0 [] in
  let '(r, w') := write_atomic (env := steady_env) "/s/u" "new" 384 w in
  always (trace w) (λ fs, fs !! ("/s/u" : str) = files w !! ("/s/u" : str)
    ∨ ∃ m t, fs !! ("/s/u" : str) = Some (Regular "new" m t)) w'
  ∧ match r with
    | Ok _ => ∃ m t, files w' !! ("/s/u" : str) = Some (Regular "new" m t)
    | Err _ => files w' !! ("/s/u" : str) = files w !! ("/s/u" : str)
    end.
Proof.
  intros w. apply (write_atomic_crash_safe (env := steady_env) "/s/u" "new" 384 w).
  intros t. vm_compute. done.
Defined.

(** What the helper accepts as a file: a successful read returns the
    content of a regular file (never through a link) of at most 1 MiB, modified
    no longer ago than the limit when there is one, and changes nothing. *)
Theorem read_regular_file_safe {env : Env} path max_age w bytes w' :
  read_regular_file path max_age w = (Ok bytes, w') →
  (∃ m t, files w !! path = Some (Regular bytes m t)
     ∧ (N.of_nat (length bytes) ≤ MAX_FILE_BYTES)%N
     ∧ ∀ a, max_age = Some a → ∃ n, (age_of (system_time n) t ≤ a)%N)
  ∧ files w' = files w ∧ commands w' = commands w.
Proof.
  intros H. split; [|by apply (readonly_inv _ _ _ _ (readonly_read_regular path max_age) H)].
  apply read_regular_ok in H as (m & t & Hf & Hl & Ha).
  exists m, t. split; [done|]. split; [done|]. intros a Hm. by eexists; apply Ha.
Qed.
Lemma read_regular_file_safe_witness :
  let w := mkWorld {[ ("/r" : str) := Regular "x" 384 5 ]} 0 [] in
  files (snd (read_regular_file (env := steady_env) "/r" (Some MAX_REQUEST_AGE) w)) = files w.
Proof.
  intros w.
  apply (read_regular_file_safe (env := steady_env) "/r" (Some MAX_REQUEST_AGE) w "x"
           (snd (read_regular_file (env := steady_env) "/r" (Some MAX_REQUEST_AGE) w))).
  vm_compute. reflexivity.
Defined.

(** The package names of a request that passes validation end up after
    [--] in [apt-get]'s arguments, unchanged, at least one and at most 2,000 of
    them, each of at most 200 characters of [a-z0-9+-.:] and none starting with
    a dash: no name can be an option. *)
Theorem install_args_safe (r : ApplyRequest) (todo : list str) :
  validate_request r = Ok () → todo ⊆ ar_packages r →
  install_args todo = FIXED_ARGS ++ todo
  ∧ List.last FIXED_ARGS [] = "--"
  ∧ 1 ≤ length (ar_packages r) ≤ 2000
  ∧ ∀ p, p ∈ todo → p ∈ ar_packages r ∧ starts_with "-" p = false ∧ 1 ≤ length p ≤ 200
                    ∧ forallb package_char p = true.
Proof.
  intros Hv Hs. apply validate_request_ok in Hv as (_ & Hn & Hl & Hf).
  split; [done|]. split; [done|]. split.
  { unfold MAX_PACKAGES in Hl. destruct (ar_packages r); simpl in *; [done|lia]. }
  intros p Hp. apply Hs in Hp. split; [done|].
  rewrite Forall_forall in Hf. apply list_elem_of_In, Hf, valid_name_no_option in Hp as (Hp & ? & ? & ?).
  destruct p; [done|]. simpl in *. auto with lia.
Qed.
Lemma install_args_safe_witness :
  let r := mkRequest "apply-0123" "t" "me" ["zlib1g" : str] in
  install_args ["zlib1g" : str] = FIXED_ARGS ++ ["zlib1g" : str].
Proof. intros r. apply (install_args_safe r); [vm_compute; reflexivity|done]. Defined.
