(* ===== verification/Race.v ===== *)
(** * Writers of one file, system call by system call

    [write_atomic] ([crates/abora-update/src/apply.rs]) names its temporary file
    after the target alone, so two calls for one target at one time share it. Here
    the calls of several writers alternate in any order, on inodes: an open file
    stays the same file when it is renamed. Links and directories are as in [World]
    and left out; the calls that std repeats when interrupted are one call. *)

From S2P Require Import Prelude Str World Replace Apply.

(** ** The disk and the writers *)

(** The inode the temporary name stands for, the inode the target stands for, and
    the bytes of every inode. *)
Record disk := mkDisk {
  staged_ino : option nat;
  target_ino : option nat;
  contents : list str;
}.

(** How far a writer is in [write_atomic]. *)
Inductive place :=
| Preparing                              (* before [create_dir_all] *)
| Opening                                (* before [open] *)
| Writing (fd done : nat)                (* in [write_all], [sync_all] at its end *)
| Renaming
| Cleaning (e : io_error)                (* before [remove_file] *)
| Answered (r : result io_error ()).
#[global] Instance place_eq_dec : EqDecision place.
Proof. solve_decision. Defined.

(** What the host makes of a call; a [write] takes some of the bytes. *)
Inductive call := Fault (e : io_error) | Took (n : nat).

Definition NUL : ascii := "000".
Definition write_zero : io_error := mkIoError OtherError "failed to write whole buffer".

(** Writing at an offset, past the end too. *)
Definition overwrite (off : nat) (chunk b : str) : str :=
  take off (b ++ replicate (off - length b) NUL) ++ chunk ++ drop (off + length chunk) b.

Definition set_contents (i : nat) (f : str → str) (d : disk) : disk :=
  mkDisk (staged_ino d) (target_ino d) (alter f i (contents d)).

Definition open_staged (d : disk) : disk * nat :=
  match staged_ino d with
  | Some i => (set_contents i (λ _, []) d, i)
  | None => let i := length (contents d) in
            (mkDisk (Some i) (target_ino d) (contents d ++ [[]]), i)
  end.

(** The next system call of a writer of [bytes]. *)
Definition turn (bytes : str) (c : call) (d : disk) (p : place) : disk * place :=
  match p, c with
  | Preparing, Fault e => (d, Answered (Err e))
  | Preparing, Took _ => (d, Opening)
  | Opening, Fault e => (d, Cleaning e)
  | Opening, Took _ => let '(d, fd) := open_staged d in (d, Writing fd 0)
  | Writing _ _, Fault e => (d, Cleaning e)
  | Writing fd k, Took n =>
      match drop k bytes with
      | [] => (d, Renaming)
      | rest =>
          let chunk := take n rest in
          if decide (chunk = []) then (d, Cleaning write_zero)
          else (set_contents fd (overwrite k chunk) d, Writing fd (k + length chunk))
      end
  | Renaming, Fault e => (d, Cleaning e)
  | Renaming, Took _ =>
      match staged_ino d with
      | None => (d, Cleaning enoent)
      | Some i => (mkDisk None (Some i) (contents d), Answered (Ok ()))
      end
  | Cleaning e, Fault _ => (d, Answered (Err e))
  | Cleaning e, Took _ => (mkDisk None (target_ino d) (contents d), Answered (Err e))
  | Answered r, _ => (d, Answered r)
  end.

(** One writer alone. *)
Fixpoint turns (bytes : str) (cs : list call) (d : disk) (p : place) : disk * place :=
  match cs with
  | [] => (d, p)
  | c :: cs => let '(d, p) := turn bytes c d p in turns bytes cs d p
  end.

(** Several: each with its bytes. *)
Record race := mkRace { disk_of : disk; writers : list (str * place) }.

Definition move (m : nat * call) (s : race) : race :=
  match writers s !! fst m with
  | Some (bytes, p) =>
      let '(d, p) := turn bytes (snd m) (disk_of s) p in
      mkRace d (<[fst m := (bytes, p)]> (writers s))
  | None => s
  end.

Definition moves (ms : list (nat * call)) (s : race) : race := foldl (flip move) s ms.

(** What a reader of a name finds. *)
Definition content (d : disk) (o : option nat) : option str := i ← o; contents d !! i.
Definition shown (s : race) : option str := content (disk_of s) (target_ino (disk_of s)).

Definition disk_ok (d : disk) : Prop :=
  (∀ i, target_ino d = Some i → i < length (contents d))
  ∧ (∀ i, staged_ino d = Some i → i < length (contents d) ∧ target_ino d ≠ Some i).

(** Every writer is about to start; a crash may have left a temporary file. *)
Definition race_start (texts : list str) (d : disk) : race := mkRace d ((λ t, (t, Preparing)) <$> texts).

(** A writer with no open file and nothing to clean. *)
Definition resting (p : place) : bool :=
  match p with Preparing | Opening | Answered _ => true | _ => false end.

(** The move comes when no other writer is in the middle. *)
Definition alone (k : nat) (s : race) : Prop :=
  ∀ j t p, writers s !! j = Some (t, p) → j ≠ k → resting p = true.
#[global] Instance alone_dec k s : Decision (alone k s).
Proof.
  refine (cast_if (decide (Forall (λ '(j, (_, p)), j ≠ k → resting p = true)
                             (imap pair (writers s))))); unfold alone.
  - intros j t p Hj Hne. rewrite list.Forall_forall in f. apply (f (j, (t, p))); [|done].
    apply elem_of_lookup_imap. eauto.
  - intros Ha. apply n, list.Forall_forall. intros [j [t p]] Hj Hne.
    apply elem_of_lookup_imap in Hj as (i & [t' p'] & [= -> -> ->] & Hi). eauto.
Defined.

Fixpoint orderly (ms : list (nat * call)) (s : race) : Prop :=
  match ms with
  | [] => True
  | m :: ms => alone (fst m) s ∧ orderly ms (move m s)
  end.

(** Each byte is where some text has it, or was never written. *)
Definition blend (texts : list str) (b : str) : Prop :=
  ∀ i c, b !! i = Some c → c = NUL ∨ ∃ t, t ∈ texts ∧ t !! i = Some c.

(** ** Lemmas *)

Lemma moves_app ms ms' s : moves (ms ++ ms') s = moves ms' (moves ms s).
Proof. apply foldl_app. Qed.

Lemma turns_app bytes cs cs' d p :
  turns bytes (cs ++ cs') d p = let '(d, p) := turns bytes cs d p in turns bytes cs' d p.
Proof.
  revert d p. induction cs as [|c cs IH]; intros d p; [done|]. simpl.
  destruct (turn bytes c d p) as [d1 p1]. apply IH.
Qed.

Lemma turns_one bytes c d p : turns bytes [c] d p = turn bytes c d p.
Proof. simpl. by destruct (turn bytes c d p). Qed.

Lemma turns_opened bytes cs d d1 fd :
  open_staged d = (d1, fd) → turns bytes (Took 0 :: cs) d Opening = turns bytes cs d1 (Writing fd 0).
Proof. intros H. simpl. by rewrite H. Qed.

Lemma overwrite_start chunk b n :
  overwrite (length (take n b)) chunk (take n b) = take n b ++ chunk.
Proof.
  unfold overwrite. rewrite Nat.sub_diag. simpl. rewrite app_nil_r, firstn_all.
  rewrite skipn_all2 by lia. by rewrite app_nil_r.
Qed.

Lemma overwrite_lookup off chunk b i c :
  overwrite off chunk b !! i = Some c →
  (i < off ∧ (b !! i = Some c ∨ c = NUL)) ∨ (off ≤ i ∧ chunk !! (i - off) = Some c) ∨ b !! i = Some c.
Proof.
  unfold overwrite. intros H.
  assert (Hl : length (take off (b ++ replicate (off - length b) NUL)) = off).
  { rewrite length_take, length_app, length_replicate. lia. }
  apply lookup_app_Some in H as [H|[Hi H]].
  - pose proof (lookup_lt_Some _ _ _ H) as Hlt. rewrite Hl in Hlt.
    rewrite lookup_take_lt in H by done. left. split; [done|].
    apply lookup_app_Some in H as [H|[_ H]]; [by left|right].
    by apply lookup_replicate in H as [-> _].
  - rewrite Hl in *. apply lookup_app_Some in H as [H|[Hi' H]]; [auto|].
    rewrite lookup_drop in H. right; right. rewrite <- H. f_equal. lia.
Qed.

Lemma blend_nil texts : blend texts [].
Proof. intros i c H. by rewrite lookup_nil in H. Qed.

Lemma blend_overwrite texts t k n b :
  t ∈ texts → blend texts b → blend texts (overwrite k (take n (drop k t)) b).
Proof.
  intros Ht Hb i c H. apply overwrite_lookup in H as [[_ [H|H]]|[[Hle H]|H]]; [by apply Hb|by left| |by apply Hb].
  right. exists t. split; [done|].
  pose proof (lookup_lt_Some _ _ _ H) as Hlt. rewrite length_take in Hlt.
  rewrite lookup_take_lt, lookup_drop in H by lia. rewrite <- H. f_equal. lia.
Qed.

(** *** One writer at a time *)

(** The temporary file of a writer in the middle, when no other is. *)
Definition middle (d : disk) (t : str) (p : place) : Prop :=
  match p with
  | Writing fd n => staged_ino d = Some fd ∧ n ≤ length t ∧ contents d !! fd = Some (take n t)
  | Renaming => ∃ fd, staged_ino d = Some fd ∧ contents d !! fd = Some t
  | _ => True
  end.

Lemma resting_middle d t p : resting p = true → middle d t p.
Proof. by destruct p. Qed.

Lemma content_alter d i f o :
  o ≠ Some i → content (set_contents i f d) o = content d o.
Proof.
  intros Hne. destruct o as [j|]; [|done]. unfold content. simpl.
  apply list_lookup_alter_ne. congruence.
Qed.

Lemma set_contents_ok i f d : disk_ok d → disk_ok (set_contents i f d).
Proof. intros [Ht Hs]. split; simpl; intros j; rewrite length_alter; auto. Qed.

Lemma open_staged_spec d d1 fd :
  disk_ok d → open_staged d = (d1, fd) →
  disk_ok d1 ∧ staged_ino d1 = Some fd ∧ contents d1 !! fd = Some []
  ∧ target_ino d1 = target_ino d ∧ content d1 (target_ino d1) = content d (target_ino d).
Proof.
  intros Hok. pose proof Hok as [Ht Hs]. unfold open_staged.
  destruct (staged_ino d) as [i|] eqn:E; intros [= <- <-].
  - destruct (Hs i eq_refl) as [Hlt Hne].
    destruct (lookup_lt_is_Some_2 (contents d) i Hlt) as [b Hb].
    split_and!; [by apply set_contents_ok|done| |done|by apply content_alter].
    simpl. by rewrite list_lookup_alter_eq, Hb.
  - split_and!; simpl.
    + split; simpl; intros i Hi; rewrite length_app; simpl; [apply Ht in Hi; lia|].
      simplify_eq. split; [lia|]. intros H. apply Ht in H. lia.
    + done.
    + by rewrite lookup_app_r, Nat.sub_diag by lia.
    + done.
    + destruct (target_ino d) as [i|] eqn:Et; [|done]. simpl.
      by rewrite lookup_app_l by (by apply Ht).
Qed.

Lemma take_chunk n k (t rest : str) :
  drop k t = rest → k ≤ length t →
  take k t ++ take n rest = take (k + length (take n rest)) t ∧ k + length (take n rest) ≤ length t.
Proof.
  intros <- Hk. rewrite length_take, length_drop. split; [|lia].
  rewrite take_take_drop.
  destruct (decide (n ≤ length t - k)); [by rewrite Nat.min_l by lia|].
  by rewrite !take_ge by lia.
Qed.

Lemma turn_middle t c d p d1 p1 :
  disk_ok d → middle d t p → turn t c d p = (d1, p1) →
  disk_ok d1 ∧ middle d1 t p1
  ∧ ((content d1 (target_ino d1) = content d (target_ino d) ∧ (p1 = Answered (Ok ()) → p = p1))
     ∨ (p1 = Answered (Ok ()) ∧ content d1 (target_ino d1) = Some t)).
Proof.
  intros Hok Hm Hturn. destruct p as [| |fd k| |e|r], c as [e'|n]; simpl in Hturn, Hm; simplify_eq;
    try (by split_and!; [..|left]).
  - destruct (open_staged d) as [d2 fd] eqn:E; simplify_eq.
    apply open_staged_spec in E as (Hok1 & Hs & Hc & Htg & Hcont); [|done].
    split_and!; [done| |by left].
    simpl. rewrite take_0. split_and!; [done|lia|done].
  - destruct Hm as (Hs & Hk & Hc). destruct (drop k t) as [|x rest] eqn:Ed; simplify_eq.
    { split_and!; [done| |by left]. exists fd. split; [done|].
      rewrite Hc, take_ge; [done|]. apply (f_equal length) in Ed. rewrite length_drop in Ed. simpl in Ed. lia. }
    destruct (decide _) as [|Hne]; simplify_eq; [by split_and!; [..|left]|].
    rewrite <- Ed in *. destruct (take_chunk n k t _ eq_refl Hk) as [Hch Hle].
    split_and!; [by apply set_contents_ok| |left].
    + simpl. split_and!; [done|done|]. rewrite list_lookup_alter_eq, Hc. simpl. f_equal.
      rewrite <- Hch, <- (overwrite_start _ t k). by rewrite length_take, Nat.min_l by lia.
    + split; [|done]. apply content_alter. by apply Hok.
  - destruct Hm as (fd & Hs & Hc). rewrite Hs in Hturn. simplify_eq.
    destruct Hok as [Ht Hst]. split_and!; [|done|].
    + split; simpl; [|done]. intros i [= <-]. by apply Hst.
    + right. split; [done|]. done.
  - split_and!; [|done|by left]. split; simpl; [by apply Hok|done].
Qed.

Definition serial (old : option str) (s : race) : Prop :=
  disk_ok (disk_of s)
  ∧ (∀ k t p, writers s !! k = Some (t, p) → middle (disk_of s) t p)
  ∧ (shown s = old ∨ ∃ j t, writers s !! j = Some (t, Answered (Ok ())) ∧ shown s = Some t).

Lemma move_serial old m s : alone (fst m) s → serial old s → serial old (move m s).
Proof.
  destruct m as [k c]. intros Ha (Hok & Hm & Hw). unfold move. simpl in *.
  destruct (writers s !! k) as [[t p]|] eqn:Ek; [|done].
  destruct (turn t c (disk_of s) p) as [d1 p1] eqn:Et. pose proof Et as Et'.
  pose proof (lookup_lt_Some _ _ _ Ek) as Hlt.
  apply turn_middle in Et as (Hok1 & Hm1 & Hc); [|done|by eapply Hm].
  split_and!; [done| |].
  - intros j t' p'. simpl. destruct (decide (j = k)) as [->|Hne].
    + rewrite list_lookup_insert_eq by done. by intros [= <- <-].
    + rewrite list_lookup_insert_ne by done. intros Hj. apply resting_middle. by eapply Ha.
  - unfold shown in *. simpl. destruct Hc as [[Hc _]|[-> Hc]].
    + rewrite Hc. destruct Hw as [Hw|(j & t' & Hj & Hw)]; [by left|right].
      exists j, t'. split; [|done]. destruct (decide (j = k)) as [->|Hne].
      * rewrite Hj in Ek. simplify_eq. destruct c; simpl in Et'; simplify_eq; by rewrite list_lookup_insert_eq.
      * by rewrite list_lookup_insert_ne.
    + right. exists k, t. by rewrite list_lookup_insert_eq.
Qed.

Lemma moves_serial old ms s : orderly ms s → serial old s → serial old (moves ms s).
Proof.
  revert s. induction ms as [|m ms IH]; intros s Ho Hs; [done|]. destruct Ho as [Ha Ho].
  simpl. apply IH; [done|]. by apply move_serial.
Qed.

Lemma race_start_serial texts d :
  disk_ok d → serial (content d (target_ino d)) (race_start texts d).
Proof.
  intros Hok. split_and!; [done| |by left]. intros k t p H. simpl in H.
  apply list_lookup_fmap_Some in H as (t' & [= -> ->] & _). done.
Qed.

(** *** Any order *)

Definition blended (texts : list str) (d : disk) (i : nat) : Prop :=
  ∃ b, contents d !! i = Some b ∧ blend texts b.

(** Before the writer's first own [open]. *)
Definition unopened (p : place) : bool :=
  match p with Writing _ _ | Renaming => false | _ => true end.

(** [i0] is the inode the target had, with the content [c0]. *)
Record mixed (texts : list str) (i0 : option nat) (c0 : option str) (s : race) : Prop := {
  mixed_old : content (disk_of s) i0 = c0;
  mixed_bound : ∀ i, i0 = Some i → i < length (contents (disk_of s));
  mixed_target : target_ino (disk_of s) = i0
                 ∨ ∃ i, target_ino (disk_of s) = Some i ∧ blended texts (disk_of s) i;
  mixed_staged : ∀ i, staged_ino (disk_of s) = Some i →
    i0 ≠ Some i ∧ i < length (contents (disk_of s))
    ∧ (blended texts (disk_of s) i ∨ ∀ k t p, writers s !! k = Some (t, p) → unopened p = true);
  mixed_open : ∀ k t fd n, writers s !! k = Some (t, Writing fd n) →
    i0 ≠ Some fd ∧ blended texts (disk_of s) fd;
  mixed_texts : ∀ k t p, writers s !! k = Some (t, p) → t ∈ texts;
}.

Lemma alter_blended texts d i f j :
  (∀ b, contents d !! i = Some b → blend texts b → blend texts (f b)) →
  blended texts d j → blended texts (set_contents i f d) j.
Proof.
  intros Hf (b & Hb & Hbl). unfold blended. simpl. destruct (decide (i = j)) as [->|Hne].
  - exists (f b). rewrite list_lookup_alter_eq, Hb. auto.
  - exists b. by rewrite list_lookup_alter_ne.
Qed.

Lemma turn_blended texts t c d p d1 p1 i :
  t ∈ texts → turn t c d p = (d1, p1) → blended texts d i → blended texts d1 i.
Proof.
  intros Ht Hturn Hb. destruct p as [| |fd k| |e|r], c as [e'|n]; simpl in Hturn; simplify_eq; try done.
  - unfold open_staged in Hturn. destruct (staged_ino d) as [j|]; simplify_eq.
    + apply alter_blended; [|done]. intros; apply blend_nil.
    + destruct Hb as (b & Hb & Hbl). exists b. simpl. split; [|done]. by apply lookup_app_l_Some.
  - destruct (drop k t) as [|x rest] eqn:Ed; simplify_eq; [done|].
    destruct (decide _); simplify_eq; [done|]. rewrite <- Ed.
    apply alter_blended; [|done]. intros b _ Hbl. by apply blend_overwrite.
  - destruct (staged_ino d); by simplify_eq.
Qed.

Lemma open_staged_mixed texts i0 d d1 fd :
  (∀ i, i0 = Some i → i < length (contents d)) →
  (∀ i, staged_ino d = Some i → i0 ≠ Some i ∧ i < length (contents d)) →
  open_staged d = (d1, fd) →
  content d1 i0 = content d i0 ∧ length (contents d) ≤ length (contents d1)
  ∧ target_ino d1 = target_ino d ∧ staged_ino d1 = Some fd
  ∧ blended texts d1 fd ∧ i0 ≠ Some fd ∧ fd < length (contents d1).
Proof.
  intros Hi Hs. unfold open_staged. destruct (staged_ino d) as [i|] eqn:E; intros [= <- <-].
  - destruct (Hs i eq_refl) as [Hne Hlt]. destruct (lookup_lt_is_Some_2 _ _ Hlt) as [b Hb].
    simpl. rewrite length_alter. split_and!; try done; try lia; [by apply content_alter|].
    exists []. simpl. rewrite list_lookup_alter_eq, Hb. split; [done|apply blend_nil].
  - simpl. rewrite length_app. simpl. split_and!; try done; try lia.
    + destruct i0 as [i|]; [|done]. simpl. by rewrite lookup_app_l by auto.
    + exists []. simpl. rewrite lookup_app_r, Nat.sub_diag by lia. split; [done|apply blend_nil].
    + intros H. apply Hi in H. lia.
Qed.

(** What a turn may do to the disk, seen from the inode [i0]. *)
Record goes (texts : list str) (i0 : option nat) (d : disk) (p : place) (d1 : disk) (p1 : place) : Prop := {
  goes_old : content d1 i0 = content d i0;
  goes_size : length (contents d) ≤ length (contents d1);
  goes_target : target_ino d1 = target_ino d
    ∨ p = Renaming ∧ ∃ i, staged_ino d = Some i ∧ target_ino d1 = Some i;
  goes_staged :
    (staged_ino d1 = staged_ino d ∧ (unopened p = true → unopened p1 = true))
    ∨ staged_ino d1 = None
    ∨ ∃ fd, staged_ino d1 = Some fd ∧ blended texts d1 fd ∧ i0 ≠ Some fd ∧ fd < length (contents d1);
  goes_open : ∀ fd n, p1 = Writing fd n → (∃ m, p = Writing fd m) ∨ (i0 ≠ Some fd ∧ blended texts d1 fd);
}.

Lemma goes_same texts i0 d p p1 :
  (unopened p = true → unopened p1 = true) → (∀ fd n, p1 = Writing fd n → ∃ m, p = Writing fd m) →
  goes texts i0 d p d p1.
Proof. intros Hu Hw. split; eauto. Qed.

Lemma goes_write texts i0 d fd k f p1 :
  i0 ≠ Some fd → (∀ fd' n, p1 = Writing fd' n → fd' = fd) →
  goes texts i0 d (Writing fd k) (set_contents fd f d) p1.
Proof.
  intros Hne Hw. split; simpl; auto.
  - by apply content_alter.
  - by rewrite length_alter.
  - by left.
  - intros fd' n H. rewrite (Hw _ _ H). eauto.
Qed.

Lemma turn_mixed texts i0 t c d p d1 p1 :
  (∀ i, i0 = Some i → i < length (contents d)) →
  (∀ i, staged_ino d = Some i → i0 ≠ Some i ∧ i < length (contents d)) →
  (∀ fd n, p = Writing fd n → i0 ≠ Some fd) →
  turn t c d p = (d1, p1) → goes texts i0 d p d1 p1.
Proof.
  intros Hi Hs Hw Hturn.
  destruct p as [| |fd k| |e|r], c as [e'|n]; simpl in Hturn; simplify_eq;
    try (apply goes_same; [done|intros; simplify_eq; eauto]; fail).
  - destruct (open_staged d) as [d2 fd] eqn:E; simplify_eq.
    apply (open_staged_mixed texts i0) in E as (? & ? & ? & ? & ? & ? & ?); [|done..].
    split; eauto 10. intros fd' n' [= <- <-]. auto.
  - assert (i0 ≠ Some fd) by eauto.
    destruct (drop k t) as [|x rest]; simplify_eq; [by apply goes_same|].
    destruct (decide _); simplify_eq; [by apply goes_same|].
    apply goes_write; [done|]. by intros fd' n' [= -> _].
  - destruct (staged_ino d) as [i|] eqn:E; simplify_eq; split; simpl; rewrite ?E; eauto; done.
  - split; simpl; auto. done.
Qed.

Lemma move_mixed texts i0 c0 m s : mixed texts i0 c0 s → mixed texts i0 c0 (move m s).
Proof.
  destruct m as [k c]. intros [Ho Hb Ht Hs Hw Hx]. unfold move. simpl.
  destruct (writers s !! k) as [[t p]|] eqn:Ek; [|done].
  destruct (turn t c (disk_of s) p) as [d1 p1] eqn:Et.
  assert (Hbl : ∀ i, blended texts (disk_of s) i → blended texts d1 i)
    by (intros i; eapply turn_blended; eauto).
  apply (turn_mixed texts i0) in Et as [Go Gl Gt Gs Gw];
    [|done|intros i Hi; destruct (Hs i Hi) as (? & ? & _); done|intros fd n ->; by eapply Hw].
  assert (Hin : ∀ (P : nat → str → place → Prop),
    P k t p1 → (∀ j t' p', writers s !! j = Some (t', p') → P j t' p') →
    ∀ j t' p', <[k:=(t, p1)]> (writers s) !! j = Some (t', p') → P j t' p').
  { intros P Hk Hj j t' p' H. apply list_lookup_insert_Some in H as [(-> & [= <- <-] & _)|[_ H]]; auto. }
  split; simpl.
  - by rewrite Go.
  - intros i Hi. apply Hb in Hi. lia.
  - destruct Gt as [->|(-> & i & Hi & ->)]; [destruct Ht as [Ht|(i & Ht & ?)]; eauto|].
    right. exists i. split; [done|]. destruct (Hs i Hi) as (_ & _ & [?|Hun]); [by apply Hbl|].
    by apply Hun in Ek.
  - intros i Hi. destruct Gs as [[Gs Gu]|[Gs|(fd & Gs & ? & ? & ?)]]; [|congruence|].
    + rewrite Gs in Hi. destruct (Hs i Hi) as (? & ? & [?|Hun]); split_and!; eauto; try lia.
      right. apply (Hin (λ _ _ p', unopened p' = true)); [|done]. apply Gu. eauto.
    + rewrite Gs in Hi. simplify_eq. auto.
  - intros j t' fd n H. revert H.
    cut (∀ p', <[k:=(t, p1)]> (writers s) !! j = Some (t', p') → p' = Writing fd n →
           i0 ≠ Some fd ∧ blended texts d1 fd); [by eauto|]. intros p'.
    apply (Hin (λ _ _ p', p' = Writing fd n → i0 ≠ Some fd ∧ blended texts d1 fd)).
    + intros Hp. destruct (Gw _ _ Hp) as [[m' ->]|?]; [|done].
      destruct (Hw _ _ _ _ Ek). auto.
    + intros ? ? ? Hj ->. destruct (Hw _ _ _ _ Hj). auto.
  - apply (Hin (λ _ t' _, t' ∈ texts)); eauto.
Qed.

Lemma moves_mixed texts i0 c0 ms s : mixed texts i0 c0 s → mixed texts i0 c0 (moves ms s).
Proof. revert s. induction ms as [|m ms IH]; intros s Hs; [done|]. by apply IH, move_mixed. Qed.

Lemma race_start_mixed texts d :
  disk_ok d → mixed texts (target_ino d) (content d (target_ino d)) (race_start texts d).
Proof.
  intros [Ht Hs].
  assert (Hp : ∀ k t p, writers (race_start texts d) !! k = Some (t, p) → t ∈ texts ∧ p = Preparing).
  { intros k t p H. simpl in H. apply list_lookup_fmap_Some in H as (t' & [= -> ->] & H).
    split; [|done]. by eapply list_elem_of_lookup_2. }
  split; simpl; auto.
  - intros i Hi. destruct (Hs i Hi). split_and!; auto. right. by intros k t p [_ ->]%Hp.
  - by intros k t fd n [_ ?]%Hp.
  - by intros k t p [? _]%Hp.
Qed.

(** *** One writer alone is [write_atomic] *)

Definition plain_at (fs : files_t) (p : str) (o : option str) : Prop :=
  match o with
  | Some b => ∃ m t, fs !! p = Some (Regular b m t)
  | None => fs !! p = None
  end.

(** The disk as [World] sees it. *)
Definition sees (path : str) (fs : files_t) (d : disk) : Prop :=
  disk_ok d ∧ plain_at fs (tmp_path path) (content d (staged_ino d))
  ∧ plain_at fs path (content d (target_ino d)).

Section alone.
Context {env : Env}.

Lemma plain_insert_ne fs p q nd o : p ≠ q → plain_at fs p o → plain_at (<[q:=nd]> fs) p o.
Proof. destruct o; simpl; intros Hne; by rewrite lookup_insert_ne. Qed.
Lemma plain_delete_ne fs p q o : p ≠ q → plain_at fs p o → plain_at (delete q fs) p o.
Proof. destruct o; simpl; intros Hne; by rewrite lookup_delete_ne. Qed.
Lemma plain_not_link fs p o : plain_at fs p o → not_link fs p.
Proof. destruct o; simpl; [intros (m & t & H)|intros H]; intros t'; by rewrite H. Qed.
Lemma disk_ok_content d i : disk_ok d → staged_ino d = Some i → ∃ b, contents d !! i = Some b.
Proof. intros [_ Hs] H. apply lookup_lt_is_Some_2. by apply Hs. Qed.

Lemma sees_set path fs d i f b n :
  sees path fs d → staged_ino d = Some i → contents d !! i = Some b →
  sees path (set_bytes n (tmp_path path) (f b) fs) (set_contents i f d).
Proof.
  intros (Hok & Ht & Hp) Hi Hb. rewrite Hi in Ht. simpl in Ht. rewrite Hb in Ht.
  pose proof (plain_not_link _ _ (Some b) Ht) as Hl.
  destruct Ht as (m & t & Ht). unfold set_bytes. rewrite (resolve_not_link _ _ Hl), Ht.
  split_and!; [by apply set_contents_ok| |].
  - simpl. rewrite Hi. simpl. rewrite list_lookup_alter_eq, Hb. simpl.
    rewrite lookup_insert_eq. eauto.
  - simpl. fold (set_contents i f d). rewrite content_alter by by apply Hok.
    apply plain_insert_ne; [|done]. intros H. by apply (tmp_path_ne path).
Qed.

Lemma open_sees path m w r w1 d :
  sees path (files w) d → open_truncate (tmp_path path) m w = (r, w1) →
  match r with
  | Ok _ => ∃ d1 fd, open_staged d = (d1, fd) ∧ sees path (files w1) d1
      ∧ staged_ino d1 = Some fd ∧ contents d1 !! fd = Some []
  | Err _ => files w1 = files w
  end.
Proof.
  intros Hsees. pose proof Hsees as (Hok & Ht & Hp). unfold open_truncate, syscall_write.
  rewrite (resolve_not_link _ _ (plain_not_link _ _ _ Ht)).
  destruct (io_fault (calls w)); [by intros [= <- <-]|].
  destruct (open_staged d) as [d1 fd] eqn:E. pose proof E as E'.
  apply open_staged_spec in E as (Hok1 & Hs1 & Hc1 & Htg1 & Hcont); [|done].
  assert (Hne : path ≠ tmp_path path) by (intros H; by apply (tmp_path_ne path)).
  assert (Hall : ∀ m' tm, sees path (<[tmp_path path:=Regular [] m' tm]> (files w)) d1).
  { intros m' tm. split_and!; [done| |rewrite Hcont; by apply plain_insert_ne].
    rewrite Hs1. simpl. rewrite Hc1. simpl. rewrite lookup_insert_eq. eauto. }
  destruct (content d (staged_ino d)) as [b|]; simpl in Ht.
  - destruct Ht as (m' & t & Ht). rewrite Ht. intros [= <- <-]. simpl. eauto 10.
  - rewrite Ht. intros [= <- <-]. simpl. eauto 10.
Qed.

Lemma set_contents_id i f d : (∀ b, contents d !! i = Some b → f b = b) → set_contents i f d = d.
Proof.
  intros Hf. destruct d as [s t c]. unfold set_contents. simpl in *. f_equal.
  apply list_eq. intros j. destruct (decide (i = j)) as [->|Hne].
  - rewrite list_lookup_alter_eq. destruct (c !! j) eqn:E; simpl; [|done]. by rewrite Hf.
  - by rewrite list_lookup_alter_ne.
Qed.

Lemma write_part path bytes fs d fd n :
  sees path fs d → staged_ino d = Some fd → contents d !! fd = Some [] →
  ∃ cs d1, turns bytes cs d (Writing fd 0) = (d1, Writing fd (length (take n bytes)))
    ∧ (∀ k, sees path (set_bytes k (tmp_path path) (take n bytes) fs) d1) ∧ staged_ino d1 = Some fd.
Proof.
  intros Hs Hfd Hc. destruct (decide (take n bytes = [])) as [E|E].
  - exists [], d. rewrite E. split_and!; [done| |done]. intros k.
    pose proof (sees_set _ _ _ _ id _ k Hs Hfd Hc) as H. by rewrite set_contents_id in H.
  - exists [Took n], (set_contents fd (overwrite 0 (take n bytes)) d). split_and!; [| |done].
    + simpl. rewrite drop_0. destruct bytes as [|x rest]; [by rewrite take_nil in E|].
      destruct (decide (take n (x :: rest) = [])); done.
    + intros k. pose proof (sees_set _ _ _ _ (overwrite 0 (take n bytes)) _ k Hs Hfd Hc) as H.
      unfold overwrite in H at 1. simpl in H. by rewrite drop_nil, app_nil_r in H.
Qed.

(** From the opened file up to the rename. *)
Lemma write_sync_sees path bytes w r w1 d fd :
  sees path (files w) d → staged_ino d = Some fd → contents d !! fd = Some [] →
  try (write_all (tmp_path path) bytes) (λ _, sync_all) w = (r, w1) →
  ∃ cs d1, sees path (files w1) d1
    ∧ turns bytes cs d (Writing fd 0) = (d1, match r with Ok _ => Renaming | Err e => Cleaning e end)
    ∧ (r = Ok () → staged_ino d1 = Some fd).
Proof.
  intros Hs Hfd Hc. unfold try, mbind, io_bind, write_all, syscall_write.
  destruct (io_fault (calls w)) as [e|].
  - intros [= <- <-]. destruct (write_part path bytes (files w) d fd (short (calls w)) Hs Hfd Hc)
      as (cs & d1 & Ht & Hse & _).
    exists (cs ++ [Fault e]), d1. rewrite turns_app, Ht. split_and!; [apply Hse|done..].
  - destruct (write_part path bytes (files w) d fd (length bytes) Hs Hfd Hc) as (cs & d1 & Ht & Hse & Hst).
    rewrite firstn_all in Ht, Hse. unfold sync_all, syscall. simpl.
    intros [= <- <-]. exists (cs ++ [match io_fault (S (calls w)) with Some e => Fault e | None => Took 0 end]), d1.
    rewrite turns_app, Ht. simpl. rewrite skipn_all.
    destruct (io_fault (S (calls w))) as [e|]; (split_and!; [apply Hse|done..]).
Qed.

Lemma rename_sees path bytes w r w1 d fd :
  sees path (files w) d → staged_ino d = Some fd → rename (tmp_path path) path w = (r, w1) →
  ∃ c d1, sees path (files w1) d1
    ∧ turn bytes c d Renaming = (d1, match r with Ok _ => Answered (Ok ()) | Err e => Cleaning e end).
Proof.
  intros (Hok & Ht & Hp) Hfd. destruct (disk_ok_content _ _ Hok Hfd) as [b Hb].
  rewrite Hfd in Ht. simpl in Ht. rewrite Hb in Ht. destruct Ht as (m & t & Ht).
  unfold rename, syscall_write. destruct (io_fault (calls w)) as [e|].
  { intros [= <- <-]. exists (Fault e), d. split; [|done]. split_and!; [done| |done].
    rewrite Hfd. simpl. rewrite Hb. simpl. eauto. }
  rewrite Ht. assert (Hnd : ∀ A (x y : A), match files w !! path with Some Directory => x | _ => y end = y).
  { intros A x y. destruct (content d (target_ino d)); simpl in Hp; [destruct Hp as (? & ? & ->)|rewrite Hp]; done. }
  rewrite Hnd. intros [= <- <-]. exists (Took 0), (mkDisk None (Some fd) (contents d)).
  simpl. rewrite Hfd. split; [|done]. split_and!.
  - split; simpl; [|done]. intros i [= <-]. by apply Hok.
  - simpl. rewrite lookup_insert_ne by (intros H; by apply (tmp_path_ne path)). by rewrite lookup_delete_eq.
  - simpl. rewrite Hb. simpl. rewrite lookup_insert_eq. eauto.
Qed.

Lemma remove_sees path bytes e w r w1 d :
  sees path (files w) d → remove_file (tmp_path path) w = (r, w1) →
  ∃ c d1, sees path (files w1) d1 ∧ turn bytes c d (Cleaning e) = (d1, Answered (Err e)).
Proof.
  intros (Hok & Ht & Hp). unfold remove_file, syscall_write. destruct (io_fault (calls w)) as [e'|].
  { intros [= <- <-]. exists (Fault e'), d. by split_and!. }
  intros H. exists (Took 0), (mkDisk None (target_ino d) (contents d)). split; [|done].
  assert (Hok' : disk_ok (mkDisk None (target_ino d) (contents d))) by (split; simpl; [by apply Hok|done]).
  assert (Hne : path ≠ tmp_path path) by (intros ?; by apply (tmp_path_ne path)).
  destruct (content d (staged_ino d)) as [b|]; simpl in Ht.
  - destruct Ht as (m & t & Ht). rewrite Ht in H. injection H as <- <-. split_and!; [done| |].
    + simpl. by rewrite lookup_delete_eq.
    + by apply plain_delete_ne.
  - rewrite Ht in H. injection H as <- <-. by split_and!.
Qed.

Lemma create_dir_sees path dir w r w1 d :
  dir ≠ path → dir ≠ tmp_path path →
  sees path (files w) d → create_dir_all dir w = (r, w1) → sees path (files w1) d.
Proof.
  intros Hp Ht (Hok & Hst & Htg). unfold create_dir_all, syscall_write.
  destruct (io_fault (calls w)); [by intros [= <- <-]|].
  destruct (files w !! dir) as [[]|]; intros [= <- <-]; try done.
  split_and!; [done|by apply plain_insert_ne..].
Qed.

(** After [open]: what is left of [write_atomic] is some turns. *)
Lemma opened_sees path bytes w r w1 d d1 fd :
  sees path (files w) d1 → staged_ino d1 = Some fd → contents d1 !! fd = Some [] →
  open_staged d = (d1, fd) →
  (r1 ← try (try (write_all (tmp_path path) bytes) (λ _, sync_all)) (λ _, rename (tmp_path path) path);
   match r1 with
   | Err e => _ ← remove_file (tmp_path path); mret (Err e)
   | Ok _ => mret (Ok ())
   end) w = (r, w1) →
  ∃ cs d2, turns bytes cs d Opening = (d2, Answered r) ∧ sees path (files w1) d2.
Proof.
  intros Hs Hfd Hc Ho. unfold try at 1, mbind, io_bind.
  destruct (try (write_all (tmp_path path) bytes) (λ _, sync_all) w) as [ra wa] eqn:Ea.
  destruct (write_sync_sees _ _ _ _ _ _ _ Hs Hfd Hc Ea) as (cs & d2 & Hs2 & Ht2 & Hst).
  assert (Hclean : ∀ e wx csx dx, turns bytes csx d2 (match ra with Ok _ => Renaming | Err e => Cleaning e end)
      = (dx, Cleaning e) → sees path (files wx) dx →
    (let '(_, w') := remove_file (tmp_path path) wx in (Err e, w')) = (r, w1) →
    ∃ cs d2, turns bytes cs d Opening = (d2, Answered r) ∧ sees path (files w1) d2).
  { intros e wx csx dx Htx Hsx. destruct (remove_file (tmp_path path) wx) as [rr wr] eqn:Er.
    intros [= <- <-]. destruct (remove_sees path bytes e _ _ _ _ Hsx Er) as (c & d3 & Hs3 & Ht3).
    exists (Took 0 :: cs ++ csx ++ [c]), d3. split; [|done].
    by rewrite (turns_opened _ _ _ _ _ Ho), turns_app, Ht2, turns_app, Htx, turns_one. }
  destruct ra as [[]|e].
  - destruct (rename (tmp_path path) path wa) as [rb wb] eqn:Eb.
    destruct (rename_sees path bytes _ _ _ _ _ Hs2 (Hst eq_refl) Eb) as (c & d3 & Hs3 & Ht3).
    destruct rb as [[]|e].
    + intros [= <- <-]. exists (Took 0 :: cs ++ [c]), d3. split; [|done].
      by rewrite (turns_opened _ _ _ _ _ Ho), turns_app, Ht2, turns_one.
    + intros H. apply (Hclean e wb [c] d3); [|done|exact H]. by rewrite turns_one.
  - intros H. by apply (Hclean e wa [] d2).
Qed.
End alone.

(** Two overlapping calls, no failure. *)
Definition tearing (short long : str) : list (nat * call) :=
  [(0, Took 0); (1, Took 0);                               (* both have the directory *)
   (0, Took 0); (1, Took 0);                               (* both open the file *)
   (1, Took (length long)); (0, Took (length short));      (* both write it *)
   (0, Took 0); (1, Took 0);                               (* both sync *)
   (0, Took 0); (1, Took 0); (1, Took 0)].                 (* both rename; one cleans up *)

Lemma moves_turn k c ms d ws t p d1 p1 :
  ws !! k = Some (t, p) → turn t c d p = (d1, p1) →
  moves ((k, c) :: ms) (mkRace d ws) = moves ms (mkRace d1 (<[k:=(t, p1)]> ws)).
Proof. intros Hk Ht. unfold moves, move. simpl. by rewrite Hk, Ht. Qed.

(** A whole text written in one call. *)
Lemma turn_whole t d fd :
  t ≠ [] → turn t (Took (length t)) d (Writing fd 0) = (set_contents fd (overwrite 0 t) d, Writing fd (length t)).
Proof.
  intros Ht. simpl. rewrite drop_0. destruct t as [|x t]; [done|].
  rewrite firstn_all. destruct (decide _); [done|reflexivity].
Qed.
Lemma turn_synced t d fd n : turn t (Took n) d (Writing fd (length t)) = (d, Renaming).
Proof. simpl. by rewrite skipn_all. Qed.

(** ** Properties *)

(** C15: writers that take turns publish whole files. As long as each call starts
    after the others have finished (or come to nothing before their [open]), and
    whatever fails, even if a crash has left a temporary file before: at every
    moment, so also after a crash, the target holds what it held at first, or the
    whole text of a writer that was answered [Ok]; and a writer whose rename
    succeeds is answered [Ok] with its whole text in place. *)
Theorem serialised_whole texts d ms :
  disk_ok d → orderly ms (race_start texts d) →
  let s := moves ms (race_start texts d) in
  (shown s = content d (target_ino d)
   ∨ ∃ j t, writers s !! j = Some (t, Answered (Ok ())) ∧ shown s = Some t)
  ∧ ∀ k t n, writers s !! k = Some (t, Renaming) →
      writers (move (k, Took n) s) !! k = Some (t, Answered (Ok ()))
      ∧ shown (move (k, Took n) s) = Some t.
Proof.
  intros Hok Ho s. destruct (moves_serial _ _ _ Ho (race_start_serial texts d Hok)) as (Hok' & Hm & Hw).
  split; [done|]. fold s in Hok', Hm. intros k t n Hk. destruct (Hm _ _ _ Hk) as (fd & Hs & Hc).
  unfold move, shown. simpl. rewrite Hk. simpl. rewrite Hs. simpl. split; [|done].
  apply list_lookup_insert_eq. by eapply lookup_lt_Some.
Qed.

Definition example_disk : disk := mkDisk (Some 1) (Some 0) ["old" : str; "left over" : str].
Definition example_moves : list (nat * call) :=
  [(0, Took 0); (1, Took 0); (0, Took 0); (0, Took 2); (0, Took 9); (0, Took 0); (0, Took 0);
   (1, Took 0); (1, Took 3); (1, Fault eisdir); (1, Took 0)].

Lemma serialised_whole_witness :
  shown (moves example_moves (race_start ["first" : str; "second" : str] example_disk)) = Some ("first" : str).
Proof.
  assert (Hok : disk_ok example_disk).
  { split; simpl; [intros i [= <-]; lia|]. intros i [= <-]. split; [lia|done]. }
  assert (Ho : orderly example_moves (race_start ["first" : str; "second" : str] example_disk)).
  { repeat split; match goal with |- alone ?k ?s => exact (bool_decide_unpack (alone k s) I) end. }
  destruct (serialised_whole ["first" : str; "second" : str] example_disk example_moves Hok Ho) as [[H|H] _].
  - vm_compute in H. discriminate H.
  - destruct H as (j & t & Hj & H). rewrite H. f_equal.
    vm_compute in H. by injection H as <-.
Defined.

(** And writers that do not take turns still publish nothing else. Whatever
    the order of the calls of any number of writers, and whatever fails, the target
    holds what it held at first, or a file in which each byte is the byte some
    writer's text has at that position, or was skipped and never written. *)
Theorem writers_blend texts d ms :
  disk_ok d →
  let s := moves ms (race_start texts d) in
  shown s = content d (target_ino d)
  ∨ ∃ b, shown s = Some b
      ∧ ∀ i c, b !! i = Some c → c = NUL ∨ ∃ t, t ∈ texts ∧ t !! i = Some c.
Proof.
  intros Hok s. destruct (moves_mixed texts _ _ ms _ (race_start_mixed texts d Hok)) as [Ho _ Ht _ _ _].
  fold s in Ho, Ht. unfold shown. destruct Ht as [->|(i & -> & b & Hb & Hbl)]; [by left|right].
  exists b. by split.
Qed.

(** C16: two writers can publish a torn file. Of two overlapping calls, in which
    every system call succeeds, the shorter text is answered [Ok] although the
    target then holds it followed by the end of the longer one; the other is
    answered that its temporary file does not exist. *)
Theorem overlapping_writers_tear short long d :
  disk_ok d → short ≠ [] → length short < length long →
  let s := moves (tearing short long) (race_start [short; long] d) in
  (∀ m, m ∈ tearing short long → ∃ n, snd m = Took n)
  ∧ writers s = [(short, Answered (Ok ())); (long, Answered (Err enoent))]
  ∧ shown s = Some (short ++ drop (length short) long)
  ∧ shown s ≠ Some short ∧ (¬ short `prefix_of` long → shown s ≠ Some long).
Proof.
  intros Hok Hne Hlen s.
  assert (Hne' : long ≠ []) by (intros ->; simpl in Hlen; lia).
  destruct (open_staged d) as [d1 fd] eqn:E.
  pose proof (open_staged_spec d d1 fd Hok E) as (Hok1 & Hs1 & Hc1 & _).
  assert (Hs : s = mkRace
    (mkDisk None (Some fd) (alter (overwrite 0 short) fd (alter (overwrite 0 long) fd (alter (λ _, []) fd (contents d1)))))
    [(short, Answered (Ok ())); (long, Answered (Err enoent))]).
  { subst s. unfold tearing, race_start. cbn [fmap list_fmap].
    do 11 (erewrite moves_turn;
      [|reflexivity|first [apply turn_whole; done|apply turn_synced|cbn [turn]; rewrite E; reflexivity
                          |cbn [turn]; unfold open_staged; rewrite Hs1; reflexivity
                          |cbn [turn set_contents staged_ino]; rewrite Hs1; reflexivity|reflexivity]];
      cbn [insert list_insert]).
    done. }
  assert (Hsh : shown s = Some (short ++ drop (length short) long)).
  { rewrite Hs. unfold shown. simpl. rewrite !list_lookup_alter_eq, Hc1. simpl.
    unfold overwrite. simpl. by rewrite drop_nil, app_nil_r. }
  rewrite Hsh. split_and!; [|by rewrite Hs|done| |].
  - intros m Hm. unfold tearing in Hm. repeat (apply elem_of_cons in Hm as [->|Hm]; [by eexists|]). by apply elem_of_nil in Hm.
  - intros [= H]. apply (f_equal length) in H. rewrite length_app, length_drop in H. lia.
  - intros Hnp [= H]. apply Hnp. exists (drop (length short) long). done.
Qed.

Lemma overlapping_writers_tear_witness :
  shown (moves (tearing "{1}" "{2345}") (race_start ["{1}" : str; "{2345}" : str] (mkDisk None None [])))
  = Some ("{1}45}" : str).
Proof.
  assert (Hok : disk_ok (mkDisk None None [])) by (split; done).
  assert (Hne : ("{1}" : str) ≠ []) by done.
  assert (Hlen : length ("{1}" : str) < length ("{2345}" : str)) by (simpl; lia).
  destruct (overlapping_writers_tear "{1}" "{2345}" (mkDisk None None []) Hok Hne Hlen)
    as (_ & _ & H & _).
  exact H.
Defined.

Lemma writers_blend_witness :
  ∃ s, s = moves (tearing "{1}" "{2345}") (race_start ["{1}" : str; "{2345}" : str] example_disk)
    ∧ ∃ b, shown s = Some b ∧ ∀ i c, b !! i = Some c → c = NUL ∨ ∃ t, t ∈ ["{1}" : str; "{2345}" : str] ∧ t !! i = Some c.
Proof.
  assert (Hok : disk_ok example_disk).
  { split; simpl; [intros i [= <-]; lia|]. intros i [= <-]. split; [lia|done]. }
  eexists. split; [reflexivity|].
  destruct (writers_blend ["{1}" : str; "{2345}" : str] example_disk (tearing "{1}" "{2345}") Hok) as [H|H].
  - vm_compute in H. discriminate H.
  - exact H.
Defined.

(** C17: a call of [write_atomic] with no other beside it is the writer of this
    file. For every host, every failure and every short write, what [write_atomic]
    answers, and what it leaves under both names, is what some sequence of turns of
    a lone writer answers and leaves. *)
Theorem write_atomic_is_turns `{env : Env} path bytes mode w r w1 d :
  parent_dir path ≠ Some (tmp_path path) →
  sees path (files w) d → write_atomic path bytes mode w = (r, w1) →
  ∃ cs d1, turns bytes cs d Preparing = (d1, Answered r) ∧ sees path (files w1) d1.
Proof.
  intros Hpar Hs. unfold write_atomic. cbv zeta.
  set (body := r ← try _ _; _).
  assert (Hbody : ∀ wb r w1, sees path (files wb) d → body wb = (r, w1) →
    ∃ cs d1, turns bytes cs d Opening = (d1, Answered r) ∧ sees path (files w1) d1).
  { clear w r w1 Hs. intros wb r w1 Hs. subst body. unfold mbind, io_bind, try at 1 2, mbind, io_bind.
    destruct (open_truncate (tmp_path path) mode wb) as [ro wo] eqn:Eo.
    pose proof (open_sees path _ _ _ _ d Hs Eo) as Ho. destruct ro as [[]|e].
    - destruct Ho as (d1 & fd & Ho & Hs1 & Hfd & Hc). intros H.
      eapply (opened_sees path bytes wo r w1 d d1 fd); [done..|exact H].
    - rewrite <- Ho in Hs. cbn. destruct (remove_file (tmp_path path) wo) as [rr wr] eqn:Er.
      intros [= <- <-]. destruct (remove_sees path bytes e _ _ _ _ Hs Er) as (c & d3 & Hs3 & Ht3).
      exists [Fault e; c], d3. split; [|done].
      change (turns bytes [c] d (Cleaning e) = (d3, Answered (Err e))). by rewrite turns_one. }
  clearbody body. unfold try, mbind, io_bind. destruct (parent_dir path) as [dir|] eqn:Ep.
  - destruct (create_dir_all dir w) as [rc wc] eqn:Ec.
    apply (create_dir_sees path dir w rc wc d) in Ec;
      [|by apply parent_dir_ne|congruence|done].
    destruct rc as [[]|e].
    + intros H. destruct (Hbody _ _ _ Ec H) as (cs & d1 & Ht & Hs1). by exists (Took 0 :: cs), d1.
    + intros [= <- <-]. by exists [Fault e], d.
  - intros H. destruct (Hbody _ _ _ Hs H) as (cs & d1 & Ht & Hs1). by exists (Took 0 :: cs), d1.
Qed.

Lemma write_atomic_is_turns_witness :
  ∃ cs d1, turns "text" cs (mkDisk None None []) Preparing = (d1, Answered (Ok ()))
    ∧ content d1 (target_ino d1) = Some ("text" : str).
Proof.
  set (w := mkWorld ∅ 0 []).
  assert (Hpar : parent_dir "/var/request.json" ≠ Some (tmp_path "/var/request.json")) by (vm_compute; done).
  assert (Hs : sees "/var/request.json" (files w) (mkDisk None None [])) by (split_and!; split; done).
  assert (Hw : ∃ m t, files (snd (@write_atomic steady_env "/var/request.json" "text" 384 w)) !! ("/var/request.json" : str)
                      = Some (Regular "text" m t)) by (vm_compute; eauto).
  destruct (@write_atomic steady_env "/var/request.json" "text" 384 w) as [r w1] eqn:E.
  destruct (write_atomic_is_turns (env := steady_env) "/var/request.json" "text" 384 w r w1 _ Hpar Hs E)
    as (cs & d1 & Ht & _ & _ & Hp).
  destruct Hw as (m & t & Hw).
  pose proof (f_equal fst E) as Hr. vm_compute in Hr. exists cs, d1. split; [by rewrite Ht, <- Hr|].
  unfold plain_at in Hp. destruct (content d1 (target_ino d1)) as [b|].
  - destruct Hp as (m' & t' & Hp). cbn [snd] in Hw. rewrite Hp in Hw. by injection Hw as ->.
  - cbn [snd] in Hw. by rewrite Hp in Hw.
Defined.
