(* ===== verification/Protocol.v ===== *)
(** * The update protocol, in the abstract

    What the daemon, its clients and the root helper promise together, with no
    files, no failures and no processes: names are offered, requests are made for
    offered names, one request waits at a time, installs serve the request that
    waits. [System] proves that the code implements it. *)

From S2P Require Import Prelude Str World Apply.

Record protocol := mkProtocol {
  offered : list str;              (* the names any check has listed *)
  asked : list ApplyRequest;       (* newest first *)
  pending : option ApplyRequest;
  installed : list (list str);     (* newest first *)
}.
Definition protocol_start : protocol := mkProtocol [] [] None [].

Section protocol.
(** The lists the package manager may offer, who may ask, whether policy has
    permitted an apply. *)
Context (offers : list str → Prop) (entitled : str → Prop) (permitted : Prop).

(** A request that may be made when [l] has been offered. *)
Record proper (l : list str) (r : ApplyRequest) : Prop := {
  proper_by : entitled (ar_requested_by r);
  proper_id : valid_request_id (ar_id r) = true;
  proper_some : ar_packages r ≠ [];
  proper_once : NoDup (ar_packages r);
  proper_offered : ∀ p, p ∈ ar_packages r → p ∈ l;
}.

Inductive protocol_step : protocol → protocol → Prop :=
| step_offer a names :
    offers names →
    protocol_step a (mkProtocol (names ++ offered a) (asked a) (pending a) (installed a))
| step_ask a r :
    permitted → proper (offered a) r →
    protocol_step a (mkProtocol (offered a) (r :: asked a) (Some r) (installed a))
| step_install a r names todo :
    permitted → pending a = Some r → offers names → todo ≠ [] →
    (∀ p, p ∈ todo → p ∈ ar_packages r ∧ p ∈ names) →
    protocol_step a (mkProtocol (offered a) (asked a) (pending a) (todo :: installed a))
| step_take a :
    protocol_step a (mkProtocol (offered a) (asked a) None (installed a)).

Definition protocol_steps : protocol → protocol → Prop := rtc protocol_step.

(** ** What the protocol guarantees *)

Record protocol_ok (a : protocol) : Prop := {
  ok_offered p : p ∈ offered a → ∃ names, offers names ∧ p ∈ names;
  ok_asked r : r ∈ asked a → permitted ∧ proper (offered a) r;
  ok_pending r : pending a = Some r → r ∈ asked a;
  ok_installed todo : todo ∈ installed a → permitted ∧ todo ≠ [] ∧
    ∃ r names, r ∈ asked a ∧ offers names ∧ ∀ p, p ∈ todo → p ∈ ar_packages r ∧ p ∈ names;
}.

Lemma proper_more l k r : proper l r → proper (k ++ l) r.
Proof. intros []. split; try done. intros p Hp. apply elem_of_app. auto. Qed.

Lemma protocol_step_ok a a' : protocol_ok a → protocol_step a a' → protocol_ok a'.
Proof.
  intros [H1 H2 H3 H4]. destruct 1 as [a names Hn|a r Hp Hr|a r names todo Hp Hr Hn Ht Hs|a];
    split; simpl; try done.
  - intros p [Hp|Hp]%elem_of_app; eauto.
  - intros r Hr. destruct (H2 r Hr). split; [done|]. by apply proper_more.
  - intros r' [->|Hr']%elem_of_cons; auto.
  - intros r' [= <-]. apply elem_of_cons. by left.
  - intros todo Ht. destruct (H4 todo Ht) as (? & ? & r' & names & Hr' & Hn).
    split_and!; try done. exists r', names. split; [|done]. apply elem_of_cons. by right.
  - intros t [->|Hin]%elem_of_cons; [|auto]. split_and!; [done|done|]. eauto 10.
Qed.

Lemma protocol_steps_ok a a' : protocol_ok a → protocol_steps a a' → protocol_ok a'.
Proof. intros Ha H. induction H; [done|]. eauto using protocol_step_ok. Qed.

Lemma protocol_start_ok : protocol_ok protocol_start.
Proof. split; simpl; try done; by intros ? ?%elem_of_nil. Qed.

Lemma step_offer' a names a' :
  offers names → a' = mkProtocol (names ++ offered a) (asked a) (pending a) (installed a) →
  protocol_steps a a'.
Proof. intros H ->. by apply rtc_once, step_offer. Qed.

End protocol.
