(* ===== verification/Net.v ===== *)
(** * Socket addresses

    The part of Rust's standard library the daemon decides with: the textual
    form of a [SocketAddr] ([core::net]'s recursive-descent parser, with its
    rules on leading zeros and on [::]) and [IpAddr::is_loopback]. *)

From S2P Require Import Prelude Str.

(** An IPv4 address is its four bytes, an IPv6 address its eight 16-bit groups. *)
Inductive IpAddr := V4 (octets : list N) | V6 (segments : list N).
#[global] Instance IpAddr_eq_dec : EqDecision IpAddr.
Proof. solve_decision. Defined.

Record SocketAddr := mkSocketAddr { ip : IpAddr; scope_id : N; port : N }.
#[global] Instance SocketAddr_eq_dec : EqDecision SocketAddr.
Proof. solve_decision. Defined.

(** [IpAddr::is_loopback]: 127.0.0.0/8, and [::1] alone. *)
Definition is_loopback (a : IpAddr) : bool :=
  match a with
  | V4 octets => bool_decide (head octets = Some 127%N)
  | V6 segments => bool_decide (segments = [0; 0; 0; 0; 0; 0; 0; 1]%N)
  end.

(** ** The parser

    A parser consumes a prefix of the input; on failure nothing is consumed
    ([read_atomically]), so the caller goes on from the input it had. *)

Definition to_digit (radix : N) (c : ascii) : option N :=
  let v := if is_ascii_digit c then Some (code c - 48)%N
           else if is_ascii_lowercase c then Some (code c - 87)%N
           else if is_ascii_uppercase c then Some (code c - 55)%N
           else None in
  d ← v; if (d <? radix)%N then Some d else None.

Definition read_given_char (target : ascii) (s : str) : option str :=
  match s with
  | c :: rest => if decide (c = target) then Some rest else None
  | [] => None
  end.

(** The digits at the front of the input and the rest. *)
Fixpoint read_digits (radix : N) (s : str) : list N * str :=
  match s with
  | c :: rest =>
      match to_digit radix c with
      | Some d => let '(ds, rest) := read_digits radix rest in (d :: ds, rest)
      | None => ([], s)
      end
  | [] => ([], [])
  end.

Definition read_number (radix : N) (max_digits : option nat) (allow_zero_prefix : bool)
    (max : N) (s : str) : option (N * str) :=
  let '(ds, rest) := read_digits radix s in
  let result := foldl (λ acc d, acc * radix + d)%N 0%N ds in
  if (length ds =? 0)%nat then None
  else if match max_digits with Some m => (m <? length ds)%nat | None => false end then None
  else if negb allow_zero_prefix && bool_decide (head s = Some "0"%char) && (1 <? length ds)%nat
  then None
  else if (result <=? max)%N then Some (result, rest) else None.

Definition read_separator {A : Type} (sep : ascii) (index : nat)
    (inner : str → option (A * str)) (s : str) : option (A * str) :=
  if (0 <? index)%nat then s ← read_given_char sep s; inner s else inner s.

Fixpoint read_octets (n i : nat) (s : str) : option (list N * str) :=
  match n with
  | O => Some ([], s)
  | S n =>
      '(o, s) ← read_separator "." i (read_number 10 (Some 3) false u8_max) s;
      '(os, s) ← read_octets n (S i) s;
      Some (o :: os, s)
  end.
Definition read_ipv4_addr (s : str) : option (list N * str) := read_octets 4 0 s.

(** [read_groups]: up to [rem] more groups, the next one being number [i];
    the groups read, whether an IPv4 tail was read, and the rest. *)
Fixpoint read_groups (rem i : nat) (s : str) : list N * bool * str :=
  match rem with
  | O => ([], false, s)
  | S rem =>
      let v4 := if (0 <? rem)%nat then read_separator ":" i read_ipv4_addr s else None in
      match v4 with
      | Some ([one; two; three; four], s) =>
          ([one * 256 + two; three * 256 + four]%N, true, s)
      | _ =>
          match read_separator ":" i (read_number 16 (Some 4) true 65535) s with
          | Some (g, s) => let '(gs, v4, s) := read_groups rem (S i) s in (g :: gs, v4, s)
          | None => ([], false, s)
          end
      end
  end.

Definition read_ipv6_addr (s : str) : option (list N * str) :=
  let '(hd, head_ipv4, s) := read_groups 8 0 s in
  if (length hd =? 8)%nat then Some (hd, s)
  else if head_ipv4 then None
  else
    s ← read_given_char ":" s; s ← read_given_char ":" s;
    let '(tl, _, s) := read_groups (8 - (length hd + 1)) 0 s in
    Some (hd ++ replicate (8 - length hd - length tl) 0%N ++ tl, s).

Definition read_port (s : str) : option (N * str) :=
  s ← read_given_char ":" s; read_number 10 None true 65535 s.
Definition read_scope_id (s : str) : option (N * str) :=
  s ← read_given_char "%" s; read_number 10 None true u32_max s.

Definition read_socket_addr_v4 (s : str) : option (SocketAddr * str) :=
  '(a, s) ← read_ipv4_addr s;
  '(p, s) ← read_port s;
  Some (mkSocketAddr (V4 a) 0 p, s).
Definition read_socket_addr_v6 (s : str) : option (SocketAddr * str) :=
  s ← read_given_char "[" s;
  '(a, s) ← read_ipv6_addr s;
  let '(scope, s) := match read_scope_id s with Some (n, s) => (n, s) | None => (0%N, s) end in
  s ← read_given_char "]" s;
  '(p, s) ← read_port s;
  Some (mkSocketAddr (V6 a) scope p, s).

(** [str::parse::<SocketAddr>]: the whole input. *)
Definition parse_socket_addr (s : str) : option SocketAddr :=
  r ← match read_socket_addr_v4 s with Some r => Some r | None => read_socket_addr_v6 s end;
  match r with (a, []) => Some a | _ => None end.

Example parse_v4 : parse_socket_addr "127.0.0.1:8787" = Some (mkSocketAddr (V4 [127; 0; 0; 1]%N) 0 8787).
Proof. reflexivity. Qed.
Example parse_v6 : parse_socket_addr "[::1]:80" = Some (mkSocketAddr (V6 [0; 0; 0; 0; 0; 0; 0; 1]%N) 0 80).
Proof. reflexivity. Qed.
Example parse_mapped : ip <$> parse_socket_addr "[::ffff:127.0.0.1]:80"
  = Some (V6 [0; 0; 0; 0; 0; 65535; 32512; 1]%N).
Proof. reflexivity. Qed.
Example parse_octal : parse_socket_addr "127.0.0.01:80" = None.
Proof. reflexivity. Qed.

(** ** Every parsed address is well formed *)

Lemma read_octets_spec n i s os r :
  read_octets n i s = Some (os, r) → length os = n ∧ Forall (λ o, o ≤ u8_max)%N os.
Proof.
  revert i s os r. induction n as [|n IH]; intros i s os r; simpl.
  - intros [= <- <-]. by split.
  - destruct (read_separator _ _ _ _) as [[o s1]|] eqn:E1; [|done].
    simpl. destruct (read_octets n (S i) s1) as [[os' s2]|] eqn:E2; [|done].
    simpl. intros [= <- <-]. apply IH in E2 as [Hl Hb]. split; [by simpl; f_equal|].
    constructor; [|done]. unfold read_separator in E1.
    assert (∃ s', read_number 10 (Some 3) false u8_max s' = Some (o, s1)) as [s' Hn].
    { destruct (0 <? i)%nat; [|by exists s].
      destruct (read_given_char "." s) as [s'|] eqn:Es; [|done]. by exists s'. }
    unfold read_number in Hn. destruct (read_digits 10 s') as [ds rest].
    repeat case_match; simplify_eq; by bool_norm.
Qed.

(** A parsed IPv4 listen address is loopback exactly when its first byte is
    127; a parsed one always has four. *)
Lemma read_ipv4_length s a r : read_ipv4_addr s = Some (a, r) → length a = 4.
Proof. intros H. by apply read_octets_spec in H as [? _]. Qed.
