(* ===== verification/Config.v ===== *)
(** * abora-config: the framework configuration

    Models [crates/abora-config/src/lib.rs]: the typed sections with their
    defaults, loading and validation with every message, the clock and duration
    syntax, the extension tables and the summary. TOML itself ([toml],
    [serde]) is third-party: its values and its decoder are parameters. *)

From S2P Require Import Prelude Str World Net Version Log Types.

(** [toml::Value]: what [Config::extension] asks of it. *)
Class TomlValue := {
  tval : Type;
  as_table : tval → option (gmap str tval);
}.
Abbreviation toml_table := (gmap (list ascii) tval).

(** ** Sections *)

Record SystemConfig := mkSystem {
  hostname : option str;
  description : option str;
}.
Record UpdatesConfig := mkUpdates {
  channel : Channel;
  automatic : bool;
  check_interval : str;
  reboot_policy : RebootPolicy;
  state_file : str;
  apply_result_file : str;
}.
Record MaintenanceConfig := mkMaintenance {
  m_enabled : bool;
  windows : list MaintenanceWindow;
}.
Record RemoteConfig := mkRemote {
  r_enabled : bool;
  listen_addr : str;
  advertise_hostname : option str;
}.
Record SecurityConfig := mkSecurity {
  require_authentication : bool;
  token_file : option str;
}.
Record LoggingConfig := mkLogging {
  log_level : Level;
  log_format : Format;
}.
Record ApiConfig := mkApi {
  base_path : str;
  max_payload_bytes : N;
  request_timeout_secs : N;
}.
Record FeaturesConfig := mkFeatures { flags : gmap str bool }.

Definition flag (name : str) (f : FeaturesConfig) : bool := default false (flags f !! name).
Definition set_flag (name : str) (v : bool) (f : FeaturesConfig) : FeaturesConfig :=
  mkFeatures (<[name := v]> (flags f)).
(** [keys]: a [BTreeMap] iterates in order. *)
Definition keys (f : FeaturesConfig) : list str := sort_str (fst <$> map_to_list (flags f)).

Record Config {T : TomlValue} := mkConfig {
  system : SystemConfig;
  updates : UpdatesConfig;
  maintenance : MaintenanceConfig;
  remote : RemoteConfig;
  security : SecurityConfig;
  logging : LoggingConfig;
  api : ApiConfig;
  features : FeaturesConfig;
  extensions : toml_table;
}.

Definition DEFAULT_RESULT_FILE : str := "/var/lib/abora-apply/result.json".

Definition system_default : SystemConfig := mkSystem None None.
Definition updates_default : UpdatesConfig :=
  mkUpdates Stable false "6h" Ask "/var/lib/abora/updates.json" DEFAULT_RESULT_FILE.
Definition maintenance_default : MaintenanceConfig := mkMaintenance true [].
Definition remote_default : RemoteConfig := mkRemote false DEFAULT_LISTEN_ADDR None.
Definition security_default : SecurityConfig := mkSecurity true None.
Definition logging_default : LoggingConfig := mkLogging Info Json.
Definition api_default : ApiConfig := mkApi API_PATH_PREFIX 1048576 30.
Definition config_default {T : TomlValue} : Config :=
  mkConfig T system_default updates_default maintenance_default remote_default
    security_default logging_default api_default (mkFeatures ∅) ∅.

(** ** Clock times and durations *)

Definition parse_clock (value : str) : result str N :=
  '(hour, minute) ← ok_or ("expected HH:MM format" : str) (split_once ":" value);
  if negb (length hour =? 2)%nat || negb (length minute =? 2)%nat
  then Err ("expected two-digit hours and minutes" : str) else
  if negb (forallb is_ascii_digit hour) || negb (forallb is_ascii_digit minute)
  then Err ("expected digits" : str) else
  hour ← ok_or ("invalid hour" : str) (parse_uint u32_max hour);
  minute ← ok_or ("invalid minute" : str) (parse_uint u32_max minute);
  if (23 <? hour)%N then Err ("hour out of range" : str)
  else if (59 <? minute)%N then Err ("minute out of range" : str)
  else Ok (hour * 60 + minute)%N.

(** The product is unchecked: [wrap64] in a release build. *)
Definition parse_duration (value : str) : result str N :=
  let value := trim value in
  split_at ← ok_or ("missing unit (s, m, h, d)" : str)
               (find_char (λ c, negb (is_ascii_digit c)) value);
  number ← ok_or ("invalid number" : str) (parse_uint u64_max (take split_at value));
  let unit := drop split_at value in
  mult ← (if decide (unit = ("s" : str)) then Ok 1
          else if decide (unit = ("m" : str)) then Ok 60
          else if decide (unit = ("h" : str)) then Ok 3600
          else if decide (unit = ("d" : str)) then Ok 86400
          else Err ("unknown unit `" ++ unit ++ "` (expected s, m, h, d)"))%N;
  if (number =? 0)%N then Err ("duration must be greater than zero" : str)
  else Ok (wrap64 (number * mult)).

(** ** Validation *)

(** One iteration of [validate_windows]: the messages for window [i]. *)
Definition validate_window (i : nat) (w : MaintenanceWindow) : list str :=
  let head : str := "[maintenance] window #" ++ dec_nat i in
  (if bool_decide (days w = []) then [head ++ " must define at least one day"] else [])
  ++ match parse_clock (start w) with
     | Err e => [head ++ " start `" ++ start w ++ "` is not HH:MM: " ++ e]
     | Ok s =>
         match parse_clock (end_ w) with
         | Err e => [head ++ " end `" ++ end_ w ++ "` is not HH:MM: " ++ e]
         | Ok e =>
             (if (e <=? s)%N
              then [head ++ ": end (" ++ end_ w ++ ") must be after start (" ++ start w ++ ")"]
              else [])
             ++ (if bool_decide (max_duration_minutes w = Some 0%N)
                 then [head ++ ": max_duration_minutes must be greater than zero"] else [])
         end
     end.

Definition validate_windows (ws : list MaintenanceWindow) : list str :=
  concat (imap validate_window ws).

Definition validate_hostname (h : option str) : list str :=
  match h with
  | None => []
  | Some hostname =>
      let h := trim hostname in
      if bool_decide (h = []) then ["[system] hostname must not be empty" : str]
      else if any_whitespace h
      then ["[system] hostname `" ++ hostname ++ "` must not contain whitespace"]
      else []
  end.

Definition validate_base_path (p : str) : list str :=
  let base_path := trim p in
  if negb (starts_with "/" base_path) || (length base_path <? 2)%nat
  then ["[api] base_path `" ++ p ++ "` must start with `/` and be non-trivial"]
  else if negb (bool_decide (p = base_path))
  then ["[api] base_path must not contain leading/trailing whitespace" : str]
  else [].

Section config.
Context {T : TomlValue}.

(** Every problem found, in the order of the code. *)
Definition problems (c : Config) : list str :=
  validate_hostname (hostname (system c))
  ++ (if is_absolute (apply_result_file (updates c)) then []
      else ["[updates] apply_result_file `" ++ apply_result_file (updates c)
            ++ "` must be an absolute path"])
  ++ (if is_absolute (state_file (updates c)) then []
      else ["[updates] state_file `" ++ state_file (updates c) ++ "` must be an absolute path"])
  ++ match parse_duration (check_interval (updates c)) with
     | Ok _ => []
     | Err e => ["[updates] check_interval `" ++ check_interval (updates c)
                 ++ "` is not a valid duration: " ++ e]
     end
  ++ validate_windows (windows (maintenance c))
  ++ match parse_socket_addr (listen_addr (remote c)) with
     | Some _ => []
     | None => ["[remote] listen_addr `" ++ listen_addr (remote c)
                ++ "` is not a valid socket address"]
     end
  ++ validate_base_path (base_path (api c))
  ++ (if (max_payload_bytes (api c) =? 0)%N
      then ["[api] max_payload_bytes must be greater than zero" : str] else [])
  ++ (if (request_timeout_secs (api c) =? 0)%N
      then ["[api] request_timeout_secs must be greater than zero" : str] else []).

Definition validate (c : Config) : result (list str) () :=
  match problems c with [] => Ok () | errors => Err errors end.

(** ** Loading *)

Inductive ConfigError :=
| CIo (path : str) (source : io_error)
| CToml (message : str)
| CNotUtf8 (source : str)
| CInvalid (message : str).
Definition config_error_to_string (e : ConfigError) : str :=
  match e with
  | CIo path source => "could not read configuration file `" ++ path ++ "`: " ++ io_message source
  | CToml m => "could not parse TOML: " ++ m
  | CNotUtf8 m => "configuration is not UTF-8: " ++ m
  | CInvalid m => "configuration is invalid:" ++ [LF] ++ m
  end.

(** [toml::from_str] for [Config]. *)
Class ConfigToml := toml_from_str : str → result str Config.
Context `{ConfigToml}.

Definition from_str (raw : str) : result ConfigError Config :=
  cfg ← map_err CToml (toml_from_str raw);
  _ ← map_err (λ errors, CInvalid (join [LF] errors)) (validate cfg);
  Ok cfg.

(** The text of the [Utf8Error] is the standard library's. *)
Definition from_slice (utf8_error : str → str) (bytes : str) : result ConfigError Config :=
  if valid_utf8 bytes then from_str bytes else Err (CNotUtf8 (utf8_error bytes)).

Definition load `{Env} (path : str) : io (result ConfigError Config) :=
  r ← fs_read_to_string path;
  mret (match r with Ok raw => from_str raw | Err e => Err (CIo path e) end).

(** [extension]: the last part of the dotted name, looked up in the table the
    earlier parts lead to. *)
Fixpoint extension_in (t : toml_table) (parts : list str) : option tval :=
  match parts with
  | [] => None
  | [last] => t !! last
  | part :: rest => v ← t !! part; next ← as_table v; extension_in next rest
  end.
Definition extension (name : str) (c : Config) : option tval :=
  extension_in (extensions c) (split (is_char ".") name).
Definition typed_extension {T : Type} (try_into : tval → result str T) (name : str) (c : Config)
    : result str (option T) :=
  match extension name c with
  | None => Ok None
  | Some v => match try_into v with Ok t => Ok (Some t) | Err e => Err e end
  end.

Definition bool_to_string (b : bool) : str := if b then "true" else "false".

Definition summary (c : Config) : list str :=
  [ "hostname override: " ++ default ("-" : str) (hostname (system c));
    "update channel: " ++ channel_to_string (channel (updates c));
    "automatic updates: " ++ bool_to_string (automatic (updates c));
    "maintenance enabled: " ++ bool_to_string (m_enabled (maintenance c));
    "remote management enabled: " ++ bool_to_string (r_enabled (remote c));
    "auth required: " ++ bool_to_string (require_authentication (security c));
    "listen: " ++ listen_addr (remote c) ++ " (loopback-only for now)";
    "log level: " ++ level_to_string (log_level (logging c))
      ++ ", format: " ++ format_to_string (log_format (logging c));
    "api base path: " ++ base_path (api c) ].

End config.

(** ** Lemmas *)

(** A number as [{:02}] prints it. *)
Definition pad2 (n : N) : str := pad_left "0" 2 (dec n).

(** The two-digit numbers are the two-byte digit strings. *)
Lemma two_digits a b :
  is_ascii_digit a = true → is_ascii_digit b = true →
  ∃ n, (n < 100)%N ∧ [a; b] = pad2 n ∧ parse_uint u32_max [a; b] = Some n.
Proof.
  intros Ha Hb.
  assert (H : forallb (λ i, forallb (λ j,
      let a := digit (N.of_nat i) in let b := digit (N.of_nat j) in
      let n := N.of_nat (10 * i + j) in
      bool_decide ([a; b] = pad2 n) && bool_decide (parse_uint u32_max [a; b] = Some n))
    (seq 0 10)) (seq 0 10) = true) by by vm_compute.
  apply in_range_spec in Ha as [Ha1 Ha2]. apply in_range_spec in Hb as [Hb1 Hb2].
  assert (Hd : ∀ c, (48 ≤ code c ≤ 57)%N → c = digit (N.of_nat (N.to_nat (code c - 48)))).
  { intros c Hc. unfold digit. rewrite N2Nat.id.
    replace (48 + (code c - 48))%N with (code c) by lia. by rewrite chr_code. }
  rewrite forallb_forall in H. specialize (H (N.to_nat (code a - 48))).
  rewrite in_seq, forallb_forall in H. specialize (H ltac:(lia) (N.to_nat (code b - 48))).
  rewrite in_seq in H. specialize (H ltac:(lia)). cbv zeta in H.
  rewrite <-(Hd a), <-(Hd b) in H by lia. bool_norm.
  eexists. split; [|by split]. lia.
Qed.

Lemma pad2_digits n : (n < 100)%N →
  length (pad2 n) = 2 ∧ forallb is_ascii_digit (pad2 n) = true ∧ parse_uint u32_max (pad2 n) = Some n.
Proof.
  intros Hn.
  assert (H : forallb (λ i, let n := N.of_nat i in (length (pad2 n) =? 2)%nat
     && forallb is_ascii_digit (pad2 n) && bool_decide (parse_uint u32_max (pad2 n) = Some n))
     (seq 0 100) = true) by by vm_compute.
  rewrite forallb_forall in H. specialize (H (N.to_nat n)).
  rewrite in_seq, N2Nat.id in H. specialize (H ltac:(lia)). cbv zeta in H. by bool_norm.
Qed.

(** Dispatch on digits: none of them is a colon. *)
Lemma digits_no_colon s : forallb is_ascii_digit s = true → ":"%char ∉ s.
Proof. intros H. by apply (forallb_not_elem is_ascii_digit). Qed.

Definition clock_text (m : N) : str := pad2 (m / 60) ++ ":" ++ pad2 (m mod 60).

Lemma parse_clock_text m : (m < 1440)%N → parse_clock (clock_text m) = Ok m.
Proof.
  intros Hm. unfold parse_clock, clock_text.
  assert (H1 : (m / 60 < 24)%N) by (apply N.Div0.div_lt_upper_bound; lia).
  assert (H2 : (m mod 60 < 60)%N) by (apply N.mod_lt; lia).
  destruct (pad2_digits (m / 60) ltac:(lia)) as (Ha & Hb & Hc).
  destruct (pad2_digits (m mod 60) ltac:(lia)) as (Hd & He & Hf).
  simpl app. rewrite split_once_app by by apply digits_no_colon.
  simpl. rewrite Ha, Hd, Hb, He. simpl. rewrite Hc, Hf. simpl.
  rewrite (proj2 (N.ltb_ge 23 (m / 60))) by lia.
  rewrite (proj2 (N.ltb_ge 59 (m mod 60))) by lia.
  f_equal. rewrite (N.div_mod' m 60) at 3. lia.
Qed.

Lemma parse_clock_inv s m : parse_clock s = Ok m → (m < 1440)%N ∧ s = clock_text m.
Proof.
  unfold parse_clock. destruct (split_once ":" s) as [[h mi]|] eqn:E; [|done]. simpl.
  apply split_once_Some in E as [-> _].
  destruct (negb _ || negb _) eqn:El; [done|].
  destruct (negb (forallb _ _) || _) eqn:Ed; [done|]. bool_norm.
  destruct h as [|h1 [|h2 [|]]]; try done. destruct mi as [|m1 [|m2 [|]]]; try done.
  simpl in *. bool_norm.
  destruct (two_digits h1 h2) as (h & Hh & Eh & Ph); [done..|].
  destruct (two_digits m1 m2) as (mi & Hm & Em & Pm); [done..|].
  rewrite Ph, Pm. simpl. destruct (23 <? h)%N eqn:E1; [done|].
  destruct (59 <? mi)%N eqn:E2; [done|]. bool_norm. intros [= <-]. split; [lia|].
  unfold clock_text.
  replace ((h * 60 + mi) / 60)%N with h by (apply (N.div_unique _ _ h mi); lia).
  replace ((h * 60 + mi) mod 60)%N with mi by (apply (N.mod_unique _ _ h mi); lia).
  by rewrite <-Eh, <-Em.
Qed.

(** ** Durations *)

Inductive duration_unit := Seconds | Minutes | Hours | Days.
Definition unit_text (u : duration_unit) : str :=
  match u with Seconds => "s" | Minutes => "m" | Hours => "h" | Days => "d" end.
Definition unit_seconds (u : duration_unit) : N :=
  match u with Seconds => 1 | Minutes => 60 | Hours => 3600 | Days => 86400 end.

Lemma negb_digits s : forallb is_ascii_digit s = true →
  forallb (λ a, negb (negb (is_ascii_digit a))) s = true.
Proof. induction s as [|a s IH]; simpl; [done|]. intros H. bool_norm. by rewrite H, IH. Qed.

Lemma find_char_Some p s n :
  find_char p s = Some n →
  ∃ c, s = take n s ++ c :: drop (S n) s ∧ p c = true
       ∧ forallb (λ a, negb (p a)) (take n s) = true.
Proof.
  revert n. induction s as [|a s IH]; intros n; simpl; [done|].
  destruct (p a) eqn:E.
  - intros [= <-]. by exists a.
  - destruct (find_char p s) as [k|] eqn:Ek; [|done]. simpl. intros [= <-].
    destruct (IH k eq_refl) as (c & H1 & H2 & H3). exists c. simpl.
    rewrite E, <-H1. simpl. by rewrite H3.
Qed.

Lemma find_char_le p s n : find_char p s = Some n → n < length s.
Proof.
  revert n. induction s as [|a s IH]; intros n; simpl; [done|].
  destruct (p a); [intros [= <-]; lia|].
  destruct (find_char p s) as [k|]; [|done]. simpl. intros [= <-].
  specialize (IH k eq_refl). lia.
Qed.

Lemma wrap64_mul_pos n m : (0 < n)%N → (0 < m)%N → (n * m ≤ u64_max)%N → wrap64 (n * m) ≠ 0%N.
Proof. intros ???. rewrite wrap64_small by done. nia. Qed.

(** ** Windows *)

(** A window the validator accepts: at least one day, [HH:MM] bounds in order,
    and no zero duration. *)
Definition window_ok (w : MaintenanceWindow) : Prop :=
  days w ≠ [] ∧
  (∃ s e, (s < e < 1440)%N ∧ start w = clock_text s ∧ end_ w = clock_text e) ∧
  max_duration_minutes w ≠ Some 0%N.

Lemma validate_window_ok i w : validate_window i w = [] ↔ window_ok w.
Proof.
  unfold validate_window, window_ok. split.
  - intros H. apply app_eq_nil in H as [Hd H].
    destruct (bool_decide (days w = [])) eqn:E; [done|]. bool_norm.
    destruct (parse_clock (start w)) as [s|] eqn:Es; [|done].
    destruct (parse_clock (end_ w)) as [e|] eqn:Ee; [|done].
    apply app_eq_nil in H as [H1 H2].
    destruct (e <=? s)%N eqn:Ele; [done|].
    destruct (bool_decide (max_duration_minutes w = _)) eqn:Em; [done|]. bool_norm.
    apply parse_clock_inv in Es as [_ ->], Ee as [? ->]. split; [done|]. split; [|done].
    exists s, e. split; [lia|done].
  - intros (Hd & (s & e & Hse & -> & ->) & Hm).
    rewrite !parse_clock_text by lia. rewrite !bool_decide_eq_false_2 by done.
    by rewrite (proj2 (N.leb_gt e s)) by lia.
Qed.

Lemma concat_imap_nil {A B : Type} (P : A → Prop) (f : nat → A → list B) l :
  (∀ i x, f i x = [] ↔ P x) → concat (imap f l) = [] ↔ Forall P l.
Proof.
  revert f. induction l as [|x l IH]; intros f Hf; simpl; [by split|].
  rewrite Forall_cons_iff, <-(Hf 0 x), <-(IH (f ∘ S)) by (intros; apply Hf).
  split; [apply app_eq_nil|by intros [-> ->]].
Qed.

Lemma validate_windows_ok ws : validate_windows ws = [] ↔ Forall window_ok ws.
Proof. apply concat_imap_nil, validate_window_ok. Qed.

Lemma if_nil {A : Type} (b : bool) (x : A) : (if b then [] else [x]) = [] ↔ b = true.
Proof. by destruct b. Qed.
Lemma if_nil' {A : Type} (b : bool) (x : A) : (if b then [x] else []) = [] ↔ b = false.
Proof. by destruct b. Qed.

Lemma validate_hostname_ok h :
  validate_hostname h = [] ↔
  ∀ n, h = Some n → trim n ≠ [] ∧ any_whitespace (trim n) = false.
Proof.
  destruct h as [h|]; simpl; [|by split].
  destruct (bool_decide (trim h = [])) eqn:E; bool_norm.
  { split; [done|]. intros H. by destruct (H h eq_refl). }
  destruct (any_whitespace (trim h)) eqn:E'.
  { split; [done|]. intros H. destruct (H h eq_refl) as [_ H']. by rewrite E' in H'. }
  split; [|done]. intros _ n [= <-]. done.
Qed.

Lemma validate_base_path_ok p :
  validate_base_path p = [] ↔
  trim p = p ∧ starts_with "/" p = true ∧ 2 ≤ length p.
Proof.
  unfold validate_base_path.
  destruct (negb _ || _) eqn:E.
  - split; [done|]. intros (Ht & Hs & Hl). rewrite Ht, Hs in E.
    destruct (length p <? 2)%nat eqn:El; bool_norm; [lia|done].
  - bool_norm. rewrite bool_decide_decide. destruct (decide _) as [Hp|Hp]; simpl.
    + rewrite <-Hp in *. done.
    + split; [done|]. intros (Ht & _). by rewrite Ht in Hp.
Qed.

Lemma trim_dec_unit n u : trim (dec n ++ unit_text u) = dec n ++ unit_text u.
Proof.
  apply trim_graphic. rewrite forallb_app, (forallb_impl _ _ _ digit_graphic (dec_digits n)).
  by destruct u.
Qed.

Lemma find_char_dec n u :
  find_char (λ c, negb (is_ascii_digit c)) (dec n ++ unit_text u) = Some (length (dec n)).
Proof. destruct u; apply find_char_app; try done; apply negb_digits, dec_digits. Qed.

(** ** Properties *)

(** [parse_clock] accepts exactly the texts [HH:MM] of the minutes of a
    day, and gives back the minute it spells. *)
Theorem parse_clock_spec (s : str) (m : N) :
  parse_clock s = Ok m ↔ (m < 1440)%N ∧ s = pad2 (m / 60) ++ ":" ++ pad2 (m mod 60).
Proof.
  split; [apply parse_clock_inv|]. intros [Hm ->]. by apply parse_clock_text.
Qed.

(** [parse_duration] reads a whole number and a unit as that many seconds,
    up to the 64-bit wrap-around of the unchecked product; zero, and a number
    that does not fit, are refused. The wrap-around is reachable: a positive
    number of days is accepted as the interval zero. *)
Theorem parse_duration_spec (n : N) (u : duration_unit) :
  parse_duration (dec n ++ unit_text u) =
    (if (u64_max <? n)%N then Err ("invalid number" : str)
     else if (n =? 0)%N then Err ("duration must be greater than zero" : str)
     else Ok (wrap64 (n * unit_seconds u)))
  ∧ parse_duration "144115188075855872d" = Ok 0%N.
Proof.
  split; [|by vm_compute]. unfold parse_duration.
  rewrite trim_dec_unit. rewrite find_char_dec. simpl ok_or. simpl mbind.
  rewrite take_app_length, drop_app_length.
  unfold ok_or. rewrite parse_uint_dec_any.
  destruct (u64_max <? n)%N; [done|]. simpl. by destruct u.
Qed.

Section validated.
Context {T : TomlValue}.


(** The compiled-in defaults pass. *)
Example config_default_valid : validate config_default = Ok ().
Proof. reflexivity. Qed.

End validated.
