(* ===== verification/Schedule.v ===== *)
(** * abora-config: the update policy at one moment

    Models [crates/abora-config/src/schedule.rs]: the local time read from
    [date], membership in a maintenance window, what policy permits, and when a
    check or an automatic install is due. *)

From S2P Require Import Prelude Str World Types Config.

Record LocalTime := mkTime { weekday : Weekday; minutes : N }.
#[global] Instance LocalTime_eq_dec : EqDecision LocalTime.
Proof. solve_decision. Defined.

Record Permissions := mkPermissions {
  in_maintenance_window : option bool;
  apply_permitted : bool;
  installs_permitted : bool;
  reboot_permitted : bool;
}.
#[global] Instance Permissions_eq_dec : EqDecision Permissions.
Proof. solve_decision. Defined.

Definition weekday_of (day : str) : option Weekday :=
  if decide (day = ("1" : str)) then Some Monday
  else if decide (day = ("2" : str)) then Some Tuesday
  else if decide (day = ("3" : str)) then Some Wednesday
  else if decide (day = ("4" : str)) then Some Thursday
  else if decide (day = ("5" : str)) then Some Friday
  else if decide (day = ("6" : str)) then Some Saturday
  else if decide (day = ("7" : str)) then Some Sunday
  else None.

(** Parse [date +"%u %H:%M"]. *)
Definition parse_date_output (text : str) : option LocalTime :=
  '(day, clock) ← split_once " " (trim text);
  '(hour, minute) ← split_once ":" clock;
  weekday ← weekday_of day;
  hour ← parse_uint u32_max hour;
  minute ← parse_uint u32_max minute;
  if ((hour <? 24) && (minute <? 60))%N then Some (mkTime weekday (hour * 60 + minute)) else None.

Definition local_time `{Env} : io (option LocalTime) :=
  out ← run_command "date" ["+%u %H:%M" : str];
  mret (match out with Exited true _ text _ => parse_date_output text | _ => None end).

(** A window that does not parse is ignored. *)
Definition window_contains (now : LocalTime) (w : MaintenanceWindow) : bool :=
  match parse_clock (start w), parse_clock (end_ w) with
  | Ok s, Ok e =>
      bool_decide (weekday now ∈ days w) && (s <=? minutes now)%N && (minutes now <? e)%N
  | _, _ => false
  end.
Definition in_window (ws : list MaintenanceWindow) (now : LocalTime) : bool :=
  existsb (window_contains now) ws.

(** A [Duration] is its nanoseconds. *)
Definition from_secs (n : N) : N := (n * 1000000000)%N.

Section policy.
Context {T : TomlValue}.

Definition permissions (config : Config) (now : option LocalTime) : Permissions :=
  let inside := (λ t, m_enabled (maintenance config) && in_window (windows (maintenance config)) t) <$> now in
  let in_win := bool_decide (inside = Some true) in
  mkPermissions
    (in_window (windows (maintenance config)) <$> now)
    in_win
    (automatic (updates config) && in_win)
    (match reboot_policy (updates config) with
     | Always => true
     | Never => false
     | Ask => in_win
     end).

Definition check_interval_of (config : Config) : N :=
  from_secs (match parse_duration (check_interval (updates config)) with
             | Ok n => n
             | Err _ => 21600%N
             end).

End policy.

Definition should_auto_apply (perms : Permissions) (has_available apply_pending : bool)
    (since_last_attempt : option N) (interval : N) : bool :=
  installs_permitted perms && has_available && negb apply_pending
  && match since_last_attempt with Some t => (interval <=? t)%N | None => true end.

Definition RETRY_AFTER_FAILURE : N := from_secs 900.

Definition check_is_due (since_last_attempt : N) (last_succeeded : bool) (interval : N) : bool :=
  let wait := if last_succeeded then interval else N.min interval RETRY_AFTER_FAILURE in
  (wait <=? since_last_attempt)%N.

(** ** Reference *)

(** The day of a time, its clock in a half-open interval of minutes. *)
Definition inside_window (w : MaintenanceWindow) (t : LocalTime) : Prop :=
  ∃ s e, start w = clock_text s ∧ end_ w = clock_text e ∧
    weekday t ∈ days w ∧ (s ≤ minutes t < e)%N ∧ (e < 1440)%N.

Definition weekday_number (d : Weekday) : nat :=
  match d with
  | Monday => 1 | Tuesday => 2 | Wednesday => 3 | Thursday => 4
  | Friday => 5 | Saturday => 6 | Sunday => 7
  end.

(** What [date +"%u %H:%M"] prints at a time. *)
Definition date_text (t : LocalTime) : str :=
  dec_nat (weekday_number (weekday t)) ++ " " ++ clock_text (minutes t) ++ [LF].

Lemma window_contains_spec w t :
  (minutes t < 1440)%N → window_contains t w = true ↔ inside_window w t.
Proof.
  intros Ht. unfold window_contains, inside_window. split.
  - destruct (parse_clock (start w)) as [s|] eqn:Es; [|done].
    destruct (parse_clock (end_ w)) as [e|] eqn:Ee; [|done]. intros H. bool_norm.
    apply parse_clock_inv in Es as [? ->], Ee as [? ->]. by exists s, e.
  - intros (s & e & -> & -> & Hd & [Hs He] & Hlt). rewrite !parse_clock_text by lia.
    rewrite bool_decide_eq_true_2 by done.
    by rewrite (proj2 (N.leb_le _ _) Hs), (proj2 (N.ltb_lt _ _) He).
Qed.

Lemma in_window_spec ws t :
  (minutes t < 1440)%N → in_window ws t = true ↔ ∃ w, w ∈ ws ∧ inside_window w t.
Proof.
  intros Ht. unfold in_window. rewrite existsb_exists.
  split; intros (w & Hw & H); exists w; split; try by apply list_elem_of_In.
  - by apply window_contains_spec.
  - by apply window_contains_spec.
Qed.

Lemma parse_date_output_minutes s t : parse_date_output s = Some t → (minutes t < 1440)%N.
Proof.
  unfold parse_date_output. destruct (split_once _ _) as [[a b]|]; [|done]. simpl.
  destruct (split_once _ _) as [[h m]|]; [|done]. simpl.
  destruct (weekday_of a); [|done]. simpl.
  destruct (parse_uint _ h) as [h'|]; [|done]. simpl.
  destruct (parse_uint _ m) as [m'|]; [|done]. simpl.
  destruct (_ && _) eqn:E; [|done]. intros [= <-]. bool_norm. simpl. lia.
Qed.

Lemma local_time_minutes {env : Env} w t w' :
  local_time w = (Some t, w') → (minutes t < 1440)%N.
Proof.
  unfold local_time, mbind, io_bind. destruct (run_command _ _ w) as [out w1]. simpl.
  intros [= H _]. destruct out as [| | |[] ? out ?]; try done. by apply parse_date_output_minutes in H.
Qed.

Definition DATE : str * list str := ("date" : str, ["+%u %H:%M" : str]).
(** Some run of [date] has told the time [t]. *)
Definition told {env : Env} (t : option LocalTime) : Prop := ∃ w w1, local_time w = (t, w1).
Lemma local_time_told {env : Env} w t w1 : local_time w = (t, w1) → told t.
Proof. by exists w, w1. Qed.

Lemma local_time_inv {env : Env} w t w1 :
  local_time w = (t, w1) → commands w1 = DATE :: commands w.
Proof.
  unfold local_time. intros H. step_in H as e w2 E. injection E as <- <-. by injection H as <- <-.
Qed.

Lemma trim_line a r b :
  is_graphic a = true → is_graphic b = true → trim (a :: r ++ [b] ++ [LF]) = a :: r ++ [b].
Proof.
  intros Ha Hb. unfold trim. rewrite trim_start_id by done. unfold trim_end.
  replace (rev (a :: r ++ [b] ++ [LF])) with (LF :: b :: rev (a :: r)).
  - change (trim_rev (LF :: b :: rev (a :: r))) with (trim_rev (b :: rev (a :: r))).
    rewrite trim_rev_id by done. by rewrite <-(rev_unit (a :: r) b), rev_involutive.
  - rewrite app_assoc, app_comm_cons, rev_unit. f_equal. by rewrite app_comm_cons, rev_unit.
Qed.

Lemma parse_date_text t : (minutes t < 1440)%N → parse_date_output (date_text t) = Some t.
Proof.
  intros Ht. destruct t as [d m]. cbn [minutes] in Ht.
  assert (H1 : (m / 60 < 24)%N) by (apply N.Div0.div_lt_upper_bound; lia).
  assert (H2 : (m mod 60 < 60)%N) by (apply N.mod_lt; lia).
  destruct (pad2_digits (m / 60) ltac:(lia)) as (Ha & Hb & Hc).
  destruct (pad2_digits (m mod 60) ltac:(lia)) as (Hd & He & Hf).
  unfold parse_date_output, date_text, clock_text. cbn [minutes weekday].
  destruct (exists_last (l := pad2 (m mod 60))) as (r & b & Er); [by intros E; rewrite E in Hd|].
  replace (trim _) with (dec_nat (weekday_number d) ++ " " ++ pad2 (m / 60) ++ ":" ++ pad2 (m mod 60)).
  - change ((" " : str) ++ ?x) with (" "%char :: x).
    rewrite split_once_app by by apply (forallb_not_elem _ _ _ (dec_digits _)).
    simpl. rewrite split_once_app by by apply digits_no_colon.
    simpl. rewrite Hc, Hf. replace (weekday_of _) with (Some d) by by destruct d. simpl.
    rewrite (proj2 (N.ltb_lt _ _) H1), (proj2 (N.ltb_lt _ _) H2). simpl.
    do 2 f_equal. rewrite (N.div_mod' m 60) at 3. lia.
  - rewrite Er. assert (Hg : is_graphic b = true).
    { apply digit_graphic. rewrite Er, forallb_app in He. simpl in He. by bool_norm. }
    destruct d; simpl; symmetry;
      rewrite <-!app_assoc, !app_comm_cons, !app_assoc;
      rewrite <-(app_assoc _ [b] [LF]); by apply trim_line.
Qed.

(** ** Properties *)

(** The local time is read back from what [date +"%u %H:%M"] prints, for
    every minute of the week, and no other text than one with a day 1 to 7 and a
    time of the day yields a time. *)
Theorem date_round_trip (t : LocalTime) :
  (minutes t < 1440)%N →
  parse_date_output (date_text t) = Some t
  ∧ ∀ s u, parse_date_output s = Some u → (minutes u < 1440)%N.
Proof.
  intros Ht. split; [by apply parse_date_text|apply parse_date_output_minutes].
Qed.
Lemma date_round_trip_witness :
  parse_date_output ("7 03:15" ++ [LF]) = Some (mkTime Sunday 195).
Proof. apply (date_round_trip (mkTime Sunday 195)). vm_compute. reflexivity. Defined.

(** C29: the policy. At a known time of the day, updates may be applied on
    request exactly when maintenance is enforced and some window, on that day,
    has [start <= now < end]; installing on its own also needs [automatic];
    rebooting follows the policy: always, never, or with [ask] exactly when
    applying is permitted. At an unknown time nothing is applied or installed,
    and only [always] reboots. *)
Theorem permissions_spec {T : TomlValue} (config : Config) (t : LocalTime) :
  (minutes t < 1440)%N →
  let p := permissions config (Some t) in
  (apply_permitted p = true ↔
     m_enabled (maintenance config) = true ∧
     ∃ w, w ∈ windows (maintenance config) ∧ inside_window w t)
  ∧ installs_permitted p = automatic (updates config) && apply_permitted p
  ∧ reboot_permitted p = match reboot_policy (updates config) with
                         | Always => true | Never => false | Ask => apply_permitted p end
  ∧ permissions config None =
      mkPermissions None false false (bool_decide (reboot_policy (updates config) = Always)).
Proof.
  intros Ht p. subst p. split; [|split; [done|split; [done|]]].
  - cbn. rewrite bool_decide_eq_true, <-in_window_spec by done.
    destruct (m_enabled _), (in_window _ _); naive_solver.
  - unfold permissions. simpl. rewrite andb_false_r.
    destruct (reboot_policy (updates config)); done.
Qed.
Lemma permissions_spec_witness :
  let _ : TomlValue := {| tval := unit; as_table _ := None |} in
  let w := mkWindow [Sunday] "03:00" "05:00" None in
  let c := mkConfig _ system_default updates_default (mkMaintenance true [w]) remote_default
             security_default logging_default api_default (mkFeatures ∅) ∅ in
  permissions c None = mkPermissions None false false false.
Proof.
  intros T w c. apply (permissions_spec c (mkTime Sunday 195)). vm_compute. reflexivity.
Defined.

(** A check becomes due after the interval when the last one succeeded and
    no later than the interval, and at most fifteen minutes, when it failed; an
    automatic install is attempted only when policy installs, something is
    available, nothing is pending and an interval has passed since the last
    attempt. *)
Theorem due_spec (since interval : N) (last_ok available pending : bool)
    (perms : Permissions) (last : option N) :
  (check_is_due since last_ok interval = true ↔
     (interval ≤ since)%N ∨ last_ok = false ∧ (from_secs 900 ≤ since)%N)
  ∧ (should_auto_apply perms available pending last interval = true ↔
     installs_permitted perms = true ∧ available = true ∧ pending = false ∧
     ∀ t, last = Some t → (interval ≤ t)%N).
Proof.
  split.
  - unfold check_is_due. destruct last_ok.
    + rewrite N.leb_le. naive_solver.
    + rewrite N.leb_le. unfold RETRY_AFTER_FAILURE. lia.
  - unfold should_auto_apply. rewrite !andb_true_iff, negb_true_iff.
    destruct last as [t|]; [rewrite N.leb_le|]; naive_solver.
Qed.
