(* ===== verification/Helper.v ===== *)
(** * abora-apply: the root helper

    Models [services/abora-apply/src/main.rs]: handling the request file, from
    the checks to the fixed [apt-get] command lines, and the order in which the
    result is written, the request removed and the reboot started. Messages on
    standard error are left out. *)

From S2P Require Import Prelude Str World Replace Log Types Host Apply Config Schedule.

(** Seconds. *)
Definition INSTALL_TIMEOUT : N := 1800.
Definition DEFAULT_CONFIG : str := "/etc/abora/abora.toml".
Definition REBOOT_MARKER : str := "/var/run/reboot-required".

Record Outcome := mkOutcome { oc_result : ApplyResult; oc_reboot : bool }.

Definition refuse (id started now note : str) : Outcome :=
  mkOutcome (mkResult id started now false [] (Some note) false) false.

Definition OUTSIDE_WINDOW : str :=
  "refused: updates may only be applied inside a maintenance window ([maintenance] enabled, and the local time inside a window)".
Definition NOTHING_TO_DO : str :=
  "nothing to do: none of the requested packages is upgradable any more".
Definition NEEDS_REBOOT : str := "a reboot is needed but policy does not allow one now".

Section helper.
Context {env : Env} {T : TomlValue} {toml : ConfigToml}.
Context {request_serde : Serde ApplyRequest} {result_serde : Serde ApplyResult}.

(** Everything the helper depends on. *)
Record Ctx := mkCtx {
  request_path : str;
  config : Config;
  runner : str → list str → io (result str str);
  now : io str;
  ctx_local_time : io (option LocalTime);
  marker : str;
}.

Definition names (upgrades : list PackageUpgrade) : list str := pu_name <$> upgrades.

(** The installation and its outcome, once [todo] is known. *)
Definition install (ctx : Ctx) (perms : Permissions) (id started : str) (todo gone : list str)
    : io Outcome :=
  r ← runner ctx "apt-get" (install_args todo);
  match r with
  | Err e => now ← now ctx; mret (refuse id started now ("apt-get failed: " ++ e))
  | Ok _ =>
      present ← exists_path (marker ctx);
      let reboot := present && reboot_permitted perms in
      let note := if bool_decide (gone = []) then None
                  else Some (dec_nat (length gone)
                             ++ " requested package(s) were no longer upgradable and were skipped") in
      present ← exists_path (marker ctx);
      let note := if present && negb reboot
                  then Some (match note with
                             | None => NEEDS_REBOOT
                             | Some n => n ++ "; " ++ NEEDS_REBOOT
                             end)
                  else note in
      now ← now ctx;
      mret (mkOutcome (mkResult id started now true todo note reboot) reboot)
  end.

(** From the policy on, for a valid request. *)
Definition apply_request (ctx : Ctx) (started : str) (request : ApplyRequest) : io Outcome :=
  let id := ar_id request in
  t ← ctx_local_time ctx;
  let perms := permissions (config ctx) t in
  if negb (apply_permitted perms) then
    now ← now ctx; mret (refuse id started now OUTSIDE_WINDOW)
  else
    simulation ← runner ctx "apt-get" SIMULATE;
    match simulation with
    | Err e => now ← now ctx; mret (refuse id started now ("could not check what is upgradable: " ++ e))
    | Ok simulation =>
        let upgradable := names (parse_simulation simulation) in
        let todo := filter (λ p, p ∈ upgradable) (ar_packages request) in
        let gone := filter (λ p, ¬ p ∈ upgradable) (ar_packages request) in
        if bool_decide (todo = []) then
          now ← now ctx;
          mret (mkOutcome (mkResult id started now true [] (Some NOTHING_TO_DO) false) false)
        else install ctx perms id started todo gone
    end.

Definition process (ctx : Ctx) : io (option Outcome) :=
  present ← symlink_metadata (request_path ctx);
  match present with
  | Err _ => mret None
  | Ok _ =>
      started ← now ctx;
      let fail id note := now ← now ctx; mret (Some (refuse id started now note)) in
      bytes ← read_regular_file (request_path ctx) (Some MAX_REQUEST_AGE);
      match bytes with
      | Err e => fail ("invalid" : str) ("request refused: " ++ e)
      | Ok bytes =>
          match decode_json bytes with
          | None => fail ("invalid" : str) ("request refused: not valid JSON" : str)
          | Some request =>
              match validate_request request with
              | Err e =>
                  let id := if valid_request_id (ar_id request) then ar_id request else "invalid" in
                  fail id ("request refused: " ++ e)
              | Ok _ => o ← apply_request ctx started request; mret (Some o)
              end
          end
      end
  end.

Record Args := mkArgs { arg_config : str; arg_result_file : option str }.
Definition args_default : Args := mkArgs DEFAULT_CONFIG None.

(** [None] is [--help], which prints the usage and exits with success. *)
Fixpoint parse_args_go (a : Args) (argv : list str) : result str (option Args) :=
  match argv with
  | [] => Ok (Some a)
  | flag :: rest =>
      if decide (flag = ("--config" : str)) then
        match rest with
        | v :: rest => parse_args_go (mkArgs v (arg_result_file a)) rest
        | [] => Err ("--config needs a path" : str)
        end
      else if decide (flag = ("--result-file" : str)) then
        match rest with
        | v :: rest => parse_args_go (mkArgs (arg_config a) (Some v)) rest
        | [] => Err ("--result-file needs a path" : str)
        end
      else if decide (flag = ("--help" : str) ∨ flag = ("-h" : str)) then Ok None
      else Err ("unknown argument `" ++ flag ++ "`")
  end.
Definition parse_args (argv : list str) : result str (option Args) := parse_args_go args_default argv.

Definition load_config (path : str) : io (result str Config) :=
  meta ← metadata path;
  match meta with
  | Err e => mret (Err (with_path path e))
  | Ok meta =>
      let len := match meta with Regular bytes _ _ => N.of_nat (length bytes) | _ => 0%N end in
      if (MAX_FILE_BYTES <? len)%N then mret (Err (path ++ " is unreasonably large"))
      else
        text ← fs_read_to_string path;
        mret (match text with
              | Err e => Err (with_path path e)
              | Ok text => map_err (λ e, path ++ ": " ++ config_error_to_string e) (from_str text)
              end)
  end.

Definition request_path_of (c : Config) : str :=
  join_path (match parent (state_file (updates c)) with Some p => p | None => "." end)
    REQUEST_FILE_NAME.

Definition system_ctx (c : Config) : Ctx :=
  mkCtx (request_path_of c) c (Host.run INSTALL_TIMEOUT) rfc3339_now local_time REBOOT_MARKER.

(** [run] after the arguments and the configuration. *)
Definition deliver (ctx : Ctx) (result_file : str) (o : Outcome) : io (result str ()) :=
  let json := encode_json (oc_result o) in
  r ← write_atomic result_file json 420 (* 0o644 *);
  match r with
  | Err e => mret (Err ("could not write " ++ result_file ++ ": " ++ io_message e))
  | Ok _ =>
      _ ← remove_file (request_path ctx);
      if oc_reboot o then
        r ← runner ctx "systemctl" ["reboot" : str];
        mret (match r with Ok _ => Ok () | Err e => Err ("reboot failed: " ++ e) end)
      else mret (Ok ())
  end.

Definition serve (ctx : Ctx) (result_file : str) : io (result str ()) :=
  outcome ← process ctx;
  match outcome with
  | None => mret (Ok ())
  | Some o => deliver ctx result_file o
  end.

Definition run (argv : list str) : io (result str ()) :=
  match parse_args argv with
  | Err e => mret (Err e)
  | Ok None => mret (Ok ())
  | Ok (Some args) =>
      config ← load_config (arg_config args);
      match config with
      | Err e => mret (Err e)
      | Ok config =>
          let result_file := default (apply_result_file (updates config)) (arg_result_file args) in
          serve (system_ctx config) result_file
      end
  end.

End helper.

(** ** Lemmas *)

Section lemmas.
Context {env : Env} {T : TomlValue} {toml : ConfigToml}.
Context {request_serde : Serde ApplyRequest} {result_serde : Serde ApplyResult}.

Definition SIMULATION : str * list str := ("apt-get" : str, SIMULATE).
Definition INSTALL (todo : list str) : str * list str := ("apt-get" : str, install_args todo).
Definition REBOOT : str * list str := ("systemctl" : str, ["reboot" : str]).

(** What an installation leaves in its outcome. *)
Definition installed (perms : Permissions) (id started : str) (todo : list str) (o : Outcome) : Prop :=
  res_id (oc_result o) = id ∧ res_started_at (oc_result o) = started
  ∧ oc_reboot o = res_reboot_started (oc_result o)
  ∧ (if res_succeeded (oc_result o) then res_packages (oc_result o) = todo
     else res_packages (oc_result o) = [] ∧ oc_reboot o = false)
  ∧ (oc_reboot o = true → reboot_permitted perms = true).

Lemma install_inv c perms id started todo gone w o w1 :
  install (system_ctx c) perms id started todo gone w = (o, w1) →
  commands w1 = INSTALL todo :: commands w ∧ installed perms id started todo o.
Proof.
  unfold install, INSTALL. cbn [runner now marker system_ctx]. intros H.
  step_in H as r w2 E1. apply run_inv in E1. rewrite <-E1.
  destruct r as [out|e].
  - step_in H as p1 w3 E2. apply readonly_inv in E2 as [_ <-]; [|eauto with abora].
    step_in H as p2 w4 E3. apply readonly_inv in E3 as [_ <-]; [|eauto with abora].
    step_in H as t w5 E4. apply readonly_inv in E4 as [_ <-]; [|eauto with abora].
    injection H as <- <-. split; [done|]. split_and!; try done. cbn.
    intros Hr. by bool_norm.
  - step_in H as t w5 E4. apply readonly_inv in E4 as [_ <-]; [|eauto with abora].
    injection H as <- <-. done.
Qed.

(** The request a helper run acts on: a recent, small, regular file with a
    well-formed request in it. *)
Definition pending_request (c : Config) (fs : files_t) (r : ApplyRequest) : Prop :=
  ∃ bytes m t n, fs !! request_path_of c = Some (Regular bytes m t)
    ∧ (N.of_nat (length bytes) ≤ MAX_FILE_BYTES)%N
    ∧ (age_of (system_time n) t ≤ MAX_REQUEST_AGE)%N
    ∧ decode_json bytes = Some r ∧ validate_request r = Ok ().

(** What [apt-get]'s simulation offers, in some run of it. *)
Definition simulated (upgradable : list str) : Prop :=
  ∃ w out w', Host.run INSTALL_TIMEOUT "apt-get" SIMULATE w = (Ok out, w')
    ∧ upgradable = names (parse_simulation out).

Definition todo_of (upgradable packages : list str) : list str := filter (λ p, p ∈ upgradable) packages.

(** How far a run went for a request: the programs it ran, newest first. *)
Inductive went (c : Config) (r : ApplyRequest) (started : str) (o : Outcome) : list (str * list str) → Prop :=
| went_window t :
    told t → apply_permitted (permissions c t) = false → res_succeeded (oc_result o) = false →
    oc_reboot o = false → went c r started o [DATE]
| went_simulation t :
    told t → apply_permitted (permissions c t) = true → res_packages (oc_result o) = [] →
    oc_reboot o = false → went c r started o [SIMULATION; DATE]
| went_install t upgradable todo :
    told t → apply_permitted (permissions c t) = true → simulated upgradable →
    todo = todo_of upgradable (ar_packages r) → todo ≠ [] →
    installed (permissions c t) (ar_id r) started todo o →
    went c r started o [INSTALL todo; SIMULATION; DATE].

Lemma apply_request_inv c started r w o w1 :
  apply_request (system_ctx c) started r w = (o, w1) →
  ∃ new, commands w1 = new ++ commands w ∧ went c r started o new.
Proof.
  unfold apply_request. cbn [ctx_local_time runner now config system_ctx]. intros H.
  step_in H as t w2 E1. pose proof (local_time_told _ _ _ E1) as Htold. apply local_time_inv in E1.
  destruct (apply_permitted _) eqn:Ep; cbn [negb] in H.
  - step_in H as sim w3 E2. pose proof (run_inv _ _ _ _ _ _ E2) as E2'.
    destruct sim as [out|e].
    + destruct (bool_decide _) eqn:Et; bool_norm.
      * step_in H as n w4 E3. apply readonly_inv in E3 as [_ E3]; [|eauto with abora].
        injection H as <- <-. exists [SIMULATION; DATE]. rewrite E3, E2', E1.
        split; [done|]. by eapply went_simulation.
      * apply install_inv in H as [Hc Ho]. eexists [INSTALL _; SIMULATION; DATE].
        rewrite Hc, E2', E1. split; [done|]. eapply went_install; try done.
        by exists w2, out, w3.
    + step_in H as n w4 E3. apply readonly_inv in E3 as [_ E3]; [|eauto with abora].
      injection H as <- <-. exists [SIMULATION; DATE]. rewrite E3, E2', E1.
      split; [done|]. by eapply went_simulation.
  - step_in H as n w4 E3. apply readonly_inv in E3 as [_ E3]; [|eauto with abora].
    injection H as <- <-. exists [DATE]. rewrite E3, E1. split; [done|]. by eapply went_window.
Qed.

(** The outcome of a run that stopped before the policy. *)
Definition refused (o : option Outcome) : Prop :=
  ∀ x, o = Some x → res_succeeded (oc_result x) = false ∧ res_packages (oc_result x) = []
                    ∧ oc_reboot x = false.

Lemma process_inv c w o w1 :
  process (system_ctx c) w = (o, w1) →
  (commands w1 = commands w ∧ refused o)
  ∨ ∃ r started x new, pending_request c (files w) r ∧ o = Some x
      ∧ commands w1 = new ++ commands w ∧ went c r started x new.
Proof.
  unfold process. cbn [now request_path system_ctx]. intros H.
  step_in H as p w2 E1. apply readonly_inv in E1 as [F1 C1]; [|apply readonly_syscall].
  destruct p as [nd|e]; [|injection H as <- <-; left; by split].
  step_in H as started w3 E2. apply readonly_inv in E2 as [F2 C2]; [|eauto with abora].
  step_in H as bytes w4 E3. pose proof (readonly_inv _ _ _ _ (readonly_read_regular _ _) E3) as [F3 C3].
  assert (Hfail : ∀ id note,
    (n ← rfc3339_now; mret (Some (refuse id started n note))) w4 = (o, w1) →
    commands w1 = commands w ∧ refused o).
  { intros id note Hf. step_in Hf as n w5 E4. apply readonly_inv in E4 as [_ C4]; [|eauto with abora].
    injection Hf as <- <-. split; [congruence|]. by intros x [= <-]. }
  destruct bytes as [bytes|e]; [|left; by eapply Hfail].
  destruct (decode_json bytes) as [r|] eqn:Ed; [|left; by eapply Hfail].
  destruct (validate_request r) as [[]|e] eqn:Ev; [|left; by eapply Hfail].
  right. step_in H as x w5 E4. injection H as <- <-.
  apply apply_request_inv in E4 as (new & C4 & Hw).
  apply read_regular_ok in E3 as (m & t & Hf & Hl & Ha).
  exists r, started, x, new. split; [|split; [done|split; [|done]]].
  - exists bytes, m, t, (S (calls w3)). rewrite <-F1, <-F2. split_and!; try done. by apply Ha.
  - by rewrite C4, C3, C2, C1.
Qed.


(** [serve] is [process] followed by [deliver]. *)
Lemma deliver_inv c rf o w r w1 :
  deliver (system_ctx c) rf o w = (r, w1) →
  commands w1 = commands w ∨ commands w1 = REBOOT :: commands w ∧ oc_reboot o = true.
Proof.
  unfold deliver. cbn [request_path runner system_ctx]. intros H.
  step_in H as r1 w2 E1. apply quiet_inv in E1; [|apply quiet_write_atomic].
  destruct r1 as [[]|e]; [|injection H as <- <-; auto].
  step_in H as r2 w3 E2. apply quiet_inv in E2; [|apply quiet_write].
  destruct (oc_reboot o); [|injection H as <- <-; left; congruence].
  step_in H as r3 w4 E3. apply run_inv in E3. injection H as <- <-. right.
  split; [|done]. rewrite E3. unfold REBOOT. congruence.
Qed.

Lemma todo_spec up packages x :
  x ∈ todo_of up packages ↔ x ∈ packages ∧ x ∈ up.
Proof. unfold todo_of. rewrite list_elem_of_filter. tauto. Qed.

(** A single run, from the configuration on. *)
Lemma serve_inv c rf w r w1 :
  serve (system_ctx c) rf w = (r, w1) →
  commands w1 = commands w
  ∨ ∃ req started o new, pending_request c (files w) req ∧ went c req started o new
      ∧ (commands w1 = new ++ commands w
         ∨ commands w1 = REBOOT :: new ++ commands w ∧ oc_reboot o = true).
Proof.
  unfold serve. intros H. step_in H as o w2 E1.
  apply process_inv in E1 as [[Hc Hr]|(req & started & o' & new & Hp & -> & Hc & Hw)].
  - destruct o as [o|]; [|injection H as <- <-; by left].
    destruct (Hr o eq_refl) as (_ & _ & Hb).
    apply deliver_inv in H as [H|[_ H]]; [|congruence]. left. congruence.
  - right. exists req, started, o', new. split; [done|]. split; [done|].
    rewrite <-Hc. by apply deliver_inv in H.
Qed.

Lemma install_not_in_stopped todo l :
  l = [DATE] ∨ l = [SIMULATION; DATE] → INSTALL todo ∉ l.
Proof.
  unfold INSTALL, DATE, SIMULATION. intros [->| ->]; rewrite ?elem_of_cons, elem_of_nil;
    intros Hx; decompose [or] Hx; done.
Qed.
Lemma reboot_not_in_run todo : REBOOT ∉ [INSTALL todo; SIMULATION; DATE].
Proof.
  unfold REBOOT, INSTALL, DATE, SIMULATION. rewrite !elem_of_cons, elem_of_nil.
  intros Hx. decompose [or] Hx; done.
Qed.

Lemma validated_valid r : validate_request r = Ok () →
  ∀ p, p ∈ ar_packages r → valid_package_name p = true.
Proof.
  intros H p Hp. apply validate_request_ok in H as (_ & _ & _ & H).
  rewrite Forall_forall in H. by apply H, list_elem_of_In.
Qed.

(** *** A host where nothing fails *)

Definition present (fs : files_t) (p : str) : bool :=
  match resolve fs p with Some q => bool_decide (is_Some (fs !! q)) | None => false end.

Lemma exists_path_present p w b w1 :
  (∀ n, io_fault n = None) → exists_path p w = (b, w1) → b = present (files w) p.
Proof.
  intros Hf H. unfold exists_path in H. step_in H as r w2 E.
  unfold metadata, syscall in E. rewrite Hf in E. injection E as <- <-. injection H as <- <-.
  unfold present. destruct (resolve _ _) as [q|]; [|done]. by destruct (files w !! q).
Qed.

Lemma symlink_metadata_found p nd w r w1 :
  (∀ n, io_fault n = None) → files w !! p = Some nd → symlink_metadata p w = (r, w1) → r = Ok nd.
Proof.
  intros Hf Hp. unfold symlink_metadata, syscall. rewrite Hf, Hp. by intros [= <- _].
Qed.

Lemma read_regular_found p bytes m mt a w r w1 :
  (∀ n, io_fault n = None) → files w !! p = Some (Regular bytes m mt) →
  (N.of_nat (length bytes) ≤ MAX_FILE_BYTES)%N → (∀ n, (age_of (system_time n) mt ≤ a)%N) →
  read_regular_file p (Some a) w = (r, w1) → r = Ok bytes.
Proof.
  intros Hf Hp Hl Ha. unfold read_regular_file. intros H. step_in H as x w2 E1.
  pose proof (symlink_metadata_found _ _ _ _ _ Hf Hp E1) as ->.
  apply readonly_inv in E1 as [F1 _]; [|apply readonly_syscall].
  rewrite (proj2 (N.ltb_ge _ _) Hl) in H. step_in H as old w3 E2. step_in E2 as n w4 E3.
  injection E3 as <- <-. rewrite (proj2 (N.ltb_ge _ _) (Ha _)) in E2. injection E2 as <- <-.
  step_in H as b w5 E4. injection H as <- _. unfold fs_read, syscall in E4.
  rewrite Hf in E4. cbn [files] in E4. rewrite F1, resolve_not_link, Hp in E4.
  - by injection E4 as <- _.
  - intros l. by rewrite Hp.
Qed.

Lemma remove_other p q w r w1 :
  p ≠ q → remove_file q w = (r, w1) → files w1 !! p = files w !! p.
Proof.
  intros Hne. unfold remove_file, syscall_write. destruct (io_fault _).
  - by intros [= <- <-].
  - destruct (files w !! q) as [[]|]; intros [= <- <-]; try done; simpl;
      by rewrite lookup_delete_ne.
Qed.

(** A run whose answer is known. *)
Lemma run_answer timeout p args w r w1 st out err :
  (∀ n, command_end n p args = Exited true st out err) → valid_utf8 out = true →
  Host.run timeout p args w = (r, w1) → r = Ok out.
Proof.
  intros Hc Hu. unfold Host.run, finish. intros H. step_in H as e w2 E. injection E as <- <-.
  rewrite Hc, Hu in H. by injection H as <- _.
Qed.

Lemma local_time_answer w t r w1 st err :
  (minutes t < 1440)%N →
  (∀ n, command_end n "date" ["+%u %H:%M" : str] = Exited true st (date_text t) err) →
  local_time w = (r, w1) → r = Some t.
Proof.
  intros Ht Hc. unfold local_time. intros H. step_in H as e w2 E. injection E as <- <-.
  rewrite Hc in H. rewrite parse_date_text in H by done. by injection H as <- _.
Qed.

Lemma install_done c perms id started todo gone w o w1 st err :
  (∀ n, io_fault n = None) →
  (∀ n, command_end n "apt-get" (install_args todo) = Exited true st [] err) →
  install (system_ctx c) perms id started todo gone w = (o, w1) →
  commands w1 = INSTALL todo :: commands w
  ∧ res_succeeded (oc_result o) = true ∧ res_packages (oc_result o) = todo
  ∧ res_id (oc_result o) = id
  ∧ oc_reboot o = present (files w1) REBOOT_MARKER && reboot_permitted perms.
Proof.
  intros Hf Hc H. split; [by apply install_inv in H as [H _]|].
  unfold install in H. cbn [runner now marker system_ctx] in H.
  step_in H as r w2 E1. pose proof (run_answer _ _ _ _ _ _ _ _ _ Hc eq_refl E1) as ->.
  step_in H as p1 w3 E2. pose proof (exists_path_present _ _ _ _ Hf E2) as ->.
  apply readonly_inv in E2 as [F2 _]; [|eauto with abora].
  step_in H as p2 w4 E3. apply readonly_inv in E3 as [F3 _]; [|eauto with abora].
  step_in H as t w5 E4. apply readonly_inv in E4 as [F4 _]; [|eauto with abora].
  injection H as <- <-. split_and!; try done. cbn. by rewrite F4, F3, F2.
Qed.

Lemma apply_request_installs c started req w x w5 t st out err todo :
  (∀ n, io_fault n = None) →
  (minutes t < 1440)%N → apply_permitted (permissions c (Some t)) = true →
  (∀ n, command_end n "date" ["+%u %H:%M" : str] = Exited true st (date_text t) err) →
  (∀ n, command_end n "apt-get" SIMULATE = Exited true st out err) →
  valid_utf8 out = true →
  todo = todo_of (names (parse_simulation out)) (ar_packages req) → todo ≠ [] →
  (∀ n, command_end n "apt-get" (install_args todo) = Exited true st [] err) →
  apply_request (system_ctx c) started req w = (x, w5) →
  commands w5 = [INSTALL todo; SIMULATION; DATE] ++ commands w
  ∧ res_succeeded (oc_result x) = true ∧ res_packages (oc_result x) = todo
  ∧ res_id (oc_result x) = ar_id req
  ∧ oc_reboot x = present (files w5) REBOOT_MARKER && reboot_permitted (permissions c (Some t)).
Proof.
  intros Hf Ht Hp Hdate Hsim Hutf -> Hn Hins H. unfold apply_request in H.
  cbn [ctx_local_time runner now config system_ctx] in H.
  step_in H as tm w1 E1. pose proof (local_time_answer _ _ _ _ _ _ Ht Hdate E1) as ->.
  apply local_time_inv in E1. rewrite Hp in H. cbn [negb] in H.
  step_in H as sim w2 E2. pose proof (run_answer _ _ _ _ _ _ _ _ _ Hsim Hutf E2) as ->.
  apply run_inv in E2. fold (todo_of (names (parse_simulation out)) (ar_packages req)) in H.
  rewrite bool_decide_eq_false_2 in H by done.
  apply (install_done _ _ _ _ _ _ _ _ _ st err Hf Hins) in H as [Hc H].
  split; [|done]. by rewrite Hc, E2, E1.
Qed.

End lemmas.

(** ** Properties *)

Section properties.
Context {env : Env} {T : TomlValue} {toml : ConfigToml}.
Context {request_serde : Serde ApplyRequest} {result_serde : Serde ApplyResult}.

(** C9: all a run of the root helper can do to the system. The programs it
    runs are, in this order and each at most once, [date], the [apt-get]
    simulation, one fixed [apt-get install] and [systemctl reboot], possibly
    stopping early. Anything runs only if a small, recent, well-formed request is
    waiting. An install happens only when policy permits the time
    [date] tells, and its package
    arguments are exactly the requested names that the simulation offers: valid
    names, none of which is an option. A reboot follows only an install, at a
    time the reboot policy permits. *)
Theorem helper_commands c rf w r w' :
  serve (system_ctx c) rf w = (r, w') →
  ∃ new todo, commands w' = new ++ commands w
    ∧ new `suffix_of` [REBOOT; INSTALL todo; SIMULATION; DATE]
    ∧ (new ≠ [] → ∃ req, pending_request c (files w) req
       ∧ (INSTALL todo ∈ new → ∃ t up,
            told t ∧ apply_permitted (permissions c t) = true
            ∧ (REBOOT ∈ new → reboot_permitted (permissions c t) = true)
            ∧ simulated up ∧ todo ≠ []
            ∧ ∀ p, p ∈ todo ↔ p ∈ ar_packages req ∧ p ∈ up ∧ valid_package_name p = true)).
Proof.
  intros H. apply serve_inv in H as [->|(req & started & o & new & Hp & Hw & Hc)].
  { exists [], []. split; [done|]. split; [apply suffix_nil|done]. }
  assert (Hv : validate_request req = Ok ()) by by destruct Hp as (?&?&?&?&?&?&?&?&?).
  destruct Hw as [t _ _ _ Hb|t _ _ _ Hb|t up todo Hto Ht Hs -> Hn Hi].
  - exists [DATE], []. destruct Hc as [Hc|[_ Hr]]; [|congruence].
    split; [done|]. split; [by exists [REBOOT; INSTALL []; SIMULATION]|].
    intros _. exists req. split; [done|]. intros Hin. exfalso. eapply install_not_in_stopped; [|exact Hin]. auto.
  - exists [SIMULATION; DATE], []. destruct Hc as [Hc|[_ Hr]]; [|congruence].
    split; [done|]. split; [by exists [REBOOT; INSTALL []]|].
    intros _. exists req. split; [done|]. intros Hin. exfalso. eapply install_not_in_stopped; [|exact Hin]. auto.
  - set (todo := todo_of up (ar_packages req)) in *.
    destruct Hi as (_ & _ & _ & _ & Hr).
    assert (Hall : ∀ p, p ∈ todo ↔ p ∈ ar_packages req ∧ p ∈ up ∧ valid_package_name p = true).
    { intros p. unfold todo. rewrite todo_spec. pose proof (validated_valid req Hv p). tauto. }
    destruct Hc as [Hc|[Hc Ho]];
      [exists [INSTALL todo; SIMULATION; DATE], todo|
       exists (REBOOT :: [INSTALL todo; SIMULATION; DATE]), todo]; (split; [exact Hc|]).
    + split; [by exists [REBOOT]|]. intros _. exists req. split; [done|]. intros _.
      exists t, up. do 2 (split; [done|]). split; [by intros ?%reboot_not_in_run|]. by split_and!.
    + split; [done|]. intros _. exists req. split; [done|]. intros _.
      exists t, up. do 2 (split; [done|]). split; [auto|]. by split_and!.
Qed.


(** C10: a proper request is served. On a host where nothing fails, when the
    request file is small, recent and well formed, policy permits applying at the
    time [date] tells, and the simulation offers some of the requested packages,
    the helper runs exactly [date], the simulation and one install of exactly
    those packages, and reports them as upgraded; it asks for a reboot exactly
    when the reboot marker is there and policy permits. *)
Theorem helper_installs c w t bytes m mt req out st err todo :
  (∀ n, io_fault n = None) →
  (∀ n, (age_of (system_time n) mt ≤ MAX_REQUEST_AGE)%N) →
  files w !! request_path_of c = Some (Regular bytes m mt) →
  (N.of_nat (length bytes) ≤ MAX_FILE_BYTES)%N →
  decode_json bytes = Some req → validate_request req = Ok () →
  (minutes t < 1440)%N → apply_permitted (permissions c (Some t)) = true →
  (∀ n, command_end n "date" ["+%u %H:%M" : str] = Exited true st (date_text t) err) →
  (∀ n, command_end n "apt-get" SIMULATE = Exited true st out err) →
  valid_utf8 out = true →
  todo = todo_of (names (parse_simulation out)) (ar_packages req) → todo ≠ [] →
  (∀ n, command_end n "apt-get" (install_args todo) = Exited true st [] err) →
  ∃ o w', process (system_ctx c) w = (Some o, w')
    ∧ commands w' = [INSTALL todo; SIMULATION; DATE] ++ commands w
    ∧ res_succeeded (oc_result o) = true ∧ res_packages (oc_result o) = todo
    ∧ res_id (oc_result o) = ar_id req
    ∧ oc_reboot o = present (files w') REBOOT_MARKER && reboot_permitted (permissions c (Some t)).
Proof.
  intros Hf Ha Hw Hl Hd Hv Ht Hp Hdate Hsim Hutf Htodo Hn Hins.
  destruct (process (system_ctx c) w) as [o w'] eqn:H.
  unfold process in H. cbn [now request_path system_ctx] in H.
  step_in H as p w2 E1. pose proof (symlink_metadata_found _ _ _ _ _ Hf Hw E1) as ->.
  apply readonly_inv in E1 as [F1 C1]; [|apply readonly_syscall].
  step_in H as started w3 E2. apply readonly_inv in E2 as [F2 C2]; [|eauto with abora].
  step_in H as b w4 E3. rewrite <-F1, <-F2 in Hw.
  pose proof (read_regular_found _ _ _ _ _ _ _ _ Hf Hw Hl Ha E3) as ->.
  apply readonly_inv in E3 as [F3 C3]; [|eauto with abora].
  rewrite Hd, Hv in H. step_in H as x w5 E4. injection H as <- <-.
  exists x, w5. split; [done|]. rewrite <-C1, <-C2, <-C3.
  by eapply apply_request_installs.
Qed.


(** C25: the result is on disk before the reboot. When the outcome is delivered,
    a failing write is an error, leaves the old result in place, and neither the
    reboot nor any other program runs. Otherwise the result file holds exactly
    the outcome's result, a reboot is started exactly when the outcome asks for
    one, and the state it is started in already has the result. *)
Theorem result_before_reboot c rf o w r w' :
  not_link (files w) (tmp_path rf) → rf ≠ request_path_of c →
  deliver (system_ctx c) rf o w = (r, w') →
  let written fs := ∃ m t, fs !! rf = Some (Regular (encode_json (oc_result o)) m t) in
  (is_ok r = false ∧ commands w' = commands w ∧ files w' !! rf = files w !! rf)
  ∨ (oc_reboot o = false ∧ r = Ok () ∧ commands w' = commands w ∧ written (files w'))
  ∨ (oc_reboot o = true ∧ ∃ w1 a, written (files w1) ∧ commands w1 = commands w
       ∧ Host.run INSTALL_TIMEOUT "systemctl" ["reboot" : str] w1 = (a, w')).
Proof.
  intros Hl Hne H written. unfold deliver in H. cbn [request_path runner system_ctx] in H.
  step_in H as r1 w2 E1. pose proof (quiet_inv _ _ _ _ (quiet_write_atomic _ _ _) E1) as C1.
  pose proof (write_atomic_spec rf (encode_json (oc_result o)) 420 (files w !! rf)
    (mode_of (files w) (tmp_path rf) 420) w ltac:(by split_and!)) as Hs.
  rewrite E1 in Hs. destruct Hs as [_ Hs].
  destruct r1 as [[]|e]; [|injection H as <- <-; by left]. right. destruct Hs as [t Hs].
  step_in H as r2 w3 E2. pose proof (quiet_inv _ _ _ _ (quiet_write _ _) E2) as C2.
  assert (Hw : written (files w3)).
  { exists (mode_of (files w) (tmp_path rf) 420), t. by rewrite (remove_other _ _ _ _ _ Hne E2). }
  destruct (oc_reboot o).
  - right. split; [done|]. step_in H as r3 w4 E3. injection H as _ <-.
    exists w3, r3. split; [done|]. split; [congruence|done].
  - left. injection H as <- <-. split_and!; try done. congruence.
Qed.

End properties.

(** ** An example: one pending update on a Sunday at 03:15 *)

Definition example_request : ApplyRequest := mkRequest "apply-0123" "t" "me" ["zlib1g" : str].
Definition example_time : LocalTime := mkTime Sunday 195.
Definition example_simulation : str := "Inst zlib1g [1] (2 Ubuntu)" ++ [LF].
Definition example_env : Env := {|
  io_fault _ := None;
  short _ := 0;
  command_end _ p args :=
    if decide (p = ("date" : str)) then Exited true [] (date_text example_time) []
    else if decide (args = SIMULATE) then Exited true [] example_simulation []
    else Exited true [] [] [];
  command_effect _ _ _ fs := fs;
  system_time _ := 1000000000000%N;
  umask := 18;
|}.
Definition example_toml : TomlValue := {| tval := unit; as_table _ := None |}.
Definition example_config : @Config example_toml :=
  mkConfig _ system_default updates_default
    (mkMaintenance true [mkWindow [Sunday] "03:00" "05:00" None]) remote_default
    security_default logging_default api_default (mkFeatures ∅) ∅.
Definition example_serde {A : Type} (a : A) : Serde A :=
  {| encode_json _ := "{}"; decode_json _ := Some a |}.
Definition example_result : ApplyResult := mkResult "apply-0123" "t" "t" true [] None false.
Definition example_files : world :=
  mkWorld {[ ("/var/lib/abora/apply-request.json" : str) := Regular "{}" 384 1000000000000 ]} 0 [].

Lemma helper_commands_witness :
  let e := example_env in let q := example_serde example_request in
  let s := example_serde example_result in
  let w' := snd (serve (system_ctx example_config) "/r/result" example_files) in
  ∃ new todo, commands w' = new ++ [] ∧ new `suffix_of` [REBOOT; INSTALL todo; SIMULATION; DATE].
Proof.
  intros e q s w'.
  destruct (helper_commands example_config "/r/result" example_files
    (fst (serve (system_ctx example_config) "/r/result" example_files)) w'
    (surjective_pairing _)) as (new & todo & Hc & Hs & _).
  exists new, todo. split; [exact Hc|exact Hs].
Defined.

Lemma helper_installs_witness :
  let e := example_env in let q := example_serde example_request in
  ∃ o w', process (system_ctx example_config) example_files = (Some o, w')
    ∧ commands w' = [INSTALL ["zlib1g" : str]; SIMULATION; DATE] ++ []
    ∧ res_succeeded (oc_result o) = true ∧ res_packages (oc_result o) = ["zlib1g" : str]
    ∧ res_id (oc_result o) = "apply-0123"
    ∧ oc_reboot o = present (files w') REBOOT_MARKER && true.
Proof.
  intros e q.
  apply (helper_installs (env := e) (request_serde := q) example_config example_files example_time
    "{}" 384 1000000000000 example_request example_simulation [] [] ["zlib1g" : str]).
  - done.
  - intros n. vm_compute. discriminate.
  - vm_compute. reflexivity.
  - vm_compute. discriminate.
  - done.
  - vm_compute. reflexivity.
  - vm_compute. reflexivity.
  - vm_compute. reflexivity.
  - intros n. reflexivity.
  - intros n. reflexivity.
  - vm_compute. reflexivity.
  - vm_compute. reflexivity.
  - discriminate.
  - intros n. vm_compute. reflexivity.
Defined.

Lemma result_before_reboot_witness :
  let e := example_env in let s := example_serde example_result in
  let o := mkOutcome example_result false in
  let d := deliver (system_ctx example_config) "/r/result" o example_files in
  (is_ok (fst d) = false ∧ commands (snd d) = commands example_files
     ∧ files (snd d) !! ("/r/result" : str) = files example_files !! ("/r/result" : str))
  ∨ (oc_reboot o = false ∧ fst d = Ok () ∧ commands (snd d) = commands example_files
     ∧ ∃ m t, files (snd d) !! ("/r/result" : str) = Some (Regular (encode_json (oc_result o)) m t))
  ∨ (oc_reboot o = true ∧ ∃ w1 a,
       (∃ m t, files w1 !! ("/r/result" : str) = Some (Regular (encode_json (oc_result o)) m t))
       ∧ commands w1 = commands example_files
       ∧ Host.run INSTALL_TIMEOUT "systemctl" ["reboot" : str] w1 = (a, snd d)).
Proof.
  intros e s o d. apply (result_before_reboot example_config "/r/result" o example_files).
  - intros t. vm_compute. discriminate.
  - vm_compute. discriminate.
  - apply surjective_pairing.
Defined.
