(* ===== verification/Tokens.v ===== *)
(** * aborad: the bearer-token store, and the CLI that makes its entries

    Models [services/aborad/src/tokens.rs] and the hash side of
    [cli/abora/src/main.rs] ([sha256_hex], [hex_encode]). SHA-256 and the TOML
    decoder are third-party and are parameters. *)

From S2P Require Import Prelude Str World.

(** [sha2::Sha256]: bytes to bytes; a digest is 32 of them. *)
Class Sha256 := {
  sha256 : str → list N;
  sha256_length s : length (sha256 s) = 32;
  sha256_bytes s : Forall (λ b, b < 256)%N (sha256 s);
}.

(** ** Hexadecimal *)

Definition HEX (n : N) : ascii := if (n <? 10)%N then chr (48 + n) else chr (87 + n).

(** The CLI's encoder: two lowercase digits a byte. *)
Definition hex_encode (bytes : list N) : str :=
  concat ((λ b, [HEX (N.shiftr b 4); HEX (N.land b 15)]) <$> bytes).

Definition hex_digit (c : ascii) : option N :=
  if is_ascii_digit c then Some (code c - 48)%N
  else if in_range 97 102 c then Some (code c - 87)%N
  else if in_range 65 70 c then Some (code c - 55)%N
  else None.
Fixpoint hex_val (acc : N) (s : str) : option N :=
  match s with
  | [] => Some acc
  | c :: s => d ← hex_digit c; hex_val (acc * 16 + d)%N s
  end.
(** [u8::from_str_radix(_, 16)]: an optional [+], at least one digit. *)
Definition u8_from_hex (s : str) : option N :=
  let ds := match s with
            | c :: s' => if decide (c = "+"%char) then s' else s
            | [] => []
            end in
  match ds with
  | [] => None
  | _ => n ← hex_val 0 ds; if (n <=? u8_max)%N then Some n else None
  end.

(** ** The store *)

Record StoredToken := mkToken { tk_name : option str; tk_permissions : list str }.
#[global] Instance StoredToken_eq_dec : EqDecision StoredToken.
Proof. solve_decision. Defined.

Definition grants (permission_id : str) (t : StoredToken) : bool :=
  existsb (λ p, bool_decide (p = permission_id)
                || (bool_decide (p = ("read_all" : str)) && starts_with "read:" permission_id))
    (tk_permissions t).

Record Entry := mkTokenEntry { e_token : StoredToken; e_hash : list N }.
Definition TokenStore : Type := list Entry.

Record RawToken := mkRaw { raw_name : option str; raw_permissions : list str; secret_hash : str }.

Inductive TokenStoreError :=
| TokenIo (token_file : str) (source : io_error)
| BadEntry (token_file : str) (message : str).
Definition token_error_to_string (e : TokenStoreError) : str :=
  match e with
  | TokenIo f e => "could not read token file `" ++ f ++ "`: " ++ io_message e
  | BadEntry f m => "token file `" ++ f ++ "`: " ++ m
  end.

(** The loop of [decode_sha256_hex] from byte [i] on. Slicing panics inside a
    character. *)
Fixpoint decode_pairs (n i : nat) (hex : str) : outcome (result str (list N)) :=
  match n with
  | O => Ret (Ok [])
  | S n =>
      pair ← slice hex (i * 2) (i * 2 + 2);
      match u8_from_hex pair with
      | None => Ret (Err ("secret_hash contains non-hex characters: `" ++ pair ++ "`"))
      | Some byte =>
          rest ← decode_pairs n (S i) hex;
          Ret (match rest with Ok bytes => Ok (byte :: bytes) | Err e => Err e end)
      end
  end.

Definition decode_sha256_hex (prefixed : str) : outcome (result str (list N)) :=
  match split_once ":" prefixed with
  | None => Ret (Err ("secret_hash must look like `sha256:<64 hex>`, got `" ++ prefixed ++ "`"))
  | Some (scheme, hex) =>
      if negb (bool_decide (scheme = ("sha256" : str)))
      then Ret (Err ("unsupported secret_hash scheme `" ++ scheme ++ "` (expected sha256)"))
      else if negb (length hex =? 64)%nat
      then Ret (Err ("secret_hash must be exactly 64 hex characters, got " ++ dec_nat (length hex)))
      else decode_pairs 32 0 hex
  end.

Fixpoint entries_of (tokens : list RawToken) : outcome (result str TokenStore) :=
  match tokens with
  | [] => Ret (Ok [])
  | t :: rest =>
      hash ← decode_sha256_hex (secret_hash t);
      match hash with
      | Err e => Ret (Err e)
      | Ok hash =>
          es ← entries_of rest;
          Ret (match es with
               | Ok es => Ok (mkTokenEntry (mkToken (raw_name t) (raw_permissions t)) hash :: es)
               | Err e => Err e
               end)
      end
  end.

(** [toml::from_str::<RawFile>]. *)
Class TokenToml := toml_tokens : str → result str (list RawToken).

Definition from_str `{TokenToml} (text : str) : outcome (result str TokenStore) :=
  match toml_tokens text with
  | Err e => Ret (Err ("invalid TOML: " ++ e))
  | Ok tokens => entries_of tokens
  end.

(** [TokenStore::load]: reading, then parsing; the panic is the parser's. *)
Definition load `{Env, TokenToml} (path : str) : io (outcome (result TokenStoreError TokenStore)) :=
  raw ← fs_read_to_string path;
  mret (match raw with
        | Err e => Ret (Err (TokenIo path e))
        | Ok raw => r ← from_str raw; Ret (map_err (BadEntry path) r)
        end).

Definition len (s : TokenStore) : nat := length s.
Definition is_empty (s : TokenStore) : bool := (len s =? 0)%nat.

Definition ct_eq (a b : list N) : bool :=
  (foldl N.lor 0 (zip_with N.lxor a b) =? 0)%N.

Definition find `{Sha256} (bearer : str) (s : TokenStore) : option StoredToken :=
  let hash := sha256 bearer in
  e_token <$> List.find (λ e, ct_eq (e_hash e) hash) s.

(** The CLI's [sha256_hex]. *)
Definition sha256_hex `{Sha256} (secret : str) : str := "sha256:" ++ hex_encode (sha256 secret).

(** ** Lemmas *)

Lemma lor_fold_zero l acc : foldl N.lor acc l = 0%N ↔ acc = 0%N ∧ Forall (eq 0%N) l.
Proof.
  revert acc. induction l as [|x l IH]; intros acc; simpl; [by split; [|intros []]|].
  rewrite IH, N.lor_eq_0_iff, Forall_cons_iff. naive_solver.
Qed.

Lemma ct_eq_spec a b : length a = length b → ct_eq a b = true ↔ a = b.
Proof.
  intros Hl. unfold ct_eq. rewrite N.eqb_eq, lor_fold_zero.
  revert b Hl. induction a as [|x a IH]; intros [|y b] Hl; try done; simpl.
  injection Hl as Hl. rewrite Forall_cons_iff. specialize (IH b Hl).
  split.
  - intros (_ & Hx & Hr). symmetry in Hx. apply N.lxor_eq in Hx as ->. f_equal. by apply IH.
  - intros [= -> ->]. rewrite N.lxor_nilpotent. split; [done|]. split; [done|]. by apply IH.
Qed.

Lemma hex_pair b : (b < 256)%N →
  u8_from_hex [HEX (N.shiftr b 4); HEX (N.land b 15)] = Some b
  ∧ is_char_boundary [HEX (N.shiftr b 4); HEX (N.land b 15)] 0 = true
  ∧ (code (HEX (N.shiftr b 4)) < 128)%N ∧ (code (HEX (N.land b 15)) < 128)%N.
Proof.
  intros Hb.
  assert (H : forallb (λ i, let b := N.of_nat i in
    bool_decide (u8_from_hex [HEX (N.shiftr b 4); HEX (N.land b 15)] = Some b)
    && is_char_boundary [HEX (N.shiftr b 4); HEX (N.land b 15)] 0
    && (code (HEX (N.shiftr b 4)) <? 128)%N && (code (HEX (N.land b 15)) <? 128)%N) (seq 0 256) = true)
    by by vm_compute.
  rewrite forallb_forall in H. specialize (H (N.to_nat b)).
  rewrite in_seq, N2Nat.id in H. specialize (H ltac:(lia)). cbv zeta in H. by bool_norm.
Qed.

Lemma hex_encode_app a b : hex_encode (a ++ b) = hex_encode a ++ hex_encode b.
Proof. unfold hex_encode. by rewrite fmap_app, concat_app. Qed.
Lemma length_hex_encode bs : length (hex_encode bs) = 2 * length bs.
Proof. induction bs as [|b bs IH]; [done|]. unfold hex_encode in *. csimpl. rewrite IH. lia. Qed.
Lemma hex_encode_ascii bs : Forall (λ b, b < 256)%N bs → forallb is_ascii (hex_encode bs) = true.
Proof.
  induction 1 as [|b bs Hb _ IH]; [done|]. unfold hex_encode in *. csimpl.
  destruct (hex_pair b Hb) as (_ & _ & H1 & H2). unfold is_ascii at 1 2.
  by rewrite (proj2 (N.ltb_lt _ _) H1), (proj2 (N.ltb_lt _ _) H2).
Qed.

Lemma decode_pairs_encode pre bs :
  Forall (λ b, b < 256)%N (pre ++ bs) →
  decode_pairs (length bs) (length pre) (hex_encode (pre ++ bs)) = Ret (Ok bs).
Proof.
  revert pre. induction bs as [|b bs IH]; intros pre H; [done|]. cbn [length decode_pairs].
  rewrite slice_ascii; [|by apply hex_encode_ascii|lia|rewrite length_hex_encode, length_app; simpl; lia].
  replace (length pre * 2 + 2 - length pre * 2) with 2 by lia.
  rewrite hex_encode_app, drop_app_length' by (rewrite length_hex_encode; lia).
  assert (Hb : (b < 256)%N).
  { apply Forall_app in H as [_ H]. by inversion H. }
  destruct (hex_pair b Hb) as (Hp & _). cbn [mbind outcome_bind].
  change (take 2 (hex_encode (b :: bs))) with [HEX (N.shiftr b 4); HEX (N.land b 15)]. rewrite Hp.
  specialize (IH (pre ++ [b])). rewrite length_app, <-app_assoc in IH. simpl in IH.
  rewrite <-hex_encode_app. replace (S (length pre)) with (length pre + 1) by lia.
  by rewrite IH.
Qed.

Lemma decode_sha256_encode {sha : Sha256} secret :
  decode_sha256_hex (sha256_hex secret) = Ret (Ok (sha256 secret)).
Proof.
  unfold decode_sha256_hex, sha256_hex. simpl.
  rewrite length_hex_encode, sha256_length. cbn [Nat.eqb Nat.mul Nat.add negb].
  pose proof (decode_pairs_encode [] (sha256 secret) (sha256_bytes secret)) as H.
  by rewrite sha256_length in H.
Qed.

(** A decoded hash is 32 bytes. *)
Lemma decode_pairs_length n i hex bs : decode_pairs n i hex = Ret (Ok bs) → length bs = n.
Proof.
  revert i bs. induction n as [|n IH]; intros i bs; cbn [decode_pairs]; [by intros [= <-]|].
  destruct (slice _ _ _) as [pair|]; [|done]. cbn [mbind outcome_bind].
  destruct (u8_from_hex pair); [|done].
  destruct (decode_pairs n (S i) hex) as [[bs'|e]|] eqn:E; try done. cbn [mbind outcome_bind].
  intros [= <-]. simpl. f_equal. by eapply IH.
Qed.

Lemma decode_sha256_length s bs : decode_sha256_hex s = Ret (Ok bs) → length bs = 32.
Proof.
  unfold decode_sha256_hex. destruct (split_once _ _) as [[a b]|]; [|done].
  destruct (negb _); [done|]. destruct (negb _); [done|]. apply decode_pairs_length.
Qed.

Lemma entries_of_spec tokens s :
  entries_of tokens = Ret (Ok s) →
  Forall2 (λ t e, decode_sha256_hex (secret_hash t) = Ret (Ok (e_hash e))
                  ∧ e_token e = mkToken (raw_name t) (raw_permissions t)) tokens s.
Proof.
  revert s. induction tokens as [|t ts IH]; intros s; cbn [entries_of]; [by intros [= <-]|].
  destruct (decode_sha256_hex _) as [[h|e]|] eqn:E; try done. cbn [mbind outcome_bind].
  destruct (entries_of ts) as [[es|e]|]; try done. cbn [mbind outcome_bind].
  intros [= <-]. constructor; [done|]. by apply IH.
Qed.

(** A stored hash is a SHA-256 digest: 32 bytes. *)
Definition digest (h : list N) : Prop := length h = 32 ∧ Forall (λ b, b < 256)%N h.
Definition typed_store (s : TokenStore) : Prop := Forall (λ e, digest (e_hash e)) s.

Lemma u8_from_hex_byte s b : u8_from_hex s = Some b → (b < 256)%N.
Proof.
  unfold u8_from_hex. destruct (match s with [] => [] | _ => _ end) as [|c ds]; [done|].
  destruct (hex_val 0 (c :: ds)) as [n|]; [|done]. cbn [mbind option_bind].
  destruct (n <=? u8_max)%N eqn:E; [|done]. intros [= <-]. bool_norm. unfold u8_max in E. lia.
Qed.

Lemma decode_pairs_bytes n i hex bs : decode_pairs n i hex = Ret (Ok bs) → Forall (λ b, b < 256)%N bs.
Proof.
  revert i bs. induction n as [|n IH]; intros i bs; cbn [decode_pairs]; [by intros [= <-]|].
  destruct (slice _ _ _) as [pair|]; [|done]. cbn [mbind outcome_bind].
  destruct (u8_from_hex pair) as [b|] eqn:Eb; [|done].
  destruct (decode_pairs n (S i) hex) as [[bs'|e]|] eqn:E; try done. cbn [mbind outcome_bind].
  intros [= <-]. constructor; [by eapply u8_from_hex_byte|by eapply IH].
Qed.

Lemma decode_sha256_digest s bs : decode_sha256_hex s = Ret (Ok bs) → digest bs.
Proof.
  intros H. split; [by eapply decode_sha256_length|]. unfold decode_sha256_hex in H.
  destruct (split_once _ _) as [[a b]|]; [|done].
  destruct (negb _); [done|]. destruct (negb _); [done|]. by eapply decode_pairs_bytes.
Qed.

Lemma load_typed `{Env, TokenToml} path w s w' : load path w = (Ret (Ok s), w') → typed_store s.
Proof.
  unfold load. intros Hl. step_in Hl as raw w1 E. destruct raw as [raw|e]; [|done].
  injection Hl as Hl _. destruct (from_str raw) as [[st|e]|] eqn:Ef; try done. injection Hl as ->.
  unfold from_str in Ef. destruct (toml_tokens raw); [|done].
  apply entries_of_spec in Ef. unfold typed_store. induction Ef as [|t e ts es [Hd _] _ IH]; [done|].
  constructor; [by eapply decode_sha256_digest|done].
Qed.

(** ** Properties *)

(** C28: a bearer secret authenticates as the first entry of the token file
    whose stored hash is its SHA-256, and as nothing else: with a loaded store,
    [find] gives the token of the first entry that decodes to that digest, and
    [None] when there is no such entry. *)
Theorem find_spec {sha : Sha256} {toml : TokenToml} (text bearer : str) (tokens : list RawToken)
    (s : TokenStore) :
  toml_tokens text = Ok tokens → from_str text = Ret (Ok s) →
  let hit t := decode_sha256_hex (secret_hash t) = Ret (Ok (sha256 bearer)) in
  match find bearer s with
  | Some tk => ∃ before t after, tokens = before ++ t :: after ∧ hit t
      ∧ (∀ u, u ∈ before → ¬ hit u) ∧ tk = mkToken (raw_name t) (raw_permissions t)
  | None => ∀ t, t ∈ tokens → ¬ hit t
  end.
Proof.
  intros Ht Hs hit. unfold from_str in Hs. rewrite Ht in Hs. apply entries_of_spec in Hs.
  unfold find. clear Ht. induction Hs as [|t e ts es [Hd He] _ IH]; simpl.
  { by intros t ?%elem_of_nil. }
  assert (Heq : ct_eq (e_hash e) (sha256 bearer) = true ↔ hit t).
  { rewrite ct_eq_spec by (rewrite sha256_length; by eapply decode_sha256_length).
    unfold hit. rewrite Hd. split; [by intros ->|by intros [= ->]]. }
  destruct (ct_eq (e_hash e) (sha256 bearer)).
  - simpl. exists [], t, ts. split; [done|]. split; [by apply Heq|]. split; [|done].
    by intros u ?%elem_of_nil.
  - assert (Hno : ¬ hit t) by (intros H; by apply Heq in H).
    destruct (e_token <$> List.find _ es) as [tk|].
    + destruct IH as (before & t' & after & -> & Hh & Hb & Htk).
      exists (t :: before), t', after. split; [done|]. split; [done|]. split; [|done].
      intros u [->|Hu]%elem_of_cons; [done|by apply Hb].
    + intros u [->|Hu]%elem_of_cons; [done|by apply IH].
Qed.


(** ** Examples *)

(** A stand-in digest for the examples: the first 32 bytes, padded. *)
Definition pad_digest (s : str) : list N := take 32 ((code <$> s) ++ replicate 32 0%N).
#[local] Instance example_sha : Sha256.
Proof.
  refine {| sha256 := pad_digest |}.
  - intros s. unfold pad_digest. rewrite length_take, length_app, length_replicate. lia.
  - intros s. apply Forall_take, Forall_app_2; [|by apply Forall_replicate].
    apply Forall_fmap, Forall_true. intros c. apply code_bound.
Defined.

Definition example_tokens : list (str * list str * str) :=
  [("reader" : str, ["read_all" : str], "one" : str);
   ("operator" : str, ["manage:updates" : str], "two" : str)].
#[local] Instance example_token_toml : TokenToml :=
  λ _, Ok ((λ '(n, p, s), mkRaw (Some n) p (sha256_hex s)) <$> example_tokens).

Definition example_raw : list RawToken :=
  Eval vm_compute in (λ '(n, p, s), mkRaw (Some n) p (sha256_hex s)) <$> example_tokens.
Definition example_store : TokenStore :=
  Eval vm_compute in match entries_of example_raw with Ret (Ok s) => s | _ => [] end.

Lemma find_spec_witness :
  let toml : TokenToml := λ _, Ok example_raw in
  find "three" example_store = None
  ∧ ∀ t, t ∈ example_raw → ¬ decode_sha256_hex (secret_hash t) = Ret (Ok (sha256 "three")).
Proof.
  intros toml. assert (Hn : find "three" example_store = None) by (vm_compute; reflexivity).
  split; [exact Hn|].
  assert (Hs : from_str [] = Ret (Ok example_store)) by (vm_compute; reflexivity).
  pose proof (find_spec [] "three" example_raw example_store eq_refl Hs) as H.
  cbv zeta in H. rewrite Hn in H. exact H.
Defined.


(** A hash of 64 bytes with a two-byte character across a pair boundary makes
    the decoder panic, and a sign is taken for a digit. *)
Example decode_panics :
  decode_sha256_hex ("sha256:a" ++ [chr 195; chr 169] ++ replicate 61 "0"%char) = Panic.
Proof. reflexivity. Qed.
Example decode_takes_sign :
  decode_sha256_hex ("sha256:" ++ concat (replicate 32 ("+f" : str)))
  = Ret (Ok (replicate 32 15%N)).
Proof. reflexivity. Qed.
