(* ===== verification/Api.v ===== *)
(** * abora-api: the wire types of the HTTP API

    Models [crates/abora-api/src/lib.rs]: responses, service states, error codes
    with their HTTP statuses, the error envelope and endpoint paths. *)

From S2P Require Import Prelude Str World Version Types.

Record ApiVersionInfo := mkApiVersion { av_name : str; av_path : str }.
Definition api_current : ApiVersionInfo := mkApiVersion API_VERSION API_PATH_PREFIX.

Record DaemonInfo := mkDaemon { di_name : str; di_version : Version }.

Inductive HealthStatus := HealthOk | Degraded | Maintenance.
#[global] Instance HealthStatus_eq_dec : EqDecision HealthStatus.
Proof. solve_decision. Defined.

Record ComponentHealth := mkHealth {
  ch_name : str;
  ch_status : HealthStatus;
  ch_detail : option str;
}.

Record HealthResponse := mkHealthResponse {
  hr_status : HealthStatus;
  hr_daemon : DaemonInfo;
  hr_api : ApiVersionInfo;
  hr_uptime_seconds : N;
  hr_started_at : str;
  hr_components : list ComponentHealth;
}.

Record VersionResponse := mkVersionResponse {
  vr_framework_name : str;
  vr_framework_version : Version;
  vr_daemon : DaemonInfo;
  vr_api : ApiVersionInfo;
  vr_git_commit : option str;
}.

Inductive ServiceState := Running | Stopped | Failed | Activating | Deactivating | Unknown.
#[global] Instance ServiceState_eq_dec : EqDecision ServiceState.
Proof. solve_decision. Defined.

Record ServiceStatus := mkService {
  sv_name : str;
  sv_state : ServiceState;
  sv_enabled : option bool;
  sv_description : option str;
}.
#[global] Instance ServiceStatus_eq_dec : EqDecision ServiceStatus.
Proof. solve_decision. Defined.

Record ServiceDetail := mkDetail {
  sd_name : str;
  sd_load_state : str;
  sd_active_state : str;
  sd_sub_state : str;
  sd_enabled : option bool;
  sd_description : option str;
  sd_fragment_path : option str;
  sd_exec_start : option str;
  sd_main_pid : option N;
  sd_memory_bytes : option N;
}.

Record ScheduleInfo := mkSchedule {
  si_check_interval_seconds : N;
  si_in_maintenance_window : option bool;
  si_apply_permitted : bool;
  si_installs_permitted : bool;
  si_reboot_permitted : bool;
}.

Record ApplyResponse := mkApplyResponse {
  ap_dry_run : bool;
  ap_permitted : bool;
  ap_reason : option str;
  ap_id : option str;
  ap_packages : list str;
}.
#[global] Instance ApplyResponse_eq_dec : EqDecision ApplyResponse.
Proof. solve_decision. Defined.

Record UpdatesResponse := mkUpdatesResponse {
  ur_status : option UpdateStatus;
  ur_last_check : option str;
  ur_reboot : RebootStatus;
  ur_schedule : option ScheduleInfo;
  ur_available : list AvailableUpdate;
  ur_history : list UpdateHistoryEntry;
}.

(** ** Errors *)

Inductive ErrorCode :=
| InvalidRequest | Unauthorized | Forbidden | CodeNotFound | CodeConflict
| CodeNotImplemented | ServiceUnavailable | Internal.
#[global] Instance ErrorCode_eq_dec : EqDecision ErrorCode.
Proof. solve_decision. Defined.

Definition http_status (c : ErrorCode) : N :=
  match c with
  | InvalidRequest => 400
  | Unauthorized => 401
  | Forbidden => 403
  | CodeNotFound => 404
  | CodeConflict => 409
  | CodeNotImplemented => 501
  | ServiceUnavailable => 503
  | Internal => 500
  end.

Record ApiErrorBody := mkError {
  er_code : ErrorCode;
  er_message : str;
  er_request_id : option str;
}.
#[global] Instance ApiErrorBody_eq_dec : EqDecision ApiErrorBody.
Proof. solve_decision. Defined.
Definition error_new (code : ErrorCode) (message : str) : ApiErrorBody := mkError code message None.
Definition with_request_id (id : str) (b : ApiErrorBody) : ApiErrorBody :=
  mkError (er_code b) (er_message b) (Some id).

(** [endpoint]. *)
Definition endpoint (base_path resource : str) : str :=
  trim_end_char "/" base_path ++ "/" ++ trim_start_char "/" resource.

(** The paths under the default prefix. *)
Module paths.
Definition HEALTH : str := "/api/v1/health".
Definition VERSION : str := "/api/v1/version".
Definition SYSTEM : str := "/api/v1/system".
Definition SERVICES : str := "/api/v1/services".
Definition UPDATES : str := "/api/v1/updates".
End paths.

(** They are the paths the endpoint function gives, with and without slashes
    around the parts. *)
Lemma paths_are_endpoints :
  Forall (λ '(resource, path),
            endpoint API_PATH_PREFIX resource = path
            ∧ endpoint (API_PATH_PREFIX ++ "/") ("/" ++ resource) = path)
    [("health" : str, paths.HEALTH); ("version" : str, paths.VERSION); ("system" : str, paths.SYSTEM);
      ("services" : str, paths.SERVICES); ("updates" : str, paths.UPDATES)].
Proof. repeat constructor. Qed.
