(* ===== verification/Sysinfo.v ===== *)
(** * abora-sysinfo: facts about the host

    Models [crates/abora-sysinfo/src/lib.rs] and [linux.rs]: the parsers of the
    files under [/proc] and of [os-release], and the collection. The
    floating-point syntax of [/proc/uptime] is a parameter. *)

From S2P Require Import Prelude Str World.

Record OsInfo := mkOs {
  os_id : str;
  os_name : option str;
  os_pretty_name : option str;
  os_version : option str;
  os_version_id : option str;
  os_id_like : list str;
  os_home_url : option str;
}.
Definition os_unknown : OsInfo := mkOs "unknown" None None None None [] None.

Record KernelInfo := mkKernel { k_name : str; k_release : str; k_version : str }.

Inductive Architecture :=
| X86_64 | X86 | Aarch64 | Arm | Riscv64 | Riscv32 | Powerpc64 | S390x | Other (s : str).
#[global] Instance Architecture_eq_dec : EqDecision Architecture.
Proof. solve_decision. Defined.

Definition from_machine (machine : str) : Architecture :=
  let m := to_ascii_lowercase (trim machine) in
  let one_of (l : list str) := bool_decide (m ∈ l) in
  if one_of ["x86_64" : str; "amd64" : str] then X86_64
  else if one_of ["i386" : str; "i486" : str; "i586" : str; "i686" : str; "x86" : str] then X86
  else if one_of ["aarch64" : str; "arm64" : str] then Aarch64
  else if one_of ["riscv64" : str] then Riscv64
  else if one_of ["riscv32" : str] then Riscv32
  else if one_of ["ppc64" : str; "ppc64le" : str; "powerpc64" : str] then Powerpc64
  else if one_of ["s390x" : str] then S390x
  else if starts_with "arm" m then Arm
  else Other m.

Definition canonical (a : Architecture) : str :=
  match a with
  | X86_64 => "x86_64"
  | X86 => "i686"
  | Aarch64 => "aarch64"
  | Arm => "arm"
  | Riscv64 => "riscv64"
  | Riscv32 => "riscv32"
  | Powerpc64 => "ppc64"
  | S390x => "s390x"
  | Other s => s
  end.

Record MemoryInfo := mkMemory {
  total_bytes : N;
  available_bytes : N;
  free_bytes : N;
  used_bytes : N;
  swap_total_bytes : N;
  swap_used_bytes : N;
}.
(** [saturating_sub] is subtraction on [N]. *)
Definition from_fields (total available free swap_total swap_free : N) : MemoryInfo :=
  mkMemory total available free (total - available) swap_total (swap_total - swap_free).

Record CpuInfo := mkCpu {
  cpu_model : option str;
  physical_cores : option N;
  logical_cores : option N;
}.
Definition cpu_default : CpuInfo := mkCpu None None None.

Inductive SysInfoError :=
| SysIo (path : str) (source : io_error)
| SysParse (what detail : str).
Definition sys_error_to_string (e : SysInfoError) : str :=
  match e with
  | SysIo path e => "could not read `" ++ path ++ "`: " ++ io_message e
  | SysParse what detail => "could not parse " ++ what ++ ": " ++ detail
  end.

(** ** Parsers *)

(** The fields of [key: value] lines, the later ones winning; a value that is
    not a number is skipped. *)
Definition meminfo_step (fields : gmap str N) (line : str) : gmap str N :=
  match split_once ":" line with
  | None => fields
  | Some (key, rest) =>
      match v ← head (split_whitespace rest); parse_uint u64_max v with
      | None => fields
      | Some value => <[trim key := value]> fields
      end
  end.

(** [* KIB] is unchecked: it wraps in a release build. *)
Definition parse_meminfo (text : str) : result SysInfoError MemoryInfo :=
  let fields := foldl meminfo_step ∅ (lines text) in
  let get (k : str) : option N := fields !! k in
  total ← ok_or (SysParse "/proc/meminfo" "MemTotal is missing") (get "MemTotal");
  let free := default 0%N (get "MemFree") in
  let available := default free (get "MemAvailable") in
  let swap_total := default 0%N (get "SwapTotal") in
  let swap_free := default 0%N (get "SwapFree") in
  let kib n := wrap64 (n * 1024) in
  Ok (from_fields (kib total) (kib available) (kib free) (kib swap_total) (kib swap_free)).

(** The escapes inside double quotes; a final lone backslash stays. *)
Fixpoint unescape (s : str) : str :=
  match s with
  | [] => []
  | c :: rest =>
      if decide (c = "\"%char) then
        match rest with
        | escaped :: rest => escaped :: unescape rest
        | [] => ["\"%char]
        end
      else c :: unescape rest
  end.

Definition DQUOTE : ascii := chr 34.
Definition SQUOTE : ascii := chr 39.
Definition inner (value : str) : str := take (length value - 2) (drop 1 value).
Definition quoted_by (q : ascii) (value : str) : bool :=
  (2 <=? length value)%nat && starts_with [q] value && ends_with [q] value.

Definition unquote (value : str) : str :=
  if quoted_by DQUOTE value then unescape (inner value)
  else if quoted_by SQUOTE value then inner value
  else value.

Definition os_step (map : gmap str str) (line : str) : gmap str str :=
  let line := trim line in
  if bool_decide (line = []) || starts_with "#" line then map
  else match split_once "=" line with
       | Some (key, value) => <[trim key := unquote (trim value)]> map
       | None => map
       end.

Definition parse_os_release (text : str) : OsInfo :=
  let map := foldl os_step ∅ (lines text) in
  let get (k : str) : option str := map !! k in
  mkOs (default ("unknown" : str) (get "ID")) (get "NAME") (get "PRETTY_NAME") (get "VERSION")
    (get "VERSION_ID") (match get "ID_LIKE" with Some v => split_whitespace v | None => [] end)
    (get "HOME_URL").

(** The loop state: the model, the processors so far, the physical cores. *)
Definition cpu_step (st : option str * N * option N) (line : str) : option str * N * option N :=
  let '(model, logical, physical) := st in
  match split_once ":" line with
  | None => st
  | Some (key, value) =>
      let key := trim key in
      let value := trim value in
      if decide (key = ("processor" : str)) then (model, (logical + 1)%N, physical)
      else if bool_decide (key ∈ ["model name" : str; "Model" : str; "Hardware" : str; "cpu model" : str])
      then (if bool_decide (model = None) && negb (bool_decide (value = []))
            then (Some value, logical, physical) else st)
      else if bool_decide (key = ("cpu cores" : str)) && bool_decide (physical = None)
      then (model, logical, parse_uint u64_max value)
      else st
  end.
Definition parse_cpuinfo (text : str) : CpuInfo :=
  let '(model, logical, physical) := foldl cpu_step (None, 0%N, None) (lines text) in
  mkCpu model physical (if (0 <? logical)%N then Some logical else None).

(** ** Collection *)

Section collect.
Context {env : Env}.

(** [f64]: parsing, the tests the code makes, and the conversion to a duration
    (in nanoseconds), which panics when the value does not fit. *)
Context {F : Type} (parse_f64 : str → option F) (is_finite is_negative : F → bool)
        (from_secs_f64 : F → outcome N).
(** The architecture the program was built for. *)
Context (ARCH : str).

Definition parse_uptime (text : str) : outcome (result SysInfoError N) :=
  match head (split_whitespace text) with
  | None => Ret (Err (SysParse "/proc/uptime" "empty file"))
  | Some token =>
      match parse_f64 token with
      | None => Ret (Err (SysParse "/proc/uptime" ("`" ++ token ++ "` is not a number")))
      | Some secs =>
          if negb (is_finite secs) || is_negative secs
          then Ret (Err (SysParse "/proc/uptime" ("`" ++ token ++ "` is not a valid duration")))
          else d ← from_secs_f64 secs; Ret (Ok d)
      end
  end.

Definition read (path : str) : io (result SysInfoError str) :=
  r ← fs_read_to_string path; mret (map_err (SysIo path) r).

Record SystemInfo := mkSystemInfo {
  hostname : str;
  os : OsInfo;
  kernel : KernelInfo;
  architecture : Architecture;
  machine : str;
  uptime : N;
  memory : MemoryInfo;
  cpu : CpuInfo;
}.

(** The parts read after the host name and the kernel. *)
Definition collect_rest (hostname : str) (kernel : KernelInfo)
    : io (outcome (result SysInfoError SystemInfo)) :=
  up ← read "/proc/uptime";
  match up with
  | Err e => mret (Ret (Err e))
  | Ok text =>
      match parse_uptime text with
      | Panic => mret Panic
      | Ret (Err e) => mret (Ret (Err e))
      | Ret (Ok uptime) =>
          mem ← read "/proc/meminfo";
          match (text ← mem; parse_meminfo text) with
          | Err e => mret (Ret (Err e))
          | Ok memory =>
              os ← read "/etc/os-release";
              cpu ← read "/proc/cpuinfo";
              mret (Ret (Ok (mkSystemInfo hostname
                (match os with Ok text => parse_os_release text | Err _ => os_unknown end)
                kernel (from_machine ARCH) ARCH uptime memory
                (match cpu with Ok text => parse_cpuinfo text | Err _ => cpu_default end))))
          end
      end
  end.

Definition collect : io (outcome (result SysInfoError SystemInfo)) :=
  h ← read "/proc/sys/kernel/hostname";
  match h with
  | Err e => mret (Ret (Err e))
  | Ok h =>
      let hostname := trim h in
      if decide (hostname = [])
      then mret (Ret (Err (SysParse "/proc/sys/kernel/hostname" "hostname is empty")))
      else
        name ← read "/proc/sys/kernel/ostype";
        release ← read "/proc/sys/kernel/osrelease";
        match release with
        | Err e => mret (Ret (Err e))
        | Ok release =>
            version ← read "/proc/sys/kernel/version";
            collect_rest hostname
              (mkKernel (match name with Ok s => trim s | Err _ => "Linux" end) (trim release)
                 (match version with Ok s => trim s | Err _ => [] end))
        end
  end.

End collect.

(** ** Properties *)

(** The quoted form of a value: double quotes, with [\] before quotes and
    backslashes. *)
Definition quote (s : str) : str :=
  [DQUOTE] ++ concat ((λ c, if decide (c = DQUOTE ∨ c = "\"%char) then ["\"%char; c] else [c]) <$> s)
  ++ [DQUOTE].

Lemma unescape_quote s :
  unescape (concat ((λ c, if decide (c = DQUOTE ∨ c = "\"%char) then ["\"%char; c] else [c]) <$> s)) = s.
Proof.
  induction s as [|c s IH]; [done|]. csimpl. destruct (decide (c = DQUOTE ∨ c = "\"%char)) as [H|H]; simpl.
  - by rewrite IH.
  - rewrite decide_False by tauto. by rewrite IH.
Qed.

Lemma quoted_inner q s : quoted_by q ([q] ++ s ++ [q]) = true ∧ inner ([q] ++ s ++ [q]) = s.
Proof.
  unfold quoted_by, inner, ends_with. rewrite !length_app. simpl length.
  rewrite (proj2 (Nat.leb_le 2 _)) by lia.
  replace (rev ([q] ++ s ++ [q])) with ([q] ++ rev ([q] ++ s))
    by by rewrite app_assoc, (rev_app_distr ([q] ++ s) [q]).
  rewrite !starts_with_app. split; [done|]. change (drop 1 ([q] ++ s ++ [q])) with (s ++ [q]).
  replace (1 + (length s + 1) - 2) with (length s) by lia. apply take_app_length.
Qed.

(** Quoting is undone: a value of [os-release] written in double quotes
    with its quotes and backslashes escaped, or in single quotes, is read as the
    value, whatever it contains; and the memory in use is never more than the
    total, nor the swap in use. *)
Theorem unquote_quote (s : str) (total available free swap_total swap_free : N) :
  unquote (quote s) = s
  ∧ unquote ([SQUOTE] ++ s ++ [SQUOTE]) = s
  ∧ (used_bytes (from_fields total available free swap_total swap_free) ≤ total)%N
  ∧ (swap_used_bytes (from_fields total available free swap_total swap_free) ≤ swap_total)%N.
Proof.
  unfold unquote, quote. destruct (quoted_inner DQUOTE (concat ((λ c, if decide (c = DQUOTE ∨ c = "\"%char) then ["\"%char; c] else [c]) <$> s))) as [Hq Hi].
  rewrite Hq, Hi, unescape_quote. split; [done|]. split; [|simpl; lia].
  assert (quoted_by DQUOTE ([SQUOTE] ++ s ++ [SQUOTE]) = false) as ->.
  { unfold quoted_by. simpl. by rewrite andb_false_r. }
  by destruct (quoted_inner SQUOTE s) as [-> ->].
Qed.
