(* ===== verification/Services.v ===== *)
(** * abora-services: the read-only service registry

    Models [crates/abora-services/src/lib.rs] and [linux.rs]: the two fixed
    [systemctl] listings and [systemctl show], their parsers, and the query that
    filters and pages the list. *)

From stdpp Require Import sorting.
From S2P Require Import Prelude Str World Replace Api.

Inductive ServicesError :=
| Systemd (message : str)
| UnitNotFound (name : str)
| UnitParse (message : str).
Definition services_error_to_string (e : ServicesError) : str :=
  match e with
  | Systemd m => "could not query the system service manager: " ++ m
  | UnitNotFound n => "no such unit: " ++ n
  | UnitParse m => "unexpected output from the system service manager: " ++ m
  end.

(** ** Queries *)

Record ServiceQuery := mkQuery {
  q_state : option ServiceState;
  q_enabled : option bool;
  q_text : option str;
  q_limit : option N;
  q_offset : N;
}.
Definition query_default : ServiceQuery := mkQuery None None None None 0.

Definition matches (q : ServiceQuery) (s : ServiceStatus) : bool :=
  match q_state q with Some state => bool_decide (sv_state s = state) | None => true end
  && match q_enabled q with
     | Some enabled => bool_decide (sv_enabled s = Some enabled)
     | None => true
     end
  && match q_text q with
     | Some text =>
         let needle := to_ascii_lowercase text in
         contains needle (to_ascii_lowercase (sv_name s))
         || match sv_description s with
            | Some d => contains needle (to_ascii_lowercase d)
            | None => false
            end
     | None => true
     end.

Definition matched (q : ServiceQuery) (l : list ServiceStatus) : list ServiceStatus :=
  List.filter (matches q) l.
Definition total_matching (q : ServiceQuery) (l : list ServiceStatus) : nat := length (matched q l).

Definition apply (q : ServiceQuery) (l : list ServiceStatus) : list ServiceStatus :=
  let m := matched q l in
  if bool_decide (m = []) then []
  else
    let len := N.of_nat (length m) in
    let start := N.min (q_offset q) len in
    let stop := match q_limit q with
                | Some limit => if (0 <? limit)%N then N.min (start + limit) len else len
                | None => len
                end in
    take (N.to_nat (stop - start)) (drop (N.to_nat start) m).

(** ** Names *)

Definition unit_name_forbidden (c : ascii) : bool :=
  bool_decide (c ∈ ["/"%char; "\"%char; " "%char; "009"%char; "010"%char; "013"%char]).
Definition validate_unit_name (name : str) : bool :=
  negb (bool_decide (name = [])) && negb (starts_with "-" name)
  && negb (existsb unit_name_forbidden name) && ends_with ".service" name.

(** ** systemd's output *)

Definition map_active_state (active : str) : ServiceState :=
  if decide (active = ("active" : str)) then Running
  else if decide (active = ("inactive" : str)) then Stopped
  else if decide (active = ("failed" : str)) then Failed
  else if decide (active = ("activating" : str)) then Activating
  else if decide (active = ("deactivating" : str)) then Deactivating
  else Unknown.

Definition file_state_enabled (state : str) : option bool :=
  if bool_decide (state ∈ ["enabled" : str; "enabled-runtime" : str]) then Some true
  else if bool_decide (state ∈ ["disabled" : str; "masked" : str; "masked-runtime" : str])
  then Some false
  else None.

Record RawUnit := mkUnit { ru_name : str; ru_state : ServiceState; ru_description : option str }.

Definition parse_unit_line (line : str) : option RawUnit :=
  let line := trim line in
  if bool_decide (line = []) || starts_with "UNIT " line then None
  else
    match split_whitespace line with
    | name :: load :: active :: sub :: rest =>
        if negb (ends_with ".service" name) || bool_decide (load = []) || bool_decide (active = [])
        then None
        else Some (mkUnit name (map_active_state active)
                     (match rest with [] => None | _ => Some (join " " rest) end))
    | _ => None
    end.
Definition parse_list_units (text : str) : list RawUnit := omap parse_unit_line (lines text).

Definition unit_file_step (states : gmap str (option bool)) (line : str) : gmap str (option bool) :=
  let line := trim line in
  if bool_decide (line = []) || starts_with "UNIT FILE" line then states
  else
    let tokens := split_whitespace line in
    let name := default [] (tokens !! 0) in
    let state := default [] (tokens !! 1) in
    if bool_decide (name = []) || negb (ends_with ".service" name) || bool_decide (state = [])
    then states
    else <[name := file_state_enabled state]> states.
Definition parse_list_unit_files (text : str) : gmap str (option bool) :=
  foldl unit_file_step ∅ (lines text).

(** The first value of a property wins. *)
Definition show_step (props : gmap str str) (line : str) : gmap str str :=
  match split_once "=" line with
  | None => props
  | Some (key, value) =>
      match props !! key with Some _ => props | None => <[key := value]> props end
  end.
Definition parse_show (text : str) : gmap str str := foldl show_step ∅ (lines text).

Definition extract_argv (value : str) : option str :=
  at_ ← find_str "argv[]=" value;
  let rest := drop (at_ + 7) value in
  let stop := match find_str " ;" rest with
              | Some e => e
              | None => match find_char (is_char "}") rest with Some e => e | None => length rest end
              end in
  let raw := trim (take stop rest) in
  if decide (raw = []) then None else Some raw.

(** ** Running systemctl *)

Section systemctl.
Context {env : Env}.

Definition FLAGS : list str :=
  ["--no-legend" : str; "--no-pager" : str; "--no-ask-password" : str; "--plain" : str].

Definition run_systemctl_raw (args : list str) : io (result ServicesError (bool * str * str)) :=
  e ← run_command "systemctl" (FLAGS ++ args);
  mret (match e with
        | Exited success _ out err => Ok (success, utf8_lossy out, utf8_lossy err)
        | SpawnFailed e | WaitFailed e => Err (Systemd ("could not execute `systemctl`: " ++ e))
        | TimedOut => Err (Systemd "could not execute `systemctl`: timed out")
        end).

Definition nonzero (args : list str) (err : str) : ServicesError :=
  Systemd ("`systemctl " ++ join " " args ++ "` exited with non-zero status: " ++ trim err).

Definition run_systemctl (args : list str) : io (result ServicesError str) :=
  r ← run_systemctl_raw args;
  mret (match r with
        | Err e => Err e
        | Ok (ok, out, err) => if (ok : bool) then Ok out else Err (nonzero args err)
        end).

Definition LIST_UNITS : list str := ["list-units" : str; "--all" : str; "--type=service" : str].
Definition LIST_UNIT_FILES : list str := ["list-unit-files" : str; "--type=service" : str].

Definition name_le (a b : ServiceStatus) : Prop := str_le (sv_name a) (sv_name b).
#[local] Instance name_le_dec : RelDecision name_le.
Proof. unfold name_le. solve_decision. Defined.

Definition to_status (files : gmap str (option bool)) (u : RawUnit) : ServiceStatus :=
  mkService (ru_name u) (ru_state u) (default None (files !! ru_name u)) (ru_description u).

Definition collect : io (result ServicesError (list ServiceStatus)) :=
  units ← run_systemctl LIST_UNITS;
  match units with
  | Err e => mret (Err e)
  | Ok units =>
      unit_files ← run_systemctl LIST_UNIT_FILES;
      match unit_files with
      | Err e => mret (Err e)
      | Ok unit_files =>
          let units := parse_list_units units in
          let file_states := parse_list_unit_files unit_files in
          mret (Ok (merge_sort name_le (to_status file_states <$> units)))
      end
  end.

Definition PROPERTIES : list str :=
  ["LoadState" : str; "ActiveState" : str; "SubState" : str; "UnitFileState" : str;
   "Description" : str; "FragmentPath" : str; "ExecStart" : str; "MainPID" : str;
   "MemoryCurrent" : str].
Definition show_args (name : str) : list str :=
  ["show" : str; name] ++ ((λ p, "--property=" ++ p) <$> PROPERTIES).

Definition NOT_SET : str := "[not set]".

(** From the properties of a unit that exists. *)
Definition detail_of (name : str) (props : gmap str str) : ServiceDetail :=
  let get (k : str) : option str := props !! k in
  let optional (k : str) : option str :=
    v ← get k; if bool_decide (v = []) || bool_decide (v = NOT_SET) then None else Some v in
  let number (k : str) : option N := v ← get k; parse_uint u64_max (trim v) in
  mkDetail name (default [] (get "LoadState")) (default [] (get "ActiveState"))
    (default [] (get "SubState")) (s ← get "UnitFileState"; file_state_enabled s)
    (optional "Description") (optional "FragmentPath")
    (v ← get "ExecStart"; extract_argv v)
    (pid ← number "MainPID"; if (pid =? 0)%N then None else Some pid)
    (number "MemoryCurrent").

Definition manager_detail (name : str) : io (result ServicesError ServiceDetail) :=
  r ← run_systemctl_raw (show_args name);
  mret (match r with
        | Err e => Err e
        | Ok (ok, out, err) =>
            if negb ok && (contains "No such unit" err || contains "not-found" err)
            then Err (UnitNotFound name)
            else if negb ok then Err (nonzero (show_args name) err)
            else
              let props := parse_show out in
              if bool_decide (default [] (props !! ("LoadState" : str)) = ("not-found" : str))
              then Err (UnitNotFound name)
              else Ok (detail_of name props)
        end).

Definition detail (name : str) : io (result ServicesError ServiceDetail) :=
  let name := trim name in
  if negb (validate_unit_name name)
  then mret (Err (Systemd ("`" ++ name ++ "` is not a valid unit name")))
  else manager_detail name.

End systemctl.

(** ** Lemmas *)

Lemma apply_matched q l :
  apply q l =
  let page := drop (N.to_nat (q_offset q)) (matched q l) in
  match q_limit q with
  | Some limit => if (0 <? limit)%N then take (N.to_nat limit) page else page
  | None => page
  end.
Proof.
  unfold apply. cbv zeta. set (m := matched q l). rewrite bool_decide_decide.
  destruct (decide (m = [])) as [->|_].
  { rewrite drop_nil. destruct (q_limit q); [|done]. rewrite take_nil. by destruct (0 <? _)%N. }
  set (n := length m).
  assert (Hd : drop (N.to_nat (N.min (q_offset q) (N.of_nat n))) m = drop (N.to_nat (q_offset q)) m).
  { destruct (decide (q_offset q ≤ N.of_nat n)%N) as [Hle|Hgt].
    - by rewrite N.min_l by lia.
    - rewrite N.min_r by lia. rewrite !drop_ge; [done|unfold n in *; lia|unfold n; lia]. }
  rewrite Hd. set (rest := drop (N.to_nat (q_offset q)) m).
  assert (Hlen : length rest = n - N.to_nat (q_offset q)) by (unfold rest; by rewrite length_drop).
  assert (Hall : take (N.to_nat (N.of_nat n - N.min (q_offset q) (N.of_nat n))) rest = rest)
    by (apply take_ge; rewrite Hlen; lia).
  destruct (q_limit q) as [limit|]; [|done]. destruct (0 <? limit)%N eqn:E; [|done]. bool_norm.
  destruct (decide (limit ≤ N.of_nat (length rest))%N).
  - f_equal. lia.
  - rewrite !take_ge; [done|lia|lia].
Qed.

(** ** Properties *)

(** Pages cover the matches. Asking for pages of [limit] matches, one
    after the other, gives every matching service exactly once, in the order of
    the list, once there are enough pages; a page has at most [limit] services;
    and the total reported is the number of matches whatever the page. *)
Theorem pages_cover (q : ServiceQuery) (l : list ServiceStatus) (limit : N) (pages : nat) :
  (0 < limit)%N →
  total_matching q l ≤ pages * N.to_nat limit →
  let page i := apply (mkQuery (q_state q) (q_enabled q) (q_text q) (Some limit)
                         (N.of_nat i * limit)) l in
  concat (page <$> seq 0 pages) = List.filter (matches q) l
  ∧ (∀ i, length (page i) ≤ N.to_nat limit)
  ∧ ∀ i, total_matching (mkQuery (q_state q) (q_enabled q) (q_text q) (Some limit) i) l
         = length (List.filter (matches q) l).
Proof.
  intros Hl Ht page.
  assert (Hp : ∀ i, page i = take (N.to_nat limit) (drop (i * N.to_nat limit) (matched q l))).
  { intros i. unfold page. rewrite apply_matched. simpl. rewrite (proj2 (N.ltb_lt _ _) Hl).
    do 2 f_equal. lia. }
  split; [|split; [intros i; rewrite Hp, length_take; lia|done]].
  unfold total_matching in Ht. unfold matched in *. revert Hp Ht. clearbody page.
  generalize (List.filter (matches q) l) as m. intros m Hp Ht.
  rewrite (list_fmap_ext page (λ i, take (N.to_nat limit) (drop (i * N.to_nat limit) m))
    (seq 0 pages)) by (intros; apply Hp).
  apply concat_pages; [lia|done].
Qed.
Lemma pages_cover_witness :
  let a := mkService "a.service" Running None None in
  let b := mkService "b.service" Failed None None in
  concat ((λ i, apply (mkQuery None None None (Some 1%N) (N.of_nat i * 1)) [a; b]) <$> seq 0 2) = [a; b].
Proof.
  intros a b. apply (pages_cover query_default [a; b] 1 2); [done|]. vm_compute. lia.
Defined.

Section service_properties.
Context {env : Env}.

(** Asking for the detail of a service runs at most one program,
    [systemctl show], read-only flags first, and only for a name that passes
    validation: a unit name ending in [.service], which is not an option and has
    no slash, backslash or blank. A unit the manager does not know is reported
    as such, and otherwise the answer carries the name asked for. *)
Theorem detail_spec (name : str) w r w' :
  detail name w = (r, w') →
  let n := trim name in
  (validate_unit_name n = false ∧ commands w' = commands w ∧ is_ok r = false)
  ∨ (validate_unit_name n = true
     ∧ commands w' = ("systemctl" : str, FLAGS ++ ("show" : str) :: n :: ((λ p, ("--property=" : str) ++ p) <$> PROPERTIES))
                     :: commands w
     ∧ starts_with "-" n = false ∧ ("/"%char ∉ n) ∧ ("\"%char ∉ n) ∧ (" "%char ∉ n)
     ∧ ends_with ".service" n = true
     ∧ ∀ d, r = Ok d → sd_name d = n ∧ sd_load_state d ≠ "not-found").
Proof.
  intros H n. unfold detail in H. fold n in H.
  destruct (validate_unit_name n) eqn:Hv; cbn [negb] in H.
  - right. split; [done|]. unfold manager_detail, run_systemctl_raw in H.
    step_in H as ans w1 E1. step_in E1 as e w2 E2. injection E2 as <- <-. injection E1 as <- <-.
    assert (Hc : ∀ c, unit_name_forbidden c = true → c ∉ n).
    { intros c Hc Hin. unfold validate_unit_name in Hv. bool_norm.
      assert (existsb unit_name_forbidden n = true); [|congruence].
      apply existsb_exists. exists c. split; [by apply list_elem_of_In|done]. }
    unfold validate_unit_name in Hv. bool_norm. injection H as <- <-.
    split; [done|]. split_and!; try done; try by apply Hc.
    intros d Hd. destruct (command_end _ _ _) as [| | |[] st out err]; try done; cbn [negb andb] in Hd.
    + destruct (bool_decide _) eqn:Eb; [done|]. injection Hd as <-. bool_norm. by split.
    + by destruct (_ || _).
  - left. injection H as <- <-. done.
Qed.

End service_properties.

Lemma detail_spec_witness :
  let e := steady_env in let w := mkWorld ∅ 0 [] in
  commands (snd (detail "cron.service" w)) = ("systemctl" : str, FLAGS ++ show_args "cron.service") :: [].
Proof.
  intros e w.
  destruct (detail_spec "cron.service" w (fst (detail "cron.service" w)) (snd (detail "cron.service" w))
    (surjective_pairing _)) as [(Hv & _)|(_ & Hc & _)].
  - vm_compute in Hv. discriminate Hv.
  - exact Hc.
Defined.
