(* ===== verification/Auth.v ===== *)
(** * aborad: authorization

    Models [services/aborad/src/auth.rs]: the permissions, the pure admission
    decision and its denials. *)

From S2P Require Import Prelude Str Net Tokens Api.

Inductive Permission :=
| ReadHealth | ReadVersion | ReadSystem | ReadServices | ReadUpdates | ManageUpdates.
#[global] Instance Permission_eq_dec : EqDecision Permission.
Proof. solve_decision. Defined.

Definition permission_id (p : Permission) : str :=
  match p with
  | ReadHealth => "read:health"
  | ReadVersion => "read:version"
  | ReadSystem => "read:system"
  | ReadServices => "read:services"
  | ReadUpdates => "read:updates"
  | ManageUpdates => "manage:updates"
  end.

Definition is_mutating (p : Permission) : bool :=
  match p with ManageUpdates => true | _ => false end.

(** [Caller] is the name recorded for the audit trail. *)
Definition Caller : Type := str.

Inductive Decision :=
| Allowed
| RemoteNotAllowed
| AuthenticationRequired
| InsufficientPermission
| TokensRequired.
#[global] Instance Decision_eq_dec : EqDecision Decision.
Proof. solve_decision. Defined.

Section auth.
Context {sha : Sha256}.

Definition authorize (peer : IpAddr) (permission : Permission) (bearer : option str)
    (store : option TokenStore) : Decision :=
  if negb (is_loopback peer) then RemoteNotAllowed
  else match store with
  | None => if is_mutating permission then TokensRequired else Allowed
  | Some store =>
      match bearer with
      | None => AuthenticationRequired
      | Some bearer =>
          match find bearer store with
          | None => AuthenticationRequired
          | Some token => if grants (permission_id permission) token then Allowed
                          else InsufficientPermission
          end
      end
  end.

Definition into_denial (d : Decision) (p : Permission) : option ApiErrorBody :=
  match d with
  | Allowed => None
  | RemoteNotAllowed => Some (error_new Forbidden
      ("operation `" ++ permission_id p
       ++ "` is not allowed for remote clients; remote management is not enabled"))
  | AuthenticationRequired => Some (error_new Unauthorized
      ("operation `" ++ permission_id p ++ "` requires a valid bearer token"))
  | TokensRequired => Some (error_new Forbidden
      ("operation `" ++ permission_id p
       ++ "` changes the system and requires token authentication; configure [security] token_file and use a token that grants it"))
  | InsufficientPermission => Some (error_new Forbidden
      ("token is authenticated but not authorized for `" ++ permission_id p ++ "`"))
  end.

(** ** Lemmas *)

Lemma grants_spec id t :
  grants id t = true ↔
  id ∈ tk_permissions t ∨ (("read_all" : str) ∈ tk_permissions t ∧ starts_with "read:" id = true).
Proof.
  unfold grants. rewrite existsb_exists. setoid_rewrite orb_true_iff.
  setoid_rewrite andb_true_iff. setoid_rewrite bool_decide_eq_true.
  setoid_rewrite <-list_elem_of_In. naive_solver.
Qed.

(** [read_all] covers the reading permissions and only those. *)
Lemma read_permission p : starts_with "read:" (permission_id p) = negb (is_mutating p).
Proof. by destruct p. Qed.

(** A change is admitted only for a token that names it. *)
Lemma mutation_admitted (peer : IpAddr) p bearer store :
  authorize peer p bearer store = Allowed → is_mutating p = true →
  ∃ s b tk, store = Some s ∧ bearer = Some b ∧ find b s = Some tk
            ∧ ("manage:updates" : str) ∈ tk_permissions tk.
Proof.
  unfold authorize. intros Ha Hm. destruct (negb _); [done|].
  destruct store as [s|]; [|by rewrite Hm in Ha]. destruct bearer as [b|]; [|done].
  cbn [mbind option_bind] in Ha. destruct (find b s) as [tk|] eqn:Ef; [|done].
  destruct (grants _ tk) eqn:Eg; [|done]. exists s, b, tk. split_and!; try done.
  apply grants_spec in Eg as [H|[_ H]].
  - by destruct p.
  - by rewrite read_permission, Hm in H.
Qed.

Lemma denial_status d p :
  (http_status ∘ er_code <$> into_denial d p) =
    match d with Allowed => None | AuthenticationRequired => Some 401%N | _ => Some 403%N end.
Proof. by destruct d. Qed.

(** ** Properties *)

(** The admission decision. A request is admitted exactly when it comes
    from loopback and either no token store is enforced and the operation only
    reads, or its bearer secret is that of a stored token naming the operation's
    permission or, for a reading operation, [read_all]. So a remote client is
    never admitted, and changing the system always takes a token that names
    [manage:updates]. Every other request is denied, with status 401 exactly when
    a token is missing or unknown and 403 otherwise. *)
Theorem authorize_spec (peer : IpAddr) (p : Permission) (bearer : option str)
    (store : option TokenStore) :
  let d := authorize peer p bearer store in
  (d = Allowed ↔ is_loopback peer = true ∧
     match store with
     | None => is_mutating p = false
     | Some s => ∃ b tk, bearer = Some b ∧ find b s = Some tk ∧
         (permission_id p ∈ tk_permissions tk
          ∨ (("read_all" : str) ∈ tk_permissions tk ∧ is_mutating p = false))
     end)
  ∧ (d = Allowed → is_mutating p = true →
       ∃ s b tk, store = Some s ∧ bearer = Some b ∧ find b s = Some tk
                 ∧ ("manage:updates" : str) ∈ tk_permissions tk)
  ∧ (http_status ∘ er_code <$> into_denial d p) =
      match d with
      | Allowed => None
      | AuthenticationRequired => Some 401%N
      | _ => Some 403%N
      end
  ∧ (d = AuthenticationRequired ↔ is_loopback peer = true ∧
       ∃ s, store = Some s ∧ (b ← bearer; find b s) = None).
Proof.
  intros d. split_and!; [|apply mutation_admitted|apply denial_status|]; subst d; unfold authorize.
  all: assert (Hg : ∀ tk, grants (permission_id p) tk = true ↔
    permission_id p ∈ tk_permissions tk
    ∨ (("read_all" : str) ∈ tk_permissions tk ∧ is_mutating p = false))
    by (intros tk; rewrite grants_spec, read_permission, negb_true_iff; done).
  all: destruct (is_loopback peer); cbn [negb]; [|by naive_solver].
  all: destruct store as [s|]; [|destruct (is_mutating p) eqn:Em; by naive_solver].
  all: destruct bearer as [b|]; [|by naive_solver].
  all: cbn [mbind option_bind]; destruct (find b s) as [tk|] eqn:Ef; [|by naive_solver].
  all: specialize (Hg tk); destruct (grants _ tk); naive_solver.
Qed.

End auth.
