(* ===== verification/State.v ===== *)
(** * aborad: the update state

    Models the update half of [services/aborad/src/state.rs]: the provider with
    its shared store, the list the last check found, and the files exchanged
    with the root helper. The locks are taken one at a time and released before
    each call returns, so a method is a function of the state it starts in. *)

From stdpp Require Import sorting.
From S2P Require Import Prelude Str World Replace Log Version Types Store Host Apply Config Schedule Tokens Api Helper.

Inductive ApplyRefusal := RefusedConflict (reason : str) | RefusedInternal (message : str).
#[global] Instance ApplyRefusal_eq_dec : EqDecision ApplyRefusal.
Proof. solve_decision. Defined.

(** The store is the provider's: both hold the same [Arc]. *)
Record UpdatesState := mkUpdatesState {
  provider : HostPackageProvider;
  available : list AvailableUpdate;
  schedule : option ScheduleInfo;
  apply_request_file : str;
  apply_result_path : str;
}.
Definition store (s : UpdatesState) : UpdateStore := hp_store (provider s).
Definition with_provider (p : HostPackageProvider) (s : UpdatesState) : UpdatesState :=
  mkUpdatesState p (available s) (schedule s) (apply_request_file s) (apply_result_path s).
Definition with_available (l : list AvailableUpdate) (s : UpdatesState) : UpdatesState :=
  mkUpdatesState (provider s) l (schedule s) (apply_request_file s) (apply_result_path s).

(** [UpdatesState::host]. *)
Definition host (st : UpdateStore) (request_file result_file : str) : UpdatesState :=
  mkUpdatesState (host_new st) [] None request_file result_file.

Definition set_schedule (info : ScheduleInfo) (s : UpdatesState) : UpdatesState :=
  mkUpdatesState (provider s) (available s) (Some info) (apply_request_file s) (apply_result_path s).

(** [{:016x}] of a 64-bit number. *)
Definition hex16 (n : N) : str :=
  (λ i, HEX (N.land (N.shiftr n (4 * N.of_nat i)) 15)) <$> rev (seq 0 16).

Definition APPLYING : str := "an update is already being applied".
Definition NO_UPDATES : str := "no updates are available; the last check found nothing".
Definition CLOSED : str :=
  "updates may only be applied inside a maintenance window ([maintenance] enabled, and the local time inside a window)".

Section state.
Context {env : Env} {T : TomlValue} {serde : Serde StoreData}.
Context {request_serde : Serde ApplyRequest} {result_serde : Serde ApplyResult}.
(** [RandomState]'s hash of a text at the [n]-th call: any number. *)
Context (random_hash : nat → str → N).

Definition refresh (ch : Channel) (s : UpdatesState) : io (result str nat * UpdatesState) :=
  '(r, p) ← check ch (provider s);
  let s := with_provider p s in
  match r with
  | Err e => mret (Err (update_error_to_string e), s)
  | Ok found => mret (Ok (length (aus_updates found)), with_available (aus_updates found) s)
  end.

Definition health (s : UpdatesState) : ComponentHealth :=
  let '(st, detail) :=
    match status (provider s) with
    | Ok (StatusError message) => (Degraded, Some message)
    | Err e => (HealthOk, Some (update_error_to_string e))
    | Ok _ => (HealthOk, None)
    end in
  mkHealth "updates" st detail.

Definition apply_pending (s : UpdatesState) : io bool :=
  r ← symlink_metadata (apply_request_file s); mret (is_ok r).

Definition response (s : UpdatesState) : io (UpdatesResponse * UpdatesState) :=
  pending ← apply_pending s;
  let st := if (pending : bool) then Some (Installing "host packages" None)
            else ok (status (provider s)) in
  let last := Store.last_check (store s) in
  '(rb, p) ← reboot_required (provider s);
  let s := with_provider p s in
  let rb := match rb with Ok r => r | Err _ => Store.reboot (store s) end in
  mret (mkUpdatesResponse st last rb (schedule s) (available s) (Store.history (store s)), s).

Definition apply_inputs (s : UpdatesState) : io (bool * bool) :=
  pending ← apply_pending s;
  mret (negb (bool_decide (available s = [])), pending).

(** The package list of a request: sorted, without repetitions. *)
Definition wanted (s : UpdatesState) : list str := dedup (sort_str (au_component <$> available s)).

Definition random_id (text : str) : io str := λ w,
  ("apply-" ++ hex16 (wrap64 (random_hash (calls w) text)),
   mkWorld (files w) (S (calls w)) (trace w)).
Definition new_request_id : io str := now ← rfc3339_now; random_id now.

Definition request_apply (config : Config) (caller : str) (dry_run : bool) (s : UpdatesState)
    : io (result ApplyRefusal ApplyResponse) :=
  let packages := wanted s in
  t ← local_time;
  let permitted := apply_permitted (permissions config t) in
  pending ← apply_pending s;
  let block := if (pending : bool) then Some APPLYING
               else if bool_decide (packages = []) then Some NO_UPDATES
               else if negb permitted then Some CLOSED
               else None in
  if dry_run then
    mret (Ok (mkApplyResponse true (bool_decide (block = None)) block None packages))
  else match block with
  | Some reason => mret (Err (RefusedConflict reason))
  | None =>
      id ← new_request_id;
      now ← rfc3339_now;
      let request := mkRequest id now caller packages in
      r ← write_atomic (apply_request_file s) (encode_json request) 384 (* 0o600 *);
      mret (match r with
            | Err e => Err (RefusedInternal ("could not write the apply request: " ++ io_message e))
            | Ok _ => Ok (mkApplyResponse false true None (Some id) packages)
            end)
  end.

(** The history note of a result. *)
Definition result_key (r : ApplyResult) : str := "apply " ++ res_id r.
Definition result_note (r : ApplyResult) : str :=
  result_key r ++ ": " ++ dec_nat (length (res_packages r)) ++ " package(s)"
  ++ match res_note r with Some extra => "; " ++ extra | None => [] end
  ++ (if res_reboot_started r then "; reboot started" else []).

Definition result_entry (ch : Channel) (r : ApplyResult) : UpdateHistoryEntry :=
  let zero := Version.new 0 0 0 in
  mkEntry (res_finished_at r) zero zero ch "host packages" (res_succeeded r) (Some (result_note r)).

Definition already_recorded (r : ApplyResult) (s : UpdatesState) : bool :=
  existsb (λ h, match he_note h with Some n => starts_with (result_key r) n | None => false end)
    (Store.history (store s)).

Definition record_result (ch : Channel) (r : ApplyResult) (s : UpdatesState)
    : io (bool * UpdatesState) :=
  '(rec, st) ← record_update (result_entry ch r) (store s);
  let s := with_provider (set_store st (provider s)) s in
  let recorded := is_ok rec in
  mret (recorded,
        if recorded && res_succeeded r
        then with_available (List.filter (λ u, negb (bool_decide (au_component u ∈ res_packages r)))
                               (available s)) s
        else s).

Definition ingest_apply_result (ch : Channel) (s : UpdatesState) : io (bool * UpdatesState) :=
  bytes ← read_regular_file (apply_result_path s) None;
  match bytes with
  | Err _ => mret (false, s)
  | Ok bytes =>
      match decode_json bytes with
      | None => mret (false, s)
      | Some r =>
          if negb (valid_request_id (res_id r)) && negb (bool_decide (res_id r = ("invalid" : str)))
          then mret (false, s)
          else if already_recorded r s then mret (false, s)
          else record_result ch r s
      end
  end.

End state.

(** ** Lemmas *)

(** Every listed update has a valid package name. *)
Definition listed_ok (s : UpdatesState) : Prop :=
  Forall (λ u, valid_package_name (au_component u) = true) (available s).

Lemma HEX_id_char n : (n < 16)%N → id_char (HEX n) = true.
Proof.
  intros Hn.
  assert (H : forallb (λ i, id_char (HEX (N.of_nat i))) (seq 0 16) = true) by by vm_compute.
  rewrite forallb_forall in H. specialize (H (N.to_nat n)). rewrite N2Nat.id in H.
  apply H, in_seq. lia.
Qed.

Lemma request_id_valid n : valid_request_id ("apply-" ++ hex16 n) = true.
Proof.
  unfold valid_request_id. rewrite forallb_app, length_app.
  assert (length (hex16 n) = 16) as -> by done. apply andb_true_iff. split; [done|].
  apply andb_true_iff. split; [done|]. apply forallb_forall. intros c Hc. unfold hex16 in Hc. apply list_elem_of_In in Hc.
  apply list_elem_of_fmap in Hc as (i & -> & _). apply HEX_id_char.
  change 15%N with (N.ones 4). rewrite N.land_ones. by apply N.mod_lt.
Qed.

Lemma wanted_elem s p : p ∈ wanted s ↔ ∃ u, u ∈ available s ∧ au_component u = p.
Proof.
  unfold wanted. rewrite elem_of_dedup, sort_str_Permutation, list_elem_of_fmap. naive_solver.
Qed.

Section state_lemmas.
Context {env : Env} {T : TomlValue} {serde : Serde StoreData}.
Context {request_serde : Serde ApplyRequest} {result_serde : Serde ApplyResult}.
Context (random_hash : nat → str → N).

Lemma readonly_pending s : readonly (apply_pending s).
Proof. unfold apply_pending. follow. Qed.
Lemma readonly_request_id : readonly (new_request_id random_hash).
Proof. unfold new_request_id. apply readonly_bind; [apply readonly_now|done]. Qed.
Lemma new_request_id_valid w id w1 :
  new_request_id random_hash w = (id, w1) → valid_request_id id = true.
Proof. unfold new_request_id. intros H. step_in H as n w2 E. injection H as <- _. apply request_id_valid. Qed.

(** What a pending request means. *)
Lemma pending_inv s w b w1 :
  apply_pending s w = (b, w1) →
  (∃ nd, b = true ∧ files w !! apply_request_file s = Some nd)
  ∨ (b = false ∧ (files w !! apply_request_file s = None ∨ is_Some (io_fault (calls w)))).
Proof.
  unfold apply_pending, symlink_metadata, syscall. intros H. step_in H as r w2 E.
  injection E as <- <-. injection H as <- <-. destruct (io_fault _); [right; eauto|].
  destruct (files w !! _); eauto.
Qed.

Lemma local_time_files_effect w t w1 :
  local_time w = (t, w1) →
  files w1 = command_effect (calls w) "date" ["+%u %H:%M" : str] (files w).
Proof.
  unfold local_time. intros H. step_in H as e w2 E. injection E as <- <-. by injection H as <- <-.
Qed.

(** The request file after [date] ran, which is all that runs before the
    decision. *)
Definition request_node (s : UpdatesState) (w : world) : option node :=
  command_effect (calls w) "date" ["+%u %H:%M" : str] (files w) !! apply_request_file s.

(** The request a successful [request_apply] has written. *)
Definition requested (config : Config) (caller : str) (s : UpdatesState) (r : ApplyResponse)
    (w w' : world) : Prop :=
  ∃ id now t m mt,
    ap_id r = Some id ∧ ap_packages r = wanted s ∧ wanted s ≠ [] ∧ valid_request_id id = true
    ∧ told t ∧ apply_permitted (permissions config t) = true
    ∧ (request_node s w = None ∨ ∃ n, is_Some (io_fault n))
    ∧ files w' !! apply_request_file s
      = Some (Regular (encode_json (mkRequest id now caller (wanted s))) m mt).

Lemma request_apply_inv config caller dry s w r w' :
  not_link (command_effect (calls w) "date" ["+%u %H:%M" : str] (files w))
    (tmp_path (apply_request_file s)) →
  request_apply random_hash config caller dry s w = (r, w') →
  commands w' = DATE :: commands w
  ∧ match r with
    | Ok a => if ap_dry_run a then dry = true ∧ files w' !! apply_request_file s = request_node s w
                                   ∧ ap_id a = None ∧ ap_packages a = wanted s
              else dry = false ∧ requested config caller s a w w'
    | Err _ => dry = false ∧ files w' !! apply_request_file s = request_node s w
    end.
Proof.
  intros Hl H. unfold request_apply in H. cbv zeta in H.
  step_in H as t w1 E1. pose proof (local_time_files_effect _ _ _ E1) as F1.
  pose proof (local_time_told _ _ _ E1) as Et.
  apply local_time_inv in E1. unfold request_node. rewrite <-F1 in *.
  step_in H as b w2 E2. pose proof (pending_inv _ _ _ _ E2) as Hp.
  apply readonly_inv in E2 as [F2 C2]; [|apply readonly_pending].
  destruct dry.
  { injection H as <- <-. split; [congruence|]. simpl. by rewrite F2. }
  match goal with H : context [match ?b with Some _ => _ | None => _ end _ = _] |- _ => destruct b eqn:Eb end.
  { injection H as <- <-. split; [congruence|]. by rewrite F2. }
  step_in H as id w3 E3. pose proof (new_request_id_valid _ _ _ E3) as Hid.
  apply readonly_inv in E3 as [F3 C3]; [|apply readonly_request_id].
  step_in H as now w4 E4. apply readonly_inv in E4 as [F4 C4]; [|apply readonly_now].
  step_in H as wr w5 E5. pose proof (quiet_inv _ _ _ _ (quiet_write_atomic _ _ _) E5) as C5.
  assert (Ff : files w4 = files w1) by congruence.
  pose proof (write_atomic_spec (apply_request_file s)
    (encode_json (mkRequest id now caller (wanted s))) 384 (files w4 !! apply_request_file s)
    (mode_of (files w4) (tmp_path (apply_request_file s)) 384) w4) as Hs.
  rewrite E5 in Hs. destruct Hs as [_ Hs]; [split_and!; [done|by rewrite Ff|done]|].
  destruct wr as [[]|e]; injection H as <- <-; (split; [congruence|]).
  - cbn [ap_dry_run]. split; [done|]. destruct Hs as [mt Hs].
    destruct b; [done|]. destruct (bool_decide (wanted s = [])) eqn:Ew; [done|].
    destruct (apply_permitted _) eqn:Ep; [|done]. bool_norm.
    exists id, now, t, (mode_of (files w4) (tmp_path (apply_request_file s)) 384), mt.
    split_and!; try done. unfold request_node. rewrite <-F1.
    destruct Hp as [(nd & [=] & _)|[_ [Hn|Hn]]]; eauto.
  - split; [done|]. by rewrite Hs, Ff.
Qed.


(** *** Ingestion *)

(** Recording puts the entry first and keeps the 499 before it. *)
Lemma record_update_history e st w rec st' w' :
  record_update e st w = ((rec, st'), w') →
  match rec with
  | Ok _ => Store.history st' = e :: take 499 (Store.history st)
  | Err _ => st' = st
  end.
Proof.
  intros H. apply change_cases in H. destruct rec; [|done]. subst st'.
  unfold Store.history. simpl. rewrite trim_history. simpl.
  rewrite length_app. simpl. set (h := sd_history (st_data st)). unfold MAX_HISTORY.
  destruct (decide (length h ≤ 499)) as [Hle|Hgt].
  - replace (length h + 1 - 500) with 0 by lia. rewrite drop_0, rev_unit. f_equal.
    rewrite take_ge; [done|]. rewrite length_rev. lia.
  - rewrite drop_app_le by lia. rewrite rev_unit, firstn_rev. do 3 f_equal. lia.
Qed.

Lemma result_note_key r : starts_with (result_key r) (result_note r) = true.
Proof. apply starts_with_app. Qed.

Lemma already_recorded_head r s l :
  Store.history (store s) = result_entry Stable r :: l → already_recorded r s = true.
Proof. intros H. unfold already_recorded. rewrite H. simpl. by rewrite result_note_key. Qed.

(** What a result file that is taken says. *)
Definition accepted_result (s : UpdatesState) (fs : files_t) (r : ApplyResult) : Prop :=
  ∃ bytes m t, fs !! apply_result_path s = Some (Regular bytes m t) ∧ decode_json bytes = Some r
    ∧ (valid_request_id (res_id r) = true ∨ res_id r = "invalid")
    ∧ already_recorded r s = false.

Lemma ingest_inv ch s w b s' w' :
  ingest_apply_result ch s w = ((b, s'), w') →
  commands w' = commands w ∧
  if b then ∃ r, accepted_result s (files w) r
      ∧ Store.history (store s') = result_entry ch r :: take 499 (Store.history (store s))
      ∧ available s' = (if res_succeeded r
          then List.filter (λ u, negb (bool_decide (au_component u ∈ res_packages r))) (available s)
          else available s)
      ∧ apply_result_path s' = apply_result_path s
      ∧ ∃ w1 w2, record_update (result_entry ch r) (store s) w1 = ((Ok (), store s'), w2)
  else s' = s.
Proof.
  unfold ingest_apply_result. intros H. step_in H as bytes w1 E1.
  pose proof (readonly_inv _ _ _ _ (readonly_read_regular _ _) E1) as [F1 C1].
  destruct bytes as [bytes|e]; [|by injection H as <- <- <-].
  destruct (decode_json bytes) as [r|] eqn:Ed; [|by injection H as <- <- <-].
  destruct (negb _ && _) eqn:Ei; [by injection H as <- <- <-|].
  destruct (already_recorded r s) eqn:Ea; [by injection H as <- <- <-|].
  unfold record_result in H. step_in H as x w2 E2. destruct x as [rec st].
  pose proof (quiet_inv _ _ _ _ (quiet_change _ _) E2) as C2.
  pose proof (record_update_history _ _ _ _ _ _ E2) as Hh.
  apply read_regular_ok in E1 as (m & t & Hf & _ & _).
  destruct rec as [[]|e]; injection H as <- <- <-; (split; [congruence|]); simpl.
  - exists r. split.
    + exists bytes, m, t. split_and!; try done.
      apply andb_false_iff in Ei as [Ei|Ei]; bool_norm; auto.
    + destruct (res_succeeded r); simpl; rewrite ?Hh; split_and!; eauto.
  - subst st. by destruct s as [[] ? ? ? ?].
Qed.
End state_lemmas.

(** ** The states the daemon can be in *)

Section reach.
Context {env : Env} {serde : Serde StoreData} {result_serde : Serde ApplyResult}.

(** Starting from an opened store, any sequence of checks, reads, ingestions
    and schedule updates; [log] is every history entry recorded, oldest first. *)
Inductive reachable : list UpdateHistoryEntry → UpdatesState → Prop :=
| reach_host log st rq rs : store_reach log st → reachable log (host st rq rs)
| reach_refresh log s ch w r s' w' :
    reachable log s → refresh ch s w = ((r, s'), w') → reachable log s'
| reach_response log s w r s' w' :
    reachable log s → response s w = ((r, s'), w') → reachable log s'
| reach_schedule log s info : reachable log s → reachable log (set_schedule info s)
| reach_ingest log s ch w s' w' :
    reachable log s → ingest_apply_result ch s w = ((false, s'), w') → reachable log s'
| reach_record log s ch w s' w' r :
    reachable log s → ingest_apply_result ch s w = ((true, s'), w') →
    accepted_result s (files w) r → reachable (log ++ [result_entry ch r]) s'.

Lemma check_inv ch p w r p' w' :
  host_check ch p w = ((r, p'), w') →
  (hp_store p' = hp_store p
   ∨ ∃ when w1 w2, record_check when (hp_store p) w1 = ((Ok (), hp_store p'), w2))
  ∧ ∀ a, r = Ok a → ∃ out, aus_updates a = to_available ch <$> parse_simulation out.
Proof.
  unfold host_check. intros H. step_in H as ans w1 E1. destruct ans as [out|m].
  - step_in H as now w2 E2. step_in H as rs w3 E3. destruct rs as [rr st].
    destruct rr as [[]|e]; injection H as <- <- <-.
    + split; [right; by exists now, w2, w3|]. intros a [= <-]. by exists out.
    + split; [|done]. left. by apply change_cases in E3.
  - injection H as <- <- <-. split; [by left|done].
Qed.

Lemma refresh_inv ch s w r s' w' :
  refresh ch s w = ((r, s'), w') →
  (store s' = store s ∨ ∃ when w1 w2, record_check when (store s) w1 = ((Ok (), store s'), w2))
  ∧ ((∃ out, available s' = to_available ch <$> parse_simulation out) ∨ available s' = available s).
Proof.
  unfold refresh. intros H. step_in H as x w1 E1. destruct x as [rc p].
  apply check_inv in E1 as [Hs Ha]. destruct rc as [a|e]; injection H as <- <- <-.
  - split; [done|]. left. by apply Ha.
  - split; [done|]. by right.
Qed.

Lemma response_inv s w r s' w' :
  response s w = ((r, s'), w') →
  (store s' = store s ∨ ∃ st w1 w2, set_reboot st (store s) w1 = ((Ok (), store s'), w2))
  ∧ available s' = available s.
Proof.
  unfold response. intros H. step_in H as b w1 E1. step_in H as x w2 E2. destruct x as [rb p].
  injection H as <- <- <-. split; [|done]. cbn in E2. unfold host_reboot_required in E2.
  step_in E2 as present w3 E3. destruct present; cbn [negb] in E2.
  - destruct (required _); [injection E2 as <- <- <-; by left|].
    step_in E2 as t w4 E4. step_in E2 as n w5 E5. step_in E2 as y w6 E6. destruct y as [r1 st1].
    injection E2 as <- <- <-. destruct r1 as [[]|e]; [right; by eexists _, _, _|].
    left. by apply change_cases in E6.
  - destruct (required _); [|injection E2 as <- <- <-; by left].
    step_in E2 as y w6 E6. destruct y as [r1 st1].
    injection E2 as <- <- <-. destruct r1 as [[]|e]; [right; by eexists _, _, _|].
    left. by apply change_cases in E6.
Qed.

Lemma simulation_listed ch out :
  Forall (λ u, valid_package_name (au_component u) = true) (to_available ch <$> parse_simulation out).
Proof.
  apply Forall_forall. intros u Hu. apply list_elem_of_In, list_elem_of_fmap in Hu as (p & -> & Hp).
  unfold parse_simulation in Hp. apply list_elem_of_omap in Hp as (line & _ & Hp).
  by apply parse_inst_line_valid in Hp as [H _].
Qed.

Lemma Forall_filter {A : Type} (P : A → Prop) f l : Forall P l → Forall P (List.filter f l).
Proof. rewrite !Stdlib.Lists.List.Forall_forall. intros H u [Hu _]%filter_In. by apply H. Qed.

Lemma accepted_unique s fs r r' : accepted_result s fs r → accepted_result s fs r' → r = r'.
Proof.
  intros (b & m & t & Hf & Hd & _) (b' & m' & t' & Hf' & Hd' & _).
  rewrite Hf in Hf'. injection Hf' as <- <- <-. congruence.
Qed.

Lemma reach_step log s s' op w1 w2 :
  store_reach log (store s) → op_entries op = [] →
  run_op op (store s) w1 = ((Ok (), store s'), w2) → store_reach log (store s').
Proof.
  intros Hr Hop H. rewrite <-(app_nil_r log), <-Hop. eapply reach_ok; [exact Hr|]. by rewrite H.
Qed.

End reach.

(** ** Properties *)

Section properties.
Context {env : Env} {T : TomlValue} {serde : Serde StoreData}.
Context {request_serde : Serde ApplyRequest} {result_serde : Serde ApplyResult}.
Context (random_hash : nat → str → N).

(** C30: every reachable state of the daemon is sound. Whatever sequence of
    checks, reads and ingestions, each failing anywhere, every update it lists has
    a valid package name, and its history is the newest 500 entries ever recorded,
    newest first: those of the opened file and one per result taken. *)
Theorem reachable_sound log s :
  reachable log s → listed_ok s ∧ Store.history (store s) = rev (newest log).
Proof.
  intros H. assert (Hr : listed_ok s ∧ store_reach log (store s)).
  { induction H as [log st rq rs Hs|log s ch w r s' w' _ [Hl Hs] H|log s w r s' w' _ [Hl Hs] H|
      log s info _ [Hl Hs]|log s ch w s' w' _ [Hl Hs] H|log s ch w s' w' r _ [Hl Hs] H Hr].
    - split; [by constructor|done].
    - apply refresh_inv in H as [Hst Ha]. split.
      + destruct Ha as [[out Ha]|Ha]; unfold listed_ok; rewrite Ha; [apply simulation_listed|done].
      + destruct Hst as [->|(when & w1 & w2 & Hw)]; [done|].
        by eapply (reach_step _ _ _ (OpCheck when)).
    - apply response_inv in H as [Hst Ha]. split; [by unfold listed_ok; rewrite Ha|].
      destruct Hst as [->|(st & w1 & w2 & Hw)]; [done|]. by eapply (reach_step _ _ _ (OpReboot st)).
    - by split.
    - apply ingest_inv in H as [_ ->]. by split.
    - apply ingest_inv in H as [_ (r' & Hr' & _ & Ha & _ & w1 & w2 & Hw)].
      assert (r' = r) as -> by by eapply accepted_unique. split.
      + unfold listed_ok. rewrite Ha. destruct (res_succeeded r); [by apply Forall_filter|done].
      + apply (reach_ok _ _ _ (OpUpdate (result_entry ch r)) w1 Hs). by simpl; rewrite Hw. }
  destruct Hr as [Hl Hs]. split; [done|]. unfold Store.history. by rewrite (reach_history _ _ Hs).
Qed.

(** A request for an apply, decided. Only [date] runs. The request file is
    written only when the answer accepts: policy permits the time [date] tells,
    the last check listed something, and no request was waiting (the look at the
    file may fail). A dry run and every refusal leave the request file as it
    was. *)
Theorem request_apply_guarded config caller dry s w r w' :
  not_link (command_effect (calls w) "date" ["+%u %H:%M" : str] (files w))
    (tmp_path (apply_request_file s)) →
  request_apply random_hash config caller dry s w = (r, w') →
  commands w' = DATE :: commands w
  ∧ match r with
    | Ok a => ap_packages a = wanted s ∧
        if ap_dry_run a then dry = true ∧ files w' !! apply_request_file s = request_node s w
        else dry = false ∧ wanted s ≠ []
             ∧ (∃ t, told t ∧ apply_permitted (permissions config t) = true)
             ∧ (request_node s w = None ∨ ∃ n, is_Some (io_fault n))
    | Err _ => dry = false ∧ files w' !! apply_request_file s = request_node s w
    end.
Proof.
  intros Hl H. apply request_apply_inv in H as [Hc H]; [|done]. split; [done|].
  destruct r as [a|e]; [|done]. destruct (ap_dry_run a).
  - naive_solver.
  - destruct H as (-> & id & now & t & m & mt & ? & ? & ? & ? & ? & ? & ? & ?). eauto 12.
Qed.

(** C18: what the daemon asks, the helper accepts. When a request is accepted,
    the file at the helper's path holds a request that decodes and passes the
    helper's validation (given that the last check's list has at most 2,000
    packages); it names its caller, has the id the client was told, and its
    packages are exactly the components listed by the last check, sorted and
    without repetitions. *)
Theorem request_reaches_helper `{!SerdeOk ApplyRequest wf_request} config caller s w a w' :
  listed_ok s → length (wanted s) ≤ MAX_PACKAGES →
  (∀ id now, wf_request (mkRequest id now caller (wanted s))) →
  not_link (command_effect (calls w) "date" ["+%u %H:%M" : str] (files w))
    (tmp_path (apply_request_file s)) →
  apply_request_file s = request_path_of config →
  request_apply random_hash config caller false s w = (Ok a, w') →
  ∃ req bytes m mt,
    files w' !! request_path_of config = Some (Regular bytes m mt)
    ∧ decode_json bytes = Some req ∧ validate_request req = Ok ()
    ∧ ap_id a = Some (ar_id req) ∧ ar_requested_by req = caller
    ∧ ar_packages req = ap_packages a
    ∧ Sorted str_le (ar_packages req) ∧ NoDup (ar_packages req)
    ∧ ∀ p, p ∈ ar_packages req ↔ ∃ u, u ∈ available s ∧ au_component u = p.
Proof.
  intros Hok Hlen Hwf Hl Hpath H. apply request_apply_inv in H as [_ H]; [|done].
  destruct (ap_dry_run a); [by destruct H|].
  destruct H as (_ & id & now & t & m & mt & Hid & Hpk & Hn & Hv & _ & _ & _ & Hf).
  rewrite <-Hpath. eexists (mkRequest id now caller (wanted s)), _, m, mt.
  split; [exact Hf|]. split; [by apply decode_encode|]. split.
  - apply validate_request_ok. split_and!; try done. apply Forall_forall. intros p Hp.
    apply list_elem_of_In, wanted_elem in Hp as (u & Hu & <-). unfold listed_ok in Hok.
    rewrite Forall_forall in Hok. by apply Hok, list_elem_of_In.
  - split_and!; try done; [apply dedup_Sorted, sort_str_Sorted|apply dedup_NoDup, sort_str_Sorted|].
    intros p. apply wanted_elem.
Qed.


End properties.

(** ** Examples *)

(** A concrete codec of requests: the fields, each with its length before it. *)
Definition net (s : str) : str := dec_nat (length s) ++ ":"%char :: s.
Definition unnet (s : str) : option (str * str) :=
  '(n, r) ← split_once ":" s;
  n ← digits_val 0 n;
  Some (take (N.to_nat n) r, drop (N.to_nat n) r).
Fixpoint unnets (fuel : nat) (s : str) : option (list str) :=
  match fuel, s with
  | _, [] => Some []
  | O, _ => None
  | S fuel, _ => '(x, r) ← unnet s; xs ← unnets fuel r; Some (x :: xs)
  end.

Lemma unnet_net s r : unnet (net s ++ r) = Some (s, r).
Proof.
  unfold unnet, net. rewrite <-app_assoc. simpl.
  rewrite split_once_app by by apply (forallb_not_elem _ _ _ (dec_digits _)).
  simpl. unfold dec_nat. rewrite dec_val. simpl.
  by rewrite Nat2N.id, take_app_length, drop_app_length.
Qed.

Lemma unnets_concat l fuel : length l ≤ fuel → unnets fuel (concat (net <$> l)) = Some l.
Proof.
  revert fuel. induction l as [|x l IH]; intros [|fuel] Hf; simpl in Hf; try done; try lia.
  cbn [fmap list_fmap concat unnets].
  destruct (net x ++ concat (net <$> l)) as [|c s] eqn:E.
  - unfold net in E. destruct (dec_nat (length x)) eqn:Ed; [by apply dec_non_nil in Ed|done].
  - rewrite <-E, unnet_net. cbn [mbind option_bind]. by rewrite IH by lia.
Qed.

Lemma length_concat_net l : length l ≤ length (concat (net <$> l)).
Proof.
  induction l as [|x l IH]; [done|]. csimpl. rewrite length_app. unfold net at 1.
  rewrite length_app. simpl. lia.
Qed.

Definition request_codec : Serde ApplyRequest := {|
  encode_json r := concat (net <$> (ar_id r :: ar_requested_at r :: ar_requested_by r :: ar_packages r));
  decode_json s :=
    l ← unnets (length s) s;
    match l with
    | id :: at_ :: by_ :: packages => Some (mkRequest id at_ by_ packages)
    | _ => None
    end;
|}.
Lemma request_codec_ok : @SerdeOk ApplyRequest request_codec (λ _, True).
Proof.
  intros [id at_ by_ packages] _. unfold decode_json, encode_json, request_codec.
  by rewrite unnets_concat by apply length_concat_net.
Qed.

Definition example_state : UpdatesState :=
  mkUpdatesState example_provider
    [to_available Stable (mkUpgrade "zlib1g" None "2" "Ubuntu"); to_available Stable (mkUpgrade "apt" None "3" "Ubuntu")]
    None "/var/lib/abora/apply-request.json" "/r/result".
Definition empty_world : world := mkWorld ∅ 0 [].

Lemma request_apply_guarded_witness :
  let e := example_env in let q := request_codec in
  commands (snd (request_apply (λ _ _, 7%N) example_config "op" false example_state empty_world)) = [DATE].
Proof.
  intros e q.
  apply (request_apply_guarded (λ _ _, 7%N) example_config "op" false example_state empty_world
    (fst (request_apply (λ _ _, 7%N) example_config "op" false example_state empty_world))).
  - intros t. vm_compute. discriminate.
  - apply surjective_pairing.
Defined.

Lemma request_reaches_helper_witness :
  let e := example_env in let q := request_codec in
  let w' := snd (request_apply (λ _ _, 7%N) example_config "op" false example_state empty_world) in
  ∃ req bytes m mt, files w' !! request_path_of example_config = Some (Regular bytes m mt)
    ∧ decode_json bytes = Some req ∧ validate_request req = Ok ().
Proof.
  intros e q w'.
  destruct (@request_reaches_helper e example_toml q (λ _ _, 7%N) (λ _, True) request_codec_ok
    example_config "op" example_state empty_world
    (mkApplyResponse false true None (Some ("apply-0000000000000007" : str)) ["apt" : str; "zlib1g" : str]) w')
    as (req & bytes & m & mt & Hf & Hd & Hv & _).
  - repeat constructor.
  - vm_compute. lia.
  - done.
  - intros t. vm_compute. discriminate.
  - vm_compute. reflexivity.
  - vm_compute. reflexivity.
  - exists req, bytes, m, mt. split; [exact Hf|]. split; [exact Hd|exact Hv].
Defined.

Definition result_world : world :=
  mkWorld {[ ("/r/result" : str) := Regular "{}" 420 0 ]} 0 [].
Definition done_result : ApplyResult := mkResult "apply-0000000000000007" "t" "t" true ["apt" : str] None false.


Lemma reachable_sound_witness :
  let e := example_env in let q := example_serde done_result in let s := example_serde store_default in
  let st := host in_memory "/q" "/r/result" in
  listed_ok st ∧ Store.history (store st) = rev (newest []).
Proof.
  intros e q s st. apply reachable_sound. apply reach_host. apply reach_in_memory.
Defined.

(** All refused requests whose id is not valid share the id [invalid], so once
    one of them is in the history no later one is ever recorded. *)
Lemma invalid_recorded_once {env : Env} {serde : Serde StoreData} {result_serde : Serde ApplyResult}
    ch s w bytes m t r n :
  files w !! apply_result_path s = Some (Regular bytes m t) →
  decode_json bytes = Some r → res_id r = "invalid" →
  (∃ h, h ∈ Store.history (store s) ∧ he_note h = Some n ∧ starts_with "apply invalid" n = true) →
  fst (ingest_apply_result ch s w) = (false, s).
Proof.
  intros Hf Hd Hi (h & Hh & Hn & Hs).
  destruct (ingest_apply_result ch s w) as [[b s'] w'] eqn:E.
  apply ingest_inv in E as [_ E]. destruct b; [|by rewrite E].
  destruct E as (r' & (b' & m' & t' & Hf' & Hd' & _ & Hno) & _).
  rewrite Hf in Hf'. injection Hf' as <- <- <-. rewrite Hd in Hd'. injection Hd' as <-.
  exfalso. unfold already_recorded in Hno.
  assert (existsb (λ h, match he_note h with Some n => starts_with (result_key r) n | None => false end)
    (Store.history (store s)) = true); [|congruence].
  apply existsb_exists. exists h. split; [by apply list_elem_of_In|].
  rewrite Hn. unfold result_key. by rewrite Hi.
Qed.
