(* ===== verification/Server.v ===== *)
(** * aborad: the HTTP layers

    Models [services/aborad/src/server.rs] and [errors.rs]: the routes with the
    permission each declares, the authorization layer in front of every handler,
    and the request-id layer around everything. The web framework ([axum]) only
    dispatches; JSON values belong to [serde_json] and are a parameter. *)

From S2P Require Import Prelude Str World Version Log Types Net Config Tokens Api Auth.

(** ** Requests and responses *)

(** What the layers look at: the method and path, two headers that are text
    (absent, or not valid text, is [None]), the peer address, and the extensions
    earlier layers added. *)
Record Request := mkRequest {
  rq_method : str;
  rq_path : str;
  rq_request_id : option str;
  rq_authorization : option str;
  rq_peer : option IpAddr;
  ext_request_id : option str;
  ext_caller : option Caller;
}.

Record Response := mkResponse {
  rs_status : N;
  rs_content_type : option str;
  rs_request_id : option str;
  rs_total_count : option N;        (* [X-Total-Count] *)
  rs_body : str;
}.

(** [serde_json::Value]: the text it is parsed from and printed to, objects and
    strings. *)
Class Json := {
  jval : Type;
  json_from_slice : str → option jval;
  json_to_vec : jval → option str;
  as_object : jval → option (gmap str jval);
  json_object : gmap str jval → jval;
  json_string : str → jval;
}.
(** Documented behaviour: an object is its members, and printed values are read
    back. *)
Class JsonOk (J : Json) := {
  as_object_object m : as_object (json_object m) = Some m;
  to_vec_total v : is_Some (json_to_vec v);
  from_slice_to_vec v s : json_to_vec v = Some s → json_from_slice s = Some v;
}.

(** ** Request ids *)

Definition request_id_char (c : ascii) : bool :=
  is_ascii_alphanumeric c || bool_decide (c ∈ ("-_.:" : str)).
Definition incoming_request_id (value : str) : bool :=
  negb (bool_decide (value = [])) && (length value <=? 128)%nat && forallb request_id_char value.

Definition hex_lower (bytes : list N) : str :=
  concat ((λ b, [HEX (N.shiftr b 4); HEX (N.land b 15)]) <$> bytes).

(** [u64::to_le_bytes], [u64::rotate_left(32)], [wrapping_mul]. *)
Definition to_le_bytes (n : N) : list N := (λ i, N.land (N.shiftr n (8 * N.of_nat i)) 255) <$> seq 0 8.
Definition rotate_left_32 (n : N) : N := wrap64 (N.lor (N.shiftl n 32) (N.shiftr n 32)).

(** [urandom] is the eight bytes read, if they could be. *)
Definition generate_request_id (urandom : option (list N)) (counter nanos pid : N) : str :=
  match urandom with
  | Some bytes => hex_lower bytes
  | None =>
      let mixed := N.lxor (N.lxor (wrap64 nanos) (rotate_left_32 pid))
                     (wrap64 (counter * 11400714819323198485)) in
      hex_lower (to_le_bytes mixed)
  end.

Section server.
Context {env : Env} {sha : Sha256} {T : TomlValue} {J : Json}.
(** The ids generated at the [n]-th call. *)
Context (fresh_id : nat → str).
(** The body of an error as JSON text. *)
Context (encode_error : ApiErrorBody → str).

(** [Json(body)] with the status of the error's code. *)
Definition error_response (b : ApiErrorBody) : Response :=
  mkResponse (http_status (er_code b)) (Some ("application/json" : str)) None None (encode_error b).
Definition internal_error (msg : str) : ApiErrorBody :=
  error_new Internal (msg ++ " (framework " ++ Version.to_string current ++ ")").

(** ** The request-id layer *)

Definition response_from_bytes (r : Response) (payload : str) : Response :=
  mkResponse (rs_status r) (Some ("application/json" : str)) (rs_request_id r) (rs_total_count r) payload.

(** The member [error] with the id added, when it is an object without one. *)
Definition add_request_id (id : str) (v : jval) : option jval :=
  o ← as_object v;
  e ← o !! ("error" : str);
  eo ← as_object e;
  match eo !! ("request_id" : str) with
  | Some _ => None
  | None => Some (json_object (<[("error" : str) := json_object (<[("request_id" : str) := json_string id]> eo)]> o))
  end.

Definition inject_request_id (r : Response) (id : str) : Response :=
  if negb (match rs_content_type r with Some ct => starts_with "application/json" ct | None => false end)
  then r
  else
    match json_from_slice (rs_body r) with
    | None => response_from_bytes r (rs_body r)
    | Some value =>
        let payload := match add_request_id id value with
                       | Some value => default (rs_body r) (json_to_vec value)
                       | None => rs_body r
                       end in
        response_from_bytes r payload
    end.

Definition accepted_id (req : Request) : option str :=
  v ← rq_request_id req; if incoming_request_id v then Some v else None.

Definition with_id (id : str) (r : Response) : Response :=
  let r := mkResponse (rs_status r) (rs_content_type r) (Some id) (rs_total_count r) (rs_body r) in
  if ((400 <=? rs_status r) && (rs_status r <? 600))%N then inject_request_id r id else r.

Definition draw_id : io str := λ w, (fresh_id (calls w), mkWorld (files w) (S (calls w)) (trace w)).

(** What lies inside the layers answers, and leaves a state of the daemon. *)
Context {A : Type}.

Definition request_id_layer (next : Request → io (Response * A)) (req : Request) : io (Response * A) :=
  id ← match accepted_id req with Some id => mret id | None => draw_id end;
  '(response, a) ← next (mkRequest (rq_method req) (rq_path req) (rq_request_id req)
                     (rq_authorization req) (rq_peer req) (Some id) (ext_caller req));
  mret (with_id id response, a).

(** ** Authorization *)

Definition bearer_value (header : str) : option str :=
  '(scheme, rest) ← split_once " " header;
  if negb (eq_ignore_ascii_case scheme "Bearer") then None
  else
    let token := trim rest in
    if decide (token = []) then None else Some token.

(** What a request is authorized against: the configuration and the loaded
    tokens at that moment. *)
Definition enforced_store (config : Config) (tokens : option TokenStore) : option TokenStore :=
  if require_authentication (security config) then tokens else None.

(** [0.0.0.0], used when the peer is unknown. *)
Definition UNSPECIFIED : IpAddr := V4 [0; 0; 0; 0]%N.

Definition caller_name (store : option TokenStore) (bearer : option str) : option str :=
  s ← store; b ← bearer; tk ← find b s;
  Some (default ("unnamed token" : str) (tk_name tk)).

Definition decide_request (config : Config) (tokens : option TokenStore) (p : Permission) (req : Request)
    : Decision :=
  let peer := default UNSPECIFIED (rq_peer req) in
  let bearer := h ← rq_authorization req; bearer_value h in
  authorize peer p bearer (enforced_store config tokens).

Definition authorize_layer (config : Config) (tokens : option TokenStore) (unchanged : A) (p : Permission)
    (next : Request → io (Response * A)) (req : Request) : io (Response * A) :=
  let bearer := h ← rq_authorization req; bearer_value h in
  let caller := caller_name (enforced_store config tokens) bearer in
  match decide_request config tokens p req with
  | Allowed =>
      next (mkRequest (rq_method req) (rq_path req) (rq_request_id req) (rq_authorization req)
              (rq_peer req) (ext_request_id req)
              (Some (default ("loopback (no token)" : str) caller)))
  | denied =>
      match into_denial denied p with
      | Some body => mret (error_response body, unchanged)
      | None => mret (error_response (internal_error "unexpected authorization failure"), unchanged)
      end
  end.

(** ** Routes *)

Inductive Resource := Health | VersionInfo | System | Services | ServiceByName | ApplyUpdates | Updates.
#[global] Instance Resource_eq_dec : EqDecision Resource.
Proof. solve_decision. Defined.

(** The permission each route is wrapped with, its method and path. *)
Definition route_permission (r : Resource) : Permission :=
  match r with
  | Health => ReadHealth
  | VersionInfo => ReadVersion
  | System => ReadSystem
  | Services | ServiceByName => ReadServices
  | ApplyUpdates => ManageUpdates
  | Updates => ReadUpdates
  end.
Definition route_method (r : Resource) : str := match r with ApplyUpdates => "POST" | _ => "GET" end.
Definition route_path (base_path : str) (r : Resource) : str :=
  endpoint base_path
    match r with
    | Health => "health"
    | VersionInfo => "version"
    | System => "system"
    | Services => "services"
    | ServiceByName => "services/{name}"
    | ApplyUpdates => "updates/apply"
    | Updates => "updates"
    end.

Definition fallback (uri : str) : Response :=
  error_response (error_new CodeNotFound ("no API route matches `" ++ uri ++ "`")).

(** A request dispatched by the router to a resource (or to none). *)
Definition serve (config : Config) (tokens : option TokenStore) (unchanged : A)
    (handler : Resource → Request → io (Response * A)) (target : option Resource)
    : Request → io (Response * A) :=
  request_id_layer (λ req,
    match target with
    | Some r => authorize_layer config tokens unchanged (route_permission r) (handler r) req
    | None => mret (fallback (rq_path req), unchanged)
    end).

End server.

(** ** Lemmas *)

Section lemmas.
Context {env : Env} {sha : Sha256} {T : TomlValue} {J : Json}.
Context (fresh_id : nat → str) (encode_error : ApiErrorBody → str).

Lemma with_id_fields id r :
  rs_request_id (with_id id r) = Some id ∧ rs_status (with_id id r) = rs_status r.
Proof.
  unfold with_id, inject_request_id, response_from_bytes. simpl.
  destruct (_ && _); [|done]. destruct (negb _); [done|]. by destruct (json_from_slice _).
Qed.

(** Whatever the handlers carry along goes through the layers untouched. *)
Lemma serve_map {A B : Type} (g : A → B) c tk u v h k target req w :
  v = g u → (∀ res rq w, k res rq w = let '((r, a), w') := h res rq w in ((r, g a), w')) →
  serve fresh_id encode_error c tk v k target req w
  = let '((r, a), w') := serve fresh_id encode_error c tk u h target req w in ((r, g a), w').
Proof.
  intros -> Hk. unfold serve, request_id_layer, mbind, io_bind.
  set (m := match accepted_id req with Some id => mret id | None => draw_id fresh_id end). destruct (m w) as [id w1]. destruct target as [res|]; [|done].
  unfold authorize_layer. destruct (decide_request _ _ _ _); [|done..].
  rewrite Hk. by destruct (h res _ w1) as [[r a] w2].
Qed.

(** Every request is answered by a layer, or by the handler of a resource it was
    admitted to, under its id and with its caller. *)
Lemma serve_cases {A : Type} c tk (unchanged : A) h target req w r a w' :
  serve fresh_id encode_error c tk unchanged h target req w = ((r, a), w') →
  ∃ id w1, files w1 = files w ∧ trace w1 = trace w ∧ (∀ v, accepted_id req = Some v → id = v)
    ∧ ((a = unchanged ∧ w' = w1 ∧ ∃ body, r = with_id id (error_response encode_error body)
          ∧ match target with
            | Some res => ∃ d, d ≠ Allowed ∧ decide_request c tk (route_permission res) req = d
                               ∧ into_denial d (route_permission res) = Some body
            | None => er_code body = CodeNotFound ∧ er_request_id body = None
            end)
       ∨ ∃ res req' r0, target = Some res
          ∧ decide_request c tk (route_permission res) req = Allowed
          ∧ ext_caller req' = Some (default ("loopback (no token)" : str)
              (caller_name (enforced_store c tk) (h ← rq_authorization req; bearer_value h)))
          ∧ rq_path req' = rq_path req
          ∧ h res req' w1 = ((r0, a), w') ∧ r = with_id id r0).
Proof.
  unfold serve, request_id_layer. intros H. step_in H as id w1 E1.
  step_in H as x w2 E2. destruct x as [r0 a0]. injection H as <- <- <-.
  assert (Hid : files w1 = files w ∧ trace w1 = trace w ∧ ∀ v, accepted_id req = Some v → id = v).
  { destruct (accepted_id req) as [v|].
    - injection E1 as <- <-. split_and!; try done. by intros ? [= <-].
    - by injection E1 as _ <-. }
  destruct Hid as (F1 & T1 & Hid). exists id, w1. split_and!; try done.
  destruct target as [res|].
  - unfold authorize_layer in E2.
    change (decide_request _ _ (route_permission res) (mkRequest _ _ _ _ _ _ _))
      with (decide_request c tk (route_permission res) req) in E2.
    destruct (decide (decide_request c tk (route_permission res) req = Allowed)) as [Hd|Hd].
    + right. rewrite Hd in E2.
      match type of E2 with h res ?q w1 = _ => exists res, q, r0 end. by split_and!.
    + left.
      destruct (decide_request c tk (route_permission res) req); try done;
        injection E2 as <- <- <-; (split; [done|]; split; [done|]; eexists; split; [reflexivity|]; eauto).
  - left. injection E2 as <- <- <-. split; [done|]. split; [done|]. by eexists.
Qed.

Lemma caller_of_mutation config tokens p req :
  decide_request config tokens p req = Allowed → is_mutating p = true →
  ∃ s h b tk, tokens = Some s ∧ require_authentication (security config) = true
    ∧ rq_authorization req = Some h ∧ bearer_value h = Some b ∧ find b s = Some tk
    ∧ ("manage:updates" : str) ∈ tk_permissions tk
    ∧ caller_name (enforced_store config tokens) (h ← rq_authorization req; bearer_value h)
      = Some (default ("unnamed token" : str) (tk_name tk)).
Proof.
  unfold decide_request, enforced_store. intros Hd Hm.
  destruct (mutation_admitted _ _ _ _ Hd Hm) as (s & b & tk & Hs & Hb & Hf & Hp).
  destruct (require_authentication _); [|done]. subst tokens.
  destruct (rq_authorization req) as [h|]; [|done]. simpl in Hb.
  exists s, h, b, tk. split_and!; try done. unfold caller_name. simpl. by rewrite Hb; simpl; rewrite Hf.
Qed.

End lemmas.

(** ** Properties *)

Section properties.
Context {env : Env} {sha : Sha256} {T : TomlValue} {J : Json}.
Context (fresh_id : nat → str) (encode_error : ApiErrorBody → str).

(** C13: no handler runs unadmitted. For every route, either the request is
    denied, the handler does not run, nothing changes, and the answer is the
    denial's 401 or 403 error; or it is admitted and the handler runs exactly
    once, on the request with its id and caller filled in. Applying updates is
    only ever reached with authentication on, a loaded store, and a bearer secret
    of a token that names [manage:updates]; the caller recorded is that token's
    name. *)
Theorem serve_spec {A : Type} config tokens (a : A) handler r req w :
  let p := route_permission r in
  let d := decide_request config tokens p req in
  let run := serve fresh_id encode_error config tokens a handler (Some r) req w in
  ∃ id w1, files w1 = files w ∧ commands w1 = commands w
    ∧ (∀ v, accepted_id req = Some v → id = v)
    ∧ ((d ≠ Allowed ∧ ∃ body, into_denial d p = Some body
          ∧ (http_status (er_code body) = 401%N ∨ http_status (er_code body) = 403%N)
          ∧ run = ((with_id id (error_response encode_error body), a), w1))
       ∨ (d = Allowed ∧ ∃ req', ext_request_id req' = Some id ∧ rq_authorization req' = rq_authorization req
          ∧ run = (let '((resp, a'), w2) := handler r req' w1 in ((with_id id resp, a'), w2))
          ∧ (r = ApplyUpdates → ∃ s b tk, tokens = Some s
               ∧ require_authentication (security config) = true
               ∧ (h ← rq_authorization req; bearer_value h) = Some b ∧ find b s = Some tk
               ∧ ("manage:updates" : str) ∈ tk_permissions tk
               ∧ ext_caller req' = Some (default ("unnamed token" : str) (tk_name tk))))).
Proof.
  intros p d run.
  set (idm := match accepted_id req with Some id => mret id | None => draw_id fresh_id end).
  assert (Hid : ∃ id w1, idm w = (id, w1) ∧ files w1 = files w ∧ commands w1 = commands w
                         ∧ (∀ v, accepted_id req = Some v → id = v)).
  { unfold idm. destruct (accepted_id req) as [v|]; eexists _, _; split_and!; try done. by intros ? [= <-]. }
  destruct Hid as (id & w1 & Hi & Hf & Hc & Hv). exists id, w1.
  split; [done|]. split; [done|]. split; [done|].
  set (req1 := mkRequest (rq_method req) (rq_path req) (rq_request_id req) (rq_authorization req)
                 (rq_peer req) (Some id) (ext_caller req)).
  assert (Hrun : run = (let '((resp, a'), w2) := authorize_layer encode_error config tokens a p (handler r) req1 w1 in
                        ((with_id id resp, a'), w2))).
  { unfold run, serve, request_id_layer. fold idm. unfold mbind, io_bind. rewrite Hi. fold req1.
    by destruct (authorize_layer _ _ _ _ _ _ _ _) as [[resp a'] w2]. }
  rewrite Hrun. clear Hrun. clearbody run. unfold authorize_layer.
  change (decide_request config tokens p req1) with d.
  assert (Hd0 : d = decide_request config tokens p req) by reflexivity. clearbody d.
  destruct (decide (d = Allowed)) as [Hd|Hd].
  - right. split; [done|]. rewrite Hd.
    eexists. split_and!; [| |reflexivity|]; [done|done|]. intros ->.
    destruct (caller_of_mutation config tokens p req (eq_trans (eq_sym Hd0) Hd) eq_refl)
      as (s & h & b & tk & Ht & Ha & Hh & Hb & Hfi & Hp & Hn).
    exists s, b, tk. split_and!; try done; [by rewrite Hh|]. cbn [ext_caller].
    change (rq_authorization req1) with (rq_authorization req). by rewrite Hn.
  - left. split; [done|].
    pose proof (denial_status d p) as Hs.
    destruct (into_denial d p) as [body|] eqn:Eb.
    + exists body. split; [done|]. split.
      * simpl in Hs. destruct d; try done; injection Hs as Hs; simpl in Hs; auto.
      * destruct d; try done; simpl in Eb |- *; by injection Eb as <-.
    + by destruct d.
Qed.

(** Every response carries its request id. The header is the id of the
    request: the caller's own when it has at most 128 letters, digits, [-_.:] and
    at least one, and otherwise a generated one; and the body of every error
    response is a JSON envelope with that id in it. *)
Theorem error_carries_id `{!JsonOk J} (id : str) (b : ApiErrorBody) (m : gmap str jval) (req : Request) :
  json_from_slice (encode_error b) = Some (json_object {[ ("error" : str) := json_object m ]}) →
  m !! ("request_id" : str) = None →
  let r := with_id id (error_response encode_error b) in
  rs_request_id r = Some id ∧ rs_status r = http_status (er_code b)
  ∧ json_from_slice (rs_body r) =
      Some (json_object {[ ("error" : str) := json_object (<[("request_id" : str) := json_string id]> m) ]})
  ∧ ∀ v, accepted_id req = Some v →
      rq_request_id req = Some v ∧ 1 ≤ length v ≤ 128 ∧ forallb request_id_char v = true.
Proof.
  intros He Hm r. destruct (with_id_fields id (error_response encode_error b)) as [H1 H2].
  split; [done|]. split; [done|]. split.
  - unfold r, with_id. cbn [rs_status rs_content_type rs_body error_response].
    assert (((400 <=? http_status (er_code b)) && (http_status (er_code b) <? 600))%N = true) as ->
      by by destruct (er_code b).
    unfold inject_request_id. cbn [rs_content_type rs_body negb].
    change (starts_with "application/json" ("application/json" : str)) with true. cbn [negb].
    rewrite He. unfold add_request_id. rewrite as_object_object. cbn [mbind option_bind].
    rewrite lookup_singleton_eq. cbn [mbind option_bind]. rewrite as_object_object. cbn [mbind option_bind].
    rewrite Hm. rewrite insert_singleton_eq. unfold response_from_bytes. cbn [rs_body].
    destruct (to_vec_total (json_object {[("error" : str) := json_object (<[("request_id" : str) := json_string id]> m)]}))
      as [s Hs].
    rewrite Hs. simpl. by apply from_slice_to_vec.
  - intros v. unfold accepted_id. destruct (rq_request_id req) as [x|]; [|done]. simpl.
    destruct (incoming_request_id x) eqn:E; [|done]. intros [= <-]. split; [done|].
    unfold incoming_request_id in E. bool_norm. split; [|done].
    destruct x; [done|]. simpl in *. lia.
Qed.

End properties.

(** ** Examples *)

(** JSON values as the codes of maps. *)
#[local] Instance example_json : Json := {|
  jval := str;
  json_from_slice s := Some s;
  json_to_vec v := Some v;
  as_object s := p ← of_bits s; decode p;
  json_object m := bits_of (encode m);
  json_string s := s;
|}.
#[local] Instance example_json_ok : JsonOk example_json.
Proof.
  split.
  - intros m. simpl. rewrite of_bits_of. simpl. apply countable.decode_encode.
  - intros v. by eexists.
  - by intros v s [= ->].
Qed.

Definition example_envelope (_ : ApiErrorBody) : str :=
  json_object {[ ("error" : str) := json_object ∅ ]}.

Lemma error_carries_id_witness :
  let r := with_id "abc" (error_response example_envelope (error_new Forbidden "no")) in
  rs_request_id r = Some ("abc" : str) ∧ rs_status r = 403%N.
Proof.
  intros r.
  assert (He : json_from_slice (example_envelope (error_new Forbidden "no"))
    = Some (json_object {[ ("error" : str) := json_object ∅ ]})) by reflexivity.
  destruct (error_carries_id example_envelope "abc" (error_new Forbidden "no") ∅
    (mkRequest "GET" "/" None None None None None) He (lookup_empty _)) as (H1 & H2 & _).
  split; [exact H1|exact H2].
Defined.
