(* ===== verification/AppState.v ===== *)
(** * aborad: the process-wide state

    Models [AppState] of [services/aborad/src/state.rs]: the configuration and
    the token store behind their locks, the logger's threshold, and the update
    state. Times are nanoseconds. *)

From S2P Require Import Prelude Str World Log Types Store Config Tokens Api State.

Record AppState {T : TomlValue} := mkAppState {
  config : Config;
  level_rank : N;
  tokens : option TokenStore;
  started_at : N;
  started_at_rfc3339 : str;
  updates : UpdatesState;
}.
Arguments mkAppState {T}.

Section app.
Context {env : Env} {T : TomlValue}.

Definition with_updates (c : Config) (level : Level) (tk : option TokenStore) (u : UpdatesState)
    : io AppState :=
  text ← rfc3339_now;
  now ← time_now;
  mret (mkAppState c (as_rank level) tk now text u).

Definition set_updates (u : UpdatesState) (s : AppState) : AppState :=
  mkAppState (config s) (level_rank s) (tokens s) (started_at s) (started_at_rfc3339 s) u.
Definition set_config (c : Config) (s : AppState) : AppState :=
  mkAppState c (level_rank s) (tokens s) (started_at s) (started_at_rfc3339 s) (updates s).
Definition set_tokens (tk : option TokenStore) (s : AppState) : AppState :=
  mkAppState (config s) (level_rank s) tk (started_at s) (started_at_rfc3339 s) (updates s).
Definition set_log_level (l : Level) (s : AppState) : AppState :=
  mkAppState (config s) (as_rank l) (tokens s) (started_at s) (started_at_rfc3339 s) (updates s).

Context {serde : Serde StoreData}.

Definition components_health (s : AppState) : list ComponentHealth := [health (updates s)].

Definition uptime_seconds (s : AppState) : io N :=
  now ← time_now; mret ((now - started_at s) / 1000000000)%N.

End app.
