(* ===== verification/Handlers.v ===== *)
(** * aborad: the HTTP handlers

    Models [services/aborad/src/handlers.rs]: each endpoint as a function of the
    state, with the query strings it accepts and the error each failure becomes. *)

From S2P Require Import Prelude Str World Replace Log Version Types Store Host Apply Config Schedule Tokens Api Sysinfo Services Helper State AppState Auth Server.

(** [SystemResponse] of [abora-api]. *)
Record SystemResponse := mkSystemResponse {
  sy_hostname : str;
  sy_description : option str;
  sy_hostname_override : option str;
  sy_architecture : Architecture;
  sy_machine : str;
  sy_uptime_seconds : N;
  sy_os : OsInfo;
  sy_kernel : KernelInfo;
  sy_memory : MemoryInfo;
  sy_cpu : CpuInfo;
  sy_framework_version : Version;
}.

Definition MAX_SERVICE_PAGE : N := 1000.
Definition bad_request (msg : str) : ApiErrorBody := error_new InvalidRequest msg.

(** A query string is the entries of its map, in any order. *)
Definition query := list (str * str).

Definition usize_max : N := u64_max.

Definition query_state (value : str) : result ApiErrorBody ServiceState :=
  if decide (value = ("running" : str)) then Ok Running
  else if decide (value = ("stopped" : str)) then Ok Stopped
  else if decide (value = ("failed" : str)) then Ok Failed
  else if decide (value = ("activating" : str)) then Ok Activating
  else if decide (value = ("deactivating" : str)) then Ok Deactivating
  else if decide (value = ("unknown" : str)) then Ok Unknown
  else Err (bad_request ("`state` must be one of running, stopped, failed, activating, deactivating, unknown (got `"
                         ++ value ++ "`)")).

Definition query_bool (name value : str) : result ApiErrorBody bool :=
  if decide (value = ("true" : str)) then Ok true
  else if decide (value = ("false" : str)) then Ok false
  else Err (bad_request ("`" ++ name ++ "` must be true or false (got `" ++ value ++ "`)")).

(** One parameter of the service list. *)
Definition query_param (q : ServiceQuery) (kv : str * str) : result ApiErrorBody ServiceQuery :=
  let '(key, value) := kv in
  if decide (key = ("state" : str)) then
    s ← query_state value; Ok (mkQuery (Some s) (q_enabled q) (q_text q) (q_limit q) (q_offset q))
  else if decide (key = ("enabled" : str)) then
    b ← query_bool "enabled" value;
    Ok (mkQuery (q_state q) (Some b) (q_text q) (q_limit q) (q_offset q))
  else if decide (key = ("q" : str)) then
    Ok (if bool_decide (value = []) then q
        else mkQuery (q_state q) (q_enabled q) (Some value) (q_limit q) (q_offset q))
  else if decide (key = ("limit" : str)) then
    match parse_uint usize_max value with
    | Some n =>
        if ((1 <=? n) && (n <=? MAX_SERVICE_PAGE))%N
        then Ok (mkQuery (q_state q) (q_enabled q) (q_text q) (Some n) (q_offset q))
        else Err (bad_request ("`limit` must be a number from 1 to " ++ dec MAX_SERVICE_PAGE))
    | None => Err (bad_request ("`limit` must be a number from 1 to " ++ dec MAX_SERVICE_PAGE))
    end
  else if decide (key = ("offset" : str)) then
    n ← ok_or (bad_request "`offset` must be a non-negative number") (parse_uint usize_max value);
    Ok (mkQuery (q_state q) (q_enabled q) (q_text q) (q_limit q) n)
  else Err (bad_request ("unknown query parameter `" ++ key ++ "`")).

Fixpoint query_params (q : ServiceQuery) (params : query) : result ApiErrorBody ServiceQuery :=
  match params with
  | [] => Ok q
  | kv :: rest => q ← query_param q kv; query_params q rest
  end.
Definition parse_service_query (params : query) : result ApiErrorBody ServiceQuery :=
  query_params query_default params.

Definition services_unavailable (e : ServicesError) : ApiErrorBody :=
  error_new ServiceUnavailable ("could not query the service registry: " ++ services_error_to_string e).

(** The flag of the apply endpoint. *)
Fixpoint dry_run_of (acc : bool) (params : query) : result ApiErrorBody bool :=
  match params with
  | [] => Ok acc
  | (key, value) :: rest =>
      if decide (key = ("dry_run" : str)) then
        b ← query_bool "dry_run" value; dry_run_of b rest
      else Err (bad_request ("unknown query parameter `" ++ key ++ "`"))
  end.

Section handlers.
Context {env : Env} {T : TomlValue} {serde : Serde StoreData}.
Context {request_serde : Serde ApplyRequest}.
Context (random_hash : nat → str → N).
Context {F : Type} (parse_f64 : str → option F) (is_finite is_negative : F → bool)
        (from_secs_f64 : F → outcome N) (ARCH : str).
(** [option_env!("ABORA_BUILD_COMMIT")]. *)
Context (BUILD_COMMIT : option str).

Definition health (s : AppState) : io HealthResponse :=
  let components := components_health s in
  let st := if existsb (λ c, bool_decide (ch_status c = Degraded)) components
            then Degraded else HealthOk in
  up ← uptime_seconds s;
  mret (mkHealthResponse st (mkDaemon DAEMON_NAME current) api_current up (started_at_rfc3339 s) components).

Definition version : VersionResponse :=
  mkVersionResponse FRAMEWORK_NAME current (mkDaemon DAEMON_NAME current) api_current BUILD_COMMIT.

Definition system_response (c : Config) (info : SystemInfo) : SystemResponse :=
  let over := Config.hostname (Config.system c) in
  mkSystemResponse (default (Sysinfo.hostname info) over) (description (Config.system c)) over
    (architecture info) (machine info) (uptime info / 1000000000)%N (os info) (kernel info)
    (memory info) (cpu info) current.

Definition system (s : AppState) : io (outcome (result ApiErrorBody SystemResponse)) :=
  info ← Sysinfo.collect parse_f64 is_finite is_negative from_secs_f64 ARCH;
  mret (match info with
        | Panic => Panic
        | Ret (Err e) => Ret (Err (internal_error ("could not collect system information: " ++ sys_error_to_string e)))
        | Ret (Ok info) => Ret (Ok (system_response (config s) info))
        end).

(** The total in [X-Total-Count], and the page. *)
Definition services (params : query) : io (result ApiErrorBody (nat * list ServiceStatus)) :=
  match parse_service_query params with
  | Err e => mret (Err e)
  | Ok q =>
      units ← Services.collect;
      mret (match units with
            | Err e => Err (services_unavailable e)
            | Ok units => Ok (total_matching q units, Services.apply q units)
            end)
  end.

Definition service_detail (name : str) : io (result ApiErrorBody ServiceDetail) :=
  if negb (validate_unit_name name)
  then mret (Err (bad_request "the service name must be a unit name ending in `.service`"))
  else
    d ← Services.detail name;
    mret (match d with
          | Ok d => Ok d
          | Err (UnitNotFound n) => Err (error_new CodeNotFound ("no such service: " ++ n))
          | Err e => Err (services_unavailable e)
          end).

Definition updates (s : AppState) : io (UpdatesResponse * AppState) :=
  '(r, u) ← State.response (AppState.updates s);
  mret (r, set_updates u s).

(** The status and body, or the error. *)
Definition apply_updates (caller : option Caller) (params : query) (s : AppState)
    : io (result ApiErrorBody (N * ApplyResponse)) :=
  match dry_run_of false params with
  | Err e => mret (Err e)
  | Ok dry_run =>
      let caller := default ("unknown" : str) caller in
      r ← request_apply random_hash (config s) caller dry_run (AppState.updates s);
      mret (match r with
            | Ok response => Ok (if (dry_run : bool) then 200%N else 202%N, response)
            | Err (RefusedConflict reason) => Err (error_new CodeConflict reason)
            | Err (RefusedInternal _) =>
                Err (error_new Internal "could not hand the request to the update helper")
            end)
  end.

End handlers.

(** ** Lemmas *)

Definition state_text (s : ServiceState) : str :=
  match s with
  | Running => "running" | Stopped => "stopped" | Failed => "failed"
  | Activating => "activating" | Deactivating => "deactivating" | Unknown => "unknown"
  end.
Definition bool_text (b : bool) : str := if b then "true" else "false".

(** A query as its parameters. *)
Definition params_of (q : ServiceQuery) : query :=
  match q_state q with Some s => [("state" : str, state_text s)] | None => [] end
  ++ match q_enabled q with Some b => [("enabled" : str, bool_text b)] | None => [] end
  ++ match q_text q with Some t => [("q" : str, t)] | None => [] end
  ++ match q_limit q with Some n => [("limit" : str, dec n)] | None => [] end
  ++ [("offset" : str, dec (q_offset q))].

Definition known_keys : list str :=
  ["state" : str; "enabled" : str; "q" : str; "limit" : str; "offset" : str].

Lemma query_param_known q kv q' : query_param q kv = Ok q' → fst kv ∈ known_keys.
Proof.
  destruct kv as [k v]. unfold query_param, known_keys. rewrite !elem_of_cons, elem_of_nil. simpl.
  repeat case_decide; auto 10. done.
Qed.

Lemma query_params_known q params q' :
  query_params q params = Ok q' → ∀ kv, kv ∈ params → fst kv ∈ known_keys.
Proof.
  revert q. induction params as [|p params IH]; intros q; simpl; [by intros _ kv ?%elem_of_nil|].
  destruct (query_param q p) as [q1|e] eqn:E; [|done]. simpl.
  intros H kv [->|Hkv]%elem_of_cons; [by eapply query_param_known|by eapply IH].
Qed.

Lemma query_state_error v e : query_state v = Err e → ∃ msg, e = bad_request msg.
Proof. unfold query_state. repeat (case_decide; [done|]). intros [= <-]. eauto. Qed.
Lemma query_bool_error n v e : query_bool n v = Err e → ∃ msg, e = bad_request msg.
Proof. unfold query_bool. repeat (case_decide; [done|]). intros [= <-]. eauto. Qed.

Lemma query_param_error q kv e : query_param q kv = Err e → ∃ msg, e = bad_request msg.
Proof.
  destruct kv as [k v]. unfold query_param.
  case_decide; [|case_decide; [|case_decide; [done|case_decide; [|case_decide]]]].
  - destruct (query_state v) eqn:E; [done|]. intros [= <-]. by eapply query_state_error.
  - destruct (query_bool _ v) eqn:E; [done|]. intros [= <-]. by eapply query_bool_error.
  - destruct (parse_uint _ _); [destruct (_ && _); [done|]|]; intros [= <-]; eauto.
  - destruct (parse_uint _ _); [done|]. intros [= <-]; eauto.
  - intros [= <-]; eauto.
Qed.

Lemma query_params_error q params e : query_params q params = Err e → ∃ msg, e = bad_request msg.
Proof.
  revert q. induction params as [|p params IH]; intros q; simpl; [done|].
  destruct (query_param q p) as [q1|e1] eqn:E; simpl; [apply IH|].
  intros [= <-]. by eapply query_param_error.
Qed.

Lemma dry_run_error b params e : dry_run_of b params = Err e → ∃ msg, e = bad_request msg.
Proof.
  revert b. induction params as [|[k v] params IH]; intros b; simpl; [done|].
  case_decide; [|intros [= <-]; eauto].
  destruct (query_bool _ v) as [b1|e1] eqn:E; simpl; [apply IH|].
  intros [= <-]. by eapply query_bool_error.
Qed.

(** ** Properties *)

(** The service query string is read back: a query printed as parameters
    parses to that query, when its text is not empty, its limit a page size and
    its offset a machine integer. A parameter nobody defined is never ignored: an
    unknown key anywhere makes the parse fail, and every failure is a 400. *)
Theorem service_query_round_trip (q : ServiceQuery) (params : query) :
  q_text q ≠ Some [] →
  (∀ n, q_limit q = Some n → 1 ≤ n ≤ MAX_SERVICE_PAGE)%N →
  (q_offset q ≤ usize_max)%N →
  parse_service_query (params_of q) = Ok q
  ∧ (∀ kv, kv ∈ params → fst kv ∉ known_keys →
       ∃ e, parse_service_query params = Err e ∧ http_status (er_code e) = 400%N).
Proof.
  intros Ht Hl Ho. split.
  - destruct q as [st en tx li off]. simpl in *. unfold parse_service_query, params_of. simpl.
    assert (Hoff : parse_uint usize_max (dec off) = Some off) by by apply parse_uint_dec.
    assert (Htx : ∀ t, tx = Some t → t ≠ []) by by intros t -> ->.
    assert (Hli : ∀ n, li = Some n → parse_uint usize_max (dec n) = Some n
              ∧ ((1 <=? n) && (n <=? MAX_SERVICE_PAGE))%N = true).
    { intros n Hn. specialize (Hl n Hn). split.
      - apply parse_uint_dec. unfold MAX_SERVICE_PAGE, usize_max, u64_max in *. lia.
      - apply andb_true_iff. rewrite !N.leb_le. done. }
    destruct li as [n|]; [destruct (Hli n eq_refl) as [Hn1 Hn2]|];
      destruct tx as [t|]; [pose proof (Htx t eq_refl)| |pose proof (Htx t eq_refl)|];
      destruct en as [[]|], st as [[]|]; simpl; rewrite ?(bool_decide_eq_false_2 (t = [])) by done; simpl;
      rewrite ?Hn1; cbn [negb]; rewrite ?Hn2; simpl; by rewrite Hoff.
  - intros kv Hkv Hn. destruct (parse_service_query params) as [q'|e] eqn:E.
    + destruct Hn. by eapply query_params_known.
    + exists e. split; [done|]. by destruct (query_params_error _ _ _ E) as [msg ->].
Qed.
Lemma service_query_round_trip_witness :
  parse_service_query [("state" : str, "failed" : str); ("limit" : str, "10" : str); ("offset" : str, "20" : str)]
  = Ok (mkQuery (Some Failed) None None (Some 10%N) 20).
Proof.
  apply (service_query_round_trip (mkQuery (Some Failed) None None (Some 10%N) 20) []).
  - done.
  - intros n [= <-]. vm_compute. split; discriminate.
  - vm_compute. discriminate.
Defined.

Section properties.
Context {env : Env} {T : TomlValue} {serde : Serde StoreData} {request_serde : Serde ApplyRequest}.
Context (random_hash : nat → str → N).

(** The apply endpoint's answers mean what they say. 202 is answered only
    when the request file has been written for the caller, at a permitted time,
    with the packages in the answer; 200 only for a dry run, and then, as for
    every error (400, 409 or 500), the request file is as it was; a bad parameter
    is a 400 before anything runs. *)
Theorem apply_endpoint_spec caller params s w r w' :
  not_link (command_effect (calls w) "date" ["+%u %H:%M" : str] (files w))
    (tmp_path (apply_request_file (AppState.updates s))) →
  apply_updates random_hash caller params s w = (r, w') →
  let u := AppState.updates s in
  match r with
  | Ok (status, a) =>
      commands w' = DATE :: commands w ∧ ap_packages a = wanted u ∧
      if (status =? 202)%N
      then requested (config s) (default ("unknown" : str) caller) u a w w'
      else status = 200%N ∧ ap_id a = None
           ∧ files w' !! apply_request_file u = request_node u w
  | Err e =>
      (http_status (er_code e) = 400%N ∧ w' = w)
      ∨ ((http_status (er_code e) = 409%N ∨ http_status (er_code e) = 500%N)
         ∧ commands w' = DATE :: commands w
         ∧ files w' !! apply_request_file u = request_node u w)
  end.
Proof.
  intros Hl H u. unfold apply_updates in H.
  destruct (dry_run_of false params) as [dry|e] eqn:Ed.
  - step_in H as x w1 E. apply request_apply_inv in E as [Hc Hr]; [|done].
    destruct x as [a|[reason|m]]; injection H as <- <-.
    + split; [done|]. destruct (ap_dry_run a).
      * destruct Hr as (-> & Hf & Hi & Hp). by split_and!.
      * destruct Hr as (-> & Hr). split; [|done]. by destruct Hr as (? & ? & ? & ? & ? & ? & Hp & _).
    + right. destruct Hr as [_ Hf]. split_and!; auto.
    + right. destruct Hr as [_ Hf]. split_and!; auto.
  - injection H as <- <-. left. split; [|done]. by destruct (dry_run_error _ _ _ Ed) as [msg ->].
Qed.

End properties.

Lemma apply_endpoint_spec_witness :
  let e := example_env in let q := request_codec in
  let s := mkAppState example_config 0 None 0 "t" example_state in
  let run := apply_updates (λ _ _, 7%N) (Some ("op" : str)) [("dry_run" : str, "maybe" : str)] s empty_world in
  http_status match fst run with Err e => er_code e | Ok _ => Internal end = 400%N.
Proof.
  intros e q s run.
  pose proof (apply_endpoint_spec (λ _ _, 7%N) (Some ("op" : str)) [("dry_run" : str, "maybe" : str)] s
    empty_world (fst run) (snd run)) as H.
  destruct H as [[H _]|[[H|H] _]].
  - intros t. vm_compute. discriminate.
  - apply surjective_pairing.
  - exact H.
  - vm_compute in H. discriminate H.
  - vm_compute in H. discriminate H.
Defined.
