(* ===== verification/Scheduler.v ===== *)
(** * aborad: the update scheduler

    Models [services/aborad/src/scheduler.rs]: one pass of the endless loop, as a
    function of what the loop remembers and the daemon's state. A pass sees one
    snapshot of the configuration; the pause of [TICK] between passes is left to
    the clock. *)

From S2P Require Import Prelude Str World Log Version Types Store Host Apply Config Schedule Tokens Api Helper State AppState.

(** 30 seconds. *)
Definition TICK : N := from_secs 30.

(** The loop's variables; instants are nanoseconds. *)
Record SchedulerState := mkScheduler {
  last_attempt : option N;
  last_ok : bool;
  previous : option Permissions;
  last_auto_attempt : option N;
}.
Definition scheduler_start : SchedulerState := mkScheduler None true None None.

Definition AUTOMATIC : str := "automatic (scheduler)".

Section scheduler.
Context {env : Env} {T : TomlValue} {serde : Serde StoreData}.
Context {request_serde : Serde ApplyRequest} {result_serde : Serde ApplyResult}.
Context (random_hash : nat → str → N).

Definition schedule_info (interval : N) (p : Permissions) : ScheduleInfo :=
  mkSchedule (interval / 1000000000)%N (in_maintenance_window p) (apply_permitted p)
    (installs_permitted p) (reboot_permitted p).

(** [t.elapsed()]. *)
Definition elapsed (t : N) : io N := now ← time_now; mret (now - t)%N.

(** The check, when it is due. *)
Definition check_phase (interval : N) (ch : Channel) (last : option N) (was_ok : bool)
    (u : UpdatesState) : io (option N * bool * UpdatesState) :=
  due ← match last with
        | None => mret true
        | Some t => e ← elapsed t; mret (check_is_due e was_ok interval)
        end;
  if (due : bool) then
    now ← time_now;
    '(r, u) ← refresh ch u;
    mret (Some now, is_ok r, u)
  else mret (last, was_ok, u).

(** The automatic apply; the answer of [request_apply] when it was asked. *)
Definition auto_phase (cfg : Config) (perms : Permissions) (interval : N) (last : option N)
    (u : UpdatesState) : io (option N * option (result ApplyRefusal ApplyResponse)) :=
  '(has_available, pending) ← apply_inputs u;
  since ← match last with
          | Some t => e ← elapsed t; mret (Some e)
          | None => mret None
          end;
  if should_auto_apply perms has_available pending since interval then
    now ← time_now;
    r ← request_apply random_hash cfg AUTOMATIC false u;
    mret (Some now, Some r)
  else mret (last, None).

(** One pass. *)
Definition pass (st : SchedulerState) (s : AppState)
    : io (SchedulerState * AppState * option (result ApplyRefusal ApplyResponse)) :=
  let cfg := config s in
  let interval := check_interval_of cfg in
  let ch := channel (Config.updates cfg) in
  now ← local_time;
  let perms := permissions cfg now in
  let u := set_schedule (schedule_info interval perms) (updates s) in
  '(ingested, u) ← ingest_apply_result ch u;
  let last := if (ingested : bool) then None else last_attempt st in
  '(last, ok, u) ← check_phase interval ch last (last_ok st) u;
  '(last_auto, asked) ← auto_phase cfg perms interval (last_auto_attempt st) u;
  mret (mkScheduler last ok (Some perms) last_auto, set_updates u s, asked).

(** ** Lemmas *)

Lemma elapsed_inv t w e w1 : elapsed t w = (e, w1) → e = (system_time (calls w) - t)%N
  ∧ files w1 = files w ∧ commands w1 = commands w.
Proof. unfold elapsed. intros H. step_in H as n w2 E. injection E as <- <-. by injection H as <- <-. Qed.

Lemma auto_phase_inv cfg perms interval last u w last' asked w' :
  auto_phase cfg perms interval last u w = ((last', asked), w') →
  match asked with
  | None => last' = last ∧ commands w' = commands w ∧ files w' = files w
  | Some r => installs_permitted perms = true ∧ available u ≠ []
      ∧ (∃ n, last' = Some (system_time n) ∧ ∀ t, last = Some t →
           ∃ m, (interval ≤ system_time m - t)%N)
      ∧ ∃ w1, files w1 = files w ∧ commands w1 = commands w
          ∧ request_apply random_hash cfg AUTOMATIC false u w1 = (r, w')
  end.
Proof.
  unfold auto_phase. intros H. step_in H as x w1 E1. destruct x as [has pending].
  assert (Hin : has = negb (bool_decide (available u = [])) ∧ files w1 = files w ∧ commands w1 = commands w).
  { unfold apply_inputs in E1. step_in E1 as b w2 E2. injection E1 as <- <- <-. split; [done|].
    apply readonly_inv in E2; [done|apply readonly_pending]. }
  destruct Hin as (-> & F1 & C1). step_in H as since w2 E2.
  assert (Hs : files w2 = files w1 ∧ commands w2 = commands w1
    ∧ match last with Some t => ∃ m, since = Some (system_time m - t)%N | None => since = None end).
  { destruct last as [t|]; [|by injection E2 as <- <-]. step_in E2 as e w3 E3.
    apply elapsed_inv in E3 as (-> & ? & ?). injection E2 as <- <-. eauto. }
  destruct Hs as (F2 & C2 & Hs). destruct (should_auto_apply _ _ _ _ _) eqn:Ea.
  - step_in H as now w3 E3. injection E3 as <- <-. step_in H as r w4 E4. injection H as <- <- <-.
    unfold should_auto_apply in Ea. bool_norm. split; [done|]. split; [done|]. split.
    + exists (calls w2). split; [done|]. intros t ->. destruct Hs as [m ->]. bool_norm. eauto.
    + eexists. split; [|split; [|exact E4]]; [simpl; congruence|].
      change (commands w2 = commands w). congruence.
  - injection H as <- <- <-. split_and!; congruence.
Qed.

Lemma check_phase_inv interval ch last was u w last' ok u' w' :
  check_phase interval ch last was u w = ((last', ok, u'), w') →
  (last' = last ∧ ok = was ∧ u' = u ∧ commands w' = commands w
   ∧ ∃ t m, last = Some t ∧ check_is_due (system_time m - t) was interval = false)
  ∨ (commands w' = ("apt-get" : str, SIMULATE) :: commands w
     ∧ (∃ n, last' = Some (system_time n))
     ∧ (∀ t, last = Some t → ∃ m, check_is_due (system_time m - t) was interval = true)
     ∧ ∃ w1 r, refresh ch u w1 = ((r, u'), w') ∧ ok = is_ok r).
Proof.
  unfold check_phase. intros H. step_in H as due w1 E1.
  assert (Hd : files w1 = files w ∧ commands w1 = commands w
    ∧ match last with Some t => ∃ m, due = check_is_due (system_time m - t) was interval | None => due = true end).
  { destruct last as [t|]; [|by injection E1 as <- <-]. step_in E1 as e w3 E3.
    apply elapsed_inv in E3 as (-> & ? & ?). injection E1 as <- <-. eauto. }
  destruct Hd as (_ & C1 & Hd). destruct due.
  - right. step_in H as now w2 E2. injection E2 as <- <-. step_in H as x w3 E3. destruct x as [r u1].
    injection H as <- <- <- <-. split; [|split; [|split]].
    + pose proof E3 as E4. unfold refresh in E4. step_in E4 as y w4 E5. destruct y as [rc p].
      apply check_spec in E5 as [C5 _].
      assert (w4 = w3) as -> by (destruct rc; by injection E4). rewrite C5. f_equal. exact C1.
    + by eexists.
    + intros t ->. destruct Hd as [m Hm]. by exists m.
    + by eexists _, _.
  - left. injection H as <- <- <- <-. destruct last as [t|]; [|done]. destruct Hd as [m Hm].
    split_and!; try done. by exists t, m.
Qed.

Lemma ingest_schedule ch u w b u' w' :
  ingest_apply_result ch u w = ((b, u'), w') → schedule u' = schedule u.
Proof.
  unfold ingest_apply_result. intros H. step_in H as bytes w1 E1.
  destruct bytes as [bytes|e]; [|by injection H as <- <- <-].
  destruct (decode_json bytes); [|by injection H as <- <- <-].
  destruct (negb _ && _); [by injection H as <- <- <-|].
  destruct (already_recorded _ _); [by injection H as <- <- <-|].
  unfold record_result in H. step_in H as x w2 E2. destruct x as [rec st].
  injection H as <- <- <-. by destruct (is_ok rec && _).
Qed.

Lemma check_phase_schedule interval ch last was u w last' ok u' w' :
  check_phase interval ch last was u w = ((last', ok, u'), w') → schedule u' = schedule u.
Proof.
  unfold check_phase. intros H. step_in H as due w1 E1. destruct due; [|by injection H as <- <- <- <-].
  step_in H as now w2 E2. step_in H as x w3 E3. destruct x as [r u1]. injection H as <- <- <- <-.
  unfold refresh in E3. step_in E3 as y w4 E4. destruct y as [rc p].
  by destruct rc; injection E3 as <- <- <-.
Qed.

(** ** Properties *)

(** What one pass of the scheduler does, when nothing comes between its steps ([Passes]). It publishes the policy of the
    time it read. Besides [date] it runs the [apt-get] simulation only when a check
    is due, and asks for an install only on its own behalf, through the same
    guarded request as a caller's, when policy installs, something is listed, and
    the last automatic attempt is at least one interval ago; the new attempt's
    time is then remembered. *)
Theorem pass_spec st s w st' s' asked w' :
  pass st s w = ((st', s', asked), w') →
  let interval := check_interval_of (config s) in
  config s' = config s
  ∧ (∃ t, previous st' = Some (permissions (config s) t)
     ∧ schedule (updates s') = Some (schedule_info interval (permissions (config s) t))
     ∧ match asked with
       | None => last_auto_attempt st' = last_auto_attempt st
       | Some r => installs_permitted (permissions (config s) t) = true
           ∧ available (updates s') ≠ []
           ∧ (∃ n, last_auto_attempt st' = Some (system_time n))
           ∧ (∀ a, last_auto_attempt st = Some a → ∃ m, (interval ≤ system_time m - a)%N)
           ∧ ∃ w1, request_apply random_hash (config s) AUTOMATIC false (updates s') w1 = (r, w')
       end)
  ∧ (asked = None → commands w' = DATE :: commands w
                    ∨ commands w' = ("apt-get" : str, SIMULATE) :: DATE :: commands w).
Proof.
  intros H interval. unfold pass in H. step_in H as t w1 E1. apply local_time_inv in E1.
  step_in H as x w2 E2. destruct x as [ingested u1].
  pose proof (ingest_schedule _ _ _ _ _ _ E2) as S1.
  apply ingest_inv in E2 as [C2 _]. step_in H as y w3 E3. destruct y as [[last ok] u2].
  pose proof (check_phase_schedule _ _ _ _ _ _ _ _ _ _ E3) as S2.
  apply check_phase_inv in E3. step_in H as z w4 E4. destruct z as [la ask].
  apply auto_phase_inv in E4. injection H as <- <- <- <-.
  split; [done|]. split.
  - exists t. split; [done|]. split; [simpl; by rewrite S2, S1|]. simpl.
    destruct ask as [r|]; [|by destruct E4 as [-> _]].
    destruct E4 as (Hi & Ha & (n & -> & Hla) & w5 & _ & _ & Hr). split_and!; eauto.
  - intros ->. destruct E4 as (_ & -> & _).
    destruct E3 as [(_ & _ & _ & -> & _)|(-> & _)]; rewrite C2, E1; auto.
Qed.

End scheduler.

Lemma pass_spec_witness :
  let e := example_env in let q := request_codec in let r := example_serde done_result in
  let d := example_serde store_default in
  let s := mkAppState example_config 0 None 0 "t" example_state in
  let run := pass (λ _ _, 7%N) scheduler_start s empty_world in
  config (snd (fst (fst run))) = example_config.
Proof.
  intros e q r d s run.
  apply (pass_spec (λ _ _, 7%N) scheduler_start s empty_world (fst (fst (fst run)))
    (snd (fst (fst run))) (snd (fst run)) (snd run)).
  unfold run. by destruct (pass _ _ _ _) as [[[] ?] ?].
Defined.
