(* ===== verification/Reload.v ===== *)
(** * aborad: reloading the configuration

    Models [services/aborad/src/reload.rs]: re-reading the file, what is applied
    at once and what needs a restart, the token store, and the list of changes.
    The records to be logged are returned with their levels. *)

From S2P Require Import Prelude Str World Log Types Config Tokens Helper State AppState.

Inductive ReloadSource := File (path : str) | Builtin.
Definition file_path (s : ReloadSource) : option str :=
  match s with File p => Some p | Builtin => None end.

(** A record for the log. *)
Definition note : Type := Level * str.

Section changes.
Context {T : TomlValue}.

Definition policy_debug (p : RebootPolicy) : str :=
  match p with Ask => "Ask" | Always => "Always" | Never => "Never" end.

(** One entry when [a] and [b] differ. *)
Definition changed {A : Type} `{EqDecision A} (a b : A) (text : str) : list str :=
  if decide (a = b) then [] else [text].

Definition changed_settings (p f : Config) : list str :=
  changed (hostname (system p)) (hostname (system f))
    ("[system] hostname = " ++ default ("-" : str) (hostname (system f)))
  ++ changed (description (system p)) (description (system f)) ("system description changed" : str)
  ++ changed (channel (Config.updates p)) (channel (Config.updates f))
       ("[updates] channel = " ++ channel_to_string (channel (Config.updates f)))
  ++ changed (automatic (Config.updates p)) (automatic (Config.updates f))
       ("[updates] automatic = " ++ bool_to_string (automatic (Config.updates f)))
  ++ changed (check_interval (Config.updates p)) (check_interval (Config.updates f))
       ("[updates] check_interval = " ++ check_interval (Config.updates f))
  ++ changed (reboot_policy (Config.updates p)) (reboot_policy (Config.updates f))
       ("[updates] reboot_policy = " ++ policy_debug (reboot_policy (Config.updates f)))
  ++ changed (m_enabled (maintenance p)) (m_enabled (maintenance f))
       ("[maintenance] enabled = " ++ bool_to_string (m_enabled (maintenance f)))
  ++ changed (windows (maintenance p)) (windows (maintenance f))
       ("[maintenance] " ++ dec_nat (length (windows (maintenance f))) ++ " window(s)")
  ++ changed (require_authentication (security p)) (require_authentication (security f))
       ("[security] require_authentication = " ++ bool_to_string (require_authentication (security f)))
  ++ changed (token_file (security p)) (token_file (security f))
       ("[security] token_file = " ++ default ("unset" : str) (token_file (security f)))
  ++ changed (log_level (logging p)) (log_level (logging f))
       ("[logging] level = " ++ level_to_string (log_level (logging f)))
  ++ changed (max_payload_bytes (api p)) (max_payload_bytes (api f))
       ("[api] max_payload_bytes = " ++ dec (max_payload_bytes (api f)))
  ++ changed (request_timeout_secs (api p)) (request_timeout_secs (api f))
       ("[api] request_timeout_secs = " ++ dec (request_timeout_secs (api f))).

Definition restart_required (p f : Config) : list str :=
  changed (listen_addr (remote p)) (listen_addr (remote f))
    ("[remote] listen_addr " ++ listen_addr (remote p) ++ " -> " ++ listen_addr (remote f)
     ++ " (restart required)")
  ++ changed (base_path (api p)) (base_path (api f))
       ("[api] base_path " ++ base_path (api p) ++ " -> " ++ base_path (api f) ++ " (restart required)")
  ++ changed (log_format (logging p)) (log_format (logging f)) ("log format change requires a restart" : str).

End changes.

Section reload.
Context {env : Env} {T : TomlValue} {toml : ConfigToml} {token_toml : TokenToml}.

(** The state after a reload, the records, and whether the thread panicked on
    the way (which leaves what was already done). *)
Record Reloaded := mkReloaded { after : AppState; notes : list note; panicked : bool }.

Definition reload_note (l : Level) (text : str) : note := (l, "config reload: " ++ text).

Definition loaded_note (path : str) (size : nat) (previous_not_empty : bool) : str :=
  if (size =? 0)%nat then "token file contains no tokens; all requests will be rejected with 401"
  else if previous_not_empty then dec_nat size ++ " token(s) reloaded from " ++ path
  else "token authentication enabled (" ++ dec_nat size ++ " token(s) from " ++ path ++ ")".

Definition refresh_tokens (s : AppState) : io Reloaded :=
  let previous_not_empty := match tokens s with Some st => negb (is_empty st) | None => false end in
  match token_file (security (config s)) with
  | None =>
      mret (match tokens s with
            | Some _ => mkReloaded (set_tokens None s)
                [reload_note Info "token authentication disabled (no token_file)"] false
            | None => mkReloaded s [] false
            end)
  | Some path =>
      r ← Tokens.load path;
      mret (match r with
            | Panic => mkReloaded s [] true
            | Ret (Ok st) => mkReloaded (set_tokens (Some st) s)
                [reload_note Info (loaded_note path (len st) previous_not_empty)] false
            | Ret (Err e) => mkReloaded s
                [reload_note Warn ("token file " ++ path ++ " could not be loaded ("
                   ++ token_error_to_string e ++ "); keeping the previous token store")] false
            end)
  end.

(** The fresh configuration in place of the previous one; the token store is
    still the previous one. *)
Definition level_changed (previous fresh : Config) : bool :=
  negb (bool_decide (log_level (logging previous) = log_level (logging fresh))).
Definition swap_config (fresh : Config) (s : AppState) : AppState :=
  set_config fresh (if level_changed (config s) fresh then set_log_level (log_level (logging fresh)) s else s).

Definition apply_reload (fresh : Config) (s : AppState) : io Reloaded :=
  let previous := config s in
  let restart := restart_required previous fresh in
  let changes := changed_settings previous fresh in
  r ← refresh_tokens (swap_config fresh s);
  if panicked r then mret r
  else
    mret (mkReloaded (after r)
      (notes r ++
       if bool_decide (changes = []) && bool_decide (restart = [])
       then [(Info, "config reload applied; configuration unchanged" : str)]
       else (reload_note Info <$> changes) ++ (reload_note Warn <$> restart)
            ++ [(Info, "config reload applied (log level "
                       ++ level_to_string (log_level (logging fresh))
                       ++ (if level_changed previous fresh then " changed" else " unchanged") ++ ")")])
      false).

Definition reload (s : AppState) (source : ReloadSource) : io Reloaded :=
  match source with
  | Builtin => mret (mkReloaded s
      [(Info, "config reload requested but no configuration file exists (compiled-in defaults in use)" : str)] false)
  | File path =>
      fresh ← Config.load path;
      match fresh with
      | Ok fresh => apply_reload fresh s
      | Err e => mret (mkReloaded s
          [(Warn, "config reload from " ++ path ++ " failed: " ++ config_error_to_string e
                  ++ "; keeping the previous configuration")] false)
      end
  end.

(** ** Watching

    [signal_and_watch_loop] of [main.rs]. *)

(** Modification time and length; only files have one here. *)
Definition fingerprint (path : str) : io (option (N * N)) :=
  m ← metadata path;
  mret (match m with
        | Ok (Regular bytes _ mtime) => Some (mtime, N.of_nat (length bytes))
        | _ => None
        end).
Definition fingerprint_opt (path : option str) : io (option (N * N)) :=
  match path with Some p => fingerprint p | None => mret None end.

Record Watch := mkWatch { config_seen : option (N * N); token_seen : option (N * N) }.

(** What wakes the loop. A delivered [SIGHUP] is received, and then its branch
    waits forever ([pending().await]): it never completes. *)
Inductive wake := CtrlC | Terminate | Hangup | WatchTick.

Inductive watch_step_result :=
| Continue (w : Watch) (s : AppState)
| Shutdown.

Definition or_else {A : Type} (a b : option A) : option A := match a with Some _ => a | None => b end.

Definition watch_step (source : ReloadSource) (k : wake) (wt : Watch) (s : AppState)
    : io watch_step_result :=
  match k with
  | CtrlC | Terminate => mret Shutdown
  | Hangup => mret (Continue wt s)
  | WatchTick =>
      config_now ← fingerprint_opt (file_path source);
      token_now ← fingerprint_opt (token_file (security (config s)));
      let changed := negb (bool_decide (config_now = config_seen wt))
                     || negb (bool_decide (token_now = token_seen wt)) in
      let wt := mkWatch (or_else config_now (config_seen wt)) (or_else token_now (token_seen wt)) in
      if changed then
        r ← reload s source;
        (* a panic ends the task; dropping the sender shuts the server down *)
        mret (if panicked r then Shutdown else Continue wt (after r))
      else mret (Continue wt s)
  end.

Fixpoint watch_run (source : ReloadSource) (ks : list wake) (wt : Watch) (s : AppState)
    : io watch_step_result :=
  match ks with
  | [] => mret (Continue wt s)
  | k :: ks =>
      r ← watch_step source k wt s;
      match r with
      | Shutdown => mret Shutdown
      | Continue wt s => watch_run source ks wt s
      end
  end.

End reload.

(** ** Lemmas *)

Lemma changed_nil {A : Type} `{EqDecision A} (a b : A) t : changed a b t = [] ↔ a = b.
Proof. unfold changed. by case_decide. Qed.

Lemma app_nil_iff {A : Type} (l k : list A) : l ++ k = [] ↔ l = [] ∧ k = [].
Proof. split; [apply app_eq_nil|by intros [-> ->]]. Qed.

Section lemmas.
Context {env : Env} {T : TomlValue} {toml : ConfigToml} {token_toml : TokenToml}.

Lemma swap_config_spec fresh s :
  config (swap_config fresh s) = fresh ∧ updates (swap_config fresh s) = updates s
  ∧ tokens (swap_config fresh s) = tokens s
  ∧ (level_rank s = as_rank (log_level (logging (config s))) →
     level_rank (swap_config fresh s) = as_rank (log_level (logging fresh))).
Proof.
  unfold swap_config, level_changed. split; [done|].
  destruct (bool_decide _) eqn:E; bool_norm; simpl; [rewrite <-E|]; done.
Qed.

Lemma refresh_tokens_inv s w r w' :
  refresh_tokens s w = (r, w') →
  config (after r) = config s ∧ updates (after r) = updates s ∧ level_rank (after r) = level_rank s
  ∧ match token_file (security (config s)) with
    | None => panicked r = false ∧ tokens (after r) = None
    | Some path => ∃ x w1, Tokens.load path w = (x, w1) ∧
        match x with
        | Ret (Ok st) => panicked r = false ∧ tokens (after r) = Some st
        | Ret (Err _) => panicked r = false ∧ tokens (after r) = tokens s
        | Panic => panicked r = true ∧ tokens (after r) = tokens s
        end
    end.
Proof.
  unfold refresh_tokens. destruct (token_file _) as [path|].
  - intros H. step_in H as x w1 E. injection H as <- <-.
    destruct x as [[st|e]|]; split_and!; try done; eexists _, _; by split.
  - intros [= <- <-]. by destruct (tokens s) eqn:E.
Qed.
End lemmas.

(** ** Properties *)

Section properties.
Context {env : Env} {T : TomlValue} {toml : ConfigToml} {token_toml : TokenToml}.

(** The changes reported are the changes: the lists are empty exactly when
    the two configurations agree on every setting that takes effect without, and
    with, a restart. *)
Theorem changes_complete (p f : Config) :
  (changed_settings p f = [] ∧ restart_required p f = [] ↔
     system p = system f
     ∧ (channel (Config.updates p) = channel (Config.updates f) ∧ automatic (Config.updates p) = automatic (Config.updates f)
        ∧ check_interval (Config.updates p) = check_interval (Config.updates f)
        ∧ reboot_policy (Config.updates p) = reboot_policy (Config.updates f))
     ∧ maintenance p = maintenance f ∧ listen_addr (remote p) = listen_addr (remote f)
     ∧ security p = security f ∧ logging p = logging f ∧ api p = api f).
Proof.
  unfold changed_settings, restart_required. rewrite !app_nil_iff, !changed_nil.
  destruct (system p), (system f), (maintenance p), (maintenance f), (security p), (security f),
    (logging p), (logging f), (api p), (api f). simpl. naive_solver.
Qed.


(** What the watch loop reacts to. A tick reloads exactly when the
    fingerprint of the configuration or the token file is not the one last seen,
    and is otherwise without effect; [SIGINT] and [SIGTERM] stop the daemon; and
    hang-up signals, however many, change nothing: they never reload. *)
Theorem watch_spec source wt s (n : nat) w :
  watch_run source (replicate n Hangup) wt s w = (Continue wt s, w)
  ∧ watch_step source Terminate wt s w = (Shutdown, w)
  ∧ (∀ r w', watch_step source WatchTick wt s w = (r, w') →
       let c := fst (fingerprint_opt (file_path source) w) in
       let t := fst (fingerprint_opt (token_file (security (config s)))
                       (snd (fingerprint_opt (file_path source) w))) in
       if bool_decide (c = config_seen wt) && bool_decide (t = token_seen wt)
       then r = Continue wt s
       else ∃ x w1, reload s source w1 = (x, w')
            ∧ r = (if panicked x then Shutdown
                   else Continue (mkWatch (or_else c (config_seen wt)) (or_else t (token_seen wt))) (after x))).
Proof.
  split; [|split; [done|]].
  - induction n as [|n IH]; [done|]. simpl. unfold mbind, io_bind. simpl. exact IH.
  - intros r w' H c t. unfold watch_step in H. step_in H as c1 w1 E1. step_in H as t1 w2 E2.
    assert (Hc : c = c1) by (unfold c; by rewrite E1).
    assert (Ht : t = t1) by (unfold t; rewrite E1; simpl; by rewrite E2). clearbody c t. subst c1 t1.
    destruct (bool_decide (c = _)) eqn:Hb1, (bool_decide (t = _)) eqn:Hb2; cbn [negb orb andb] in *;
      try (step_in H as x w3 E3; injection H as <- <-; eauto).
    injection H as <- <-. bool_norm. subst c t. destruct wt as [[] []]; done.
Qed.

End properties.

(** ** Examples *)

Definition reload_world : world :=
  mkWorld {[ ("/c.toml" : str) := Regular "x" 420 0 ]} 0 [].

