(* ===== verification/Daemon.v ===== *)
(** * aborad: starting up

    Models [services/aborad/src/main.rs]: the arguments, where the configuration
    comes from, the token store that must load, the loopback-only listener, the
    update store, and the order of these steps up to serving. The records for the
    log are in [Logged]. *)

From S2P Require Import Prelude Str World Log Version Types Net Store Host Apply Config Tokens Api Helper State AppState Reload.

Definition DEFAULT_CONFIG_PATH : str := "/etc/abora/abora.toml".

Inductive Action := HelpAction | VersionAction | RunAction (config_path : option str).

(** The scan of the arguments; help wins over version, version over running. *)
Fixpoint parse_args_go (config_path : option str) (help version : bool) (argv : list str)
    : result str Action :=
  match argv with
  | [] => Ok (if help then HelpAction else if version then VersionAction else RunAction config_path)
  | arg :: rest =>
      if decide (arg = ("--help" : str) ∨ arg = ("-h" : str)) then parse_args_go config_path true version rest
      else if decide (arg = ("--version" : str) ∨ arg = ("-V" : str)) then parse_args_go config_path help true rest
      else if decide (arg = ("--config" : str)) then
        match rest with
        | v :: rest => parse_args_go (Some v) help version rest
        | [] => Err ("--config requires a path argument" : str)
        end
      else Err ("unknown argument `" ++ arg ++ "`")
  end.
Definition parse_args (argv : list str) : result str Action := parse_args_go None false false argv.

Inductive ConfigSource := Explicit (path : str) | Environment (path : str) | BuiltinDefaults.
Definition reload_source (s : ConfigSource) : ReloadSource :=
  match s with Explicit p | Environment p => File p | BuiltinDefaults => Builtin end.

Section daemon.
Context {env : Env} {T : TomlValue} {toml : ConfigToml} {token_toml : TokenToml}.
Context {serde : Serde StoreData}.
(** The variable [ABORA_CONFIG], and binding the listener. *)
Context (ABORA_CONFIG : option str) (bind : SocketAddr → result str ()).

Definition load_from (path : str) (source : ConfigSource) : io (result str (Config * ConfigSource)) :=
  c ← Config.load path;
  mret (match c with Ok c => Ok (c, source) | Err e => Err (config_error_to_string e) end).

Definition resolve_config (explicit : option str) : io (result str (Config * ConfigSource)) :=
  match explicit with
  | Some path => load_from path (Explicit path)
  | None =>
      match ABORA_CONFIG with
      | Some path => load_from path (Environment path)
      | None =>
          c ← Config.load DEFAULT_CONFIG_PATH;
          match c with
          | Ok c => mret (Ok (c, Explicit DEFAULT_CONFIG_PATH))
          | Err (CIo path e) =>
              if bool_decide (path = DEFAULT_CONFIG_PATH) then
                there ← exists_path DEFAULT_CONFIG_PATH;
                mret (if (there : bool) then Err (config_error_to_string (CIo path e))
                      else Ok (config_default, BuiltinDefaults))
              else mret (Err (config_error_to_string (CIo path e)))
          | Err e => mret (Err (config_error_to_string e))
          end
      end
  end.

Definition load_token_store (c : Config) : io (outcome (result str (option TokenStore))) :=
  match token_file (security c) with
  | None => mret (Ret (Ok None))
  | Some path =>
      r ← Tokens.load path;
      mret (match r with
            | Panic => Panic
            | Ret (Ok st) => Ret (Ok (Some st))
            | Ret (Err e) => Ret (Err (token_error_to_string e))
            end)
  end.

Definition check_bind_addr (c : Config) : result str SocketAddr :=
  match parse_socket_addr (listen_addr (remote c)) with
  | None => Err ("[remote] listen_addr `" ++ listen_addr (remote c) ++ "` is not a valid socket address")
  | Some addr =>
      if is_loopback (ip addr) then Ok addr
      else Err ("refusing to bind non-loopback address `" ++ listen_addr (remote c)
                ++ "`: remote management is not implemented in this milestone. Keep [remote].listen_addr on 127.0.0.1/::1; see docs/security.md.")
  end.

Definition request_file_of (c : Config) : str :=
  join_path (match parent (state_file (Config.updates c)) with Some p => p | None => "." end)
    REQUEST_FILE_NAME.

Definition open_updates (c : Config) : io UpdatesState :=
  r ← Store.open (state_file (Config.updates c));
  let host st := State.host st (request_file_of c) (apply_result_file (Config.updates c)) in
  mret (match r with Ok (st, _) => host st | Err _ => host in_memory end).

(** What the server is started with. *)
Record Started := mkStarted {
  start_state : AppState;
  start_addr : SocketAddr;
  start_reload : ReloadSource;
}.

(** [run], up to serving requests. *)
Definition run (config_path : option str) : io (outcome (result str Started)) :=
  loaded ← resolve_config config_path;
  match loaded with
  | Err e => mret (Ret (Err e))
  | Ok (c, source) =>
      match validate c with
      | Err errors => mret (Ret (Err ("invalid configuration:" ++ [LF] ++ join [LF] errors)))
      | Ok _ =>
          match check_bind_addr c with
          | Err e => mret (Ret (Err e))
          | Ok addr =>
              tk ← load_token_store c;
              match tk with
              | Panic => mret Panic
              | Ret (Err e) => mret (Ret (Err e))
              | Ret (Ok tk) =>
                  match bind addr with
                  | Err e => mret (Ret (Err e))
                  | Ok _ =>
                      u ← open_updates c;
                      s ← with_updates c (log_level (logging c)) tk u;
                      mret (Ret (Ok (mkStarted s addr (reload_source source))))
                  end
              end
          end
      end
  end.

(** *** The program *)

Definition USAGE : str := "Usage: aborad [--config <path>] [--version] [--help]".
Inductive console_line := Stdout (s : str) | Stderr (s : str).

(** How serving ends: it goes on until a shutdown, or the server fails. *)
Context (serving : Started → result str ()).

(** [main]: the exit code ([true] is success) and what is printed. *)
Definition failed (msg : str) : bool * list console_line := (false, [Stderr ("error: " ++ msg)]).
Definition main (argv : list str) : io (outcome (bool * list console_line)) :=
  match parse_args argv with
  | Ok HelpAction => mret (Ret (true, [Stdout USAGE]))
  | Ok VersionAction =>
      mret (Ret (true, [Stdout (FRAMEWORK_NAME ++ " " ++ FRAMEWORK_VERSION ++ " (" ++ DAEMON_NAME ++ " "
                                ++ Version.to_string current ++ ", api " ++ API_VERSION ++ ")")]))
  | Ok (RunAction config_path) =>
      r ← run config_path;
      mret (match r with
            | Panic => Panic
            | Ret (Err msg) => Ret (failed msg)
            | Ret (Ok st) => Ret (match serving st with
                                  | Ok _ => (true, [])
                                  | Err msg => failed msg
                                  end)
            end)
  | Err msg => mret (Ret (false, [Stderr ("error: " ++ msg ++ [LF] ++ USAGE)]))
  end.

(** ** Lemmas *)

(** What the daemon has loaded is well formed: a valid configuration, and hashes
    that are SHA-256 digests. *)
Definition typed (a : AppState) : Prop :=
  validate (config a) = Ok () ∧ ∀ s, tokens a = Some s → typed_store s.

Lemma load_valid path w c w' : Config.load path w = (Ok c, w') → validate c = Ok ().
Proof.
  unfold Config.load. intros H. step_in H as raw w1 E. destruct raw as [raw|e]; [|done].
  injection H as H _. unfold Config.from_str in H.
  destruct (toml_from_str raw) as [c0|e]; [|done]. cbn [map_err mbind result_bind] in H.
  destruct (validate c0) as [[]|e] eqn:Ev; [|done]. by injection H as <-.
Qed.

Lemma refresh_tokens_typed a w r w' :
  typed a → refresh_tokens a w = (r, w') → typed (after r).
Proof.
  intros Ha H. pose proof Ha as [Hc Ht]. unfold refresh_tokens in H. cbv zeta in H.
  destruct (token_file (security (config a))) as [path|].
  - step_in H as x w1 E. destruct x as [[s|e]|]; injection H as <- _; [|exact Ha..].
    split; [done|]. simpl. intros s' [= <-]. by eapply load_typed.
  - destruct (tokens a); injection H as <- _; [by split|exact Ha].
Qed.

Lemma reload_typed a source w r w' : typed a → reload a source w = (r, w') → typed (after r).
Proof.
  intros Ha H. pose proof Ha as [Hc Ht]. unfold reload in H. destruct source as [path|]; [|injection H as <- _; exact Ha].
  step_in H as fresh w1 E. destruct fresh as [fresh|e]; [|injection H as <- _; exact Ha].
  apply load_valid in E. unfold apply_reload in H. cbv zeta in H. step_in H as r0 w2 E2.
  apply refresh_tokens_typed in E2; [destruct (panicked r0); by injection H as <- _|].
  destruct (swap_config_spec fresh a) as (Cc & _ & Ct & _). split; [by rewrite Cc|by rewrite Ct].
Qed.

Lemma watch_run_typed source ks wt a w wt' a' w' :
  typed a → watch_run source ks wt a w = (Continue wt' a', w') → typed a'.
Proof.
  revert wt a w. induction ks as [|k ks IH]; intros wt a w Ha H; cbn [watch_run] in H.
  - by injection H as _ <- _.
  - step_in H as x w1 E. destruct x as [wt1 a1|]; [|done]. eapply IH; [|exact H].
    unfold watch_step in E. destruct k; try done; [by injection E as _ <- _|].
    step_in E as cn w2 E2. step_in E as tn w3 E3. destruct (negb _ || negb _).
    + step_in E as r w4 E4. destruct (panicked r); [done|]. injection E as _ <- _. by eapply reload_typed.
    + by injection E as _ <- _.
Qed.

(** ** Properties *)


(** C22: what the daemon serves with is well typed, from its start and through
    any sequence of wake-ups of its watch loop, reloads that fail included: its
    configuration is one that [validate] accepts, and every hash in its token
    store is 32 bytes. *)
Theorem daemon_well_typed config_path w st w1 :
  run config_path w = (Ret (Ok st), w1) →
  typed (start_state st)
  ∧ ∀ source ks wt w2 wt' a w3,
      watch_run source ks wt (start_state st) w2 = (Continue wt' a, w3) → typed a.
Proof.
  intros H. assert (Ht : typed (start_state st)).
  { unfold run in H. step_in H as l w2 E1. destruct l as [[c source]|e]; [|done].
    destruct (validate c) as [[]|] eqn:Ev; [|done].
    destruct (check_bind_addr c) as [addr|e] eqn:Eb; [|done].
    step_in H as tk w3 E2. destruct tk as [[tk|e]|]; try done.
    destruct (bind addr) as [[]|e]; [|done].
    step_in H as u w4 E3. step_in H as s w5 E4. injection H as <- <-.
    unfold with_updates in E4. step_in E4 as t1 w6 E5. step_in E4 as t2 w7 E6. injection E4 as <- <-.
    split; [done|]. simpl. intros s ->. unfold load_token_store in E2.
    destruct (token_file (security c)) as [path|]; [|discriminate E2].
    step_in E2 as r w8 E8. destruct r as [[store|e]|]; try done. injection E2 as <- _.
    by eapply load_typed. }
  split; [done|]. intros source ks wt w2 wt' a w3. by apply watch_run_typed.
Qed.

(** The compiled-in defaults are used only when nobody named a file, no
    file is at the default path, and reading it failed; in particular a named
    configuration that is missing, unreadable or invalid stops the start. *)
Theorem defaults_only_without_file explicit w c source w' :
  resolve_config explicit w = (Ok (c, source), w') →
  match source with
  | BuiltinDefaults => explicit = None ∧ ABORA_CONFIG = None ∧ c = config_default
      ∧ ∃ w1, fst (exists_path DEFAULT_CONFIG_PATH w1) = false
  | Explicit path => (explicit = Some path ∨ explicit = None ∧ ABORA_CONFIG = None ∧ path = DEFAULT_CONFIG_PATH)
      ∧ fst (Config.load path w) = Ok c
  | Environment path => explicit = None ∧ ABORA_CONFIG = Some path ∧ fst (Config.load path w) = Ok c
  end.
Proof.
  unfold resolve_config, load_from. intros H. destruct explicit as [path|].
  - step_in H as x w1 E1. destruct x as [c1|e]; [|done]. injection H as <- <- _. rewrite E1. auto.
  - destruct ABORA_CONFIG as [path|].
    + step_in H as x w1 E1. destruct x as [c1|e]; [|done]. injection H as <- <- _. rewrite E1. auto.
    + step_in H as x w1 E1. destruct x as [c1|e]; [injection H as <- <- _; rewrite E1; auto|].
      destruct e as [path e| | |]; try done. destruct (bool_decide _); [|done].
      step_in H as b w2 E2. destruct b; [done|]. injection H as <- <- _. split_and!; try done.
      exists w1. by rewrite E2.
Qed.

End daemon.

(** ** Examples *)

Definition bind_any (_ : SocketAddr) : result str () := Ok ().


Lemma defaults_only_without_file_witness :
  let e := example_env in
  let T : TomlValue := example_toml in let t : ConfigToml := λ _, Ok config_default in
  ∃ c w', resolve_config None None empty_world = (Ok (c, BuiltinDefaults), w') ∧ c = config_default.
Proof.
  intros e T t.
  destruct (resolve_config None None empty_world) as [[[c [p|p|]]|x] w'] eqn:E;
    [vm_compute in E; discriminate E..| |vm_compute in E; discriminate E].
  exists c, w'. split; [reflexivity|].
  apply (defaults_only_without_file None None empty_world c BuiltinDefaults w' E).
Defined.

Lemma daemon_well_typed_witness :
  let e := example_env in
  let T : TomlValue := example_toml in let t : ConfigToml := λ _, Ok config_default in
  let k : TokenToml := λ _, Err ("no tokens" : str) in
  let d := example_serde store_default in
  ∃ st w', run None bind_any None empty_world = (Ret (Ok st), w')
    ∧ validate (config (start_state st)) = Ok ().
Proof.
  intros e T t k d.
  destruct (run None bind_any None empty_world) as [[[st|x]|] w'] eqn:E;
    [|vm_compute in E; discriminate E..].
  exists st, w'. split; [reflexivity|].
  apply (daemon_well_typed None bind_any None empty_world st w' E).
Defined.
