(* ===== verification/Ops.v ===== *)
(** * What the operations of the update system write

    The operations of the daemon as the whole system uses them: [request_apply] as
    its two halves, between which other callers may run, and, for every
    operation, the invariants of the file system it never leaves. *)

From S2P Require Import Prelude Str World Replace Frame Net Log Version Types Store Host Apply Protocol Config Schedule Helper Tokens Api Sysinfo Services Auth State Server AppState Handlers Scheduler Reload Daemon.

(** ** The two halves of a request

    [request_apply] holds no lock from the look at the request file to the
    writing of it. *)

Section halves.
Context {env : Env} {T : TomlValue} {request_serde : Serde ApplyRequest}.
Context (random_hash : nat → str → N).

Definition request_decision (config : Config) (s : UpdatesState) : io (list str * option str) :=
  let packages := wanted s in
  t ← local_time;
  let permitted := apply_permitted (permissions config t) in
  waiting ← apply_pending s;
  mret (packages,
        if (waiting : bool) then Some APPLYING
        else if bool_decide (packages = []) then Some NO_UPDATES
        else if negb permitted then Some CLOSED
        else None).

Definition request_commit (caller : str) (packages : list str) (s : UpdatesState)
    : io (result ApplyRefusal ApplyResponse) :=
  id ← new_request_id random_hash;
  now ← rfc3339_now;
  let request := Apply.mkRequest id now caller packages in
  r ← write_atomic (apply_request_file s) (encode_json request) 384;
  mret (match r with
        | Err e => Err (RefusedInternal ("could not write the apply request: " ++ io_message e))
        | Ok _ => Ok (mkApplyResponse false true None (Some id) packages)
        end).

Lemma request_apply_halves config caller dry s w :
  request_apply random_hash config caller dry s w
  = ('(packages, block) ← request_decision config s;
     if (dry : bool) then
       mret (Ok (mkApplyResponse true (bool_decide (block = None)) block None packages))
     else match block with
     | Some reason => mret (Err (RefusedConflict reason))
     | None => request_commit caller packages s
     end) w.
Proof.
  unfold request_apply, request_decision, mbind, io_bind.
  destruct (local_time w) as [t w1]. destruct (apply_pending s w1) as [b w2].
  by destruct dry, b.
Qed.

Lemma request_decision_inv config s w packages block w' :
  request_decision config s w = ((packages, block), w') →
  packages = wanted s ∧ commands w' = DATE :: commands w
  ∧ (block = None → wanted s ≠ [] ∧ ∃ t w1, local_time w = (t, w1)
       ∧ apply_permitted (permissions config t) = true).
Proof.
  unfold request_decision. cbv zeta. intros H. step_in H as t w1 E1.
  pose proof (local_time_inv _ _ _ E1) as C1. step_in H as b w2 E2.
  apply readonly_inv in E2 as [_ C2]; [|apply readonly_pending].
  injection H as <- <- <-. split; [done|]. split; [congruence|].
  destruct b; [done|]. destruct (bool_decide _) eqn:Ew; [done|].
  destruct (negb _) eqn:Ep; [done|]. apply negb_false_iff in Ep. bool_norm.
  intros _. split; [done|]. exists t, w1. split; [done|]. by apply bool_decide_eq_true.
Qed.

(** The automatic apply of the scheduler, up to the decision: when it is asked for
    one, what was decided. *)
Definition auto_decision (cfg : Config) (perms : Permissions) (interval : N) (last : option N) (u : UpdatesState)
    : io (option N * option (list str * option str)) :=
  '(has_available, pending) ← apply_inputs u;
  since ← match last with
          | Some t => e ← elapsed t; mret (Some e)
          | None => mret None
          end;
  if should_auto_apply perms has_available pending since interval then
    now ← time_now;
    x ← request_decision cfg u;
    mret (Some now, Some x)
  else mret (last, None).

Lemma auto_phase_halves cfg perms interval last u w :
  auto_phase random_hash cfg perms interval last u w
  = ('(la, asked) ← auto_decision cfg perms interval last u;
     match asked with
     | None => mret (la, None)
     | Some (_, Some reason) => mret (la, Some (Err (RefusedConflict reason)))
     | Some (packages, None) => r ← request_commit AUTOMATIC packages u; mret (la, Some r)
     end) w.
Proof.
  unfold auto_phase, auto_decision, mbind, io_bind. destruct (apply_inputs u w) as [[has pending] w1].
  assert (H : ∀ since w2,
    (if should_auto_apply perms has pending since interval then
       now ← time_now; r ← request_apply random_hash cfg AUTOMATIC false u; mret (Some now, Some r)
     else mret (last, None)) w2
    = ('(la, asked) ← (if should_auto_apply perms has pending since interval then
           now ← time_now; x ← request_decision cfg u; mret (Some now, Some x)
         else mret (last, None));
       match asked with
       | None => mret (la, None)
       | Some (_, Some reason) => mret (la, Some (Err (RefusedConflict reason)))
       | Some (packages, None) => r ← request_commit AUTOMATIC packages u; mret (la, Some r)
       end) w2).
  { intros since w2. destruct (should_auto_apply _ _ _ _ _); [|done]. unfold mbind, io_bind.
    destruct (time_now w2) as [now w3]. rewrite request_apply_halves. unfold mbind, io_bind.
    destruct (request_decision cfg u w3) as [[packages [reason|]] w4]; [done|].
    cbn.
    by destruct (request_commit AUTOMATIC packages u w4) as [r w5]. }
  unfold mbind, io_bind in H. destruct last as [t|]; [destruct (elapsed t w1) as [e w2]|]; apply H.
Qed.

Lemma auto_decision_inv cfg perms interval last u w la asked w' :
  auto_decision cfg perms interval last u w = ((la, asked), w') →
  match asked with
  | None => la = last ∧ commands w' = commands w
  | Some (packages, block) => packages = wanted u ∧ commands w' = DATE :: commands w
      ∧ installs_permitted perms = true
      ∧ (∃ n, la = Some (system_time n) ∧ ∀ t, last = Some t → ∃ m, (interval ≤ system_time m - t)%N)
      ∧ (block = None → wanted u ≠ [] ∧ ∃ t, told t ∧ apply_permitted (permissions cfg t) = true)
  end.
Proof.
  unfold auto_decision. intros H. step_in H as x w1 E1. destruct x as [has pending].
  assert (C1 : commands w1 = commands w).
  { unfold apply_inputs in E1. step_in E1 as b w0 E0. injection E1 as _ _ <-.
    by apply readonly_inv in E0 as [_ ?]; [|apply readonly_pending]. }
  step_in H as since w2 E2. assert (Hs : commands w2 = commands w1
    ∧ match last with Some t => ∃ m, since = Some (system_time m - t)%N | None => since = None end).
  { destruct last as [t|]; [|by injection E2 as <- <-]. step_in E2 as e w0 E0.
    apply elapsed_inv in E0 as (-> & _ & ?). injection E2 as <- <-. eauto. }
  destruct Hs as [C2 Hs]. destruct (should_auto_apply _ _ _ _ _) eqn:Ea; [|injection H as <- <- <-; split; congruence].
  step_in H as now w3 E3. injection E3 as <- <-. step_in H as y w4 E4. destruct y as [packages block].
  injection H as <- <- <-. apply request_decision_inv in E4 as (-> & C4 & Hb).
  unfold should_auto_apply in Ea. bool_norm. split; [done|].
  split; [rewrite C4; f_equal; transitivity (commands w2); [done|congruence]|]. split; [done|]. split.
  - exists (calls w2). split; [done|]. intros t ->. destruct Hs as [m ->]. bool_norm. eauto.
  - intros Hn. destruct (Hb Hn) as (Hw & t & w5 & Et & Hp). split; [done|].
    exists t. split; [by eexists _, w5|done].
Qed.

(** *** The scheduler's pass, step by step *)

Context {serde : Serde StoreData} {result_serde : Serde ApplyResult}.

(** How far a pass has come, with its snapshot of the configuration. *)
Inductive progress :=
| Idle
| Began (cfg : Config)
| Published (cfg : Config) (perms : Permissions)
| Ingested (cfg : Config) (perms : Permissions)
| Checked (cfg : Config) (perms : Permissions).

Definition snapshot (p : progress) : option Config :=
  match p with
  | Idle => None
  | Began cfg | Published cfg _ | Ingested cfg _ | Checked cfg _ => Some cfg
  end.

(** The next step of a pass: the snapshot, the policy, the helper's result, the
    check, the decision about an automatic apply (which is then to be written). *)
Definition advance (st : SchedulerState) (p : progress) (a : AppState)
    : io (SchedulerState * progress * AppState * option (list str * option str)) :=
  match p with
  | Idle => mret (st, Began (AppState.config a), a, None)
  | Began cfg =>
      t ← local_time;
      let perms := permissions cfg t in
      mret (mkScheduler (last_attempt st) (last_ok st) (Some perms) (last_auto_attempt st), Published cfg perms,
        set_updates (set_schedule (schedule_info (check_interval_of cfg) perms) (AppState.updates a)) a, None)
  | Published cfg perms =>
      '(ingested, u) ← ingest_apply_result (channel (Config.updates cfg)) (AppState.updates a);
      mret (mkScheduler (if ingested : bool then None else last_attempt st) (last_ok st) (previous st) (last_auto_attempt st),
        Ingested cfg perms, set_updates u a, None)
  | Ingested cfg perms =>
      '(last, ok, u) ← check_phase (check_interval_of cfg) (channel (Config.updates cfg))
                         (last_attempt st) (last_ok st) (AppState.updates a);
      mret (mkScheduler last ok (previous st) (last_auto_attempt st), Checked cfg perms, set_updates u a, None)
  | Checked cfg perms =>
      '(last_auto, asked) ← auto_decision cfg perms (check_interval_of cfg) (last_auto_attempt st) (AppState.updates a);
      mret (mkScheduler (last_attempt st) (last_ok st) (previous st) last_auto, Idle, a, asked)
  end.

(** The fields that the steps of a pass look at. *)
#[local] Ltac red_steps :=
  repeat progress (cbn [advance AppState.config AppState.updates set_updates last_attempt last_ok previous
                        last_auto_attempt]; unfold mbind, io_bind, mret, io_ret; cbn beta iota).

(** With nothing in between, the steps are a pass. *)
Lemma pass_in_steps st s w :
  pass random_hash st s w
  = ('(st, p, a, _) ← advance st Idle s;
     '(st, p, a, _) ← advance st p a;
     '(st, p, a, _) ← advance st p a;
     '(st, p, a, _) ← advance st p a;
     '(st, p, a, asked) ← advance st p a;
     match asked with
     | None => mret (st, a, None)
     | Some (_, Some reason) => mret (st, a, Some (Err (RefusedConflict reason)))
     | Some (packages, None) =>
         r ← request_commit AUTOMATIC packages (AppState.updates a); mret (st, a, Some r)
     end) w.
Proof.
  unfold pass. red_steps.
  destruct (local_time w) as [t w1]. red_steps.
  destruct (ingest_apply_result _ _ w1) as [[ing u1] w2]. red_steps.
  destruct (check_phase _ _ _ _ _ w2) as [[[last ok] u2] w3]. red_steps.
  rewrite auto_phase_halves. unfold mbind, io_bind, mret, io_ret.
  destruct (auto_decision _ _ _ _ _ w3) as [[la [[packages [reason|]]|]] w4]; [done| |done].
  red_steps. by destruct (request_commit AUTOMATIC packages u2 w4).
Qed.

(** Each step leads to the next; only the last asks. *)
Definition next_step (p : progress) : progress → Prop := λ p',
  match p, p' with
  | Idle, Began _ | Checked _ _, Idle => True
  | Began c, Published c' _ => c' = c
  | Published c perms, Ingested c' perms' | Ingested c perms, Checked c' perms' => c' = c ∧ perms' = perms
  | _, _ => False
  end.
Lemma advance_next st p a w st' p' a' asked w' :
  advance st p a w = ((st', p', a', asked), w') →
  next_step p p' ∧ (asked = None ∨ p' = Idle).
Proof.
  intros H. destruct p; cbn [advance] in H.
  - injection H as <- <- <- <- <-. by split; [|left].
  - step_in H as x w1 E. injection H as <- <- <- <- <-. by split; [|left].
  - step_in H as x w1 E. destruct x. injection H as <- <- <- <- <-. by split; [|left].
  - step_in H as x w1 E. destruct x as [[] ?]. injection H as <- <- <- <- <-. by split; [|left].
  - step_in H as x w1 E. destruct x. injection H as <- <- <- <- <-. by split; [|right].
Qed.

End halves.

(** ** The invariants the operations keep *)

Section operations.
Context {env : Env} {T : TomlValue} {toml : ConfigToml} {token_toml : TokenToml}.
Context {serde : Serde StoreData} {request_serde : Serde ApplyRequest} {result_serde : Serde ApplyResult}.
Context (random_hash : nat → str → N).
Context (I : files_t → Prop) `{!Inert I}.

Lemma through_read {A : Type} (f : files_t → result io_error A) : through I (syscall f).
Proof. apply through_syscall. Qed.
Lemma through_now : through I rfc3339_now.
Proof. unfold rfc3339_now. keep. Qed.
Lemma through_local_time : through I local_time.
Proof. unfold local_time. keep. Qed.
Lemma through_run timeout p args : through I (Host.run timeout p args).
Proof. unfold Host.run. keep. Qed.
Lemma through_read_regular path age : through I (read_regular_file path age).
Proof. unfold read_regular_file. keep. Qed.
Lemma through_pending s : through I (apply_pending s).
Proof. unfold apply_pending. keep. Qed.

Lemma through_write_atomic path bytes mode :
  replaceable I path → through I (write_atomic path bytes mode).
Proof.
  intros H. unfold write_atomic. apply through_try.
  - destruct (parent_dir path) eqn:E; [|apply through_ret]. apply through_create_dir.
    by apply (rep_parent _ _ H).
  - intros _. apply through_bind; [by apply through_staged|]. intros [[]|e]; [apply through_ret|].
    apply through_bind; [|intros; apply through_ret]. apply through_remove, H.
Qed.

Lemma through_save path d : replaceable I path → through I (save path d).
Proof.
  intros H. unfold save, write_synced. apply through_bind.
  { destruct (parent_dir path) eqn:E; [|apply through_ret].
    apply through_bind; [|intros; apply through_ret]. apply through_create_dir.
    by apply (rep_parent _ _ H). }
  intros [[]|e]; [|apply through_ret]. apply through_bind; [by apply through_staged|].
  intros [[]|e]; [keep|]. apply through_bind; [|intros; apply through_ret]. apply through_remove, H.
Qed.

(** A store on disk keeps to its file. *)
Definition store_in (s : UpdateStore) : Prop := ∀ path, st_path s = Some path → replaceable I path.

Lemma through_change edit s : store_in s → through I (change edit s).
Proof.
  intros H. unfold change. apply through_bind; [|intros; apply through_ret].
  destruct (st_path s) eqn:E; [by apply through_save, H|apply through_ret].
Qed.

Lemma through_refresh ch s : store_in (store s) → through I (refresh ch s).
Proof.
  intros H. unfold refresh. apply through_bind; [|intros [[] ?]; apply through_ret].
  change (through I (host_check ch (provider s))). unfold host_check.
  apply through_bind; [apply through_run|]. intros [out|e]; [|apply through_ret].
  apply through_bind; [apply through_now|]. intros t.
  apply through_bind; [by apply through_change|]. intros [[] ?]; apply through_ret.
Qed.

Lemma through_response s : store_in (store s) → through I (response s).
Proof.
  intros H. unfold response. apply through_bind; [apply through_pending|]. intros b.
  apply through_bind; [|intros []; apply through_ret].
  change (through I (host_reboot_required (provider s))). unfold host_reboot_required.
  apply through_bind; [unfold exists_path; keep|]. intros [].
  - cbn [negb]. case_match; [apply through_ret|].
    apply through_bind; [unfold fs_read_to_string, fs_read; keep|]. intros.
    apply through_bind; [apply through_now|]. intros.
    apply through_bind; [by apply through_change|]. intros []; apply through_ret.
  - cbn [negb]. case_match; [|apply through_ret].
    apply through_bind; [by apply through_change|]. intros []; apply through_ret.
Qed.

Lemma through_ingest ch s : store_in (store s) → through I (ingest_apply_result ch s).
Proof.
  intros H. unfold ingest_apply_result. apply through_bind; [apply through_read_regular|].
  intros [bytes|e]; [|apply through_ret]. repeat (case_match; try apply through_ret).
  unfold record_result. apply through_bind; [by apply through_change|]. intros []; apply through_ret.
Qed.

Lemma through_check_phase interval ch last was u :
  store_in (store u) → through I (check_phase interval ch last was u).
Proof.
  intros H. unfold check_phase. apply through_bind; [unfold elapsed; keep|]. intros [].
  - apply through_bind; [apply through_time|]. intros.
    apply through_bind; [by apply through_refresh|]. intros []; apply through_ret.
  - apply through_ret.
Qed.

Lemma through_decision c s : through I (request_decision c s).
Proof.
  unfold request_decision. apply through_bind; [apply through_local_time|]. intros.
  apply through_bind; [apply through_pending|]. intros; apply through_ret.
Qed.

Lemma through_auto_decision cfg perms interval last u : through I (auto_decision cfg perms interval last u).
Proof.
  unfold auto_decision, apply_inputs, elapsed.
  repeat first [apply through_decision | apply through_pending | apply through_time | apply through_ret
    | apply through_bind; [|intros ?] | case_match].
Qed.

Lemma through_advance st p a : store_in (store (AppState.updates a)) → through I (advance st p a).
Proof.
  intros H. destruct p; cbn [advance]; [apply through_ret|..]; apply through_bind.
  - apply through_local_time.
  - intros; apply through_ret.
  - by apply through_ingest.
  - intros []; apply through_ret.
  - by apply through_check_phase.
  - intros [[] ?]; apply through_ret.
  - apply through_auto_decision.
  - intros []; apply through_ret.
Qed.

Lemma through_request_id : through I (new_request_id random_hash).
Proof.
  unfold new_request_id. apply through_bind; [apply through_now|]. intros t w Hw.
  by apply passes_refl in Hw.
Qed.

Lemma through_config_load path : through I (Config.load path).
Proof. unfold Config.load. keep. Qed.

Lemma through_token_load path : through I (Tokens.load path).
Proof. unfold Tokens.load. keep. Qed.

Lemma through_refresh_tokens s : through I (refresh_tokens s).
Proof.
  unfold refresh_tokens. case_match; [|apply through_ret].
  apply through_bind; [apply through_token_load|]. intros; apply through_ret.
Qed.

(** Opening a store may move a damaged file aside. *)
Lemma through_open_store path :
  replaceable I path → removable I path → writable I (corrupt_path path) → through I (Store.open path).
Proof.
  intros Hp Hr Hc. unfold Store.open. apply through_bind; [unfold fs_read; keep|]. intros bytes.
  apply through_bind; [|intros; apply through_ret].
  repeat (case_match; try apply through_ret).
  apply through_bind; [|intros; apply through_ret].
  apply through_rename; [apply (writable_no_link _ _ (rep_path _ _ Hp))|done|done].
Qed.

End operations.
