(* ===== verification/System.v ===== *)
(** * The update system: daemon, helper and host together

    The parts of the other files as one transition system: the daemon's
    scheduler and its HTTP callers, the root helper, reloads, crashes at any
    system call, restarts, and whatever else runs on the host. A request is admitted,
    decided and written in three steps, a reload swaps the configuration and the
    tokens in two, a pass of the scheduler has five: anything may come between. The system implements [Protocol]. *)

From S2P Require Import Prelude Str World Replace Frame Net Log Version Types Store Host Apply Protocol Config Schedule Helper Tokens Api Services Auth State Server AppState Scheduler Reload Daemon Ops.

(** A request that has been decided and not yet written: its caller, its
    packages. *)
Record ticket := mkTicket { tk_caller : str; tk_packages : list str }.

(** What a decision leaves to be written. *)
Definition ticket_for (caller : str) (packages : list str) (block : option str) : list ticket :=
  match block with
  | Some _ => []
  | None => [mkTicket caller packages]
  end.

(** The daemon's memory: with the scheduler's, how far its pass has come, the
    callers of the requests that have been admitted and whose handlers have not yet
    run, and the tickets. *)
Record running `{T : TomlValue} := mkRunning {
  d_app : AppState;
  d_sched : SchedulerState;
  d_pass : progress;
  d_admitted : list str;
  d_tickets : list ticket;
}.
Arguments mkRunning {T}.

(** The host, and the daemon when it runs. *)
Record sys `{T : TomlValue} := mkSys { sw : world; daemon : option running }.
Arguments mkSys {T}.

(** ** The files of the system *)

(** What replacing a file touches. *)
Definition family (p : str) : list str := p :: tmp_path p :: option_list (parent_dir p).

(** The paths the daemon and the helper write, for a request file [rq], a
    result file [rs] and a store [st]. *)
Definition others (rs st : str) : list str := family rs ++ family st ++ [corrupt_path st].
Definition mine (rq rs st : str) : list str := family rq ++ others rs st.

(** None of them is a link, and the request file is in [Q]. *)
Definition tidy (rq rs st : str) (Q : option node → Prop) (fs : files_t) : Prop :=
  (∀ p, p ∈ mine rq rs st → not_link fs p) ∧ Q (fs !! rq).

(** The programs that are run leave these files alone. *)
Class Calm {env : Env} (rq rs st : str) : Prop :=
  calm n program args fs p : p ∈ mine rq rs st →
    command_effect n program args fs !! p = fs !! p.

Section files.
Context {env : Env} (rq rs st : str).
Context (separate : rq ∉ others rs st).

Lemma in_others p : p ∈ others rs st → p ∈ mine rq rs st ∧ p ≠ rq.
Proof.
  intros H. split; [unfold mine; apply elem_of_app; by right|]. by intros ->.
Qed.

Lemma self_in_family p : p ∈ family p.
Proof. unfold family. apply elem_of_cons. by left. Qed.
Lemma tmp_in_family p : tmp_path p ∈ family p.
Proof. unfold family. apply elem_of_cons. right. apply elem_of_cons. by left. Qed.
Lemma parent_in_family p d : parent_dir p = Some d → d ∈ family p.
Proof.
  intros H. unfold family. rewrite H. apply elem_of_cons. right. apply elem_of_cons. right.
  by apply list_elem_of_singleton.
Qed.
Lemma request_in_mine p : p ∈ family rq → p ∈ mine rq rs st.
Proof. intros. unfold mine. apply elem_of_app. by left. Qed.
Lemma result_in_others p : p ∈ family rs → p ∈ others rs st.
Proof. intros. unfold others. apply elem_of_app. by left. Qed.
Lemma store_in_others p : p ∈ family st → p ∈ others rs st.
Proof. intros. unfold others. apply elem_of_app. right. apply elem_of_app. by left. Qed.
Lemma others_in_mine p : p ∈ others rs st → p ∈ mine rq rs st.
Proof. intros. unfold mine. apply elem_of_app. by right. Qed.
Lemma corrupt_in_others : corrupt_path st ∈ others rs st.
Proof. unfold others. rewrite !elem_of_app. do 2 right. by apply list_elem_of_singleton. Qed.

#[local] Instance tidy_inert `{!Calm rq rs st} Q : Inert (tidy rq rs st Q).
Proof.
  intros n p args fs [Hl Hq]. split.
  - intros q Hin t. rewrite calm by done. by apply Hl.
  - rewrite calm; [done|]. apply elem_of_app. left. apply elem_of_cons. by left.
Qed.

Lemma tidy_insert Q fs p nd : p ≠ rq → tidy rq rs st Q fs → (∀ t, nd ≠ Symlink t) →
  tidy rq rs st Q (<[p := nd]> fs).
Proof.
  intros Hne [Hl Hq] Hn. split.
  - intros q Hin t. rewrite lookup_insert. case_decide; [by intros [= ->]; eapply Hn|by apply Hl].
  - by rewrite lookup_insert_ne.
Qed.

Lemma tidy_delete Q fs p : p ≠ rq → tidy rq rs st Q fs → tidy rq rs st Q (delete p fs).
Proof.
  intros Hne [Hl Hq]. split.
  - intros q Hin t. rewrite lookup_delete. case_decide; [done|by apply Hl].
  - by rewrite lookup_delete_ne.
Qed.

Lemma tidy_writable Q p : p ∈ mine rq rs st → p ≠ rq → writable (tidy rq rs st Q) p.
Proof. intros Hin Hne. split; [by intros fs [Hl _]; apply Hl|]. intros. by apply tidy_insert. Qed.

Lemma tidy_replaceable Q p :
  (∀ q, q ∈ family p → q ∈ others rs st) → replaceable (tidy rq rs st Q) p.
Proof.
  intros H. assert (Hw : ∀ q, q ∈ family p → writable (tidy rq rs st Q) q).
  { intros q [? ?]%H%in_others. by apply tidy_writable. }
  split.
  - intros d Hd. by apply Hw, parent_in_family.
  - apply Hw, tmp_in_family.
  - intros fs Hi. apply tidy_delete; [|done]. apply in_others, H, tmp_in_family.
  - apply Hw, self_in_family.
Qed.

Lemma tidy_store Q : replaceable (tidy rq rs st Q) st.
Proof. apply tidy_replaceable, store_in_others. Qed.
Lemma tidy_result Q : replaceable (tidy rq rs st Q) rs.
Proof. apply tidy_replaceable, result_in_others. Qed.


Lemma tidy_mono (Q Q' : option node → Prop) fs :
  (∀ o, Q o → Q' o) → tidy rq rs st Q fs → tidy rq rs st Q' fs.
Proof. intros H [? ?]. split; auto. Qed.

(** The request file itself, when nothing is asked of it. *)
Lemma tidy_request : replaceable (tidy rq rs st (λ _, True)) rq.
Proof.
  assert (Hw : ∀ q, q ∈ family rq → writable (tidy rq rs st (λ _, True)) q).
  { intros q Hq%request_in_mine.
    split; [by intros fs [Hl _]; apply Hl|]. intros fs nd [Hl _] Hn. split; [|done].
    intros r Hr t. rewrite lookup_insert. case_decide; [by intros [= ->]; eapply Hn|by apply Hl]. }
  split.
  - intros d Hd. by apply Hw, parent_in_family.
  - apply Hw, tmp_in_family.
  - intros fs [Hl _]. split; [|done]. intros q Hin t. rewrite lookup_delete.
    case_decide; [done|by apply Hl].
  - apply Hw, self_in_family.
Qed.

Lemma tidy_tmp Q fs : tidy rq rs st Q fs → not_link fs (tmp_path rq).
Proof. intros [Hl _]. apply Hl, request_in_mine, tmp_in_family. Qed.

(** The request file as it was, or with a whole request. *)
Definition old_or_request (old : option node) (r : ApplyRequest) `{Serde ApplyRequest} (o : option node) : Prop :=
  o = old ∨ ∃ m t, o = Some (Regular (encode_json r) m t).

Section commit.
Context {request_serde : Serde ApplyRequest} (random_hash : nat → str → N).

Lemma commit_passes caller packages s w r w' :
  apply_request_file s = rq → tidy rq rs st (λ _, True) (files w) →
  request_commit random_hash caller packages s w = (r, w') →
  commands w' = commands w
  ∧ ∃ id now, valid_request_id id = true ∧
      passes (tidy rq rs st (old_or_request (files w !! rq) (Apply.mkRequest id now caller packages))) w w'.
Proof.
  intros Hp Ht H. unfold request_commit in H. rewrite Hp in H.
  step_in H as id w1 E1. pose proof (new_request_id_valid _ _ _ _ E1) as Hid.
  pose proof (readonly_inv _ _ _ _ (readonly_request_id _) E1) as [F1 C1].
  step_in H as now w2 E2. pose proof (readonly_inv _ _ _ _ readonly_now E2) as [F2 C2].
  cbv zeta in H. set (req := Apply.mkRequest id now caller packages) in *.
  step_in H as x w3 E3. pose proof (quiet_inv _ _ _ _ (quiet_write_atomic _ _ _) E3) as C3.
  injection H as _ <-. split; [congruence|]. exists id, now. split; [done|].
  set (Q := old_or_request _ _).
  assert (Ht0 : tidy rq rs st Q (files w)) by (split; [apply Ht|by left]).
  assert (F : files w2 = files w) by congruence.
  eapply passes_trans; [eapply (through_inv _ _ _ _ _ (through_request_id _ _) Ht0 E1)|].
  rewrite <-F1 in Ht0. eapply passes_trans; [eapply (through_inv _ _ _ _ _ (through_now _) Ht0 E2)|].
  rewrite <-F in Ht.
  pose proof (write_atomic_spec rq (encode_json req) 384 (files w2 !! rq)
    (mode_of (files w2) (tmp_path rq) 384) w2) as Hs.
  rewrite E3 in Hs. destruct Hs as [Ha _].
  { split_and!; [done|by eapply tidy_tmp|done]. }
  apply passes_always in Ha.
  pose proof (through_inv _ _ _ _ _ (through_write_atomic _ rq (encode_json req) 384 tidy_request) Ht E3) as Hw.
  pose proof (passes_and _ _ _ _ Hw Ha) as Hb. eapply passes_mono; [|exact Hb].
  intros fs [[Hl _] Hq]. split; [exact Hl|]. unfold Q, old_or_request.
  destruct Hq as [Hq|[t Hq]]; [left; congruence|eauto].
Qed.

End commit.

(** *** The helper *)

Section helper.
Context {T : TomlValue} {toml : ConfigToml}.
Context {request_serde : Serde ApplyRequest} {result_serde : Serde ApplyResult}.

(** The request file as it was, or removed. *)
Definition old_or_none (old o : option node) : Prop := o = old ∨ o = None.

Lemma through_process (I : files_t → Prop) `{!Inert I} c : through I (process (system_ctx c)).
Proof.
  unfold process. cbn [now request_path system_ctx].
  apply through_bind; [apply through_syscall|]. intros [nd|e]; [|apply through_ret].
  apply through_bind; [by apply through_now|]. intros started.
  apply through_bind; [by apply through_read_regular|]. intros bytes.
  assert (Hfail : ∀ id note, through I (n ← rfc3339_now; mret (Some (refuse id started n note)))).
  { intros id note. apply through_bind; [by apply through_now|]. intros; apply through_ret. }
  repeat (case_match; try apply Hfail).
  apply through_bind; [|intros; apply through_ret].
  unfold apply_request, install. cbn [ctx_local_time runner now config marker system_ctx].
  apply through_bind; [by apply through_local_time|]. intros t. cbv zeta.
  assert (Hnow : ∀ f : str → Outcome, through I (n ← rfc3339_now; mret (f n))).
  { intros f. apply through_bind; [by apply through_now|]. intros; apply through_ret. }
  case_match; [apply Hnow|]. apply through_bind; [by apply through_run|].
  intros [sim|e]; [|apply Hnow]. case_match; [apply Hnow|].
  apply through_bind; [by apply through_run|]. intros [out|e]; [|apply Hnow].
  apply through_bind; [unfold exists_path; keep|]. intros.
  apply through_bind; [unfold exists_path; keep|]. intros. apply Hnow.
Qed.

Lemma helper_passes `{!Calm rq rs st} c w r w' :
  request_path_of c = rq → tidy rq rs st (λ _, True) (files w) →
  Helper.serve (system_ctx c) rs w = (r, w') →
  passes (tidy rq rs st (old_or_none (files w !! rq))) w w'.
Proof.
  intros Hp Ht H. set (Q := old_or_none (files w !! rq)).
  assert (Ht0 : tidy rq rs st Q (files w)) by (split; [apply Ht|by left]).
  refine (through_inv _ _ _ _ _ _ Ht0 H). unfold Helper.serve.
  apply through_bind; [by apply through_process, tidy_inert|]. intros [o|]; [|apply through_ret].
  unfold deliver. cbn [request_path runner system_ctx].
  apply through_bind; [by apply through_write_atomic, tidy_result|]. intros [[]|e]; [|apply through_ret].
  apply through_bind.
  { rewrite Hp. apply through_remove. intros fs [Hl _]. split; [|right; apply lookup_delete_eq].
    intros q Hq t. rewrite lookup_delete. case_decide; [done|by apply Hl]. }
  intros _. case_match; [|apply through_ret].
  apply through_bind; [|intros; apply through_ret]. by apply through_run, tidy_inert.
Qed.

End helper.

End files.
(** ** What has been installed *)

(** The packages of an [apt-get install], when a program run is one. *)
Definition install_of (run : str * list str) : option (list str) :=
  let n := length FIXED_ARGS in
  if decide (fst run = ("apt-get" : str) ∧ take n (snd run) = FIXED_ARGS)
  then Some (drop n (snd run)) else None.
Definition installs (runs : list (str * list str)) : list (list str) := omap install_of runs.

Lemma installs_app l k : installs (l ++ k) = installs l ++ installs k.
Proof. apply omap_app. Qed.

Lemma install_of_INSTALL todo : install_of (INSTALL todo) = Some todo.
Proof. done. Qed.

(** A computation that installs nothing. *)
Definition tame {A : Type} (m : io A) : Prop :=
  ∀ w, ∃ new, commands (snd (m w)) = new ++ commands w ∧ installs new = [].

Lemma tame_quiet {A : Type} (m : io A) : quiet m → tame m.
Proof. intros H w. exists []. by rewrite H. Qed.
Lemma tame_bind {A B : Type} (m : io A) (f : A → io B) :
  tame m → (∀ a, tame (f a)) → tame (m ≫= f).
Proof.
  intros Hm Hf w. unfold mbind, io_bind. destruct (Hm w) as (n1 & C1 & I1).
  destruct (m w) as [a w1]. destruct (Hf a w1) as (n2 & C2 & I2). simpl in *.
  exists (n2 ++ n1). rewrite C2, C1, app_assoc, installs_app, I1, I2. done.
Qed.
Lemma tame_command `{Env} p args : install_of (p, args) = None → tame (run_command p args).
Proof. intros Hi w. exists [(p, args)]. split; [done|]. unfold installs. simpl. by rewrite Hi. Qed.
Lemma tame_inv {A : Type} (m : io A) w a w1 :
  tame m → m w = (a, w1) → ∃ new, commands w1 = new ++ commands w ∧ installs new = [].
Proof. intros H E. specialize (H w). by rewrite E in H. Qed.

Lemma tame_services `{Env} : tame Services.collect.
Proof.
  assert (Hr : ∀ args, tame (run_systemctl args)).
  { intros args. unfold run_systemctl, run_systemctl_raw.
    apply tame_bind; [|intros; apply tame_quiet, quiet_ret].
    apply tame_bind; [by apply tame_command|]. intros; apply tame_quiet, quiet_ret. }
  unfold Services.collect. apply tame_bind; [apply Hr|]. intros [u|e]; [|apply tame_quiet, quiet_ret].
  apply tame_bind; [apply Hr|]. intros []; apply tame_quiet, quiet_ret.
Qed.
Lemma tame_service `{Env} name : tame (Services.detail name).
Proof.
  unfold Services.detail. cbv zeta. case_match; [apply tame_quiet, quiet_ret|].
  unfold manager_detail, run_systemctl_raw.
  apply tame_bind; [|intros; apply tame_quiet, quiet_ret].
  apply tame_bind; [by apply tame_command|]. intros; apply tame_quiet, quiet_ret.
Qed.

Lemma through_services `{Env} I `{!Inert I} : through I Services.collect.
Proof.
  assert (Hr : ∀ args, through I (run_systemctl args)).
  { intros args. unfold run_systemctl, run_systemctl_raw. keep. }
  unfold Services.collect. apply through_bind; [apply Hr|]. intros [u|e]; [|apply through_ret].
  apply through_bind; [apply Hr|]. intros []; apply through_ret.
Qed.
Lemma through_service `{Env} I `{!Inert I} name : through I (Services.detail name).
Proof.
  unfold Services.detail. cbv zeta. case_match; [apply through_ret|].
  unfold manager_detail, run_systemctl_raw. keep.
Qed.

Lemma quiet_response `{Env, Serde StoreData} u : quiet (response u).
Proof.
  unfold response, apply_pending. apply quiet_bind; [follow|]. intros b.
  apply quiet_bind; [|intros []; apply quiet_ret].
  change (quiet (host_reboot_required (provider u))). unfold host_reboot_required.
  apply quiet_bind; [unfold exists_path; follow|]. intros [].
  - cbn [negb]. case_match; [apply quiet_ret|].
    apply quiet_bind; [unfold fs_read_to_string, fs_read; follow|]. intros.
    apply quiet_bind; [follow|]. intros.
    apply quiet_bind; [apply quiet_change|]. intros []; apply quiet_ret.
  - cbn [negb]. case_match; [|apply quiet_ret].
    apply quiet_bind; [apply quiet_change|]. intros []; apply quiet_ret.
Qed.

(** A computation from [w] to [w'] ended, or stopped at [w1] on the way. *)
Definition stops (w w' w1 : world) : Prop := w1 = w' ∨ cut w w' w1.

Lemma passes_stop I w w' w1 : passes I w w' → I (files w) → stops w w' w1 → I (files w1).
Proof. intros Hp Hi [->|Hc]; [by destruct Hp|by eapply passes_cut]. Qed.

Lemma stop_commands I w w' w1 : passes I w w' → stops w w' w1 →
  ∃ l k, commands w' = l ++ commands w1 ∧ commands w1 = k ++ commands w.
Proof.
  intros (_ & evs & T & _) [->|Hc].
  - exists [], (omap (λ e, match e with Ran p a => Some (p, a) | Touched _ => None end) evs).
    split; [done|]. unfold commands. by rewrite T, omap_app.
  - destruct (cut_commands _ _ _ Hc) as [l Hl]. destruct (cut_commands_old _ _ _ Hc) as [k Hk]. eauto.
Qed.

(** When the whole computation installs nothing, neither does a part of it. *)
Lemma stop_installs I w w' w1 new : passes I w w' → stops w w' w1 →
  commands w' = new ++ commands w → installs new = [] →
  installs (commands w1) = installs (commands w).
Proof.
  intros Hp Hs Hc Hn. destruct (stop_commands _ _ _ _ Hp Hs) as (l & k & H1 & H2).
  rewrite H2 in H1. rewrite H1, app_assoc in Hc. apply app_inv_tail in Hc as <-.
  rewrite installs_app in Hn. apply app_nil in Hn as [_ Hn]. by rewrite H2, installs_app, Hn.
Qed.

(** ** The transition system *)

Section system.
Context {env : Env} {sha : Sha256} {T : TomlValue} {toml : ConfigToml} {token_toml : TokenToml}.
Context {serde : Serde StoreData} {request_serde : Serde ApplyRequest} {result_serde : Serde ApplyResult}.
Context (random_hash : nat → str → N).
Context (ABORA_CONFIG : option str) (bind : SocketAddr → result str ()).
(** The request file, the result file and the store; the configurations and the
    token files that are ever installed on the host. *)
Context (rq rs st : str) (configs : Config → Prop) (keys : TokenStore → Prop).

(** What a running daemon has loaded. *)
Definition loaded (a : AppState) : Prop :=
  configs (AppState.config a) ∧ ∀ s, tokens a = Some s → keys s.
Definition placed (c : Config) : Prop :=
  request_path_of c = rq ∧ state_file (Config.updates c) = st
  ∧ apply_result_file (Config.updates c) = rs.

Definition set_app (a : AppState) (d : running) : running := mkRunning a (d_sched d) (d_pass d) (d_admitted d) (d_tickets d).
Definition let_in (c : str) (d : running) : running :=
  mkRunning (d_app d) (d_sched d) (d_pass d) (c :: d_admitted d) (d_tickets d).
Definition caller_of (a : AppState) (req : Request) : str :=
  default ("loopback (no token)" : str)
    (caller_name (enforced_store (AppState.config a) (tokens a))
       (h ← rq_authorization req; bearer_value h)).

Definition asked_for (asked : option (list str * option str)) : list ticket :=
  match asked with
  | Some (packages, block) => ticket_for AUTOMATIC packages block
  | None => []
  end.

Inductive act : sys → sys → Prop :=
(** the scheduler's loop: the next step of its pass *)
| act_pass w d sc p a asked w' :
    advance (d_sched d) (d_pass d) (d_app d) w = ((sc, p, a, asked), w') →
    act (mkSys w (Some d)) (mkSys w' (Some (mkRunning a sc p (d_admitted d) (asked_for asked ++ d_tickets d))))
(** [POST /updates/apply]: the layer admits a caller *)
| act_admit w d req :
    decide_request (AppState.config (d_app d)) (tokens (d_app d)) ManageUpdates req = Allowed →
    act (mkSys w (Some d)) (mkSys w (Some (let_in (caller_of (d_app d) req) d)))
(** its query is refused *)
| act_drop w d l c k :
    d_admitted d = l ++ c :: k →
    act (mkSys w (Some d)) (mkSys w (Some (mkRunning (d_app d) (d_sched d) (d_pass d) (l ++ k) (d_tickets d))))
(** its handler decides, on what is loaded by then; a dry run or a block ends there *)
| act_decide w d l c k (dry : bool) packages block w' :
    d_admitted d = l ++ c :: k →
    request_decision (AppState.config (d_app d)) (AppState.updates (d_app d)) w = ((packages, block), w') →
    act (mkSys w (Some d))
        (mkSys w' (Some (mkRunning (d_app d) (d_sched d) (d_pass d) (l ++ k)
           ((if dry then [] else ticket_for c packages block) ++ d_tickets d))))
(** the writing of a request that was decided before, a client's or the scheduler's *)
| act_commit w d l t k r w' :
    d_tickets d = l ++ t :: k →
    request_commit random_hash (tk_caller t) (tk_packages t) (AppState.updates (d_app d)) w = (r, w') →
    act (mkSys w (Some d)) (mkSys w' (Some (mkRunning (d_app d) (d_sched d) (d_pass d) (d_admitted d) (l ++ k))))
(** [GET /updates] *)
| act_response w d r u w' :
    response (AppState.updates (d_app d)) w = ((r, u), w') →
    act (mkSys w (Some d)) (mkSys w' (Some (set_app (set_updates u (d_app d)) d)))
(** [GET /services] and [GET /services/{name}] *)
| act_services w d r w' :
    Services.collect w = (r, w') → act (mkSys w (Some d)) (mkSys w' (Some d))
| act_service w d name r w' :
    Services.detail name w = (r, w') → act (mkSys w (Some d)) (mkSys w' (Some d))
(** a request that only looks: ids, clocks, facts of the system *)
| act_read w d w' :
    files w' = files w → trace w' = trace w → act (mkSys w (Some d)) (mkSys w' (Some d))
(** a reload: first the configuration, then, on what it says, the tokens *)
| act_swap w d path fresh w' :
    Config.load path w = (Ok fresh, w') → configs fresh →
    act (mkSys w (Some d)) (mkSys w' (Some (set_app (swap_config fresh (d_app d)) d)))
| act_refresh w d r w' :
    refresh_tokens (d_app d) w = (r, w') → panicked r = false → loaded (after r) →
    act (mkSys w (Some d)) (mkSys w' (Some (set_app (after r) d)))
(** the daemon starts, or fails to *)
| act_start w path r w' :
    Daemon.run ABORA_CONFIG bind path w = (r, w') →
    (∀ s, r = Ret (Ok s) → loaded (start_state s) ∧ placed (AppState.config (start_state s))) →
    act (mkSys w None)
        (mkSys w' match r with
                  | Ret (Ok s) => Some (mkRunning (start_state s) scheduler_start Idle [] [])
                  | _ => None
                  end)
(** the root helper, with or without a daemon *)
| act_helper w d c r w' :
    configs c → request_path_of c = rq → Helper.serve (system_ctx c) rs w = (r, w') →
    act (mkSys w d) (mkSys w' d)
(** anything else on the host *)
| act_outside w d fs :
    (∀ p, p ∈ mine rq rs st → fs !! p = files w !! p) →
    act (mkSys w d) (mkSys (mkWorld fs (calls w) (Touched fs :: trace w)) d).

Inductive sys_step : sys → sys → Prop :=
| sys_act s s' : act s s' → sys_step s s'
(** the machine or the daemon stops, between or inside actions *)
| sys_crash s s' w1 : act s s' → cut (sw s) (sw s') w1 → sys_step s (mkSys w1 None)
(** the helper alone is killed *)
| sys_killed w d c r w' w1 :
    configs c → request_path_of c = rq → Helper.serve (system_ctx c) rs w = (r, w') →
    cut w w' w1 → sys_step (mkSys w d) (mkSys w1 d).

(** A host on which nothing has happened yet. *)
Definition sys_start (s : sys) : Prop :=
  (∀ p, p ∈ mine rq rs st → not_link (files (sw s)) p) ∧ files (sw s) !! rq = None
  ∧ installs (commands (sw s)) = [] ∧ daemon s = None.

Definition sys_reach (s : sys) : Prop := ∃ s0, sys_start s0 ∧ rtc sys_step s0 s.

(** ** Refinement of the protocol *)

Definition offers (l : list str) : Prop :=
  ∃ timeout w out w1, Host.run timeout "apt-get" SIMULATE w = (Ok out, w1)
    ∧ l = names (parse_simulation out).
Definition permitted : Prop :=
  ∃ c t, configs c ∧ told t ∧ apply_permitted (permissions c t) = true.
(** The scheduler itself, or the holder of a token that may manage updates. *)
Definition entitled (caller : str) : Prop :=
  caller = AUTOMATIC ∨ ∃ s b tk, keys s ∧ find b s = Some tk
    ∧ ("manage:updates" : str) ∈ tk_permissions tk
    ∧ caller = default ("unnamed token" : str) (tk_name tk).

Abbreviation steps := (protocol_steps offers entitled permitted).

Record good_ticket (l : list str) (t : ticket) : Prop := {
  gt_caller : entitled (tk_caller t);
  gt_permitted : permitted;
  gt_some : tk_packages t ≠ [];
  gt_once : NoDup (tk_packages t);
  gt_offered p : p ∈ tk_packages t → p ∈ l;
}.
Record good_updates (l : list str) (u : UpdatesState) : Prop := {
  gu_request : apply_request_file u = rq;
  gu_result : apply_result_path u = rs;
  gu_store p : st_path (store u) = Some p → p = st;
  gu_listed x : x ∈ available u → au_component x ∈ l;
}.
Record good_daemon (l : list str) (d : running) : Prop := {
  gd_updates : good_updates l (AppState.updates (d_app d));
  gd_loaded : loaded (d_app d);
  gd_pass c : snapshot (d_pass d) = Some c → configs c;
  gd_admitted : Forall entitled (d_admitted d);
  gd_tickets : Forall (good_ticket l) (d_tickets d);
}.

Definition waiting (r : option ApplyRequest) (o : option node) : Prop :=
  match r with
  | None => o = None
  | Some r => ∃ m t, o = Some (Regular (encode_json r) m t)
  end.
(** What the files and the programs run say of the protocol. *)
Record shows (a : protocol) (w : world) : Prop := {
  sh_links p : p ∈ mine rq rs st → not_link (files w) p;
  sh_pending : waiting (pending a) (files w !! rq);
  sh_installed : installs (commands w) = Protocol.installed a;
}.
Record refines (a : protocol) (s : sys) : Prop := {
  rf_shows : shows a (sw s);
  rf_daemon d : daemon s = Some d → good_daemon (offered a) d;
}.

(** *** What operations do to the daemon's memory *)

Lemma good_updates_more l k u : good_updates l u → good_updates (k ++ l) u.
Proof. intros []. split; try done. intros x Hx. apply elem_of_app. auto. Qed.
Lemma good_ticket_more l k t : good_ticket l t → good_ticket (k ++ l) t.
Proof. intros []. split; try done. intros x Hx. apply elem_of_app. auto. Qed.

Lemma change_path edit s w r s' w' : change edit s w = ((r, s'), w') → st_path s' = st_path s.
Proof. intros H. apply change_cases in H. destruct r; by subst s'. Qed.

Lemma open_path path w s opened w' :
  Store.open path w = (Ok (s, opened), w') → st_path s = Some path.
Proof.
  unfold Store.open. intros H. step_in H as bytes w1 E1. step_in H as r w2 E2.
  destruct r as [[data o]|e]; [|done]. by injection H as <- _ _.
Qed.

Lemma ingest_good l ch u w b u' w' :
  good_updates l u → ingest_apply_result ch u w = ((b, u'), w') → good_updates l u'.
Proof.
  intros [H1 H2 H3 H4] H. unfold ingest_apply_result in H. step_in H as bytes w1 E1.
  destruct bytes as [bytes|e]; [|by injection H as <- <- <-].
  destruct (decode_json bytes) as [r|]; [|by injection H as <- <- <-].
  destruct (negb _ && _); [by injection H as <- <- <-|].
  destruct (already_recorded r u); [by injection H as <- <- <-|].
  unfold record_result in H. step_in H as x w2 E2. destruct x as [rec s].
  apply change_path in E2. injection H as <- <- <-.
  assert (Hg : good_updates l (with_provider (set_store s (provider u)) u)).
  { split; try done. intros q. unfold store. simpl. rewrite E2. apply H3. }
  destruct (is_ok rec && _); [|done]. destruct Hg as [G1 G2 G3 G4]. split; simpl; try done.
  intros x [Hx _]%list_elem_of_In%filter_In. apply H4. by apply list_elem_of_In.
Qed.

Lemma response_good l u w r u' w' :
  good_updates l u → response u w = ((r, u'), w') → good_updates l u'.
Proof.
  intros [H1 H2 H3 H4] H. pose proof (response_inv _ _ _ _ _ H) as [Hs Ha].
  unfold response in H. step_in H as b w1 E1. step_in H as x w2 E2. destruct x as [rb p].
  injection H as <- <- <-. split; try done.
  intros q Hq. apply H3. destruct Hs as [<-|(s' & w3 & w4 & Hc)]; [done|].
  apply change_path in Hc. by rewrite <-Hc.
Qed.

Lemma refresh_good l ch u w r u' w' :
  good_updates l u → refresh ch u w = ((r, u'), w') →
  commands w' = SIMULATION :: commands w
  ∧ ∃ ns, (ns = [] ∨ offers ns) ∧ good_updates (ns ++ l) u'.
Proof.
  intros Hu H. unfold refresh in H. step_in H as x w1 E1. destruct x as [rc p].
  change (host_check ch (provider u) w = (rc, p, w1)) in E1.
  unfold host_check in E1. step_in E1 as out w2 E2. pose proof (run_inv _ _ _ _ _ _ E2) as C2.
  destruct out as [out|e].
  - step_in E1 as t w3 E3. apply readonly_inv in E3 as [_ C3]; [|apply readonly_now].
    step_in E1 as y w4 E4. destruct y as [rec s].
    pose proof (quiet_inv _ _ _ _ (quiet_change _ _) E4) as C4. apply change_path in E4.
    assert (Hg : good_updates l (with_provider (set_store s
      (set_last (LastUpdates ((λ u0, pu_name u0 ++ " " ++ pu_to u0) <$> parse_simulation out)) (provider u))) u)).
    { destruct Hu as [H1 H2 H3 H4]. split; try done. intros q. unfold store. simpl. rewrite E4. apply H3. }
    destruct rec as [[]|e]; injection E1 as <- <- <-; injection H as <- <- <-;
      (split; [rewrite C4, C3, C2; done|]).
    + exists (names (parse_simulation out)). split; [right; by eexists _, _, out, _|].
      apply good_updates_more with (k := names (parse_simulation out)) in Hg.
      destruct Hg as [H1 H2 H3 H4]. split; try done. simpl.
      intros x (p & -> & Hp)%list_elem_of_fmap. apply elem_of_app. left.
      unfold names. apply list_elem_of_fmap. by exists p.
    + exists []. split; [by left|done].
  - injection E1 as <- <- <-. injection H as <- <- <-. split; [done|]. exists [].
    split; [by left|]. by destruct Hu.
Qed.

(** *** What operations do to the files *)

Section refinement.
Context (separate : rq ∉ others rs st) `{!Calm rq rs st}.
(** What is written as JSON is what is read back, if anything is. *)
Context (codec : ∀ r r' : ApplyRequest, decode_json (encode_json r) = Some r' → r' = r).

#[local] Existing Instance tidy_inert.

Abbreviation same o := (tidy rq rs st (λ x, x = o)).

Lemma store_in_good Q l u : good_updates l u → store_in (tidy rq rs st Q) (store u).
Proof. intros H p Hp. rewrite (gu_store _ _ H _ Hp). by apply tidy_store. Qed.

(** What makes the ticket of an automatic or a client's request. *)
Lemma wanted_ticket l u caller :
  good_updates l u → wanted u ≠ [] → entitled caller → permitted →
  good_ticket l (mkTicket caller (wanted u)).
Proof.
  intros Hu Hw Hc Hp. split; simpl; try done.
  - apply dedup_NoDup, sort_str_Sorted.
  - intros p (x & Hx & <-)%wanted_elem. by apply (gu_listed _ _ Hu).
Qed.

Lemma ticket_request l t id now :
  good_ticket l t → valid_request_id id = true →
  proper entitled l (Apply.mkRequest id now (tk_caller t) (tk_packages t)).
Proof. intros [] Hid. by split. Qed.

Lemma decision_passes o c u w packages block w' :
  files w !! rq = o → same o (files w) →
  request_decision c u w = ((packages, block), w') → passes (same o) w w'.
Proof. intros <- Ht H. exact (through_inv _ _ _ _ _ (through_decision _ _ _) Ht H). Qed.

(** A decision that leaves a ticket found the policy open. *)
Lemma decided_ticket l c u caller packages block :
  good_updates l u → configs c → entitled caller → packages = wanted u →
  (block = None → wanted u ≠ [] ∧ ∃ t, told t ∧ apply_permitted (permissions c t) = true) →
  Forall (good_ticket l) (ticket_for caller packages block).
Proof.
  intros Hu Hc He -> Hb. destruct block as [|]; [constructor|].
  destruct (Hb eq_refl) as (Hn & t & Ht & Hp). constructor; [|constructor].
  apply wanted_ticket; try done. by exists c, t.
Qed.

(** A step of the scheduler. *)
Lemma advance_inv l d w sc p a asked w' :
  good_daemon l d → advance (d_sched d) (d_pass d) (d_app d) w = ((sc, p, a, asked), w') →
  (∃ new, commands w' = new ++ commands w ∧ installs new = [])
  ∧ loaded a ∧ (∀ c, snapshot p = Some c → configs c)
  ∧ ∃ ns, (ns = [] ∨ offers ns) ∧ good_updates (ns ++ l) (AppState.updates a)
      ∧ Forall (good_ticket (ns ++ l)) (asked_for asked).
Proof.
  intros [Hu Hl Hs _ _] H. set (prog := d_pass d) in *. destruct prog as [|c|c perms|c perms|c perms]; cbn [advance] in H.
  - injection H as <- <- <- <- <-. split; [by exists []|]. split; [done|].
    split; [intros c [= <-]; apply Hl|]. exists []. split_and!; [by left|done|constructor].
  - step_in H as t w1 E1. apply local_time_inv in E1 as C1. injection H as <- <- <- <- <-.
    split; [by exists [DATE]|]. split; [done|]. split; [done|].
    exists []. split_and!; [by left|by destruct Hu|constructor].
  - step_in H as x w1 E1. destruct x as [b u1]. injection H as <- <- <- <- <-.
    pose proof (ingest_inv _ _ _ _ _ _ E1) as [C1 _].
    split; [by exists []|]. split; [done|]. split; [done|].
    exists []. split_and!; [by left|by eapply ingest_good|constructor].
  - step_in H as x w1 E1. destruct x as [[last ok] u2]. injection H as <- <- <- <- <-.
    apply check_phase_inv in E1 as [(_ & _ & -> & C1 & _)|(C1 & _ & _ & w2 & r & E2 & _)].
    + split; [by exists []|]. split; [done|]. split; [done|].
      exists []. split_and!; [by left|done|constructor].
    + split; [by exists [SIMULATION]|]. split; [done|]. split; [done|].
      apply (refresh_good l) in E2 as [_ (ns & Hns & Hg)]; [|done].
      exists ns. split_and!; [done|done|constructor].
  - step_in H as x w1 E1. destruct x as [la x]. injection H as <- <- <- <- <-.
    apply auto_decision_inv in E1. destruct x as [[packages block]|].
    + destruct E1 as (-> & C1 & _ & _ & Hb). split; [by exists [DATE]|]. split; [done|]. split; [done|].
      exists []. split_and!; [by left|done|]. eapply decided_ticket; try done; [by apply Hs|by left].
    + destruct E1 as [_ C1]. split; [by exists []|]. split; [done|]. split; [done|].
      exists []. split_and!; [by left|done|constructor].
Qed.

Lemma quiet_start path : quiet (Daemon.run ABORA_CONFIG bind path).
Proof.
  unfold Daemon.run, resolve_config, load_from, load_token_store, open_updates, with_updates,
    Config.load, Tokens.load, Store.open, exists_path, metadata, fs_read_to_string, fs_read, rfc3339_now.
  follow.
Qed.

Lemma start_passes o path w r w' :
  same o (files w) → Daemon.run ABORA_CONFIG bind path w = (r, w') →
  (∀ s, r = Ret (Ok s) → placed (AppState.config (start_state s))) →
  passes (same o) w w'
  ∧ ∀ s, r = Ret (Ok s) → good_updates [] (AppState.updates (start_state s)).
Proof.
  intros Ht H Hpl. unfold Daemon.run in H. step_in H as ld w1 E1.
  assert (T1 : through (same o) (resolve_config ABORA_CONFIG path)).
  { unfold resolve_config, load_from, Config.load, exists_path, metadata, fs_read_to_string, fs_read. keep. }
  pose proof (through_inv _ _ _ _ _ T1 Ht E1) as P1.
  destruct ld as [[c source]|e]; [|by injection H as <- <-].
  destruct (validate c) as [[]|]; [|by injection H as <- <-].
  destruct (check_bind_addr c) as [addr|e]; [|by injection H as <- <-].
  step_in H as tk w2 E2.
  assert (T2 : through (same o) (load_token_store c)).
  { unfold load_token_store. destruct (token_file (security c)); [|apply through_ret].
    apply through_bind; [by apply through_token_load|]. intros; apply through_ret. }
  pose proof (passes_trans _ _ _ _ P1 (through_inv _ _ _ _ _ T2 (proj1 P1) E2)) as P2.
  destruct tk as [[tk|e]|]; try by injection H as <- <-.
  destruct (bind addr) as [[]|e]; [|by injection H as <- <-].
  step_in H as u w3 E3. step_in H as s w4 E4. injection H as <- <-.
  unfold with_updates in E4. step_in E4 as t1 w5 E5. step_in E4 as t2 w6 E6. injection E4 as <- <-.
  destruct (Hpl _ eq_refl) as (Hq & Hs & Hr). simpl in Hq, Hs, Hr.
  unfold open_updates in E3. step_in E3 as op w7 E7. injection E3 as <- <-. rewrite Hs in E7.
  assert (T7 : through (same o) (Store.open st)).
  { apply through_open_store; [by apply tidy_store| |].
    - intros fs. apply tidy_delete. apply (in_others rq rs st separate), store_in_others, self_in_family.
    - apply tidy_writable; apply (in_others rq rs st separate), corrupt_in_others. }
  pose proof (passes_trans _ _ _ _ P2 (through_inv _ _ _ _ _ T7 (proj1 P2) E7)) as P3.
  pose proof (passes_trans _ _ _ _ P3 (through_inv _ _ _ _ _ (through_now _) (proj1 P3) E5)) as P4.
  pose proof (passes_trans _ _ _ _ P4 (through_inv _ _ _ _ _ (through_time _) (proj1 P4) E6)) as P5.
  split; [done|]. intros s' [= <-]. simpl.
  destruct op as [[s0 opened]|e]; split; simpl; try done; try by intros ? ?%elem_of_nil.
  intros p Hp. apply open_path in E7. unfold store in Hp. simpl in Hp. congruence.
Qed.

(** *** Stopping anywhere *)

Lemma shows_tidy a w : shows a w → same (files w !! rq) (files w).
Proof. intros []. by split. Qed.

(** A computation that leaves the request file alone and installs nothing. *)
Lemma quiet_stop a w w' w1 new :
  shows a w → passes (same (files w !! rq)) w w' →
  commands w' = new ++ commands w → installs new = [] → stops w w' w1 → shows a w1.
Proof.
  intros Ha Hp Hc Hi Hs. destruct (passes_stop _ _ _ _ Hp (shows_tidy _ _ Ha) Hs) as [Hl Hq].
  split; [done|by rewrite Hq; apply Ha|]. rewrite (stop_installs _ _ _ _ _ Hp Hs Hc Hi). apply Ha.
Qed.

(** One that may write a request. *)
Lemma ask_stop a w w' w1 r new :
  shows a w → permitted → proper entitled (offered a) r →
  passes (tidy rq rs st (old_or_request (files w !! rq) r)) w w' →
  commands w' = new ++ commands w → installs new = [] → stops w w' w1 →
  ∃ a', steps a a' ∧ offered a' = offered a ∧ shows a' w1.
Proof.
  intros Ha Hper Hr Hp Hc Hi Hs.
  assert (Ht : tidy rq rs st (old_or_request (files w !! rq) r) (files w)).
  { split; [apply Ha|by left]. }
  destruct (passes_stop _ _ _ _ Hp Ht Hs) as [Hl Hq].
  pose proof (stop_installs _ _ _ _ _ Hp Hs Hc Hi) as Hin. destruct Hq as [Hq|Hq].
  - exists a. split; [apply rtc_refl|]. split; [done|]. split; [done|by rewrite Hq; apply Ha|].
    rewrite Hin. apply Ha.
  - eexists. split; [by apply rtc_once, (step_ask _ _ _ a r)|]. split; [done|].
    split; [done|exact Hq|]. rewrite Hin. apply Ha.
Qed.

(** Listing offered names changes nothing else. *)
Lemma offer_steps a w ns :
  ns = [] ∨ offers ns → shows a w →
  ∃ a', steps a a' ∧ offered a' = ns ++ offered a ∧ shows a' w.
Proof.
  intros [->|Hn] Ha.
  - exists a. by split; [apply rtc_refl|].
  - eexists. split; [by apply rtc_once, (step_offer _ _ _ a ns)|]. split; [done|]. by destruct Ha.
Qed.

(** The programs of a part of a helper run: at most one install. *)
Lemma part_installs (l k run : list (str * list str)) todo :
  l ++ k = run → installs run = [todo] → installs k = [] ∨ installs k = [todo].
Proof.
  intros <- H. rewrite installs_app in H.
  apply app_eq_unit in H as [[_ H]|[_ H]]; auto.
Qed.

(** What a run of the helper installs, it installs for the request that waits. *)
Lemma helper_installs_waiting a c w r w' :
  shows a w → configs c → request_path_of c = rq → Helper.serve (system_ctx c) rs w = (r, w') →
  ∃ new, commands w' = new ++ commands w ∧
    (installs new = [] ∨ ∃ todo q ns, installs new = [todo] ∧ permitted ∧ pending a = Some q
       ∧ offers ns ∧ todo ≠ [] ∧ ∀ p, p ∈ todo → p ∈ ar_packages q ∧ p ∈ ns).
Proof.
  intros Ha Hc Hq H. apply serve_inv in H as [->|(req & started & o & new & Hp & Hw & Hcm)].
  { exists []. split; [done|by left]. }
  assert (Hpend : pending a = Some req).
  { destruct Hp as (bytes & m & t & n & Hf & _ & _ & Hd & _). rewrite Hq in Hf.
    pose proof (sh_pending _ _ Ha) as Hwait. rewrite Hf in Hwait.
    destruct (pending a) as [q|]; [|done]. destruct Hwait as (m' & t' & [= -> _ _]).
    by rewrite (codec _ _ Hd). }
  assert (Hins : installs new = [] ∨ ∃ todo q ns, installs new = [todo] ∧ permitted
    ∧ pending a = Some q ∧ offers ns ∧ todo ≠ [] ∧ ∀ p, p ∈ todo → p ∈ ar_packages q ∧ p ∈ ns).
  { destruct Hw as [t|t|t up todo Hto Ht Hs -> Hn Hi]; [by left|by left|right].
    exists (todo_of up (ar_packages req)), req, up. split; [done|].
    destruct Hs as (w0 & out & w2 & Hs & Hup). split; [|split; [done|split; [|split; [done|]]]].
    - by exists c, t.
    - by exists INSTALL_TIMEOUT, w0, out, w2.
    - intros p. by rewrite todo_spec. }
  destruct Hcm as [Hcm|[Hcm _]]; [by exists new|exists (REBOOT :: new)]. by split.
Qed.

(** The request is then still there or gone. *)
Lemma take_steps a (o : option node) :
  waiting (pending a) o ∨ o = None →
  ∃ a', steps a a' ∧ offered a' = offered a ∧ Protocol.installed a' = Protocol.installed a
        ∧ waiting (pending a') o.
Proof.
  intros [Ho| ->].
  - exists a. by split; [apply rtc_refl|].
  - eexists. split; [by apply rtc_once, (step_take _ _ _ a)|]. done.
Qed.

Lemma helper_stop a c w r w' w1 :
  shows a w → configs c → request_path_of c = rq → Helper.serve (system_ctx c) rs w = (r, w') →
  stops w w' w1 → ∃ a', steps a a' ∧ offered a' = offered a ∧ shows a' w1.
Proof.
  intros Ha Hc Hq H Hs.
  assert (Htt : tidy rq rs st (λ _, True) (files w)) by (split; [apply Ha|done]).
  pose proof (helper_passes rq rs st separate c w r w' Hq Htt H) as Hp.
  assert (Ht : tidy rq rs st (old_or_none (files w !! rq)) (files w)) by (split; [apply Ha|by left]).
  destruct (passes_stop _ _ _ _ Hp Ht Hs) as [Hl Ho].
  destruct (stop_commands _ _ _ _ Hp Hs) as (l & k & C1 & C2).
  destruct (helper_installs_waiting a c w r w' Ha Hc Hq H) as (new & C & Hn).
  assert (Hlk : l ++ k = new).
  { rewrite C1, C2, app_assoc in C. by apply app_inv_tail in C. }
  assert (∃ a1, steps a a1 ∧ offered a1 = offered a ∧ pending a1 = pending a
    ∧ installs (commands w1) = Protocol.installed a1) as (a1 & S1 & O1 & P1 & I1).
  { assert (Hk : installs k = [] → ∃ a1, steps a a1 ∧ offered a1 = offered a ∧ pending a1 = pending a
      ∧ installs (commands w1) = Protocol.installed a1).
    { intros Hk. exists a. split; [apply rtc_refl|]. split_and!; try done.
      rewrite C2, installs_app, Hk. apply Ha. }
    destruct Hn as [Hn|(todo & q & ns & Hn & Hper & Hpend & Hns & Hne & Hall)].
    - rewrite <-Hlk, installs_app in Hn. apply app_nil in Hn as [_ Hn]. by apply Hk.
    - destruct (part_installs _ _ _ _ Hlk Hn) as [Hk'|Hk']; [by apply Hk|].
      eexists. split; [by apply rtc_once, (step_install _ _ _ a q ns todo)|]. split_and!; try done.
      rewrite C2, installs_app, Hk'. simpl. f_equal. apply Ha. }
  destruct (take_steps a1 (files w1 !! rq)) as (a2 & S2 & O2 & I2 & W2).
  { rewrite P1. destruct Ho as [->|Ho]; [left; apply Ha|by right]. }
  exists a2. split; [by etrans|]. split; [congruence|].
  split; [done|done|congruence].
Qed.

(** *** One action, ended or stopped *)

Definition good_next (l : list str) (s : sys) : Prop :=
  ∀ d, daemon s = Some d → good_daemon l d.

Lemma entitled_caller a req :
  loaded a → decide_request (AppState.config a) (tokens a) ManageUpdates req = Allowed →
  entitled (caller_of a req).
Proof.
  intros [_ Hk] Hd. right.
  destruct (caller_of_mutation _ _ _ _ Hd eq_refl) as (s & h & b & tk & Hs & _ & _ & _ & Hf & Hp & Hc).
  exists s, b, tk. split_and!; [by apply Hk|done|done|]. unfold caller_of. by rewrite Hc.
Qed.

Lemma set_app_good l d a :
  good_daemon l d → good_updates l (AppState.updates a) → loaded a → good_daemon l (set_app a d).
Proof. intros [] ? ?. by split. Qed.

Lemma swap_good l d fresh : configs fresh → good_daemon l d → good_daemon l (set_app (swap_config fresh (d_app d)) d).
Proof.
  intros Hf Hg. apply set_app_good; [done| |].
  - destruct (swap_config_spec fresh (d_app d)) as (_ & -> & _). apply Hg.
  - destruct (swap_config_spec fresh (d_app d)) as (Hc & _ & Ht & _). split; [by rewrite Hc|rewrite Ht; apply Hg].
Qed.

Lemma refresh_quiet a : quiet (refresh_tokens a).
Proof. unfold refresh_tokens, Tokens.load, fs_read_to_string, fs_read. follow. Qed.
Lemma config_load_quiet path : quiet (Config.load path).
Proof. unfold Config.load, fs_read_to_string, fs_read. follow. Qed.

Lemma good_more l k d : good_daemon l d → good_daemon (k ++ l) d.
Proof.
  intros [Hu Hl Hs Hc Ht]. split; [by apply good_updates_more|done|done|done|].
  eapply Stdlib.Lists.List.Forall_impl; [|exact Ht]. intros t. apply good_ticket_more.
Qed.

(** What every action comes to, from a state that shows [a]. *)
Definition answers (a : protocol) (s' : sys) (w1 : world) : Prop :=
  ∃ a', steps a a' ∧ shows a' w1 ∧ good_next (offered a') s'.

Lemma answers_quiet a w w' w1 new d' :
  shows a w → passes (same (files w !! rq)) w w' →
  commands w' = new ++ commands w → installs new = [] → stops w w' w1 →
  good_next (offered a) (mkSys w' d') → answers a (mkSys w' d') w1.
Proof.
  intros Ha Hp Hc Hi Hs Hd. exists a. split; [apply rtc_refl|]. split; [|done]. by eapply quiet_stop.
Qed.

(** An action that only changes the daemon's memory. *)
Lemma answers_same a w d' w1 :
  shows a w → stops w w w1 → good_next (offered a) (mkSys w d') → answers a (mkSys w d') w1.
Proof.
  intros Ha Hs Hd. eapply (answers_quiet a w w w1 []); try done.
  split; [by eapply shows_tidy|]. by exists [].
Qed.

Lemma advance_answers a w d sc p ap asked w' w1 :
  shows a w → good_daemon (offered a) d →
  advance (d_sched d) (d_pass d) (d_app d) w = ((sc, p, ap, asked), w') → stops w w' w1 →
  answers a (mkSys w' (Some (mkRunning ap sc p (d_admitted d) (asked_for asked ++ d_tickets d)))) w1.
Proof.
  intros Ha Hd H Hs.
  pose proof (through_inv _ _ _ _ _ (through_advance _ _ _ _ (store_in_good _ _ _ (gd_updates _ _ Hd)))
    (shows_tidy _ _ Ha) H) as Hp.
  destruct (advance_inv _ _ _ _ _ _ _ _ Hd H) as ((new & C & I) & Hl & Hsn & ns & Hns & Hu & Hau).
  destruct (offer_steps a w ns Hns Ha) as (a1 & S1 & O1 & Ha1).
  destruct (answers_quiet a1 w w' w1 new (Some (mkRunning ap sc p (d_admitted d) (asked_for asked ++ d_tickets d))))
    as (a2 & S2 & Ha2 & Hd2); try done.
  - intros d' [= <-]. rewrite O1. apply (good_more _ ns) in Hd as [_ _ _ ? ?].
    split; try done. by apply Forall_app.
  - exists a2. split; [by etrans|done].
Qed.

Lemma decide_answers a w d l c k (dry : bool) packages block w' w1 :
  shows a w → good_daemon (offered a) d → d_admitted d = l ++ c :: k →
  request_decision (AppState.config (d_app d)) (AppState.updates (d_app d)) w = ((packages, block), w') →
  stops w w' w1 →
  answers a (mkSys w' (Some (mkRunning (d_app d) (d_sched d) (d_pass d) (l ++ k)
    ((if dry then [] else ticket_for c packages block) ++ d_tickets d)))) w1.
Proof.
  intros Ha [Hu Hl Hsn Hc Ht] Had H Hs. rewrite Had in Hc. apply Forall_take_out in Hc as [Hec Hc].
  pose proof (decision_passes _ _ _ _ _ _ _ eq_refl (shows_tidy _ _ Ha) H) as Hp.
  destruct (request_decision_inv _ _ _ _ _ _ H) as (-> & C & Hb).
  eapply (answers_quiet a w w' w1 [DATE]); try done. intros d' [= <-]. split; try done. cbn [d_tickets d_app].
  apply Forall_app. split; [|done]. destruct dry; [constructor|].
  eapply decided_ticket; try done; [apply Hl|]. intros Hn.
  destruct (Hb Hn) as (Hw & t & w0 & Et & Hper). split; [done|]. exists t. split; [by exists w, w0|done].
Qed.

Lemma commit_answers a w d l t k r w' w1 :
  shows a w → good_daemon (offered a) d → d_tickets d = l ++ t :: k →
  request_commit random_hash (tk_caller t) (tk_packages t) (AppState.updates (d_app d)) w = (r, w') →
  stops w w' w1 → answers a (mkSys w' (Some (mkRunning (d_app d) (d_sched d) (d_pass d) (d_admitted d) (l ++ k)))) w1.
Proof.
  intros Ha [Hu Hl Hsn Hc Ht] Htk H Hs. rewrite Htk in Ht. apply Forall_take_out in Ht as [Hgt Ht].
  assert (Htt : tidy rq rs st (λ _, True) (files w)) by (split; [apply Ha|done]).
  destruct (commit_passes rq rs st random_hash _ _ _ _ _ _ (gu_request _ _ Hu) Htt H)
    as (C & id & now & Hid & Hp).
  destruct (ask_stop a w w' w1 _ [] Ha (gt_permitted _ _ Hgt) (ticket_request _ _ id now Hgt Hid) Hp C eq_refl Hs)
    as (a' & S & O & Ha').
  exists a'. split; [done|]. split; [done|]. intros d' [= <-]. rewrite O. by split.
Qed.

Lemma act_stop a s s' w1 : refines a s → act s s' → stops (sw s) (sw s') w1 → answers a s' w1.
Proof.
  intros [Ha Hd] H Hs.
  destruct H as [w d sc p ap asked w' H|w d req Hreq|w d l c k Had|w d l c k dry packages block w' Had H|w d l t k r w' Htk H
    |w d r u w' H|w d r w' H|w d name r w' H|w d w' Hf Htr|w d path fresh w' H Hf|w d r w' H Hnp Hl|w path r w' H Hr|w d c r w' Hc Hq H
    |w d fs Hfs]; simpl in Ha, Hd, Hs; try pose proof (Hd _ eq_refl) as Hg.
  - by eapply advance_answers.
  - apply answers_same; [done..|]. intros d' [= <-]. destruct Hg as [Hu Hl Hsn Hc Ht].
    split; try done. constructor; [by apply entitled_caller|done].
  - apply answers_same; [done..|]. intros d' [= <-]. destruct Hg as [Hu Hl Hsn Hc Ht].
    rewrite Had in Hc. apply Forall_take_out in Hc as [_ Hc]. by split.
  - by eapply decide_answers.
  - by eapply commit_answers.
  - pose proof (gd_updates _ _ Hg) as Hu.
    pose proof (through_inv _ _ _ _ _ (through_response _ _ (store_in_good _ _ _ Hu)) (shows_tidy _ _ Ha) H) as Hp.
    assert (Hq : quiet (response (AppState.updates (d_app d)))) by apply quiet_response.
    eapply (answers_quiet a w w' w1 []); try done; [by apply (quiet_inv _ _ _ _ Hq H)|].
    intros d' [= <-]. apply set_app_good; [done| |by destruct Hg]. by eapply response_good.
  - pose proof (through_inv _ _ _ _ _ (through_services _) (shows_tidy _ _ Ha) H) as Hp.
    destruct (tame_inv _ _ _ _ tame_services H) as (new & C & I).
    by eapply (answers_quiet a w w' w1 new).
  - pose proof (through_inv _ _ _ _ _ (through_service _ name) (shows_tidy _ _ Ha) H) as Hp.
    destruct (tame_inv _ _ _ _ (tame_service name) H) as (new & C & I).
    by eapply (answers_quiet a w w' w1 new).
  - eapply (answers_quiet a w w' w1 []); try done; [|unfold commands; by rewrite Htr].
    split; [rewrite Hf; by apply (shows_tidy a)|]. by exists [].
  - pose proof (through_inv _ _ _ _ _ (through_config_load _ path) (shows_tidy _ _ Ha) H) as Hp.
    eapply (answers_quiet a w w' w1 []); try done; [by apply (quiet_inv _ _ _ _ (config_load_quiet _) H)|].
    intros d' [= <-]. by apply swap_good.
  - pose proof (through_inv _ _ _ _ _ (through_refresh_tokens _ _) (shows_tidy _ _ Ha) H) as Hp.
    eapply (answers_quiet a w w' w1 []); try done; [by apply (quiet_inv _ _ _ _ (refresh_quiet _) H)|].
    intros d' [= <-]. apply set_app_good; [done| |done].
    apply refresh_tokens_inv in H as (_ & -> & _). apply Hg.
  - assert (Hpl : ∀ s, r = Ret (Ok s) → placed (AppState.config (start_state s))) by (intros; by apply Hr).
    destruct (start_passes _ _ _ _ _ (shows_tidy _ _ Ha) H Hpl) as [Hp Hu].
    eapply (answers_quiet a w w' w1 []); try done; [by apply (quiet_inv _ _ _ _ (quiet_start _) H)|].
    intros d' Hd'. simpl in Hd'. destruct r as [[s|e]|]; try done. injection Hd' as <-.
    split; simpl; [|by apply Hr|done|done|done].
    rewrite <-(app_nil_r (offered a)). by apply good_updates_more, Hu.
  - destruct (helper_stop _ _ _ _ _ _ Ha Hc Hq H Hs) as (a' & S & O & Ha').
    exists a'. split; [done|]. split; [done|]. by rewrite O.
  - assert (Ht : same (files w !! rq) fs).
    { split; [intros p Hp t; rewrite Hfs by done; by apply Ha|]. apply Hfs, request_in_mine, self_in_family. }
    eapply (answers_quiet a w _ w1 []); try done.
    split; [done|]. exists [Touched fs]. split; [done|]. constructor; [exact Ht|constructor].
Qed.

Lemma sys_step_refines a s s' :
  refines a s → sys_step s s' → ∃ a', steps a a' ∧ refines a' s'.
Proof.
  intros Ha H. destruct H as [s s' H|s s' w1 H Hc|w d c r w' w1 Hc Hq H Hcut].
  - destruct (act_stop _ _ _ (sw s') Ha H) as (a' & S & Hs & Hd); [by left|]. exists a'. by split.
  - destruct (act_stop _ _ _ w1 Ha H) as (a' & S & Hs & _); [by right|]. exists a'. by split.
  - destruct Ha as [Ha Hd]. destruct (helper_stop _ _ _ _ _ w1 Ha Hc Hq H) as (a' & S & O & Hs); [by right|].
    exists a'. split; [done|]. split; [done|]. simpl. by rewrite O.
Qed.

Lemma sys_reach_refines s : sys_reach s → ∃ a, steps protocol_start a ∧ refines a s.
Proof.
  intros (s0 & (Hl & Hn & Hi & Hd) & Hs).
  assert (H0 : refines protocol_start s0) by by (split; [by split|rewrite Hd]).
  clear Hl Hn Hi Hd. revert H0. generalize protocol_start. induction Hs as [s|s s1 s2 H1 _ IH]; intros a Ha.
  - exists a. by split; [apply rtc_refl|].
  - destruct (sys_step_refines _ _ _ Ha H1) as (a1 & S1 & Ha1).
    destruct (IH a1 Ha1) as (a2 & S2 & Ha2). exists a2. split; [by etrans|done].
Qed.

(** *** Passes *)

Lemma sys_acts s s' : rtc act s s' → rtc sys_step s s'.
Proof. intros H. eapply rtc_subrel, H. exact sys_act. Qed.

(** A step that does not end the pass in [H]: which it is, and that it asks nothing. *)
#[local] Ltac next_of H Hstep w :=
  let x := fresh "x" in let E := fresh "E" in let p := fresh "p" in
  let N := fresh "N" in let A := fresh "A" in let Q := fresh "Q" in
  step_in H as x w E; destruct x as [[[? p] ?] ?];
  apply Hstep in E as (N & A & Q); destruct p; try done;
  rewrite (Q ltac:(done)) in A; clear Q N.

(** A whole pass, with nothing in between. *)
Lemma pass_actions w d sc a asked w' :
  d_pass d = Idle → pass random_hash (d_sched d) (d_app d) w = ((sc, a, asked), w') →
  rtc act (mkSys w (Some d)) (mkSys w' (Some (mkRunning a sc Idle (d_admitted d) (d_tickets d)))).
Proof.
  intros Hi H. destruct d as [a0 sc0 p0 adm tks]. simpl in *. subst p0. rewrite pass_in_steps in H.
  assert (Hstep : ∀ w0 w1 sc1 p ap sc' p' ap' x, advance sc1 p ap w0 = ((sc', p', ap', x), w1) →
    next_step p p' ∧ act (mkSys w0 (Some (mkRunning ap sc1 p adm tks)))
        (mkSys w1 (Some (mkRunning ap' sc' p' adm (asked_for x ++ tks))))
    ∧ (p' ≠ Idle → x = None)).
  { intros w0 w1 sc1 p ap sc' p' ap' x E. pose proof (advance_next _ _ _ _ _ _ _ _ _ E) as [Hn Hx].
    split; [done|]. split; [by apply (act_pass w0 (mkRunning ap sc1 p adm tks))|]. by destruct Hx. }
  next_of H Hstep w1. next_of H Hstep w2. next_of H Hstep w3. next_of H Hstep w4.
  step_in H as x w5 E. destruct x as [[[s5 p5] a5] q5]. apply Hstep in E as (N5 & A5 & _). destruct p5; try done.
  do 4 (eapply rtc_l; [eassumption|]). eapply rtc_l; [exact A5|].
  destruct q5 as [[packages [reason|]]|]; [by injection H as <- <- <- <-| |by injection H as <- <- <- <-].
  step_in H as r w6 E. injection H as <- <- <- <-. apply rtc_once.
  exact (act_commit w5 (mkRunning a5 s5 Idle adm (mkTicket AUTOMATIC packages :: tks)) [] (mkTicket AUTOMATIC packages) tks r w6 eq_refl E).
Qed.

(** *** Races *)

(** Where no request waits, none is said to be. *)
Lemma decision_free l c u w packages block w' :
  good_updates l u → tidy rq rs st (λ o, o = None) (files w) →
  request_decision c u w = ((packages, block), w') → block ≠ Some APPLYING.
Proof.
  intros Hu Ht H. unfold request_decision in H. cbv zeta in H. step_in H as t w1 E1.
  pose proof (through_inv _ _ _ _ _ (through_local_time _) Ht E1) as [[_ Hn] _].
  step_in H as b w2 E2. pose proof (pending_inv _ _ _ _ E2) as Hp.
  rewrite (gu_request _ _ Hu), Hn in Hp.
  destruct Hp as [(nd & _ & [=])|[-> _]]. injection H as _ <- _.
  destruct (bool_decide _); [discriminate|]. destruct (negb _); discriminate.
Qed.

(** A writing that is answered has replaced the file. *)
Lemma commit_written l caller packages u w a w' :
  good_updates l u → not_link (files w) (tmp_path rq) →
  request_commit random_hash caller packages u w = (Ok a, w') →
  ∃ id now m t, ap_id a = Some id
    ∧ files w' !! rq = Some (Regular (encode_json (Apply.mkRequest id now caller packages)) m t).
Proof.
  intros Hu Hl H. unfold request_commit in H. rewrite (gu_request _ _ Hu) in H.
  step_in H as id w1 E1. apply readonly_inv in E1 as [F1 _]; [|apply readonly_request_id].
  step_in H as now w2 E2. apply readonly_inv in E2 as [F2 _]; [|apply readonly_now].
  cbv zeta in H. set (req := Apply.mkRequest id now caller packages) in *.
  step_in H as x w3 E3. destruct x as [[]|e]; [|done]. injection H as <- <-.
  pose proof (write_atomic_spec rq (encode_json req) 384 (files w2 !! rq)
    (mode_of (files w2) (tmp_path rq) 384) w2) as Hs.
  rewrite E3 in Hs. destruct Hs as [_ [t Hs]]; [by split_and!; [|rewrite F2, F1|]|].
  by eexists id, now, _, t.
Qed.

(** ** Properties *)



(** C14: the decision and the writing are not one step. On a host with no
    request waiting, of two callers that both decide before either writes, neither
    is told that an update is being applied; and when both then write, both are
    answered with an id of their own, but the file holds the request of the second
    alone, whole. *)
Theorem racing_requests l c u w p1 b1 w1 p2 b2 w2 :
  good_updates l u → tidy rq rs st (λ o, o = None) (files w) →
  request_decision c u w = ((p1, b1), w1) → request_decision c u w1 = ((p2, b2), w2) →
  b1 ≠ Some APPLYING ∧ b2 ≠ Some APPLYING ∧ files w2 !! rq = None
  ∧ ∀ caller1 a1 w3 caller2 a2 w4,
      request_commit random_hash caller1 p1 u w2 = (Ok a1, w3) →
      request_commit random_hash caller2 p2 u w3 = (Ok a2, w4) →
      is_Some (ap_id a1) ∧ ∃ id now m t, ap_id a2 = Some id
        ∧ files w4 !! rq = Some (Regular (encode_json (Apply.mkRequest id now caller2 p2)) m t).
Proof.
  intros Hu Ht H1 H2. assert (Hn : files w !! rq = None) by apply Ht.
  destruct (decision_passes _ _ _ _ _ _ _ Hn Ht H1) as [Ht1 _].
  assert (Hn1 : files w1 !! rq = None) by apply Ht1.
  destruct (decision_passes _ _ _ _ _ _ _ Hn1 Ht1 H2) as [Ht2 _].
  split; [exact (decision_free _ _ _ _ _ _ _ Hu Ht H1)|].
  split; [exact (decision_free _ _ _ _ _ _ _ Hu Ht1 H2)|]. split; [apply Ht2|].
  intros caller1 a1 w3 caller2 a2 w4 C1 C2.
  assert (Htt : tidy rq rs st (λ _, True) (files w2)) by (split; [apply Ht2|done]).
  destruct (commit_passes rq rs st random_hash _ _ _ _ _ _ (gu_request _ _ Hu) Htt C1)
    as (_ & id1 & now1 & _ & [Ht3 _]).
  destruct (commit_written _ _ _ _ _ _ _ Hu (tidy_tmp _ _ _ _ _ Ht2) C1) as (i1 & n1 & m1 & t1 & -> & _).
  destruct (commit_written _ _ _ _ _ _ _ Hu (tidy_tmp _ _ _ _ _ Ht3) C2) as (i2 & n2 & m2 & t2 & -> & H).
  split; [by eexists|]. by exists i2, n2, m2, t2.
Qed.

End refinement.

End system.

(** ** An example: a whole automatic update

    The daemon starts on a host with one pending update, its first pass checks
    and asks, the helper installs, and the second pass records the result. *)

Section example.
#[local] Instance ex_env : Env := example_env.
#[local] Instance ex_T : TomlValue := example_toml.
#[local] Instance ex_request : Serde ApplyRequest := request_codec.
#[local] Instance ex_result : Serde ApplyResult := example_serde done_result.
#[local] Instance ex_store : Serde StoreData := example_serde store_default.
#[local] Existing Instance example_sha.

Definition auto_config : Config :=
  mkConfig _ system_default
    (mkUpdates Stable true "6h" Ask (state_file updates_default) (apply_result_file updates_default))
    (Config.maintenance example_config) remote_default
    security_default logging_default api_default (mkFeatures ∅) ∅.
#[local] Instance ex_toml : ConfigToml := λ _, Ok auto_config.
#[local] Instance ex_tokens : TokenToml := λ _, Err [].
Definition ex_rq : str := request_path_of auto_config.
Definition ex_st : str := state_file updates_default.
Definition ex_rs : str := apply_result_file updates_default.
Definition ex_hash : nat → str → N := λ _ _, 7%N.
Definition ex_bind : SocketAddr → result str () := λ _, Ok ().

Definition ex_world : world := mkWorld {[ ("/c" : str) := Regular "" 420 0 ]} 0 [].
Definition ex_started := Daemon.run None ex_bind (Some ("/c" : str)) ex_world.
Definition ex_app : AppState :=
  match fst ex_started with
  | Ret (Ok s) => start_state s
  | _ => mkAppState auto_config 0 None 0 [] example_state
  end.
Definition ex_pass1 := pass ex_hash scheduler_start ex_app (snd ex_started).
Definition ex_helped := Helper.serve (system_ctx auto_config) ex_rs (snd ex_pass1).
Definition ex_pass2 := pass ex_hash (fst (fst (fst ex_pass1))) (snd (fst (fst ex_pass1))) (snd ex_helped).
Definition ex_sys : sys :=
  mkSys (snd ex_pass2) (Some (mkRunning (snd (fst (fst ex_pass2))) (fst (fst (fst ex_pass2))) Idle [] [])).

(** The kernel unfolds the states before the passes that compute them. *)
#[local] Strategy expand [ex_pass1 ex_pass2 ex_helped ex_started].

Abbreviation ex_reachable := (sys_reach ex_hash None ex_bind ex_rq ex_rs ex_st (λ _, True) (λ _, True)).

Lemma quadruple {A B C D : Type} (x : A * B * C * D) :
  x = (fst (fst (fst x)), snd (fst (fst x)), snd (fst x), snd x).
Proof. by destruct x as [[[] ?] ?]. Qed.

Lemma ex_separate : ex_rq ∉ others ex_rs ex_st.
Proof. apply (bool_decide_eq_true_1 (ex_rq ∉ others ex_rs ex_st)). vm_compute. reflexivity. Qed.
#[local] Instance ex_calm : Calm ex_rq ex_rs ex_st.
Proof. done. Qed.
Lemma ex_codec (r r' : ApplyRequest) : decode_json (encode_json r) = Some r' → r' = r.
Proof.
  assert (H : decode_json (encode_json r) = Some r) by exact (request_codec_ok r I).
  intros H'. congruence.
Qed.

Lemma ex_act_start : act ex_hash None ex_bind ex_rq ex_rs ex_st (λ _, True) (λ _, True)
  (mkSys ex_world None) (mkSys (snd ex_started) (Some (mkRunning ex_app scheduler_start Idle [] []))).
Proof.
  pose proof (act_start ex_hash None ex_bind ex_rq ex_rs ex_st (λ _, True) (λ _, True)
    ex_world (Some ("/c" : str)) (fst ex_started) (snd ex_started) (surjective_pairing _)) as H.
  assert (E : ∃ s, fst ex_started = Ret (Ok s) ∧ AppState.config (start_state s) = auto_config).
  { eexists. split; vm_compute; reflexivity. }
  destruct E as (s & E & Ec). unfold ex_app. rewrite E in *. apply H.
  intros s' [= <-]. split; [done|]. by rewrite Ec.
Qed.

Lemma ex_reach : ex_reachable ex_sys.
Proof.
  exists (mkSys ex_world None). split.
  { split_and!; try done. intros p _ t. unfold ex_world. simpl.
    destruct (decide (p = ("/c" : str))) as [->|Hn];
      [by rewrite lookup_singleton_eq|by rewrite lookup_singleton_ne]. }
  eapply rtc_l; [apply sys_act, ex_act_start|].
  etrans; [apply sys_acts, (pass_actions _ _ _ _ _ _ _ _ _ (mkRunning ex_app scheduler_start Idle [] [])
    (fst (fst (fst ex_pass1))) (snd (fst (fst ex_pass1))) (snd (fst ex_pass1)) (snd ex_pass1));
    [done|exact (quadruple ex_pass1)]|].
  eapply rtc_l; [apply sys_act, (act_helper _ _ _ _ _ _ _ _ _ _ auto_config (fst ex_helped)); [done|done|];
    exact (surjective_pairing ex_helped)|].
  apply sys_acts. refine (pass_actions _ _ _ _ _ _ _ _ _
    (mkRunning (snd (fst (fst ex_pass1))) (fst (fst (fst ex_pass1))) Idle [] [])
    (fst (fst (fst ex_pass2))) (snd (fst (fst ex_pass2))) (snd (fst ex_pass2)) (snd ex_pass2) eq_refl _).
  exact (quadruple ex_pass2).
Qed.



Lemma pair_of {A B : Type} (x : A * B) a : fst x = a → x = (a, snd x).
Proof. by destruct x; intros <-. Qed.

(** Two clients ask at once, before the automatic request. *)
Definition race_u : UpdatesState := AppState.updates (snd (fst (fst ex_pass1))).
Definition race1 := request_decision auto_config race_u (snd ex_started).
Definition race2 := request_decision auto_config race_u (snd race1).
Definition race3 := request_commit ex_hash "first" ["zlib1g" : str] race_u (snd race2).
Definition race4 := request_commit ex_hash "second" ["zlib1g" : str] race_u (snd race3).

Lemma racing_requests_witness :
  is_ok (fst race3) = true ∧ is_ok (fst race4) = true
  ∧ ∃ id now m t, files (snd race4) !! ex_rq
      = Some (Regular (encode_json (Apply.mkRequest id now "second" ["zlib1g" : str])) m t).
Proof.
  assert (Hu : good_updates ex_rq ex_rs ex_st ["zlib1g" : str] race_u).
  { assert (Ep : st_path (store race_u) = Some ex_st) by (vm_compute; reflexivity).
    split; [vm_compute; reflexivity|vm_compute; reflexivity|intros p Hp; rewrite Ep in Hp; injection Hp as Hp; symmetry; exact Hp|].
    intros x Hx. assert (E : au_component <$> available race_u = ["zlib1g" : str]) by (vm_compute; reflexivity).
    rewrite <-E. apply list_elem_of_fmap. exists x. split; [reflexivity|exact Hx]. }
  assert (Ht : tidy ex_rq ex_rs ex_st (λ o, o = None) (files (snd ex_started))).
  { split; [|vm_compute; reflexivity]. intros p _ t E.
    assert (F : files (snd ex_started) = files ex_world) by (vm_compute; reflexivity).
    rewrite F in E. simpl in E. apply lookup_singleton_Some in E as [_ E]. discriminate E. }
  assert (E1 : fst race1 = (["zlib1g" : str], None)) by (vm_compute; reflexivity).
  assert (E2 : fst race2 = (["zlib1g" : str], None)) by (vm_compute; reflexivity).
  assert (E3 : ∃ a, fst race3 = Ok a) by (eexists; vm_compute; reflexivity).
  assert (E4 : ∃ a, fst race4 = Ok a) by (eexists; vm_compute; reflexivity).
  destruct E3 as [a3 E3]. destruct E4 as [a4 E4].
  split; [rewrite E3; reflexivity|]. split; [rewrite E4; reflexivity|].
  apply pair_of in E1, E2, E3, E4.
  destruct (racing_requests (env := ex_env) (T := ex_T) (request_serde := ex_request) ex_hash ex_rq ex_rs ex_st _ auto_config race_u (snd ex_started) _ _ (snd race1)
    _ _ (snd race2) Hu Ht E1 E2) as (_ & _ & _ & H).
  destruct (H "first" a3 (snd race3) "second" a4 (snd race4) E3 E4) as (_ & id & now & m & t & _ & Hf).
  exists id, now, m, t. exact Hf.
Defined.

Example ex_ran : commands (snd ex_pass2) =
  [SIMULATION; DATE; INSTALL ["zlib1g" : str]; SIMULATION; DATE; DATE; SIMULATION; DATE].
Proof. vm_compute. reflexivity. Qed.

End example.
