(* ===== verification/Passes.v ===== *)
(** * aborad: passes that overlap

    A pass of the loop of [services/aborad/src/scheduler.rs] takes a snapshot of the
    configuration and works on it to its end, across a check that may take as long as
    [COMMAND_TIMEOUT]; requests and reloads come between its steps. What it decides
    is measured against the snapshot, not against what is loaded by then. *)

From S2P Require Import Prelude Str World Frame Net Log Version Types Store Host Apply Protocol Config Schedule Helper Tokens Api Auth State Server AppState Scheduler Reload Daemon Ops System.

Section passes.
Context {env : Env} {sha : Sha256} {T : TomlValue} {toml : ConfigToml} {token_toml : TokenToml}.
Context {serde : Serde StoreData} {request_serde : Serde ApplyRequest} {result_serde : Serde ApplyResult}.

(** One step of the loop, in the daemon; with what was decided about an automatic
    apply. *)
Definition tick (d : running) : io (running * option (list str * option str)) :=
  '(st, p, a, asked) ← advance (d_sched d) (d_pass d) (d_app d);
  mret (mkRunning a st p (d_admitted d) (asked_for asked ++ d_tickets d), asked).

(** A step, and [gap] after it: whatever else the daemon does. *)
Definition step_and (gap : running → io running) (d : running) : io running :=
  '(d, _) ← tick d; gap d.

(** A pass, with a gap between its steps. *)
Definition pass_across (gap : running → io running) (d : running) : io (running * option (list str * option str)) :=
  d ← step_and gap d;
  d ← step_and gap d;
  d ← step_and gap d;
  d ← step_and gap d;
  tick d.

(** Nothing else touches the variables of the loop. *)
Definition apart (gap : running → io running) : Prop :=
  ∀ d w d' w', gap d w = (d', w') → d_sched d' = d_sched d ∧ d_pass d' = d_pass d.

(** ** Lemmas *)

(** What the loop has come to, at each point of a pass that began with [cfg] and the
    last automatic attempt [la]. *)
Definition under (cfg : Config) (la : option N) (st : SchedulerState) (p : progress) : Prop :=
  last_auto_attempt st = la ∧
  match p with
  | Idle => True
  | Began c => c = cfg
  | Published c perms | Ingested c perms | Checked c perms =>
      c = cfg ∧ previous st = Some perms ∧ ∃ t, told t ∧ perms = permissions cfg t
  end.

Lemma tick_under cfg la d w d' asked w' :
  d_pass d ≠ Idle → under cfg la (d_sched d) (d_pass d) → tick d w = ((d', asked), w') →
  d_pass d' ≠ Idle → under cfg la (d_sched d') (d_pass d').
Proof.
  intros Hne [Hla Hu] H Hne'. unfold tick in H. step_in H as x w1 E. destruct x as [[[st p] a] q]. injection H as <- _ _.
  simpl in *. destruct (d_pass d) as [|c|c perms|c perms|c perms]; cbn [advance] in E; [done| | | |].
  - step_in E as t w2 E2. injection E as <- <- _ _ _. subst c. split; [done|]. split_and!; try done.
    exists t. split; [by exists w, w2|done].
  - step_in E as x w2 E2. destruct x. by injection E as <- <- _ _ _.
  - step_in E as x w2 E2. destruct x as [[] ?]. by injection E as <- <- _ _ _.
  - step_in E as x w2 E2. destruct x. by injection E as <- <- _ _ _.
Qed.

Lemma tick_next d w d' asked w' : tick d w = ((d', asked), w') → next_step (d_pass d) (d_pass d').
Proof.
  intros H. unfold tick in H. step_in H as x w1 E. destruct x as [[[st p] a] q]. injection H as <- _ _.
  by apply advance_next in E as [? _].
Qed.

(** The decision of a pass, by what its snapshot says. *)
Definition decided (cfg : Config) (la : option N) (d' : running) (asked : option (list str * option str)) : Prop :=
  ∃ t, told t ∧ previous (d_sched d') = Some (permissions cfg t) ∧
  match asked with
  | None => last_auto_attempt (d_sched d') = la
  | Some (packages, block) =>
      installs_permitted (permissions cfg t) = true ∧ packages = wanted (AppState.updates (d_app d'))
      ∧ (∃ n, last_auto_attempt (d_sched d') = Some (system_time n)
           ∧ ∀ b, la = Some b → ∃ m, (check_interval_of cfg ≤ system_time m - b)%N)
      ∧ (block = None → packages ≠ [] ∧ mkTicket AUTOMATIC packages ∈ d_tickets d'
           ∧ ∃ t', told t' ∧ apply_permitted (permissions cfg t') = true)
  end.

Lemma tick_decides cfg la c perms d w d' asked w' :
  d_pass d = Checked c perms → under cfg la (d_sched d) (d_pass d) → tick d w = ((d', asked), w') →
  d_pass d' = Idle ∧ decided cfg la d' asked.
Proof.
  intros Hp [Hla Hu] H. unfold tick in H. rewrite Hp in *. destruct Hu as (-> & Hpr & t & Ht & ->).
  step_in H as x w1 E. destruct x as [[[st p] a] q]. injection H as <- <- <-.
  cbn [advance] in E. step_in E as x w2 E2. destruct x as [la' q']. injection E as <- <- <- <- _.
  split; [done|]. exists t. split; [done|]. split; [done|]. rewrite Hla in E2.
  apply auto_decision_inv in E2. destruct q' as [[packages block]|]; [|by destruct E2].
  destruct E2 as (-> & _ & Hi & Hn & Hb). split_and!; try done. intros ->. destruct (Hb eq_refl) as (Hw & t' & Ht').
  split; [done|]. split; [apply elem_of_cons; by left|by exists t'].
Qed.

(** A step in the middle of a pass, and what comes after it. *)
Lemma step_and_under cfg la gap d w d' w' :
  apart gap → d_pass d ≠ Idle → under cfg la (d_sched d) (d_pass d) → step_and gap d w = (d', w') →
  next_step (d_pass d) (d_pass d') ∧ (d_pass d' ≠ Idle → under cfg la (d_sched d') (d_pass d')).
Proof.
  intros Hg Hne Hu H. unfold step_and in H. step_in H as x w1 E. destruct x as [d1 q].
  destruct (Hg _ _ _ _ H) as [Gs Gp]. rewrite Gs, Gp. split; [by eapply tick_next|]. by eapply tick_under.
Qed.

Section actions.
Context (random_hash : nat → str → N) (ABORA_CONFIG : option str) (bind : SocketAddr → result str ()).
Context (rq rs st : str) (configs : Config → Prop) (keys : TokenStore → Prop).

Abbreviation actions := (rtc (act random_hash ABORA_CONFIG bind rq rs st configs keys)).

(** What else the daemon does is some of the actions of the system. *)
Definition acting (gap : running → io running) : Prop :=
  ∀ d w d' w', gap d w = (d', w') → actions (mkSys w (Some d)) (mkSys w' (Some d')).

Lemma tick_action d w d' asked w' : tick d w = ((d', asked), w') → actions (mkSys w (Some d)) (mkSys w' (Some d')).
Proof.
  intros H. unfold tick in H. step_in H as x w1 E. destruct x as [[[st0 p] a] q]. injection H as <- _ <-.
  apply rtc_once. by apply act_pass.
Qed.

Lemma step_and_action gap d w d' w' :
  acting gap → step_and gap d w = (d', w') → actions (mkSys w (Some d)) (mkSys w' (Some d')).
Proof.
  intros Hg H. unfold step_and in H. step_in H as x w1 E. destruct x as [d1 q].
  etrans; [by eapply tick_action|by apply Hg].
Qed.


End actions.

End passes.

(** ** Example: a reload during the check turns automatic updates off *)

Section witness.
#[local] Instance p_env : Env := example_env.
#[local] Instance p_T : TomlValue := example_toml.
#[local] Instance p_request : Serde ApplyRequest := request_codec.
#[local] Instance p_result : Serde ApplyResult := example_serde done_result.
#[local] Instance p_store : Serde StoreData := example_serde store_default.
#[local] Instance p_toml : ConfigToml := ex_toml.
#[local] Instance p_tokens : TokenToml := ex_tokens.
#[local] Existing Instance example_sha.

Definition p_off : Config :=
  mkConfig _ system_default
    (mkUpdates Stable false "6h" Ask (state_file updates_default) (apply_result_file updates_default))
    (Config.maintenance example_config) remote_default
    security_default logging_default api_default (mkFeatures ∅) ∅.
Definition p_daemon : running := mkRunning ex_app scheduler_start Idle [] [].
(** The configuration half of a reload, when the result has been looked for. *)
Definition p_gap (d : running) : io running := λ w,
  (if d_pass d is Ingested _ _ then set_app (swap_config p_off (d_app d)) d else d, w).
Definition p_run := pass_across p_gap p_daemon (snd ex_started).
#[local] Strategy expand [p_run].

Lemma p_apart : apart p_gap.
Proof. intros d w d' w' [= <- <-]. by destruct (d_pass d) eqn:E; rewrite ?E. Qed.


End witness.
