(* ===== verification/Live.v ===== *)
(** * What is asked is answered

    On a host whose system calls do not fail, a run of the helper takes the request
    that waits and leaves a result, and the next pass of the scheduler records it,
    whatever policy and the package manager decide. *)

From S2P Require Import Prelude Str World Replace Frame Net Log Version Types Store Host Apply Protocol Config Schedule Helper Tokens Api Auth State Server AppState Scheduler Reload Daemon Ops System.

(** ** Replacing a file on a host where nothing fails *)

(** A path that can be replaced: it and its temporary file are files or absent,
    its directory is a directory or can be made. *)
Record ready (p : str) (fs : files_t) : Prop := {
  rdy_link : not_link fs (tmp_path p);
  rdy_tmp : fs !! tmp_path p ≠ Some Directory;
  rdy_file : fs !! p ≠ Some Directory;
  rdy_parent d : parent_dir p = Some d → d ≠ tmp_path p ∧ ∀ b m t, fs !! d ≠ Some (Regular b m t);
  rdy_parent_link d : parent_dir p = Some d → not_link fs d;
}.

Section replace.
Context {env : Env} (steady : ∀ n, io_fault n = None).

(** A write call that does not fail. *)
Lemma steady_write (P : files_t → Prop) (Q : files_t → Prop) on_fault f :
  (∀ n fs, P fs → ∃ fs', f n fs = Ok fs' ∧ Q fs') →
  spec (λ w, P (files w)) (syscall_write on_fault f) (λ r w, r = Ok () ∧ Q (files w)).
Proof.
  intros H w Hw. unfold syscall_write. rewrite steady.
  destruct (H (calls w) (files w) Hw) as (fs' & E & HQ). by rewrite E.
Qed.

Lemma steady_create p d : parent_dir p = Some d →
  spec (λ w, ready p (files w)) (create_dir_all d) (λ r w, r = Ok () ∧ ready p (files w)).
Proof.
  intros Hd. apply (steady_write (ready p) (ready p)). intros n fs [H1 H2 H3 H4 H5].
  destruct (H4 d Hd) as [Hne Hreg]. pose proof (parent_dir_ne _ _ Hd) as Hnp.
  destruct (fs !! d) as [[]|] eqn:E; [by edestruct Hreg|by eexists|by eexists|].
  eexists. split; [done|]. split.
  - intros t. rewrite lookup_insert_ne by done. apply H1.
  - by rewrite lookup_insert_ne.
  - by rewrite lookup_insert_ne.
  - intros d' Hd'. assert (d' = d) as -> by congruence. rewrite lookup_insert_eq. by split.
  - intros d' Hd' t. assert (d' = d) as -> by congruence. by rewrite lookup_insert_eq.
Qed.

(** With the temporary file there. *)
Definition staged_at (p : str) (fs : files_t) : Prop :=
  (∃ b m t, fs !! tmp_path p = Some (Regular b m t)) ∧ fs !! p ≠ Some Directory.

Lemma steady_open p m :
  spec (λ w, ready p (files w)) (open_truncate (tmp_path p) m) (λ r w, r = Ok () ∧ staged_at p (files w)).
Proof.
  apply (steady_write (ready p) (staged_at p)). intros n fs [H1 H2 H3 H4 _].
  rewrite (resolve_not_link _ _ H1). pose proof (tmp_path_ne p).
  assert (Hs : ∀ b mo t, staged_at p (<[tmp_path p := Regular b mo t]> fs)).
  { intros b mo t. split; [exists b, mo, t; apply lookup_insert_eq|]. by rewrite lookup_insert_ne. }
  destruct (fs !! tmp_path p) as [[]|] eqn:E; [by eexists|by destruct (H1 target)|done|by eexists].
Qed.

Lemma steady_write_all p bytes :
  spec (λ w, staged_at p (files w)) (write_all (tmp_path p) bytes) (λ r w, r = Ok () ∧ staged_at p (files w)).
Proof.
  apply (steady_write (staged_at p) (staged_at p)). intros n fs [(b & m & t & E) H].
  eexists. split; [done|]. unfold set_bytes.
  rewrite resolve_not_link by (intros x; by rewrite E). rewrite E. split.
  - eexists _, _, _. apply lookup_insert_eq.
  - by rewrite lookup_insert_ne by apply tmp_path_ne.
Qed.

Lemma steady_rename p :
  spec (λ w, staged_at p (files w)) (rename (tmp_path p) p) (λ r w, r = Ok () ∧ True).
Proof.
  apply (steady_write (staged_at p) (λ _, True)). intros n fs [(b & m & t & E) H]. rewrite E.
  destruct (fs !! p) as [[]|]; try done; by eexists.
Qed.

(** The whole replacement succeeds. *)
Lemma steady_staged p m bytes w :
  ready p (files w) →
  fst ((try (try (open_truncate (tmp_path p) m) (λ _, try (write_all (tmp_path p) bytes) (λ _, sync_all)))
          (λ _, rename (tmp_path p) p)) w) = Ok ().
Proof.
  intros Hr. unfold try, mbind, io_bind.
  destruct (steady_open p m w Hr) as [E1 S1].
  destruct (open_truncate (tmp_path p) m w) as [r1 w1]. simpl in E1, S1. subst r1.
  destruct (steady_write_all p bytes w1 S1) as [E2 S2].
  destruct (write_all (tmp_path p) bytes w1) as [r2 w2]. simpl in E2, S2. subst r2.
  unfold sync_all, syscall. rewrite steady. simpl.
  by destruct (steady_rename p (mkWorld (files w2) (S (calls w2)) (trace w2)) S2) as [-> _].
Qed.

Lemma steady_write_atomic p bytes m w r w' :
  ready p (files w) → write_atomic p bytes m w = (r, w') → r = Ok ().
Proof.
  intros Hr H. unfold write_atomic, try at 1 in H. step_in H as r0 w0 E0.
  assert (Hw0 : r0 = Ok () ∧ ready p (files w0)).
  { destruct (parent_dir p) as [d|] eqn:Ed.
    - pose proof (steady_create p d Ed w Hr) as H0. by rewrite E0 in H0.
    - by injection E0 as <- <-. }
  destruct Hw0 as [-> Hr0]. step_in H as r1 w1 E1.
  pose proof (steady_staged p m bytes w0 Hr0) as Hs. rewrite E1 in Hs. simpl in Hs. subst r1.
  by injection H as <- _.
Qed.

Lemma steady_save {serde : Serde StoreData} p d w r w' : ready p (files w) → save p d w = (r, w') → r = Ok ().
Proof.
  intros Hr H. unfold save, write_synced in H. step_in H as r0 w0 E0.
  assert (Hw0 : r0 = Ok () ∧ ready p (files w0)).
  { destruct (parent_dir p) as [dir|] eqn:Ed; [|by injection E0 as <- <-].
    step_in E0 as x w1 E1. pose proof (steady_create p dir Ed w Hr) as H0. rewrite E1 in H0.
    simpl in H0. destruct H0 as [-> H0]. by injection E0 as <- <-. }
  destruct Hw0 as [-> Hr0]. step_in H as r1 w1 E1.
  pose proof (steady_staged p 384 (encode_json d) w0 Hr0) as Hs. rewrite E1 in Hs. simpl in Hs. subst r1.
  destruct (parent_dir p); [|by injection H as <- _].
  step_in H as x w2 E2. destruct x; [|by injection H as <- _].
  step_in H as y w3 E3. by injection H as <- _.
Qed.

End replace.

(** ** The helper leaves a result *)

Section helper.
Context {env : Env} {T : TomlValue} {toml : ConfigToml}.
Context {request_serde : Serde ApplyRequest} {result_serde : Serde ApplyResult}.

Lemma apply_request_id c started q w o w' :
  apply_request (system_ctx c) started q w = (o, w') → res_id (oc_result o) = ar_id q.
Proof.
  unfold apply_request, install. cbn [ctx_local_time runner now config marker system_ctx]. intros H.
  step_in H as t w1 E1. destruct (negb _); [step_in H as n w2 E2; by injection H as <- _|].
  step_in H as sim w2 E2. destruct sim as [sim|e]; [|step_in H as n w3 E3; by injection H as <- _].
  destruct (bool_decide _); [step_in H as n w3 E3; by injection H as <- _|].
  step_in H as r w3 E3. destruct r as [x|e]; [|step_in H as n w4 E4; by injection H as <- _].
  step_in H as p1 w4 E4. step_in H as p2 w5 E5. step_in H as n w6 E6. by injection H as <- _.
Qed.

(** The id under which a run reports. *)
Definition reported_id (o : Outcome) : Prop :=
  valid_request_id (res_id (oc_result o)) = true ∨ res_id (oc_result o) = "invalid".

Lemma process_answers c nd w o w' :
  (∀ n, io_fault n = None) → files w !! request_path_of c = Some nd →
  process (system_ctx c) w = (o, w') →
  ∃ x, o = Some x ∧ reported_id x ∧
    ∀ b m mt q, nd = Regular b m mt → (N.of_nat (length b) ≤ MAX_FILE_BYTES)%N →
      (∀ n, (age_of (system_time n) mt ≤ MAX_REQUEST_AGE)%N) →
      decode_json b = Some q → valid_request_id (ar_id q) = true →
      res_id (oc_result x) = ar_id q.
Proof.
  intros Hf Hnd H. unfold process in H. cbn [now request_path system_ctx] in H.
  step_in H as p w1 E1. pose proof (symlink_metadata_found _ _ _ _ _ Hf Hnd E1) as ->.
  apply readonly_inv in E1 as [F1 _]; [|apply readonly_syscall].
  step_in H as started w2 E2. apply readonly_inv in E2 as [F2 _]; [|eauto with abora].
  step_in H as bytes w3 E3. rewrite <-F1, <-F2 in Hnd.
  assert (Hb : ∀ b m mt, nd = Regular b m mt → (N.of_nat (length b) ≤ MAX_FILE_BYTES)%N →
    (∀ n, (age_of (system_time n) mt ≤ MAX_REQUEST_AGE)%N) → bytes = Ok b).
  { intros b m mt -> Hl Ha. by eapply read_regular_found. }
  assert (Hfail : ∀ id note : str, (id = ("invalid" : str) ∨ valid_request_id id = true) →
    (n ← rfc3339_now; mret (Some (refuse id started n note))) w3 = (o, w') →
    ∃ x, o = Some x ∧ reported_id x ∧ res_id (oc_result x) = id).
  { intros id note Hid Hr. step_in Hr as n w4 E4. injection Hr as <- _.
    eexists. split; [done|]. unfold reported_id, refuse. cbn [oc_result res_id].
    split; [|done]. destruct Hid as [-> | ->]; [by right|by left]. }
  destruct bytes as [bytes|e].
  2: { destruct (Hfail _ _ (or_introl eq_refl) H) as (x & -> & Hid & Hx). exists x. split_and!; [done..|].
       intros b m mt q Hn Hl Ha. by specialize (Hb b m mt Hn Hl Ha). }
  destruct (decode_json bytes) as [q|] eqn:Ed.
  2: { destruct (Hfail _ _ (or_introl eq_refl) H) as (x & -> & Hid & Hx). exists x. split_and!; [done..|].
       intros b m mt q Hn Hl Ha. specialize (Hb b m mt Hn Hl Ha). congruence. }
  assert (Hsame : ∀ b m mt q', nd = Regular b m mt → (N.of_nat (length b) ≤ MAX_FILE_BYTES)%N →
    (∀ n, (age_of (system_time n) mt ≤ MAX_REQUEST_AGE)%N) → decode_json b = Some q' → q' = q).
  { intros b m mt q' Hn Hl Ha Hd. specialize (Hb b m mt Hn Hl Ha). congruence. }
  destruct (validate_request q) as [[]|e] eqn:Ev.
  - step_in H as x w4 E4. apply apply_request_id in E4. injection H as <- _. exists x. split; [done|].
    split; [left; rewrite E4; by apply validate_request_ok in Ev as [? _]|].
    intros b m mt q' Hn Hl Ha Hd _. by rewrite (Hsame _ _ _ _ Hn Hl Ha Hd).
  - destruct (valid_request_id (ar_id q)) eqn:Ei.
    + destruct (Hfail _ _ (or_intror Ei) H) as (x & -> & Hid & Hx). exists x. split_and!; [done..|].
      intros b m mt q' Hn Hl Ha Hd _. by rewrite (Hsame _ _ _ _ Hn Hl Ha Hd).
    + destruct (Hfail _ _ (or_introl eq_refl) H) as (x & -> & Hid & Hx). exists x. split_and!; [done..|].
      intros b m mt q' Hn Hl Ha Hd. rewrite (Hsame _ _ _ _ Hn Hl Ha Hd). congruence.
Qed.

End helper.

(** ** The result is recorded *)

Section live.
Context {env : Env} {T : TomlValue} {toml : ConfigToml} {token_toml : TokenToml}.
Context {serde : Serde StoreData} {request_serde : Serde ApplyRequest} {result_serde : Serde ApplyResult}.
Context (random_hash : nat → str → N) (steady : ∀ n, io_fault n = None).
Context (rq rs st : str) (separate : rq ∉ others rs st) `{!Calm rq rs st}.

Lemma ready_ext p fs fs' : (∀ q, q ∈ family p → fs' !! q = fs !! q) → ready p fs → ready p fs'.
Proof.
  intros H [H1 H2 H3 H4 H5].
  assert (Ht : fs' !! tmp_path p = fs !! tmp_path p) by apply H, tmp_in_family.
  assert (Hd : ∀ d, parent_dir p = Some d → fs' !! d = fs !! d).
  { intros d E. by apply H, parent_in_family. }
  split.
  - intros t. rewrite Ht. apply H1.
  - by rewrite Ht.
  - rewrite H; [done|apply self_in_family].
  - intros d E. rewrite (Hd _ E). by apply H4.
  - intros d E t. rewrite (Hd _ E). by apply H5.
Qed.

(** The files of the system as they were. *)
Definition unchanged (fs fs' : files_t) : Prop := ∀ p, p ∈ mine rq rs st → fs' !! p = fs !! p.
#[local] Instance unchanged_inert fs : Inert (unchanged fs).
Proof. intros n p a fs' H q Hq. rewrite calm by done. by apply H. Qed.
Lemma unchanged_ready p fs fs' :
  (∀ q, q ∈ family p → q ∈ mine rq rs st) → unchanged fs fs' → ready p fs → ready p fs'.
Proof. intros Hp Hu. apply ready_ext. auto. Qed.

Lemma remove_gone p w r w' nd :
  files w !! p = Some nd → nd ≠ Directory → remove_file p w = (r, w') → files w' !! p = None.
Proof.
  intros Hp Hn. unfold remove_file, syscall_write. rewrite steady, Hp.
  destruct nd; intros [= <- <-]; try done; apply lookup_delete_eq.
Qed.

(** A run of the helper on a host where nothing fails. *)
Lemma helper_answers c nd w r w' :
  request_path_of c = rq → files w !! rq = Some nd → nd ≠ Directory →
  (∀ p, p ∈ mine rq rs st → not_link (files w) p) → ready rs (files w) →
  Helper.serve (system_ctx c) rs w = (r, w') →
  files w' !! rq = None ∧ ∃ x m t, files w' !! rs = Some (Regular (encode_json (oc_result x)) m t)
    ∧ reported_id x
    ∧ ∀ b m mt q, nd = Regular b m mt → (N.of_nat (length b) ≤ MAX_FILE_BYTES)%N →
      (∀ n, (age_of (system_time n) mt ≤ MAX_REQUEST_AGE)%N) →
      decode_json b = Some q → valid_request_id (ar_id q) = true → res_id (oc_result x) = ar_id q.
Proof.
  intros Hq Hnd Hdir Hl Hrs H. unfold Helper.serve in H. step_in H as o w1 E1.
  assert (Hu : unchanged (files w) (files w1)).
  { apply (through_inv _ _ _ _ _ (through_process (unchanged (files w)) c) ltac:(done) E1). }
  rewrite <-Hq in Hnd. destruct (process_answers _ _ _ _ _ steady Hnd E1) as (x & -> & Hid & Hsame).
  rewrite Hq in Hnd. unfold deliver in H. cbn [request_path runner system_ctx] in H.
  assert (Hrq : rq ∈ mine rq rs st) by apply request_in_mine, self_in_family.
  assert (Hrs' : rs ∈ mine rq rs st) by apply others_in_mine, result_in_others, self_in_family.
  assert (Hne : rs ≠ rq) by apply (in_others rq rs st separate), result_in_others, self_in_family.
  assert (Hr1 : ready rs (files w1)).
  { eapply unchanged_ready; [|done|done]. intros q ?. by apply others_in_mine, result_in_others. }
  step_in H as wr w2 E2. pose proof (steady_write_atomic steady _ _ _ _ _ _ Hr1 E2) as ->.
  pose proof (write_atomic_spec rs (encode_json (oc_result x)) 420 (files w1 !! rs)
    (mode_of (files w1) (tmp_path rs) 420) w1) as Hs.
  rewrite E2 in Hs. destruct Hs as [_ [t Hs]]; [by split_and!; [|apply Hr1|]|].
  assert (Ht1 : tidy rq rs st (λ o, o = Some nd) (files w1)).
  { split; [|by rewrite Hu]. intros p Hp tt. rewrite Hu by done. by apply Hl. }
  pose proof (through_inv _ _ _ _ _ (through_write_atomic _ rs _ 420
    (tidy_result rq rs st separate _)) Ht1 E2) as [[_ Hrq2] _].
  step_in H as rm w3 E3. rewrite Hq in E3. pose proof (remove_gone _ _ _ _ _ Hrq2 Hdir E3) as Hgone.
  pose proof (remove_other rs rq _ _ _ Hne E3) as Hrs3. rewrite Hs in Hrs3.
  assert (Hfin : files w' !! rq = None ∧ files w' !! rs =
    Some (Regular (encode_json (oc_result x)) (mode_of (files w1) (tmp_path rs) 420) t)).
  { destruct (oc_reboot x); [|by injection H as _ <-].
    step_in H as y w4 E4. injection H as _ <-.
    pose proof (through_inv _ _ _ _ _ (through_run (unchanged (files w3)) _ _ _) ltac:(done) E4) as [H4 _].
    by rewrite !H4. }
  destruct Hfin as [Hf1 Hf2]. split; [done|]. eexists x, _, t. split; [exact Hf2|done].
Qed.

(** *** The daemon reads it *)

Lemma read_regular_plain p bytes m mt w r w1 :
  files w !! p = Some (Regular bytes m mt) → (N.of_nat (length bytes) ≤ MAX_FILE_BYTES)%N →
  read_regular_file p None w = (r, w1) → r = Ok bytes.
Proof.
  intros Hp Hl. unfold read_regular_file. intros H. step_in H as x w2 E1.
  pose proof (symlink_metadata_found _ _ _ _ _ steady Hp E1) as ->.
  apply readonly_inv in E1 as [F1 _]; [|apply readonly_syscall].
  rewrite (proj2 (N.ltb_ge _ _) Hl) in H. step_in H as old w3 E2. injection E2 as <- <-.
  step_in H as b w5 E4. injection H as <- _. unfold fs_read, syscall in E4.
  rewrite steady, F1, resolve_not_link, Hp in E4; [by injection E4 as <- _|].
  intros l. by rewrite Hp.
Qed.

Lemma record_recorded ch r (s : UpdatesState) l :
  Store.history (store s) = result_entry ch r :: l → already_recorded r s = true.
Proof. intros H. unfold already_recorded. rewrite H. simpl. by rewrite result_note_key. Qed.

Lemma ingest_records ch u w b u' w' res bytes m t :
  apply_result_path u = rs → (∀ p, st_path (store u) = Some p → p = st) →
  files w !! rs = Some (Regular bytes m t) → (N.of_nat (length bytes) ≤ MAX_FILE_BYTES)%N →
  decode_json bytes = Some res → (valid_request_id (res_id res) = true ∨ res_id res = "invalid") →
  ready st (files w) → length (Store.history (store u)) ≤ MAX_HISTORY →
  ingest_apply_result ch u w = ((b, u'), w') →
  already_recorded res u' = true ∧ length (Store.history (store u')) ≤ MAX_HISTORY.
Proof.
  intros Hrs Hst Hf Hl Hd Hid Hready Hlen H. unfold ingest_apply_result in H. rewrite Hrs in H.
  step_in H as r0 w1 E1. pose proof (read_regular_plain _ _ _ _ _ _ _ Hf Hl E1) as ->.
  apply readonly_inv in E1 as [F1 _]; [|apply readonly_read_regular]. rewrite Hd in H.
  assert (negb (valid_request_id (res_id res)) && negb (bool_decide (res_id res = ("invalid" : str))) = false) as Hi.
  { destruct Hid as [-> | ->]; [done|]. apply andb_false_r. }
  rewrite Hi in H. destruct (already_recorded res u) eqn:Ea; [by injection H as <- <- <-|].
  unfold record_result in H. step_in H as x w2 E2. destruct x as [rec s].
  assert (rec = Ok ()) as ->.
  { unfold record_update, change in E2. step_in E2 as r1 w3 E3.
    assert (r1 = Ok ()) as -> by (destruct (st_path (store u)) as [p|] eqn:Ep;
      [rewrite (Hst p eq_refl) in E3; by eapply (steady_save steady st); [by rewrite F1|]|by injection E3 as <- _]).
    by injection E2 as <- _ _. }
  apply record_update_history in E2. injection H as <- <- <-. cbn [is_ok andb].
  assert (Hh : Store.history (store (with_provider (set_store s (provider u)) u))
    = result_entry ch res :: take 499 (Store.history (store u))) by exact E2.
  assert (Hok : already_recorded res (with_provider (set_store s (provider u)) u) = true
    ∧ length (Store.history (store (with_provider (set_store s (provider u)) u))) ≤ MAX_HISTORY).
  { split; [by eapply record_recorded|]. rewrite Hh. simpl. rewrite length_take. unfold MAX_HISTORY. lia. }
  by destruct (res_succeeded res).
Qed.

(** A check leaves the history alone. *)
Lemma refresh_history ch u w r u' w' :
  length (Store.history (store u)) ≤ MAX_HISTORY → refresh ch u w = ((r, u'), w') →
  Store.history (store u') = Store.history (store u).
Proof.
  intros Hl H. apply refresh_inv in H as [[->|(when & w1 & w2 & H)] _]; [done|].
  apply change_cases in H. rewrite H. unfold Store.history in *. simpl. rewrite trim_history. simpl.
  rewrite length_rev in Hl. replace (length _ - MAX_HISTORY) with 0 by lia. by rewrite drop_0.
Qed.

Lemma check_phase_history interval ch last was u w last' ok u' w' :
  length (Store.history (store u)) ≤ MAX_HISTORY →
  check_phase interval ch last was u w = ((last', ok, u'), w') →
  Store.history (store u') = Store.history (store u).
Proof.
  intros Hl H. apply check_phase_inv in H as [(_ & _ & -> & _)|(_ & _ & _ & w1 & r & H & _)]; [done|].
  by eapply refresh_history.
Qed.

Lemma already_recorded_ext res (u u' : UpdatesState) :
  Store.history (store u') = Store.history (store u) → already_recorded res u' = already_recorded res u.
Proof. unfold already_recorded. by intros ->. Qed.

Lemma pass_records sc a w sc' a' asked w' res bytes m t :
  apply_result_path (AppState.updates a) = rs →
  (∀ p, st_path (store (AppState.updates a)) = Some p → p = st) →
  files w !! rs = Some (Regular bytes m t) → (N.of_nat (length bytes) ≤ MAX_FILE_BYTES)%N →
  decode_json bytes = Some res → (valid_request_id (res_id res) = true ∨ res_id res = "invalid") →
  ready st (files w) → length (Store.history (store (AppState.updates a))) ≤ MAX_HISTORY →
  pass random_hash sc a w = ((sc', a', asked), w') →
  already_recorded res (AppState.updates a') = true.
Proof.
  intros Hrs Hst Hf Hl Hd Hid Hready Hlen H. unfold pass in H. cbv zeta in H.
  step_in H as tm w1 E1. apply local_time_files_effect in E1.
  assert (Hu : unchanged (files w) (files w1)).
  { rewrite E1. intros p Hp. by apply calm. }
  step_in H as x w2 E2. destruct x as [ing u1].
  assert (Hrec : already_recorded res u1 = true ∧ length (Store.history (store u1)) ≤ MAX_HISTORY).
  { eapply ingest_records; [..|exact E2]; try done.
    - rewrite Hu; [exact Hf|]. apply others_in_mine, result_in_others, self_in_family.
    - eapply unchanged_ready; [|exact Hu|done]. intros q ?. by apply others_in_mine, store_in_others. }
  destruct Hrec as [Hrec Hlen1]. step_in H as y w3 E3. destruct y as [[last ok] u2].
  apply check_phase_history in E3; [|done]. step_in H as z w4 E4. destruct z as [la ask].
  injection H as <- <- <- <-. simpl. by rewrite (already_recorded_ext _ _ _ E3).
Qed.

(** ** Properties *)


End live.

(** ** An example *)

Definition link_free (fs : files_t) (l : list str) : bool :=
  forallb (λ p, match fs !! p with Some (Symlink _) => false | _ => true end) l.
Lemma link_free_ok fs l : link_free fs l = true → ∀ p, p ∈ l → not_link fs p.
Proof.
  intros H p Hp t E. pose proof (forallb_elem _ _ _ H Hp) as Hn. simpl in Hn. by rewrite E in Hn.
Qed.

Definition readyb (p : str) (fs : files_t) : bool :=
  link_free fs (family p)
  && negb (bool_decide (fs !! tmp_path p = Some Directory)) && negb (bool_decide (fs !! p = Some Directory))
  && match parent_dir p with
     | Some d => negb (bool_decide (d = tmp_path p))
                 && match fs !! d with Some (Regular _ _ _) => false | _ => true end
     | None => true
     end.
Lemma readyb_ok p fs : readyb p fs = true → ready p fs.
Proof.
  unfold readyb. intros H. bool_norm. pose proof (link_free_ok fs (family p) ltac:(done)) as Hl. split.
  - apply Hl, tmp_in_family.
  - done.
  - done.
  - intros d E. rewrite E in *. bool_norm. split; [done|]. intros b m t Ed. by rewrite Ed in *.
  - intros d E. by apply Hl, parent_in_family.
Qed.

#[global] Instance ApplyResult_countable : Countable ApplyResult.
Proof.
  refine (inj_countable'
    (λ r, (res_id r, res_started_at r, res_finished_at r, res_succeeded r, res_packages r, res_note r,
           res_reboot_started r))
    (λ '(a, b, c, d, e, f, g), mkResult a b c d e f g) _).
  by intros [].
Defined.

