(* ===== verification/Derive.v ===== *)
(** * JSON values and the derived codecs

    What [#[derive(Serialize, Deserialize)]] and the [#[serde(...)]] attributes of
    the source mean: a struct is an object (or, read, an array), a missing member
    is an error, [None] or a default, a variant is a string or an object of one
    member. The text of a value belongs to [serde_json] and is a parameter. *)

From stdpp Require Import countable.
From S2P Require Import Prelude Str World Types.

(** A document as the deserializer meets it: the members in the order of the
    text. A number that is not a [u64] is its text. *)
Inductive json :=
| JNull
| JBool (b : bool)
| JNum (n : N)
| JOther (number : str)
| JStr (s : str)
| JArr (l : list json)
| JObj (l : list (str * json)).

(** ** The text *)

Class JsonText := {
  to_text : json → str;
  to_text_pretty : json → str;
  from_text : str → option json;
}.
(** Documented behaviour: what is written is read back. *)
Class JsonTextOk (t : JsonText) := {
  from_to_text v : from_text (to_text v) = Some v;
  from_to_text_pretty v : from_text (to_text_pretty v) = Some v;
}.

(** ** Codecs *)

Class Wire (A : Type) := {
  to_json : A → json;
  from_json : json → option A;
}.
Class WireOk (A : Type) `{!Wire A} (wf : A → Prop) :=
  from_to_json a : wf a → from_json (to_json a) = Some a.

#[global] Arguments to_json {A _} a : simpl never.
#[global] Arguments from_json {A _} v : simpl never.

(** A type with a codec, in files: [to_vec_pretty] and [from_slice]. *)
Definition serde_of `{JsonText} (A : Type) `{Wire A} : Serde A := {|
  encode_json a := to_text_pretty (to_json a);
  decode_json s := v ← from_text s; from_json v;
|}.

Lemma serde_of_ok `{t : JsonText, !JsonTextOk t} (A : Type) `{HA : Wire A} (wf : A → Prop) `{!WireOk A wf} :
  @SerdeOk A (serde_of A) wf.
Proof. intros a Ha. simpl. rewrite from_to_text_pretty. simpl. by apply from_to_json. Qed.

(** ** Scalars, options and lists *)

Definition from_str_json (v : json) : option str := match v with JStr s => Some s | _ => None end.
Definition from_bool_json (v : json) : option bool := match v with JBool b => Some b | _ => None end.
(** An unsigned integer of a width. *)
Definition from_uint_json (max : N) (v : json) : option N :=
  match v with JNum n => if (n <=? max)%N then Some n else None | _ => None end.
Definition from_list_json {A} (f : json → option A) (v : json) : option (list A) :=
  match v with JArr l => mapM f l | _ => None end.
Definition nullable {A} (f : json → option A) (v : json) : option (option A) :=
  match v with JNull => Some None | _ => Some <$> f v end.

Definition json_strs (l : list str) : json := JArr (JStr <$> l).
Definition json_opt {A} (f : A → json) (o : option A) : json := match o with Some a => f a | None => JNull end.

(** ** Structs *)

(** A member of an object, or one that [skip_serializing_if] leaves out. *)
Definition field (k : str) (v : json) : list (str * json) := [(k, v)].
Definition skip_none {A} (k : str) (f : A → json) (o : option A) : list (str * json) :=
  match o with Some a => [(k, f a)] | None => [] end.
Definition struct (fs : list (list (str * json))) : json := JObj (concat fs).

(** What the generated visitor finds for a field: a value, no member of that
    name, or an array that ends before it. *)
Inductive slot := Present (v : json) | NoMember | NoItem.

(** A name that occurs twice is an error. *)
Definition member_slot (l : list (str * json)) (k : str) : option slot :=
  match filter (λ kv, fst kv = k) l with
  | [] => Some NoMember
  | [(_, v)] => Some (Present v)
  | _ => None
  end.
Fixpoint item_slots (l : list json) (names : list str) : option (list slot) :=
  match l, names with
  | [], _ => Some ((λ _, NoItem) <$> names)
  | _ :: _, [] => None
  | v :: l, _ :: names => (Present v ::.) <$> item_slots l names
  end.
Definition slots (names : list str) (v : json) : option (list slot) :=
  match v with
  | JObj l => mapM (member_slot l) names
  | JArr l => item_slots l names
  | _ => None
  end.

Definition need {A} (f : json → option A) (s : slot) : option A :=
  match s with Present v => f v | _ => None end.
(** An [Option] field without [#[serde(default)]]. *)
Definition optional {A} (f : json → option A) (s : slot) : option (option A) :=
  match s with Present v => nullable f v | NoMember => Some None | NoItem => None end.
(** A field with [#[serde(default)]]. *)
Definition defaulted {A} (d : A) (f : json → option A) (s : slot) : option A :=
  match s with Present v => f v | _ => Some d end.

(** ** Variants without data *)

(** A string, or an object of one member that is null. *)
Definition from_variant {A} (name_of : str → option A) (v : json) : option A :=
  match v with
  | JStr s => name_of s
  | JObj [(k, JNull)] => name_of k
  | _ => None
  end.

(** ** Values as [serde_json::Value]s *)

(** The last member of a name counts. *)
Definition jmember (k : str) (v : json) : option json :=
  match v with
  | JObj l => match rev (filter (λ kv, fst kv = k) l) with (_, v) :: _ => Some v | [] => None end
  | _ => None
  end.
Definition jindex (k : str) (v : json) : json := default JNull (jmember k v).

(** ** Lemmas *)

Lemma json_rect' (P : json → Prop) :
  P JNull → (∀ b, P (JBool b)) → (∀ n, P (JNum n)) → (∀ s, P (JOther s)) → (∀ s, P (JStr s)) →
  (∀ l, Forall P l → P (JArr l)) → (∀ l, Forall (λ kv, P (snd kv)) l → P (JObj l)) →
  ∀ v, P v.
Proof.
  intros Hnull Hbool Hnum Hother Hstr Harr Hobj. fix IH 1.
  intros [|b|n|s|s|l|l]; [apply Hnull|apply Hbool|apply Hnum|apply Hother|apply Hstr|apply Harr|apply Hobj].
  - induction l as [|v l IHl]; constructor; [apply IH|apply IHl].
  - induction l as [|[k v] l IHl]; constructor; [apply IH|apply IHl].
Qed.

Lemma from_uint_num max n : (n ≤ max)%N → from_uint_json max (JNum n) = Some n.
Proof. intros H. simpl. by apply N.leb_le in H as ->. Qed.

Lemma mapM_to {A} (f : A → json) (g : json → option A) l :
  Forall (λ a, g (f a) = Some a) l → from_list_json g (JArr (f <$> l)) = Some l.
Proof. apply mapM_fmap_Forall_Some. Qed.

Lemma from_strs l : from_list_json from_str_json (json_strs l) = Some l.
Proof. apply mapM_to. by apply Forall_true. Qed.

Lemma nullable_opt {A} (f : A → json) (g : json → option A) o :
  (∀ a, o = Some a → g (f a) = Some a ∧ f a ≠ JNull) → nullable g (json_opt f o) = Some o.
Proof.
  destruct o as [a|]; [|done]. intros H. destruct (H a eq_refl) as [Hg Hn]. simpl.
  unfold nullable. rewrite Hg. by destruct (f a).
Qed.

(** ** A concrete text *)

Definition leaf : Type := option (bool + N + (str + str)).
Fixpoint tree_of (v : json) : gen_tree leaf :=
  match v with
  | JNull => GenLeaf None
  | JBool b => GenLeaf (Some (inl (inl b)))
  | JNum n => GenLeaf (Some (inl (inr n)))
  | JOther s => GenLeaf (Some (inr (inl s)))
  | JStr s => GenLeaf (Some (inr (inr s)))
  | JArr l => GenNode 0 (tree_of <$> l)
  | JObj l => GenNode 1 ((λ kv, GenNode 2 [GenLeaf (Some (inr (inr (fst kv)))); tree_of (snd kv)]) <$> l)
  end.
Fixpoint of_tree (t : gen_tree leaf) : json :=
  match t with
  | GenLeaf None => JNull
  | GenLeaf (Some (inl (inl b))) => JBool b
  | GenLeaf (Some (inl (inr n))) => JNum n
  | GenLeaf (Some (inr (inl s))) => JOther s
  | GenLeaf (Some (inr (inr s))) => JStr s
  | GenNode 0 l => JArr (of_tree <$> l)
  | GenNode _ l => JObj ((λ t, match t with
      | GenNode _ [GenLeaf (Some (inr (inr k))); t] => (k, of_tree t)
      | _ => ([], JNull)
      end) <$> l)
  end.
Lemma of_tree_of v : of_tree (tree_of v) = v.
Proof.
  induction v as [| | | | |l IH|l IH] using json_rect'; try done; simpl; f_equal;
    rewrite <- list_fmap_compose; trans (id <$> l); try apply list_fmap_id; apply Forall_fmap_ext_1.
  - done.
  - eapply Forall_impl; [|exact IH]. intros [k v] Hv. simpl in *. by rewrite Hv.
Qed.
#[global] Instance json_eq_dec : EqDecision json.
Proof.
  refine (λ v w, cast_if (decide (tree_of v = tree_of w))); [|congruence].
  by rewrite <- (of_tree_of v), <- (of_tree_of w), e.
Defined.
#[global] Instance json_countable : Countable json := inj_countable' tree_of of_tree of_tree_of.

Definition example_text : JsonText := {|
  to_text v := bits_of (encode v);
  to_text_pretty v := bits_of (encode v);
  from_text s := p ← of_bits s; decode p;
|}.
#[global] Instance example_text_ok : JsonTextOk example_text.
Proof. split; intros v; simpl; rewrite of_bits_of; simpl; apply countable.decode_encode. Qed.
