(* ===== verification/Wire.v ===== *)
(** * The JSON of every type that is stored or served

    The codecs derived in [crates/abora-core], [abora-update], [abora-api] and
    [abora-sysinfo], with the attributes of each field, and the codec laws they
    give to the files shared by daemon and helper. *)

From S2P Require Import Prelude Str World Version Log Types Store Apply Api Sysinfo Services Config Tokens Auth Server State AppState Handlers Derive.

(** ** Codecs of the stored types *)

Definition version_to_json (v : Version) : json := struct
  [field "major" (JNum (major v)); field "minor" (JNum (minor v)); field "patch" (JNum (patch v));
   field "prerelease" (json_opt JStr (prerelease v)); field "build" (json_opt JStr (build v))].
Definition version_from_json (v : json) : option Version :=
  l ← slots ["major" : str; "minor" : str; "patch" : str; "prerelease" : str; "build" : str] v;
  match l with
  | [a; b; c; d; e] =>
      major ← need (from_uint_json u64_max) a; minor ← need (from_uint_json u64_max) b;
      patch ← need (from_uint_json u64_max) c;
      prerelease ← optional from_str_json d; build ← optional from_str_json e;
      Some (mkVersion major minor patch prerelease build)
  | _ => None
  end.
#[global] Instance version_wire : Wire Version := {| to_json := version_to_json; from_json := version_from_json |}.

(** Externally tagged, in lower case. *)
Definition channel_name (s : str) : option Channel :=
  if decide (s = ("stable" : str)) then Some Stable
  else if decide (s = ("beta" : str)) then Some Beta
  else if decide (s = ("nightly" : str)) then Some Nightly else None.
Definition channel_to_json (c : Channel) : json :=
  match c with
  | Stable => JStr "stable"
  | Beta => JStr "beta"
  | Nightly => JStr "nightly"
  | Custom name => struct [field "custom" (JStr name)]
  end.
Definition channel_from_json (v : json) : option Channel :=
  match v with
  | JObj [(k, JStr s)] => if decide (k = ("custom" : str)) then Some (Custom s) else None
  | _ => from_variant channel_name v
  end.
#[global] Instance channel_wire : Wire Channel := {| to_json := channel_to_json; from_json := channel_from_json |}.

Definition reboot_to_json (r : RebootStatus) : json := struct
  [field "required" (JBool (required r)); skip_none "reason" JStr (reason r);
   skip_none "pending_since" JStr (pending_since r)].
Definition reboot_from_json (v : json) : option RebootStatus :=
  l ← slots ["required" : str; "reason" : str; "pending_since" : str] v;
  match l with
  | [a; b; c] =>
      req ← need from_bool_json a;
      why ← defaulted None (nullable from_str_json) b;
      since ← defaulted None (nullable from_str_json) c;
      Some (mkReboot req why since)
  | _ => None
  end.
#[global] Instance reboot_wire : Wire RebootStatus := {| to_json := reboot_to_json; from_json := reboot_from_json |}.

Definition entry_to_json (e : UpdateHistoryEntry) : json := struct
  [field "applied_at" (JStr (applied_at e)); field "from_version" (to_json (from_version e));
   field "to_version" (to_json (to_version e)); field "channel" (to_json (he_channel e));
   field "component" (JStr (he_component e)); field "succeeded" (JBool (he_succeeded e));
   skip_none "note" JStr (he_note e)].
Definition entry_from_json (v : json) : option UpdateHistoryEntry :=
  l ← slots ["applied_at" : str; "from_version" : str; "to_version" : str; "channel" : str;
             "component" : str; "succeeded" : str; "note" : str] v;
  match l with
  | [a; b; c; d; e; f; g] =>
      at_ ← need from_str_json a; from ← need from_json b; to ← need from_json c;
      channel ← need from_json d; component ← need from_str_json e;
      succeeded ← need from_bool_json f; note ← defaulted None (nullable from_str_json) g;
      Some (mkEntry at_ from to channel component succeeded note)
  | _ => None
  end.
#[global] Instance entry_wire : Wire UpdateHistoryEntry := {| to_json := entry_to_json; from_json := entry_from_json |}.

Definition store_to_json (d : StoreData) : json := struct
  [field "schema" (JNum (schema d)); skip_none "last_check" JStr (sd_last_check d);
   field "reboot" (to_json (sd_reboot d)); field "history" (JArr (to_json <$> sd_history d))].
Definition store_from_json (v : json) : option StoreData :=
  l ← slots ["schema" : str; "last_check" : str; "reboot" : str; "history" : str] v;
  match l with
  | [a; b; c; d] =>
      sch ← need (from_uint_json u32_max) a;
      last_check ← defaulted None (nullable from_str_json) b;
      reboot ← defaulted reboot_default from_json c;
      history ← defaulted [] (from_list_json from_json) d;
      Some (mkStoreData sch last_check reboot history)
  | _ => None
  end.
#[global] Instance store_wire : Wire StoreData := {| to_json := store_to_json; from_json := store_from_json |}.

Definition request_to_json (r : ApplyRequest) : json := struct
  [field "id" (JStr (ar_id r)); field "requested_at" (JStr (ar_requested_at r));
   field "requested_by" (JStr (ar_requested_by r)); field "packages" (json_strs (ar_packages r))].
Definition request_from_json (v : json) : option ApplyRequest :=
  l ← slots ["id" : str; "requested_at" : str; "requested_by" : str; "packages" : str] v;
  match l with
  | [a; b; c; d] =>
      id ← need from_str_json a; at_ ← need from_str_json b; by_ ← need from_str_json c;
      packages ← need (from_list_json from_str_json) d;
      Some (Apply.mkRequest id at_ by_ packages)
  | _ => None
  end.
#[global] Instance request_wire : Wire ApplyRequest := {| to_json := request_to_json; from_json := request_from_json |}.

Definition result_to_json (r : ApplyResult) : json := struct
  [field "id" (JStr (res_id r)); field "started_at" (JStr (res_started_at r));
   field "finished_at" (JStr (res_finished_at r)); field "succeeded" (JBool (res_succeeded r));
   field "packages" (json_strs (res_packages r)); skip_none "note" JStr (res_note r);
   field "reboot_started" (JBool (res_reboot_started r))].
Definition result_from_json (v : json) : option ApplyResult :=
  l ← slots ["id" : str; "started_at" : str; "finished_at" : str; "succeeded" : str; "packages" : str;
             "note" : str; "reboot_started" : str] v;
  match l with
  | [a; b; c; d; e; f; g] =>
      id ← need from_str_json a; started ← need from_str_json b; finished ← need from_str_json c;
      succeeded ← need from_bool_json d; packages ← need (from_list_json from_str_json) e;
      note ← defaulted None (nullable from_str_json) f;
      reboot ← defaulted false from_bool_json g;
      Some (mkResult id started finished succeeded packages note reboot)
  | _ => None
  end.
#[global] Instance result_wire : Wire ApplyResult := {| to_json := result_to_json; from_json := result_from_json |}.

(** ** What the API serves *)

(** Internally tagged by [state], in snake case. *)
Definition status_to_json (st : UpdateStatus) : json :=
  match st with
  | UpToDate => struct [field "state" (JStr "up_to_date")]
  | UpdateAvailable versions =>
      struct [field "state" (JStr "update_available"); field "versions" (json_strs versions)]
  | Installing component progress =>
      struct [field "state" (JStr "installing"); field "component" (JStr component);
              skip_none "progress_percent" JNum progress]
  | StatusError message => struct [field "state" (JStr "error"); field "message" (JStr message)]
  end.
(** Days in lower case. *)
Definition weekday_to_json (d : Weekday) : json :=
  JStr match d with
       | Monday => "monday" | Tuesday => "tuesday" | Wednesday => "wednesday" | Thursday => "thursday"
       | Friday => "friday" | Saturday => "saturday" | Sunday => "sunday"
       end.
Definition window_to_json (w : MaintenanceWindow) : json := struct
  [field "days" (JArr (weekday_to_json <$> days w)); field "start" (JStr (start w)); field "end" (JStr (end_ w));
   skip_none "max_duration_minutes" JNum (max_duration_minutes w)].
Definition available_to_json (u : AvailableUpdate) : json := struct
  [field "channel" (to_json (au_channel u)); field "version" (to_json (au_version u));
   field "component" (JStr (au_component u)); field "summary" (JStr (au_summary u));
   skip_none "release_notes" JStr (au_release_notes u); field "size_bytes" (JNum (au_size_bytes u));
   skip_none "released_at" JStr (au_released_at u); skip_none "checksums" json_strs (au_checksums u)].
Definition schedule_to_json (i : ScheduleInfo) : json := struct
  [field "check_interval_seconds" (JNum (si_check_interval_seconds i));
   skip_none "in_maintenance_window" JBool (si_in_maintenance_window i);
   field "apply_permitted" (JBool (si_apply_permitted i));
   field "installs_permitted" (JBool (si_installs_permitted i));
   field "reboot_permitted" (JBool (si_reboot_permitted i))].
Definition updates_to_json (r : UpdatesResponse) : json := struct
  [skip_none "status" status_to_json (ur_status r); skip_none "last_check" JStr (ur_last_check r);
   field "reboot" (to_json (ur_reboot r)); skip_none "schedule" schedule_to_json (ur_schedule r);
   field "available" (JArr (available_to_json <$> ur_available r));
   field "history" (JArr (to_json <$> ur_history r))].
Definition apply_to_json (r : ApplyResponse) : json := struct
  [field "dry_run" (JBool (ap_dry_run r)); field "permitted" (JBool (ap_permitted r));
   skip_none "reason" JStr (ap_reason r); skip_none "id" JStr (ap_id r);
   field "packages" (json_strs (ap_packages r))].

Definition daemon_to_json (d : DaemonInfo) : json := struct
  [field "name" (JStr (di_name d)); field "version" (to_json (di_version d))].
Definition api_to_json (a : ApiVersionInfo) : json := struct
  [field "name" (JStr (av_name a)); field "path" (JStr (av_path a))].
Definition health_name (h : HealthStatus) : str :=
  match h with HealthOk => "ok" | Degraded => "degraded" | Maintenance => "maintenance" end.
Definition component_to_json (c : ComponentHealth) : json := struct
  [field "name" (JStr (ch_name c)); field "status" (JStr (health_name (ch_status c)));
   skip_none "detail" JStr (ch_detail c)].
Definition health_to_json (h : HealthResponse) : json := struct
  [field "status" (JStr (health_name (hr_status h))); field "daemon" (daemon_to_json (hr_daemon h));
   field "api" (api_to_json (hr_api h)); field "uptime_seconds" (JNum (hr_uptime_seconds h));
   field "started_at" (JStr (hr_started_at h));
   field "components" (JArr (component_to_json <$> hr_components h))].
Definition version_response_to_json (v : VersionResponse) : json := struct
  [field "framework_name" (JStr (vr_framework_name v));
   field "framework_version" (to_json (vr_framework_version v));
   field "daemon" (daemon_to_json (vr_daemon v)); field "api" (api_to_json (vr_api v));
   skip_none "git_commit" JStr (vr_git_commit v)].

(** Externally tagged, in snake case. *)
Definition architecture_to_json (a : Architecture) : json :=
  match a with
  | X86_64 => JStr "x86_64" | X86 => JStr "x86" | Aarch64 => JStr "aarch64" | Arm => JStr "arm"
  | Riscv64 => JStr "riscv64" | Riscv32 => JStr "riscv32" | Powerpc64 => JStr "powerpc64"
  | S390x => JStr "s390x"
  | Other s => struct [field "other" (JStr s)]
  end.
Definition os_to_json (o : OsInfo) : json := struct
  [field "id" (JStr (os_id o)); field "name" (json_opt JStr (os_name o));
   field "pretty_name" (json_opt JStr (os_pretty_name o)); field "version" (json_opt JStr (os_version o));
   field "version_id" (json_opt JStr (os_version_id o)); field "id_like" (json_strs (os_id_like o));
   field "home_url" (json_opt JStr (os_home_url o))].
Definition kernel_to_json (k : KernelInfo) : json := struct
  [field "name" (JStr (k_name k)); field "release" (JStr (k_release k)); field "version" (JStr (k_version k))].
Definition memory_to_json (m : MemoryInfo) : json := struct
  [field "total_bytes" (JNum (total_bytes m)); field "available_bytes" (JNum (available_bytes m));
   field "free_bytes" (JNum (free_bytes m)); field "used_bytes" (JNum (used_bytes m));
   field "swap_total_bytes" (JNum (swap_total_bytes m)); field "swap_used_bytes" (JNum (swap_used_bytes m))].
Definition cpu_to_json (c : CpuInfo) : json := struct
  [field "model" (json_opt JStr (cpu_model c)); field "physical_cores" (json_opt JNum (physical_cores c));
   field "logical_cores" (json_opt JNum (logical_cores c))].
Definition system_to_json (s : SystemResponse) : json := struct
  [field "hostname" (JStr (sy_hostname s)); skip_none "description" JStr (sy_description s);
   skip_none "hostname_override" JStr (sy_hostname_override s);
   field "architecture" (architecture_to_json (sy_architecture s)); field "machine" (JStr (sy_machine s));
   field "uptime_seconds" (JNum (sy_uptime_seconds s)); field "os" (os_to_json (sy_os s));
   field "kernel" (kernel_to_json (sy_kernel s)); field "memory" (memory_to_json (sy_memory s));
   field "cpu" (cpu_to_json (sy_cpu s)); field "framework_version" (to_json (sy_framework_version s))].

Definition service_to_json (v : ServiceStatus) : json := struct
  [field "name" (JStr (sv_name v)); field "state" (JStr (state_text (sv_state v)));
   skip_none "enabled" JBool (sv_enabled v); skip_none "description" JStr (sv_description v)].
Definition detail_to_json (d : ServiceDetail) : json := struct
  [field "name" (JStr (Api.sd_name d)); field "load_state" (JStr (sd_load_state d));
   field "active_state" (JStr (sd_active_state d)); field "sub_state" (JStr (sd_sub_state d));
   skip_none "enabled" JBool (sd_enabled d); skip_none "description" JStr (sd_description d);
   skip_none "fragment_path" JStr (sd_fragment_path d); skip_none "exec_start" JStr (sd_exec_start d);
   skip_none "main_pid" JNum (sd_main_pid d); skip_none "memory_bytes" JNum (sd_memory_bytes d)].

Definition code_name (c : ErrorCode) : str :=
  match c with
  | InvalidRequest => "invalid_request" | Unauthorized => "unauthorized" | Forbidden => "forbidden"
  | CodeNotFound => "not_found" | CodeConflict => "conflict" | CodeNotImplemented => "not_implemented"
  | ServiceUnavailable => "service_unavailable" | Internal => "internal"
  end.
Definition error_to_json (b : ApiErrorBody) : json := struct
  [field "error" (struct
     [field "code" (JStr (code_name (er_code b))); field "message" (JStr (er_message b));
      skip_none "request_id" JStr (er_request_id b)])].

(** ** Documents as [serde_json::Value]s *)

(** Of members with one name the last counts. *)
Definition members (v : json) : option (gmap str json) :=
  match v with JObj l => Some (list_to_map (rev l)) | _ => None end.

#[global] Instance wire_values `{JsonText} : Json := {|
  jval := json;
  json_from_slice := from_text;
  json_to_vec v := Some (to_text v);
  as_object := members;
  json_object m := JObj (map_to_list m);
  json_string := JStr;
|}.
Lemma members_object (m : gmap str json) : members (JObj (map_to_list m)) = Some m.
Proof.
  simpl. f_equal. trans (list_to_map (map_to_list m) : gmap str json); [|apply list_to_map_to_list].
  symmetry. apply list_to_map_proper; [apply NoDup_fst_map_to_list|]. apply Permutation_rev.
Qed.
#[global] Instance wire_values_ok `{t : JsonText, !JsonTextOk t} : JsonOk wire_values.
Proof.
  split.
  - apply members_object.
  - intros v. by eexists.
  - intros v s [= <-]. apply from_to_text.
Qed.

(** ** The codecs give back what they wrote *)

Definition version_fits (v : Version) : Prop :=
  (major v ≤ u64_max ∧ minor v ≤ u64_max ∧ patch v ≤ u64_max)%N.
Definition entry_fits (e : UpdateHistoryEntry) : Prop :=
  version_fits (from_version e) ∧ version_fits (to_version e).
Definition store_fits (d : StoreData) : Prop :=
  (schema d ≤ u32_max)%N ∧ Forall entry_fits (sd_history d).

Ltac unfold_codec from to :=
  match goal with |- _ = Some ?x => change (from (to x) = Some x) end; unfold from, to.

(** Evaluate which member each field finds. *)
Ltac find_slots :=
  match goal with
  | |- context [slots ?n ?v] =>
      let r := eval lazy in (map (λ _, NoItem) n) in
      lazymatch r with
      | [_; _; _] => eassert (slots n v = Some [_; _; _]) as -> by reflexivity
      | [_; _; _; _] => eassert (slots n v = Some [_; _; _; _]) as -> by reflexivity
      | [_; _; _; _; _] => eassert (slots n v = Some [_; _; _; _; _]) as -> by reflexivity
      | [_; _; _; _; _; _; _] => eassert (slots n v = Some [_; _; _; _; _; _; _]) as -> by reflexivity
      end
  end.

#[global] Instance version_wire_ok : WireOk Version version_fits.
Proof.
  intros [a b c p u] (Ha & Hb & Hc). simpl in Ha, Hb, Hc. unfold_codec version_from_json version_to_json. destruct p, u;
  find_slots; simpl; apply N.leb_le in Ha as ->, Hb as ->, Hc as ->; reflexivity.
Qed.

#[global] Instance channel_wire_ok : WireOk Channel (λ _, True).
Proof. by intros [] _. Qed.

#[global] Instance reboot_wire_ok : WireOk RebootStatus (λ _, True).
Proof. by intros [r [] []] _. Qed.

#[global] Instance entry_wire_ok : WireOk UpdateHistoryEntry entry_fits.
Proof.
  intros [at_ from to ch comp ok n] [Hf Ht]. simpl in *.
  apply from_to_json in Hf, Ht. pose proof (from_to_json ch I) as Hc.
  unfold_codec entry_from_json entry_to_json. cbn [applied_at from_version to_version he_channel he_component he_succeeded he_note].
  revert Hf Ht Hc. generalize (to_json from) (to_json to) (to_json ch). intros jf jt jc Hf Ht Hc.
  destruct n; find_slots; simpl; rewrite Hf; simpl; rewrite Ht; simpl; rewrite Hc; reflexivity.
Qed.

#[global] Instance store_wire_ok : WireOk StoreData store_fits.
Proof.
  intros [sch last r h] [Hs Hh]. simpl in *. apply N.leb_le in Hs.
  pose proof (from_to_json r I) as Hr.
  assert (Hl : from_list_json from_json (JArr (to_json <$> h)) = Some h).
  { apply mapM_to. eapply Forall_impl; [|exact Hh]. intros e. apply from_to_json. }
  unfold_codec store_from_json store_to_json. cbn [schema sd_last_check sd_reboot sd_history].
  revert Hr Hl. generalize (to_json r) (JArr (to_json <$> h)). intros jr jh Hr Hl.
  destruct last; find_slots; simpl; rewrite Hs; simpl; rewrite Hr; simpl; rewrite Hl; reflexivity.
Qed.

#[global] Instance request_wire_ok : WireOk ApplyRequest (λ _, True).
Proof.
  intros [id t b l] _. pose proof (from_strs l) as Hl.
  unfold_codec request_from_json request_to_json. cbn [ar_id ar_requested_at ar_requested_by ar_packages].
  revert Hl. generalize (json_strs l). intros jl Hl. find_slots; simpl; rewrite Hl; reflexivity.
Qed.

#[global] Instance result_wire_ok : WireOk ApplyResult (λ _, True).
Proof.
  intros [id s f ok l n rb] _. pose proof (from_strs l) as Hl.
  unfold_codec result_from_json result_to_json. cbn [res_id res_started_at res_finished_at res_succeeded res_packages res_note res_reboot_started].
  revert Hl. generalize (json_strs l). intros jl Hl. destruct n; find_slots; simpl; rewrite Hl; reflexivity.
Qed.
