(* ===== verification/Toml.v ===== *)
(** * The configuration and token files as TOML

    What [#[derive(Serialize, Deserialize)]] and the [#[serde(...)]] attributes of
    [abora-config] and of [tokens.rs] mean: which keys a section has, what an
    absent key stands for, which unknown keys are refused and which are kept. A
    struct is described by its fields, as the derive macro sees them, and reading
    and writing are computed from the description. The text of a document belongs
    to [toml] and is a parameter. *)

From S2P Require Import Prelude Str World Log Types Config Tokens.

(** ** Values *)

(** Tables as the deserializer meets them: members in the order of the text, no
    key twice. *)
Inductive toml :=
| TStr (s : str)
| TInt (z : Z)
| TFloat (text : str)
| TBool (b : bool)
| TDate (text : str)
| TArr (l : list toml)
| TTable (l : list (str * toml)).
Abbreviation document := (list (list ascii * toml)).

#[global] Instance toml_values : TomlValue := {|
  tval := toml;
  as_table v := match v with TTable l => Some (list_to_map l) | _ => None end;
|}.

Inductive de_error :=
| UnknownField (name : str) (expected : list str)
| UnknownVariant (name : str) (expected : list str)
| MissingField (name : str)
| DuplicateField (name : str)
| InvalidLength
| Invalid (v : toml) (expected : str).
(** An integer beyond [i64]. *)
Inductive ser_error := OutOfRange.

(** [toml]: the text, the messages, what it takes for the payload of a variant
    without data, and whether it ignores the items of an array after the last
    field of a struct. *)
Class TomlText := {
  toml_parse : str → result str document;
  toml_print : document → str;
  de_message : de_error → str;
  ser_message : ser_error → str;
  unit_payload : toml → bool;
  extra_items : bool;
}.

Fixpoint lookup_key {B} (k : str) (l : list (str * B)) : option B :=
  match l with [] => None | (k', b) :: l => if decide (k' = k) then Some b else lookup_key k l end.

(** ** Scalars *)

Definition from_string (v : toml) : result de_error str :=
  match v with TStr s => Ok s | _ => Err (Invalid v "a string") end.
Definition from_bool (v : toml) : result de_error bool :=
  match v with TBool b => Ok b | _ => Err (Invalid v "a boolean") end.
(** An unsigned integer of a width. *)
Definition from_uint (max : N) (v : toml) : result de_error N :=
  match v with
  | TInt z => if (0 <=? z)%Z && (Z.to_N z <=? max)%N then Ok (Z.to_N z) else Err (Invalid v "an unsigned integer")
  | _ => Err (Invalid v "an unsigned integer")
  end.
(** TOML has no null: what is there is there. *)
Definition from_option {B} (f : toml → result de_error B) (v : toml) : result de_error (option B) :=
  b ← f v; Ok (Some b).
Fixpoint from_items {B} (f : toml → result de_error B) (l : list toml) : result de_error (list B) :=
  match l with [] => Ok [] | v :: l => b ← f v; bs ← from_items f l; Ok (b :: bs) end.
Definition from_vec {B} (f : toml → result de_error B) (v : toml) : result de_error (list B) :=
  match v with TArr l => from_items f l | _ => Err (Invalid v "a sequence") end.

(** Rendered values; a struct leaves out a member that is [None]. *)
Definition rendered := result ser_error (option toml).
Definition to_string_ (s : str) : rendered := Ok (Some (TStr s)).
Definition to_bool (b : bool) : rendered := Ok (Some (TBool b)).
Definition i64_max : N := 9223372036854775807.
Definition to_uint (n : N) : rendered :=
  if (n <=? i64_max)%N then Ok (Some (TInt (Z.of_N n))) else Err OutOfRange.
Definition to_option {B} (f : B → rendered) (o : option B) : rendered :=
  match o with Some b => f b | None => Ok None end.
Fixpoint to_items {B} (f : B → result ser_error toml) (l : list B) : result ser_error (list toml) :=
  match l with [] => Ok [] | b :: l => v ← f b; vs ← to_items f l; Ok (v :: vs) end.

(** Enums: a name, or a table of one member. *)
Definition from_unit_variant `{TomlText} {B} (variants : list (str * B)) (v : toml) : result de_error B :=
  let known k := ok_or (UnknownVariant k (fst <$> variants)) (lookup_key k variants) in
  match v with
  | TStr s => known s
  | TTable [(k, p)] => b ← known k; if unit_payload p then Ok b else Err (Invalid p "a unit variant")
  | _ => Err (Invalid v "a variant")
  end.

(** ** Structs *)

(** A field: its name, whether it has to be there, how it is read and written, and
    where it is in the struct. *)
Record Field (A : Type) := mkField {
  f_name : str;
  f_required : bool;
  f_type : Type;
  f_read : toml → result de_error f_type;
  f_write : f_type → rendered;
  f_get : A → f_type;
  f_put : f_type → A → A;
}.
Arguments mkField {A} f_name f_required {f_type} f_read f_write f_get f_put.
Arguments f_name {A}. Arguments f_required {A}. Arguments f_type {A}. Arguments f_read {A}.
Arguments f_write {A}. Arguments f_get {A}. Arguments f_put {A}.

(** [st_default]: what absent fields stand for, of a struct or of the single
    fields with [#[serde(default)]]; [st_deny]: [#[serde(deny_unknown_fields)]]. *)
Record Struct (A : Type) := mkStruct { st_fields : list (Field A); st_default : A; st_deny : bool }.
Arguments mkStruct {A}. Arguments st_fields {A}. Arguments st_default {A}. Arguments st_deny {A}.

Section struct.
Context `{TomlText} {A : Type} (S : Struct A).

Definition names : list str := f_name <$> st_fields S.
Definition field_of (k : str) : option (Field A) :=
  lookup_key k ((λ f, (f_name f, f)) <$> st_fields S).
Definition first_missing (seen : list str) : option (Field A) :=
  List.find (λ f, f_required f && negb (bool_decide (f_name f ∈ seen))) (st_fields S).

(** The generated visitor. *)
Fixpoint visit_map (seen : list str) (l : document) (a : A) : result de_error A :=
  match l with
  | [] => match first_missing seen with Some f => Err (MissingField (f_name f)) | None => Ok a end
  | (k, v) :: l =>
      match field_of k with
      | Some f =>
          if bool_decide (k ∈ seen) then Err (DuplicateField k)
          else b ← f_read f v; visit_map (k :: seen) l (f_put f b a)
      | None => if st_deny S then Err (UnknownField k names) else visit_map seen l a
      end
  end.
Fixpoint visit_seq (fs : list (Field A)) (l : list toml) (a : A) : result de_error A :=
  match fs, l with
  | [], [] => Ok a
  | [], _ :: _ => if extra_items then Ok a else Err InvalidLength
  | fs, [] => if existsb f_required fs then Err InvalidLength else Ok a
  | f :: fs, v :: l => b ← f_read f v; visit_seq fs l (f_put f b a)
  end.
Definition from_struct (v : toml) : result de_error A :=
  match v with
  | TTable l => visit_map [] l (st_default S)
  | TArr l => visit_seq (st_fields S) l (st_default S)
  | _ => Err (Invalid v "a struct")
  end.

Fixpoint members_of (fs : list (Field A)) (a : A) : result ser_error document :=
  match fs with
  | [] => Ok []
  | f :: fs =>
      o ← f_write f (f_get f a); rest ← members_of fs a;
      Ok (match o with Some v => (f_name f, v) :: rest | None => rest end)
  end.
Definition to_struct (a : A) : result ser_error toml :=
  l ← members_of (st_fields S) a; Ok (TTable l).

End struct.

(** ** The configuration *)

Section config.
Context `{TomlText}.

Definition from_channel (v : toml) : result de_error Channel :=
  match v with
  | TTable [(k, p)] =>
      if decide (k = ("custom" : str)) then s ← from_string p; Ok (Custom s)
      else from_unit_variant [("stable" : str, Stable); ("beta" : str, Beta); ("nightly" : str, Nightly)] v
  | _ => from_unit_variant [("stable" : str, Stable); ("beta" : str, Beta); ("nightly" : str, Nightly)] v
  end.
Definition to_channel (c : Channel) : rendered :=
  Ok (Some match c with
           | Stable => TStr "stable" | Beta => TStr "beta" | Nightly => TStr "nightly"
           | Custom s => TTable [("custom" : str, TStr s)]
           end).

Definition from_policy : toml → result de_error RebootPolicy :=
  from_unit_variant [("ask" : str, Ask); ("always" : str, Always); ("never" : str, Never)].
Definition to_policy (p : RebootPolicy) : rendered :=
  Ok (Some (TStr match p with Ask => "ask" | Always => "always" | Never => "never" end)).

Definition WEEKDAYS : list (str * Weekday) :=
  [("monday" : str, Monday); ("tuesday" : str, Tuesday); ("wednesday" : str, Wednesday); ("thursday" : str, Thursday);
   ("friday" : str, Friday); ("saturday" : str, Saturday); ("sunday" : str, Sunday)].
Definition from_weekday : toml → result de_error Weekday := from_unit_variant WEEKDAYS.
Definition weekday_name (d : Weekday) : str :=
  match d with
  | Monday => "monday" | Tuesday => "tuesday" | Wednesday => "wednesday" | Thursday => "thursday"
  | Friday => "friday" | Saturday => "saturday" | Sunday => "sunday"
  end.

Definition LEVELS : list (str * Level) :=
  (λ l, (level_to_string l, l)) <$> [Off; Error; Warn; Info; Debug; Trace].
Definition from_level : toml → result de_error Level := from_unit_variant LEVELS.
Definition to_level (l : Level) : rendered := to_string_ (level_to_string l).
Definition from_format : toml → result de_error Format :=
  from_unit_variant [("json" : str, Log.Json); ("text" : str, Log.Text)].
Definition to_format (f : Format) : rendered := to_string_ (format_to_string f).

(** A window has no default and ignores unknown keys. *)
Definition window_struct : Struct MaintenanceWindow := mkStruct
  [mkField "days" true (from_vec from_weekday) (λ ds, Ok (Some (TArr ((λ d, TStr (weekday_name d)) <$> ds))))
     days (λ x w, mkWindow x (start w) (end_ w) (max_duration_minutes w));
   mkField "start" true from_string to_string_ start (λ x w, mkWindow (days w) x (end_ w) (max_duration_minutes w));
   mkField "end" true from_string to_string_ end_ (λ x w, mkWindow (days w) (start w) x (max_duration_minutes w));
   mkField "max_duration_minutes" false (from_option (from_uint u32_max)) (to_option to_uint)
     max_duration_minutes (λ x w, mkWindow (days w) (start w) (end_ w) x)]
  (mkWindow [] [] [] None) false.

Definition system_struct : Struct SystemConfig := mkStruct
  [mkField "hostname" false (from_option from_string) (to_option to_string_) hostname (λ x c, mkSystem x (description c));
   mkField "description" false (from_option from_string) (to_option to_string_) description (λ x c, mkSystem (hostname c) x)]
  system_default true.

Definition updates_struct : Struct UpdatesConfig := mkStruct
  [mkField "channel" false from_channel to_channel channel
     (λ x c, mkUpdates x (automatic c) (check_interval c) (reboot_policy c) (state_file c) (apply_result_file c));
   mkField "automatic" false from_bool to_bool automatic
     (λ x c, mkUpdates (channel c) x (check_interval c) (reboot_policy c) (state_file c) (apply_result_file c));
   mkField "check_interval" false from_string to_string_ check_interval
     (λ x c, mkUpdates (channel c) (automatic c) x (reboot_policy c) (state_file c) (apply_result_file c));
   mkField "reboot_policy" false from_policy to_policy reboot_policy
     (λ x c, mkUpdates (channel c) (automatic c) (check_interval c) x (state_file c) (apply_result_file c));
   mkField "state_file" false from_string to_string_ state_file
     (λ x c, mkUpdates (channel c) (automatic c) (check_interval c) (reboot_policy c) x (apply_result_file c));
   mkField "apply_result_file" false from_string to_string_ apply_result_file
     (λ x c, mkUpdates (channel c) (automatic c) (check_interval c) (reboot_policy c) (state_file c) x)]
  updates_default true.

Definition to_windows (ws : list MaintenanceWindow) : rendered :=
  match ws with [] => Ok None | _ => vs ← to_items (to_struct window_struct) ws; Ok (Some (TArr vs)) end.
Definition maintenance_struct : Struct MaintenanceConfig := mkStruct
  [mkField "enabled" false from_bool to_bool m_enabled (λ x c, mkMaintenance x (windows c));
   mkField "windows" false (from_vec (from_struct window_struct)) to_windows windows (λ x c, mkMaintenance (m_enabled c) x)]
  maintenance_default true.

Definition remote_struct : Struct RemoteConfig := mkStruct
  [mkField "enabled" false from_bool to_bool r_enabled (λ x c, mkRemote x (listen_addr c) (advertise_hostname c));
   mkField "listen_addr" false from_string to_string_ listen_addr (λ x c, mkRemote (r_enabled c) x (advertise_hostname c));
   mkField "advertise_hostname" false (from_option from_string) (to_option to_string_) advertise_hostname
     (λ x c, mkRemote (r_enabled c) (listen_addr c) x)]
  remote_default true.

Definition security_struct : Struct SecurityConfig := mkStruct
  [mkField "require_authentication" false from_bool to_bool require_authentication (λ x c, mkSecurity x (token_file c));
   mkField "token_file" false (from_option from_string) (to_option to_string_) token_file
     (λ x c, mkSecurity (require_authentication c) x)]
  security_default true.

Definition logging_struct : Struct LoggingConfig := mkStruct
  [mkField "level" false from_level to_level log_level (λ x c, mkLogging x (log_format c));
   mkField "format" false from_format to_format log_format (λ x c, mkLogging (log_level c) x)]
  logging_default true.

Definition api_struct : Struct ApiConfig := mkStruct
  [mkField "base_path" false from_string to_string_ base_path (λ x c, mkApi x (max_payload_bytes c) (request_timeout_secs c));
   mkField "max_payload_bytes" false (from_uint u64_max) to_uint max_payload_bytes
     (λ x c, mkApi (base_path c) x (request_timeout_secs c));
   mkField "request_timeout_secs" false (from_uint u64_max) to_uint request_timeout_secs
     (λ x c, mkApi (base_path c) (max_payload_bytes c) x)]
  api_default true.

(** [#[serde(flatten)]] over a map: every member is a flag. *)
Fixpoint from_flags (l : document) : result de_error (list (str * bool)) :=
  match l with [] => Ok [] | (k, v) :: l => b ← from_bool v; bs ← from_flags l; Ok ((k, b) :: bs) end.
Definition from_features (v : toml) : result de_error FeaturesConfig :=
  match v with
  | TTable l => bs ← from_flags l; Ok (mkFeatures (list_to_map bs))
  | _ => Err (Invalid v "a map")
  end.
(** The entries of a [BTreeMap], in order. *)
Definition entries {B} (m : gmap str B) : list (str * B) :=
  omap (λ k, (k,.) <$> m !! k) (sort_str (fst <$> map_to_list m)).
Definition to_features (f : FeaturesConfig) : rendered :=
  Ok (Some (TTable ((λ kb, (fst kb, TBool (snd kb))) <$> entries (flags f)))).

Definition section_written {A} (S : Struct A) (a : A) : rendered := v ← to_struct S a; Ok (Some v).

Definition config_struct : Struct Config := mkStruct
  [mkField "system" false (from_struct system_struct) (section_written system_struct) system
     (λ x c, mkConfig _ x (updates c) (maintenance c) (remote c) (security c) (logging c) (api c) (features c) (extensions c));
   mkField "updates" false (from_struct updates_struct) (section_written updates_struct) updates
     (λ x c, mkConfig _ (system c) x (maintenance c) (remote c) (security c) (logging c) (api c) (features c) (extensions c));
   mkField "maintenance" false (from_struct maintenance_struct) (section_written maintenance_struct) maintenance
     (λ x c, mkConfig _ (system c) (updates c) x (remote c) (security c) (logging c) (api c) (features c) (extensions c));
   mkField "remote" false (from_struct remote_struct) (section_written remote_struct) remote
     (λ x c, mkConfig _ (system c) (updates c) (maintenance c) x (security c) (logging c) (api c) (features c) (extensions c));
   mkField "security" false (from_struct security_struct) (section_written security_struct) security
     (λ x c, mkConfig _ (system c) (updates c) (maintenance c) (remote c) x (logging c) (api c) (features c) (extensions c));
   mkField "logging" false (from_struct logging_struct) (section_written logging_struct) logging
     (λ x c, mkConfig _ (system c) (updates c) (maintenance c) (remote c) (security c) x (api c) (features c) (extensions c));
   mkField "api" false (from_struct api_struct) (section_written api_struct) api
     (λ x c, mkConfig _ (system c) (updates c) (maintenance c) (remote c) (security c) (logging c) x (features c) (extensions c));
   mkField "features" false from_features to_features features
     (λ x c, mkConfig _ (system c) (updates c) (maintenance c) (remote c) (security c) (logging c) (api c) x (extensions c))]
  config_default false.

Definition set_extensions (e : gmap str toml) (c : Config) : Config :=
  mkConfig _ (system c) (updates c) (maintenance c) (remote c) (security c) (logging c) (api c) (features c) e.
(** The flattened rest: the members no field takes. *)
Definition unclaimed (l : document) : document := filter (λ kv, fst kv ∉ names config_struct) l.
Definition config_from (l : document) : result de_error Config :=
  c ← visit_map config_struct [] l config_default;
  Ok (set_extensions (list_to_map (unclaimed l)) c).
Definition config_to (c : Config) : result ser_error document :=
  l ← members_of (st_fields config_struct) c; Ok (l ++ entries (extensions c)).

(** [toml::from_str::<Config>], [Config::to_toml]. *)
#[global] Instance config_toml : ConfigToml := λ raw,
  l ← toml_parse raw; map_err de_message (config_from l).
Definition to_toml (c : Config) : result str str :=
  l ← map_err ser_message (config_to c); Ok (toml_print l).

(** ** The token file *)

Definition no_write {B} (_ : B) : rendered := Ok None.
Definition token_struct : Struct RawToken := mkStruct
  [mkField "name" false (from_option from_string) no_write raw_name (λ x t, mkRaw x (raw_permissions t) (secret_hash t));
   mkField "permissions" false (from_vec from_string) no_write raw_permissions (λ x t, mkRaw (raw_name t) x (secret_hash t));
   mkField "secret_hash" true from_string no_write secret_hash (λ x t, mkRaw (raw_name t) (raw_permissions t) x)]
  (mkRaw None [] []) false.
(** [RawFile]: its one field. *)
Definition file_struct : Struct (list RawToken) := mkStruct
  [mkField "tokens" false (from_vec (from_struct token_struct)) no_write (λ ts, ts) (λ x _, x)] [] false.
#[global] Instance token_toml : TokenToml := λ raw,
  l ← toml_parse raw; map_err de_message (visit_map file_struct [] l []).

End config.

(** ** Lemmas *)

Lemma lookup_key_elem {B} k (l : list (str * B)) b : lookup_key k l = Some b → (k, b) ∈ l.
Proof. induction l as [|[k' b'] l IH]; [done|]. simpl. case_decide; set_solver. Qed.
Lemma lookup_key_None {B} k (l : list (str * B)) : lookup_key k l = None ↔ k ∉ fst <$> l.
Proof. induction l as [|[k' b'] l IH]; simpl; [set_solver|]. case_decide; set_solver. Qed.
Lemma lookup_key_NoDup {B} k b (l : list (str * B)) :
  NoDup (fst <$> l) → (k, b) ∈ l → lookup_key k l = Some b.
Proof.
  induction l as [|[k' b'] l IH]; simpl; [set_solver|]. intros [Hn Hd]%list.NoDup_cons Hk.
  case_decide as E.
  - subst. apply elem_of_cons in Hk as [[= ->]|Hk]; [done|]. destruct Hn.
    apply list_elem_of_fmap. by exists (k, b).
  - apply elem_of_cons in Hk as [[= -> ->]|Hk]; [done|]. by apply IH.
Qed.
Lemma lookup_key_app {B} k (l1 l2 : list (str * B)) :
  lookup_key k (l1 ++ l2) = match lookup_key k l1 with Some b => Some b | None => lookup_key k l2 end.
Proof. induction l1 as [|[k' b'] l1 IH]; simpl; [done|]. by case_decide. Qed.

(** *** Structs *)

(** What a derived struct is: fields of different names at different places, which
    together with the rest are the whole. *)
Class StructOk {A R : Type} (S : Struct A) (rest : A → R) := {
  names_distinct : NoDup (names S);
  get_put f b a : f ∈ st_fields S → f_get f (f_put f b a) = b;
  get_other f g b a : f ∈ st_fields S → g ∈ st_fields S → f_name f ≠ f_name g →
    f_get f (f_put g b a) = f_get f a;
  rest_put f b a : f ∈ st_fields S → rest (f_put f b a) = rest a;
  struct_ext a a' : (∀ f, f ∈ st_fields S → f_get f a = f_get f a') → rest a = rest a' → a = a';
}.

Section struct_lemmas.
Context `{TomlText} {A R : Type} (S : Struct A) (rest : A → R) `{!StructOk S rest}.

Lemma field_of_Some k f : field_of S k = Some f → f ∈ st_fields S ∧ f_name f = k.
Proof.
  intros Hf%lookup_key_elem. apply list_elem_of_fmap in Hf as (g & [= -> ->] & Hg). done.
Qed.
Lemma field_of_elem f : f ∈ st_fields S → field_of S (f_name f) = Some f.
Proof.
  intros Hf. apply lookup_key_NoDup.
  - rewrite <-list_fmap_compose. exact (names_distinct (StructOk := _)).
  - apply list_elem_of_fmap. by exists f.
Qed.
Lemma field_of_None k : field_of S k = None ↔ k ∉ names S.
Proof. unfold field_of, names. rewrite lookup_key_None, <-list_fmap_compose. done. Qed.
Lemma name_elem f : f ∈ st_fields S → f_name f ∈ names S.
Proof. intros Hf. apply list_elem_of_fmap. by exists f. Qed.

(** What a document says of a field. *)
Definition says {B} (read : toml → result de_error B) (required : bool) (d : B) (o : option toml) (b : B) : Prop :=
  match o with Some v => read v = Ok b | None => required = false ∧ b = d end.
Definition field_says (l : document) (d a : A) (f : Field A) : Prop :=
  says (f_read f) (f_required f) (f_get f d) (lookup_key (f_name f) l) (f_get f a).

Lemma first_missing_None seen :
  first_missing S seen = None ↔ ∀ f, f ∈ st_fields S → f_required f = true → f_name f ∈ seen.
Proof.
  unfold first_missing. split.
  - intros Hf f Hin Hr. destruct (decide (f_name f ∈ seen)) as [|Hn]; [done|].
    apply list_elem_of_In in Hin. pose proof (List.find_none _ _ Hf _ Hin) as Hx. simpl in Hx.
    rewrite Hr, bool_decide_eq_false_2 in Hx by done. done.
  - intros Hf. destruct (List.find _ _) as [f|] eqn:E; [|done].
    apply List.find_some in E as [Hin E]. apply list_elem_of_In in Hin. bool_norm. naive_solver.
Qed.

(** With the keys in [seen] behind, and [a0] so far. *)
Definition sees (seen : list str) (l : document) (a0 a : A) (f : Field A) : Prop :=
  says (f_read f) (f_required f && negb (bool_decide (f_name f ∈ seen))) (f_get f a0)
       (lookup_key (f_name f) l) (f_get f a).

Lemma same_field f g : f ∈ st_fields S → g ∈ st_fields S → f_name f = f_name g → f = g.
Proof. intros Hf Hg E. apply (f_equal (field_of S)) in E. rewrite !field_of_elem in E by done. congruence. Qed.

Lemma sees_cons f v b seen l a0 a g :
  f ∈ st_fields S → g ∈ st_fields S → f_name f ∉ fst <$> l → f_read f v = Ok b →
  sees seen ((f_name f, v) :: l) a0 a g ↔ sees (f_name f :: seen) l (f_put f b a0) a g.
Proof.
  intros Hf Hg Hl Hr. unfold sees. cbn [lookup_key]. case_decide as E.
  - apply same_field in E as <-; [|done..]. rewrite (proj2 (lookup_key_None _ _)) by done. cbn [says].
    rewrite Hr, (get_put (StructOk := _)), bool_decide_eq_true_2, andb_false_r by set_solver. naive_solver.
  - rewrite (get_other (StructOk := _)) by naive_solver.
    by rewrite (bool_decide_ext (f_name g ∈ f_name f :: seen) (f_name g ∈ seen)) by set_solver.
Qed.
Lemma sees_other k v seen l a0 a g :
  g ∈ st_fields S → k ∉ names S → sees seen ((k, v) :: l) a0 a g ↔ sees seen l a0 a g.
Proof.
  intros Hg Hk. unfold sees. cbn [lookup_key]. by rewrite decide_False by (intros ->; by apply Hk, name_elem).
Qed.

Lemma visit_nil_spec seen a0 a :
  visit_map S seen [] a0 = Ok a ↔ rest a = rest a0 ∧ ∀ f, f ∈ st_fields S → sees seen [] a0 a f.
Proof.
  simpl. destruct (first_missing S seen) as [f|] eqn:E.
  - split; [done|]. intros [_ Hf]. apply List.find_some in E as [Hin E].
    apply list_elem_of_In in Hin. destruct (Hf f Hin) as [Hn _]. by rewrite E in Hn.
  - rewrite first_missing_None in E. split.
    + intros [= <-]. split; [done|]. intros f Hf. split; [|done].
      destruct (f_required f) eqn:Er; [|done]. by rewrite bool_decide_eq_true_2 by eauto.
    + intros [Hr Hf]. f_equal. symmetry. apply (struct_ext (StructOk := _)); [|done].
      intros f Hin. by apply (Hf f Hin).
Qed.

(** The visitor, whatever the order of the members: every known key is read into
    its field, every absent one keeps what was there, and an unknown one is refused
    where the struct says so. *)
Lemma visit_map_spec seen l a0 a :
  NoDup (fst <$> l) → (∀ k, k ∈ seen → k ∉ fst <$> l) →
  visit_map S seen l a0 = Ok a ↔
    (st_deny S = true → ∀ k, k ∈ fst <$> l → k ∈ names S)
    ∧ rest a = rest a0 ∧ ∀ f, f ∈ st_fields S → sees seen l a0 a f.
Proof.
  revert seen a0. induction l as [|[k v] l IH]; intros seen a0 Hd Hs.
  { rewrite visit_nil_spec. set_solver. }
  simpl in Hd. apply list.NoDup_cons in Hd as [Hk Hd]. cbn [visit_map].
  destruct (field_of S k) as [f|] eqn:E.
  - apply field_of_Some in E as [Hf <-]. rewrite bool_decide_eq_false_2 by set_solver.
    assert (Hn : f_name f ∈ names S) by by apply name_elem.
    destruct (f_read f v) as [b|e] eqn:Er; cbn [mbind result_bind].
    + rewrite IH by (done || set_solver). rewrite (rest_put (StructOk := _)) by done.
      setoid_rewrite elem_of_cons. split; intros (H1 & H2 & H3); (split; [naive_solver|]; split; [done|]);
        intros g Hg; specialize (H3 g Hg); by eapply sees_cons.
    + split; [done|]. intros (_ & _ & H3). specialize (H3 f Hf). unfold sees in H3.
      cbn [lookup_key] in H3. rewrite decide_True in H3 by done. simpl in H3. congruence.
  - apply field_of_None in E. destruct (st_deny S) eqn:Eden.
    + split; [done|]. intros (H1 & _). destruct E. apply H1; [done|]. set_solver.
    + rewrite IH by (done || set_solver). split; intros (H1 & H2 & H3); (split; [done|]; split; [done|]);
        intros f Hf; specialize (H3 f Hf); by eapply sees_other.
Qed.

Lemma from_table_spec l a :
  NoDup (fst <$> l) →
  visit_map S [] l (st_default S) = Ok a ↔
    (st_deny S = true → ∀ k, k ∈ fst <$> l → k ∈ names S)
    ∧ rest a = rest (st_default S) ∧ ∀ f, f ∈ st_fields S → field_says l (st_default S) a f.
Proof.
  intros Hd. rewrite visit_map_spec by (done || set_solver).
  assert (Hf : ∀ f, sees [] l (st_default S) a f ↔ field_says l (st_default S) a f).
  { intros f. unfold sees, field_says. rewrite bool_decide_eq_false_2 by set_solver. by rewrite andb_true_r. }
  split; intros (H1 & H2 & H3); (split; [done|]; split; [done|]); intros f Hin; by apply Hf, H3.
Qed.
End struct_lemmas.

(** *** Writing and reading *)

(** What is written of a value is read back; what is left out is the default. *)
Definition kept {B} (read : toml → result de_error B) (required : bool) (d b : B) (w : rendered) : Prop :=
  ∀ o, w = Ok o → says read required d o b.
Definition field_kept {A} (d a : A) (f : Field A) : Prop :=
  kept (f_read f) (f_required f) (f_get f d) (f_get f a) (f_write f (f_get f a)).

Section rendered.
Context `{TomlText} {A R : Type} (S : Struct A) (rest : A → R) `{!StructOk S rest}.

Lemma members_keys (fs : list (Field A)) a l : members_of fs a = Ok l → sublist (fst <$> l) (f_name <$> fs).
Proof.
  revert l. induction fs as [|g fs IH]; intros l Hl; cbn [members_of] in Hl.
  - injection Hl as <-. constructor.
  - destruct (f_write g _) as [o|]; [|done]. cbn in Hl. destruct (members_of fs a) as [l'|]; [|done].
    injection Hl as <-. destruct o; simpl; constructor; by apply IH.
Qed.
Lemma members_lookup (fs : list (Field A)) a l f :
  NoDup (f_name <$> fs) → members_of fs a = Ok l → f ∈ fs →
  f_write f (f_get f a) = Ok (lookup_key (f_name f) l).
Proof.
  revert l. induction fs as [|g fs IH]; intros l Hd Hl Hf; [set_solver|].
  simpl in Hd. apply list.NoDup_cons in Hd as [Hn Hd]. cbn [members_of] in Hl.
  destruct (f_write g (f_get g a)) as [o|] eqn:Eo; [|done]. cbn in Hl.
  destruct (members_of fs a) as [l'|] eqn:El; [|done]. injection Hl as <-.
  assert (Hk : ∀ k, k ∈ fst <$> l' → k ∈ f_name <$> fs) by (intros k Hk; by eapply elem_of_sublist, members_keys).
  apply elem_of_cons in Hf as [->|Hf].
  - rewrite Eo. destruct o as [v|]; simpl; [by rewrite decide_True|].
    f_equal. symmetry. apply lookup_key_None. intros Hin. by apply Hn, Hk.
  - rewrite (IH _ Hd eq_refl Hf). f_equal. destruct o as [v|]; [|done]. simpl.
    rewrite decide_False; [done|]. intros E. apply Hn. rewrite E. apply list_elem_of_fmap. by exists f.
Qed.

Lemma members_ok (fs : list (Field A)) a :
  (∃ l, members_of fs a = Ok l) ↔ ∀ f, f ∈ fs → ∃ o, f_write f (f_get f a) = Ok o.
Proof.
  induction fs as [|g fs IH]; cbn [members_of].
  - split; [by intros _ f ?%elem_of_nil|by eexists].
  - setoid_rewrite elem_of_cons. destruct (f_write g (f_get g a)) as [o|] eqn:Eo; cbn [mbind result_bind].
    + destruct (members_of fs a) as [l|]; cbn [mbind result_bind].
      * split; [|by eexists]. intros _ f [->|Hf]; [by eexists|]. apply IH; [by eexists|done].
      * split; [by intros [? ?]|]. intros Hf. destruct (proj2 IH) as [? ?]; [|done]. intros f Hin. apply Hf. by right.
    + split; [by intros [? ?]|]. intros Hf. destruct (Hf g) as [o Ho]; [by left|]. congruence.
Qed.

(** With members of other names after it, as flattening puts them. *)
Lemma members_read a l others :
  (∀ f, f ∈ st_fields S → field_kept (st_default S) a f) → rest a = rest (st_default S) →
  (∀ k, k ∈ fst <$> others → k ∉ names S) → NoDup (fst <$> others) → (st_deny S = true → others = []) →
  members_of (st_fields S) a = Ok l →
  visit_map S [] (l ++ others) (st_default S) = Ok a.
Proof.
  intros Hk Hr Ho Hd Hden Hl. pose proof (members_keys _ _ _ Hl) as Hs.
  pose proof (names_distinct (StructOk := StructOk0)) as Hnd.
  assert (Hsub : ∀ k, k ∈ fst <$> l → k ∈ names S) by (intros k Hin; by eapply elem_of_sublist).
  apply (from_table_spec S rest).
  - rewrite fmap_app. apply list.NoDup_app. split; [by eapply sublist_NoDup|]. split; [|done]. intros k Hin Hin'.
    by apply (Ho k), Hsub.
  - split; [|split; [done|]].
    + intros E k. rewrite (Hden E), app_nil_r. apply Hsub.
    + intros f Hf. unfold field_says. rewrite lookup_key_app.
      pose proof (members_lookup _ _ _ f Hnd Hl Hf) as Hw. apply (Hk f Hf) in Hw.
      destruct (lookup_key (f_name f) l); [done|].
      rewrite (proj2 (lookup_key_None _ _)); [done|]. intros Hin. by apply (Ho (f_name f)), name_elem.
Qed.
Lemma struct_read a v :
  (∀ f, f ∈ st_fields S → field_kept (st_default S) a f) → rest a = rest (st_default S) →
  to_struct S a = Ok v → from_struct S v = Ok a.
Proof.
  intros Hk Hr Hv. unfold to_struct in Hv. destruct (members_of _ a) as [l|] eqn:El; [|done].
  injection Hv as <-. simpl. rewrite <-(app_nil_r l). apply members_read; try done; [set_solver|constructor].
Qed.
End rendered.

Lemma kept_string `{TomlText} b d : kept from_string false d b (to_string_ b).
Proof. by intros o [= <-]. Qed.
Lemma kept_bool `{TomlText} b d : kept from_bool false d b (to_bool b).
Proof. by intros o [= <-]. Qed.
Lemma read_uint max n v : (n ≤ max)%N → to_uint n = Ok (Some v) → from_uint max v = Ok n.
Proof.
  unfold to_uint. intros Hn Hv. destruct (n <=? i64_max)%N; [|done]. injection Hv as <-. simpl.
  rewrite N2Z.id, (proj2 (Z.leb_le _ _)) by lia. by rewrite (proj2 (N.leb_le _ _)).
Qed.
Lemma kept_uint `{TomlText} max n d r : (n ≤ max)%N → kept (from_uint max) r d n (to_uint n).
Proof.
  intros Hn [v|] Hv; [by eapply read_uint|]. unfold to_uint in Hv. by destruct (n <=? i64_max)%N.
Qed.
Lemma kept_option_string o : kept (from_option from_string) false None o (to_option to_string_ o).
Proof. by intros [v|] Hv; destruct o; try done; injection Hv as <-. Qed.

(** *** The structs of the configuration *)

Ltac each_field H := repeat (apply elem_of_cons in H as [->|H]); [..|by apply elem_of_nil in H].
Ltac struct_ok :=
  split;
  [ apply (bool_decide_eq_true_1 (NoDup _)); vm_compute; reflexivity
  | intros f b a Hf; revert b; each_field Hf; intros b; by destruct a
  | intros f g b a Hf Hg; revert b; each_field Hf; each_field Hg; intros b Hn; solve [by destruct a|by destruct Hn]
  | intros f b a Hf; revert b; each_field Hf; intros b; by destruct a
  | intros a a' Hf Hr; apply list.Forall_forall in Hf; repeat (apply list.Forall_cons in Hf as [? Hf]);
    destruct a, a'; simpl in *; congruence ].

Definition no_rest {A : Type} (_ : A) : () := tt.

Section instances.
Context `{TomlText}.
#[global] Instance window_ok' : StructOk window_struct no_rest. Proof. struct_ok. Qed.
#[global] Instance system_ok : StructOk system_struct no_rest. Proof. struct_ok. Qed.
#[global] Instance updates_ok : StructOk updates_struct no_rest. Proof. struct_ok. Qed.
#[global] Instance maintenance_ok : StructOk maintenance_struct no_rest. Proof. struct_ok. Qed.
#[global] Instance remote_ok : StructOk remote_struct no_rest. Proof. struct_ok. Qed.
#[global] Instance security_ok : StructOk security_struct no_rest. Proof. struct_ok. Qed.
#[global] Instance logging_ok : StructOk logging_struct no_rest. Proof. struct_ok. Qed.
#[global] Instance api_ok : StructOk api_struct no_rest. Proof. struct_ok. Qed.
#[global] Instance config_ok : StructOk config_struct extensions. Proof. struct_ok. Qed.
#[global] Instance token_ok : StructOk token_struct no_rest. Proof. struct_ok. Qed.
End instances.

(** *** Sections of a document *)

(** The value at a key of a section. *)
Definition setting (l : document) (sec key : str) : option toml :=
  v ← lookup_key sec l; match v with TTable m => lookup_key key m | _ => None end.

Section sections.
Context `{TomlText}.

(** Where every field has a default, an absent section is an empty one. *)
Lemma section_says {A : Type} (S : Struct A) `{!StructOk S no_rest} l sec a :
  (∀ v, lookup_key sec l = Some v → ∃ m, v = TTable m ∧ NoDup (fst <$> m)) →
  st_deny S = true → (∀ f, f ∈ st_fields S → f_required f = false) →
  says (from_struct S) false (st_default S) (lookup_key sec l) a ↔
    (∀ key, is_Some (setting l sec key) → key ∈ names S)
    ∧ ∀ f, f ∈ st_fields S →
        says (f_read f) false (f_get f (st_default S)) (setting l sec (f_name f)) (f_get f a).
Proof.
  intros Hv Hd Hq. unfold setting, says at 1. destruct (lookup_key sec l) as [v|].
  - destruct (Hv v eq_refl) as (m & -> & Hm). cbn [from_struct mbind option_bind].
    rewrite (from_table_spec S no_rest) by done. unfold field_says. split.
    + intros (H1 & _ & H3). split.
      * intros key [v Hk]. apply H1; [done|]. apply list_elem_of_fmap. exists (key, v).
        split; [done|]. by apply lookup_key_elem.
      * intros f Hf. specialize (H3 f Hf). by rewrite Hq in H3.
    + intros [H1 H3]. split; [|split; [done|]].
      * intros _ k Hk. apply H1. destruct (lookup_key k m) eqn:E; [done|]. by apply lookup_key_None in E.
      * intros f Hf. rewrite Hq by done. by apply H3.
  - cbn. split.
    + intros [_ ->]. split; [by intros key [? ?]|]. by intros f Hf.
    + intros [_ H3]. split; [done|]. apply (struct_ext (S := S) (rest := no_rest)); [|done].
      intros f Hf. by apply (H3 f Hf).
Qed.

Lemma config_from_spec l c :
  NoDup (fst <$> l) →
  config_from l = Ok c ↔
    extensions c = list_to_map (unclaimed l)
    ∧ ∀ f, f ∈ st_fields config_struct → field_says l config_default c f.
Proof.
  intros Hd. unfold config_from.
  assert (Hv : ∀ c0, visit_map config_struct [] l config_default = Ok c0 ↔
    extensions c0 = ∅ ∧ ∀ f, f ∈ st_fields config_struct → field_says l config_default c0 f).
  { intros c0. rewrite (from_table_spec config_struct extensions) by done. cbn [extensions config_default]. naive_solver. }
  assert (Hs : ∀ e c0 f, f ∈ st_fields config_struct → f_get f (set_extensions e c0) = f_get f c0)
    by (intros e c0 f Hf; each_field Hf; done).
  split.
  - destruct (visit_map _ _ _ _) as [c0|] eqn:E; [|done]. cbn. intros [= <-]. split; [done|].
    destruct (proj1 (Hv c0) eq_refl) as [_ Hc]. intros f Hf. unfold field_says. rewrite Hs by done. by apply Hc.
  - intros [He Hf].
    assert (E : visit_map config_struct [] l config_default = Ok (set_extensions ∅ c)).
    { apply Hv. split; [done|]. intros f Hin. unfold field_says. rewrite Hs by done. by apply Hf. }
    rewrite E. cbn. f_equal. destruct c. simpl in *. by rewrite He.
Qed.
End sections.

Lemma each_of {A : Type} (S : Struct A) (P : Field A → Prop) :
  (∀ f, f ∈ st_fields S → P f) ↔ Forall P (st_fields S).
Proof. by rewrite list.Forall_forall. Qed.

(** *** What is written of a configuration *)

Section config_written.
Context `{TomlText}.

(** What the types of the source bound. *)
Definition window_typed (w : MaintenanceWindow) : Prop :=
  ∀ n, max_duration_minutes w = Some n → (n ≤ u32_max)%N.
Definition config_typed (c : Config) : Prop :=
  Forall window_typed (windows (maintenance c))
  ∧ (max_payload_bytes (api c) ≤ u64_max)%N ∧ (request_timeout_secs (api c) ≤ u64_max)%N.

Lemma kept_channel x d : kept from_channel false d x (to_channel x).
Proof. intros o [= <-]. by destruct x. Qed.
Lemma kept_policy x d : kept from_policy false d x (to_policy x).
Proof. intros o [= <-]. by destruct x. Qed.
Lemma kept_level x d : kept from_level false d x (to_level x).
Proof. intros o [= <-]. by destruct x. Qed.
Lemma kept_format x d : kept from_format false d x (to_format x).
Proof. intros o [= <-]. by destruct x. Qed.
Lemma from_weekdays ds : from_items from_weekday ((λ d, TStr (weekday_name d)) <$> ds) = Ok ds.
Proof.
  induction ds as [|d ds IH]; [done|]. cbn [fmap list_fmap from_items]. fold (fmap (M := list) (λ d, TStr (weekday_name d)) ds).
  rewrite IH. by destruct d.
Qed.

Lemma window_read w v : window_typed w → to_struct window_struct w = Ok v → from_struct window_struct v = Ok w.
Proof.
  intros Hw. apply (struct_read window_struct no_rest); [|done]. intros f Hf. each_field Hf.
  - intros o [= <-]. apply from_weekdays.
  - by intros o [= <-].
  - by intros o [= <-].
  - intros o Ho. cbn [f_write f_get f_read f_required] in *. destruct (max_duration_minutes w) as [n|] eqn:E.
    + assert (Hk : kept (from_uint u32_max) true 0%N n (to_uint n)) by by apply kept_uint, Hw.
      apply Hk in Ho. destruct o as [x|]; [|by destruct Ho]. simpl in *. unfold from_option. by rewrite Ho.
    + by injection Ho as <-.
Qed.
Lemma windows_read ws : Forall window_typed ws → kept (from_vec (from_struct window_struct)) false [] ws (to_windows ws).
Proof.
  intros Hw o Ho. destruct ws as [|w ws]; [by injection Ho as <-|]. unfold to_windows in Ho.
  destruct (to_items _ _) as [vs|] eqn:E; [|done]. injection Ho as <-. simpl. clear -Hw E.
  revert vs E. induction Hw as [|x xs Hx _ IH]; intros vs E; cbn [to_items] in E; [by injection E as <-|].
  destruct (to_struct _ x) as [v|] eqn:Ev; [|done]. cbn in E. destruct (to_items _ xs) as [vs'|]; [|done].
  injection E as <-. cbn [from_items]. by rewrite (window_read _ _ Hx Ev); cbn; rewrite (IH _ eq_refl).
Qed.

(** A section all of whose fields are kept is kept. *)
Lemma section_kept {A : Type} (S : Struct A) `{!StructOk S no_rest} a :
  (∀ f, f ∈ st_fields S → field_kept (st_default S) a f) →
  kept (from_struct S) false (st_default S) a (section_written S a).
Proof.
  intros Hk o Ho. unfold section_written in Ho. destruct (to_struct S a) as [v|] eqn:E; [|done].
  injection Ho as <-. by apply (struct_read S no_rest).
Qed.

(** The entries of a map are its contents. *)
Lemma entries_permutation {B} (m : gmap str B) : entries m ≡ₚ map_to_list m.
Proof.
  unfold entries. rewrite sort_str_Permutation.
  assert (Hl : ∀ l : list (str * B), (∀ kb, kb ∈ l → m !! fst kb = Some (snd kb)) → omap (λ k, (k,.) <$> m !! k) (fst <$> l) = l).
  { induction l as [|[k b] l IH]; intros Hl; [done|]. simpl.
    pose proof (Hl (k, b) ltac:(set_solver)) as E. simpl in E. rewrite E. simpl.
    f_equal. apply IH. set_solver. }
  rewrite Hl; [done|]. intros [k b]. apply elem_of_map_to_list.
Qed.
Lemma entries_keys {B} (m : gmap str B) : NoDup (fst <$> entries m).
Proof. rewrite entries_permutation. apply NoDup_fst_map_to_list. Qed.
Lemma entries_map {B} (m : gmap str B) : list_to_map (entries m) = m.
Proof.
  rewrite (list_to_map_proper (entries m) (map_to_list m)); [apply list_to_map_to_list|apply entries_keys|apply entries_permutation].
Qed.
Lemma features_kept f d : kept from_features false d f (to_features f).
Proof.
  intros o [= <-]. simpl. assert (E : ∀ l : list (str * bool), from_flags ((λ kb, (fst kb, TBool (snd kb))) <$> l) = Ok l).
  { intros l. unfold fmap. induction l as [|[k b] l IH]; [done|]. simpl. by rewrite IH. }
  rewrite E. cbn. rewrite entries_map. by destruct f.
Qed.

Lemma config_fields_kept c : config_typed c →
  ∀ f, f ∈ st_fields config_struct → field_kept config_default c f.
Proof.
  intros (Hw & Hm & Hr) f Hf. each_field Hf;
    [apply (section_kept system_struct)|apply (section_kept updates_struct)|apply (section_kept maintenance_struct)
    |apply (section_kept remote_struct)|apply (section_kept security_struct)|apply (section_kept logging_struct)
    |apply (section_kept api_struct)|apply features_kept]; intros g Hg; each_field Hg;
    first [ apply kept_option_string | apply kept_string | apply kept_bool | by apply kept_uint | by apply windows_read
          | apply kept_channel | apply kept_policy | apply kept_level | apply kept_format ].
Qed.
Lemma windows_written ws : Forall window_typed ws → ∃ o, to_windows ws = Ok o.
Proof.
  intros Hw. assert (Hi : ∃ vs, to_items (to_struct window_struct) ws = Ok vs).
  { induction Hw as [|w ws Hw _ [vs Hvs]]; [by eexists|]. cbn [to_items]. rewrite Hvs.
    assert (Hm : ∃ l, members_of (st_fields window_struct) w = Ok l).
    { apply members_ok. intros f Hf. each_field Hf; [by eexists..|]. cbn [f_write f_get].
      destruct (max_duration_minutes w) as [n|] eqn:E; [|by eexists]. apply Hw in E. cbn [to_option].
      unfold to_uint. rewrite (proj2 (N.leb_le n i64_max)); [by eexists|]. unfold u32_max, i64_max in *. lia. }
    destruct Hm as [l Hl]. unfold to_struct at 1. rewrite Hl. by eexists. }
  destruct Hi as [vs Hvs]. unfold to_windows. rewrite Hvs. destruct ws; by eexists.
Qed.
Lemma uint_written n : (∃ o, to_uint n = Ok o) ↔ (n ≤ i64_max)%N.
Proof.
  unfold to_uint. destruct (n <=? i64_max)%N eqn:E; bool_norm; split; try done; [by eexists|by intros [? ?]|lia].
Qed.
Lemma section_written_ok {A : Type} (S : Struct A) a :
  (∃ o, section_written S a = Ok o) ↔ ∀ f, f ∈ st_fields S → ∃ o, f_write f (f_get f a) = Ok o.
Proof.
  rewrite <-members_ok. unfold section_written, to_struct.
  destruct (members_of _ a) as [l|]; cbn; split; intros [? ?]; first [done|by eexists].
Qed.
Lemma config_written_ok c : config_typed c →
  (∃ l, members_of (st_fields config_struct) c = Ok l)
  ↔ (max_payload_bytes (api c) ≤ i64_max ∧ request_timeout_secs (api c) ≤ i64_max)%N.
Proof.
  intros (Hw & _ & _). rewrite members_ok, (each_of config_struct). cbn [st_fields config_struct].
  rewrite !list.Forall_cons, list.Forall_nil. cbn [f_write f_get].
  rewrite !section_written_ok, !each_of.
  cbn [st_fields system_struct updates_struct maintenance_struct remote_struct security_struct logging_struct api_struct].
  rewrite !list.Forall_cons, !list.Forall_nil. cbn [f_write f_get]. rewrite !uint_written.
  assert (Ho : ∀ o, ∃ w, to_option to_string_ o = Ok w) by (intros [?|]; by eexists).
  split; [intros; destruct_and!; done|]. intros [Hm Hr].
  split_and!; first [done | apply Ho | by apply windows_written | by eexists].
Qed.
(** Nothing a field claims is an extension, and the rest all is. *)
Lemma unclaimed_rest l others :
  (∀ k, k ∈ fst <$> l → k ∈ names config_struct) → (∀ k, k ∈ fst <$> others → k ∉ names config_struct) →
  unclaimed (l ++ others) = others.
Proof.
  intros Hl Ho. unfold unclaimed. rewrite list.filter_app.
  replace (filter _ l) with (@nil (str * toml)).
  - cbn [app]. induction others as [|kv others IH]; [done|]. rewrite filter_cons_True, IH; [done|..].
    + intros k Hk. apply Ho. rewrite fmap_cons. by right.
    + apply Ho. rewrite fmap_cons. by left.
  - induction l as [|kv l IH]; [done|]. rewrite filter_cons_False, <-IH; [done|..].
    + intros k Hk. apply Hl. rewrite fmap_cons. by right.
    + intros Hn. apply Hn, Hl. rewrite fmap_cons. by left.
Qed.
End config_written.

(** ** Properties *)

(** The keys of the framework's sections; those of [features] are free. *)
Definition SETTINGS : list (str * list str) := [
  ("system" : str, ["hostname" : str; "description" : str]);
  ("updates" : str, ["channel" : str; "automatic" : str; "check_interval" : str; "reboot_policy" : str;
                     "state_file" : str; "apply_result_file" : str]);
  ("maintenance" : str, ["enabled" : str; "windows" : str]);
  ("remote" : str, ["enabled" : str; "listen_addr" : str; "advertise_hostname" : str]);
  ("security" : str, ["require_authentication" : str; "token_file" : str]);
  ("logging" : str, ["level" : str; "format" : str]);
  ("api" : str, ["base_path" : str; "max_payload_bytes" : str; "request_timeout_secs" : str])].

Definition SECTIONS : list str := fst <$> SETTINGS.
Definition FEATURES : str := "features".

Section properties.
Context `{TomlText}.

(** What every setting of a document stands for, absent or there. *)
Definition means (l : document) (c : Config) : Prop :=
  let reads sec key {B} (read : toml → result de_error B) (d b : B) := says read false d (setting l sec key) b in
  let text := from_option from_string in
  reads "system" "hostname" text None (hostname (system c))
  ∧ reads "system" "description" text None (description (system c))
  ∧ reads "updates" "channel" from_channel Stable (channel (updates c))
  ∧ reads "updates" "automatic" from_bool false (automatic (updates c))
  ∧ reads "updates" "check_interval" from_string "6h" (check_interval (updates c))
  ∧ reads "updates" "reboot_policy" from_policy Ask (reboot_policy (updates c))
  ∧ reads "updates" "state_file" from_string "/var/lib/abora/updates.json" (state_file (updates c))
  ∧ reads "updates" "apply_result_file" from_string "/var/lib/abora-apply/result.json" (apply_result_file (updates c))
  ∧ reads "maintenance" "enabled" from_bool true (m_enabled (maintenance c))
  ∧ reads "maintenance" "windows" (from_vec (from_struct window_struct)) [] (windows (maintenance c))
  ∧ reads "remote" "enabled" from_bool false (r_enabled (remote c))
  ∧ reads "remote" "listen_addr" from_string "127.0.0.1:7360" (listen_addr (remote c))
  ∧ reads "remote" "advertise_hostname" text None (advertise_hostname (remote c))
  ∧ reads "security" "require_authentication" from_bool true (require_authentication (security c))
  ∧ reads "security" "token_file" text None (token_file (security c))
  ∧ reads "logging" "level" from_level Info (log_level (logging c))
  ∧ reads "logging" "format" from_format Log.Json (log_format (logging c))
  ∧ reads "api" "base_path" from_string "/api/v1" (base_path (api c))
  ∧ reads "api" "max_payload_bytes" (from_uint u64_max) 1048576%N (max_payload_bytes (api c))
  ∧ reads "api" "request_timeout_secs" (from_uint u64_max) 30%N (request_timeout_secs (api c)).

Lemma keys_each l :
  (∀ sec keys key, (sec, keys) ∈ SETTINGS → is_Some (setting l sec key) → key ∈ keys)
  ↔ Forall (λ sk, ∀ key, is_Some (setting l (fst sk) key) → key ∈ snd sk) SETTINGS.
Proof. rewrite list.Forall_forall. split; [intros Hk [sec keys] Hin key; by apply Hk|]. intros Hk sec keys key Hin. by apply (Hk (sec, keys)). Qed.

(** A section's part of [config_from_spec], setting by setting. *)
Ltac section_as St sec Hs :=
  lazymatch goal with |- context [says (from_struct St) false ?d (lookup_key ?k ?l) ?a] =>
    let E := fresh "E" in
    let M := fresh "M" in
    assert (M : (sec : str) ∈ SECTIONS) by (apply (bool_decide_eq_true_1 (_ ∈ SECTIONS)); vm_compute; reflexivity);
    assert (E : says (from_struct St) false d (lookup_key k l) a ↔ _) by
      (apply (section_says St l sec a (Hs sec M) eq_refl); intros f Hf; each_field Hf; reflexivity);
    rewrite E; clear E M; rewrite (each_of St);
    let F := eval hnf in (st_fields St) in change (st_fields St) with F; rewrite !list.Forall_cons;
    rewrite list.Forall_nil; cbn [f_name f_read f_get]
  end.

(** C36: what a configuration file means. A document whose framework sections are
    tables is read exactly when every key of those sections is a known one and
    every value is of its kind; then each of the twenty settings is its value, or
    its default where the key or the section is absent; the flags are the
    members of [features]; and every other top-level member is kept, unread, as an
    extension. The order of the members does not matter. So a misspelled key of a
    section is refused, and a misspelled section is an extension that changes
    nothing. *)
Theorem config_meaning (l : document) (c : Config) :
  NoDup (fst <$> l) →
  (∀ sec v, sec ∈ SECTIONS → lookup_key sec l = Some v → ∃ m, v = TTable m ∧ NoDup (fst <$> m)) →
  config_from l = Ok c ↔
    (∀ sec keys key, (sec, keys) ∈ SETTINGS → is_Some (setting l sec key) → key ∈ keys)
    ∧ means l c
    ∧ says from_features false (mkFeatures ∅) (lookup_key FEATURES l) (features c)
    ∧ extensions c = list_to_map (filter (λ kv, fst kv ∉ FEATURES :: SECTIONS) l).
Proof.
  intros Hd Hv. rewrite config_from_spec by done.
  assert (Hs : ∀ sec, sec ∈ SECTIONS → ∀ v, lookup_key sec l = Some v → ∃ m, v = TTable m ∧ NoDup (fst <$> m)) by eauto.
  rewrite (each_of config_struct). cbn [st_fields config_struct]. rewrite !list.Forall_cons.
  unfold field_says. cbn [f_name f_read f_required f_get config_default].
  cbn [system updates maintenance remote security logging api features].
  section_as system_struct "system" Hs. section_as updates_struct "updates" Hs.
  section_as maintenance_struct "maintenance" Hs. section_as remote_struct "remote" Hs.
  section_as security_struct "security" Hs. section_as logging_struct "logging" Hs. section_as api_struct "api" Hs.
  rewrite list.Forall_nil, keys_each. unfold SETTINGS. rewrite !list.Forall_cons, list.Forall_nil. cbn [fst snd].
  replace (filter (λ kv, fst kv ∉ FEATURES :: SECTIONS) l) with (unclaimed l)
    by (apply list_filter_iff; intros kv; change (names config_struct) with (SECTIONS ++ [FEATURES]);
        rewrite elem_of_cons, elem_of_app, list_elem_of_singleton; tauto).
  unfold means. split; intros; destruct_and!; split_and!; (assumption || exact I).
Qed.

(** C37: a configuration that is written as TOML is read back as itself: with
    every section, the defaults among its settings, the flags, the windows and the
    extensions. It can be written exactly when its two limits are integers of TOML,
    at most [2^63 - 1], and the durations of its windows always are. *)
Theorem config_round_trip (c : Config) :
  config_typed c → (∀ k, is_Some (extensions c !! k) → k ∉ FEATURES :: SECTIONS) →
  if bool_decide (max_payload_bytes (api c) ≤ i64_max ∧ request_timeout_secs (api c) ≤ i64_max)%N
  then ∃ l, config_to c = Ok l ∧ config_from l = Ok c
  else config_to c = Err OutOfRange.
Proof.
  intros Ht He. pose proof (config_written_ok c Ht) as Hok. unfold config_to.
  case_bool_decide as Hl.
  - destruct (proj2 Hok Hl) as [l El]. rewrite El. eexists. split; [reflexivity|].
    assert (Hn : ∀ k, k ∈ fst <$> entries (extensions c) → k ∉ names config_struct).
    { intros k Hk. change (names config_struct) with (SECTIONS ++ [FEATURES]).
      rewrite entries_permutation in Hk. apply list_elem_of_fmap in Hk as ([k' v] & -> & Hk).
      apply elem_of_map_to_list in Hk. specialize (He k' (mk_is_Some _ _ Hk)).
      rewrite elem_of_app, list_elem_of_singleton. rewrite elem_of_cons in He. cbn [fst]. tauto. }
    unfold config_from. rewrite (members_read config_struct extensions (set_extensions ∅ c) l (entries (extensions c)));
      [|by apply config_fields_kept|reflexivity|exact Hn|exact (entries_keys _)|by intros [=]|exact El].
    cbn [mbind result_bind]. f_equal. rewrite unclaimed_rest, entries_map; [by destruct c| |exact Hn].
    intros k Hk. eapply elem_of_sublist; [exact Hk|]. exact (members_keys _ _ _ El).
  - destruct (members_of _ c) as [l|e] eqn:El; [|by destruct e]. destruct Hl. apply Hok. by eexists.
Qed.

End properties.

(** ** Examples *)

(** A document whose text is not looked at. *)
Definition example_text (l : document) : TomlText := {|
  toml_parse _ := Ok l;
  toml_print _ := [];
  de_message _ := [];
  ser_message _ := [];
  unit_payload v := match v with TTable [] => true | _ => false end;
  extra_items := true;
|}.
Definition ex_table (l : list (string * toml)) : toml := TTable (List.map (λ x : string * toml, (fst x : str, snd x)) l).
Definition ex_document : document := [
  ("updates" : str, ex_table [("automatic"%string, TBool true); ("channel"%string, ex_table [("custom"%string, TStr "edge")])]);
  ("api" : str, ex_table [("request_timeout_secs"%string, TInt 5)]);
  ("cloud" : str, ex_table [("telemetry"%string, TBool true)])].
Definition ex_config : Config :=
  mkConfig _ system_default (mkUpdates (Custom "edge") true "6h" Ask "/var/lib/abora/updates.json" DEFAULT_RESULT_FILE)
    maintenance_default remote_default security_default logging_default (mkApi "/api/v1" 1048576 5) (mkFeatures ∅)
    {[("cloud" : str) := ex_table [("telemetry"%string, TBool true)]]}.

Lemma config_meaning_witness :
  means (H := example_text []) ex_document ex_config ∧ config_from (H := example_text []) ex_document = Ok ex_config.
Proof.
  assert (E : config_from (H := example_text []) ex_document = Ok ex_config) by reflexivity.
  split; [|exact E]. apply config_meaning in E as (_ & Hm & _); [exact Hm|..].
  - apply (bool_decide_eq_true_1 (NoDup (fst <$> ex_document))). vm_compute. reflexivity.
  - intros sec v _ Hv. apply lookup_key_elem in Hv. unfold ex_document in Hv. rewrite !elem_of_cons, elem_of_nil in Hv.
    destruct Hv as [[= _ ->]|[[= _ ->]|[[= _ ->]|[]]]]; eexists; (split; [reflexivity|]);
      apply (bool_decide_eq_true_1 (NoDup _)); vm_compute; reflexivity.
Defined.

Lemma config_round_trip_witness :
  ∃ l, config_to (H := example_text []) ex_config = Ok l ∧ config_from (H := example_text []) l = Ok ex_config.
Proof.
  apply (config_round_trip (H := example_text []) ex_config).
  - split; [constructor|]. split; vm_compute; discriminate.
  - intros k [v Hv] Hk. unfold ex_config in Hv. cbn [extensions] in Hv. apply lookup_singleton_Some in Hv as [<- _].
    apply (bool_decide_eq_false_1 (("cloud" : str) ∈ FEATURES :: SECTIONS)); [vm_compute; reflexivity|exact Hk].
Defined.

(** A misspelled key is refused; a misspelled section, like a misspelled
    [[[tokens]]], is taken for someone else's. *)
Lemma misspelled :
  config_from (H := example_text []) [("security" : str, ex_table [("token_flie"%string, TStr "/etc/abora/auth.toml")])]
    = Err (UnknownField "token_flie" ["require_authentication" : str; "token_file" : str])
  ∧ security <$> config_from (H := example_text [])
      [("securty" : str, ex_table [("token_file"%string, TStr "/etc/abora/auth.toml")])] = Ok security_default
  ∧ toml_tokens (TokenToml := token_toml (H := example_text [("token" : str, TArr [])])) [] = Ok [].
Proof. done. Qed.
