(* ===== verification/Router.v ===== *)
(** * aborad: a request from end to end

    Models [build] of [services/aborad/src/server.rs]: the route table, the layers
    around every route, and the response of each handler as bytes; and places a
    whole request among the actions of [System]. The matching of paths, query
    strings and the plain answers of the web framework ([axum]) are parameters. *)

From S2P Require Import Prelude Str World Replace Frame Net Log Version Types Store Host Apply Protocol Config Schedule Helper Tokens Api Sysinfo Services Auth State Server AppState Handlers Scheduler Reload Daemon Ops System Wire Derive.

(** ** The framework *)

(** What a request's method and target come to in a route table: a route with
    the parameters of its pattern, a route for other methods, or none. *)
Inductive routed := Matched (i : nat) (args : list str) | WrongMethod (i : nat) | NoRoute.

(** [axum]. The target is the path with its query. *)
Class Axum := {
  dispatch : list (str * str) → str → str → routed;
  query_map : str → option query;            (* [Query<HashMap<String, String>>] *)
  path_text : list str → option str;         (* [Path<String>] *)
  query_rejection : str → Response;
  path_rejection : list str → Response;
  method_not_allowed : str → Response;
  finish : str → Response → Response;        (* a [HEAD] request loses the body *)
}.
(** The framework's own answers: plain text. *)
Definition plain (status : N) (r : Response) : Prop :=
  rs_status r = status ∧ rs_content_type r ≠ Some ("application/json" : str)
  ∧ (∀ ct, rs_content_type r = Some ct → starts_with "application/json" ct = false).
Definition without (c : ascii) (t : str) : bool := forallb (λ x, negb (bool_decide (x = c))) t.
Definition query_char (c : ascii) : bool := is_ascii_alphanumeric c || bool_decide (c = "_"%char).
(** Documented behaviour: a route is matched by its own method, [HEAD] also by
    [GET]; a path written as in the table is that route, with or without a query; a
    query of one plain pair is that pair; rejections are plain client errors; statuses
    and headers are not changed on the way out, nor anything of a request other than
    [HEAD]. *)
Class AxumOk (X : Axum) := {
  dispatch_matched rs m t i args : dispatch rs m t = Matched i args →
    ∃ r, rs !! i = Some r ∧ (fst r = m ∨ (m = ("HEAD" : str) ∧ fst r = ("GET" : str)));
  dispatch_exact rs m t i : rs !! i = Some (m, t) → forallb (λ c, negb (bool_decide (c ∈ ("{?%" : str)))) t = true →
    (∀ j r, rs !! j = Some r → snd r = t → j = i) → dispatch rs m t = Matched i [];
  dispatch_query rs m t q : without "?"%char t = true → dispatch rs m (t ++ "?" ++ q) = dispatch rs m t;
  query_none t : without "?"%char t = true → query_map t = Some [];
  query_one t k v : without "?"%char t = true → forallb query_char k = true → forallb query_char v = true →
    query_map (t ++ "?" ++ k ++ "=" ++ v) = Some [(k, v)];
  dispatch_wrong rs m t i : dispatch rs m t = WrongMethod i → ∃ r, rs !! i = Some r ∧ fst r ≠ m;
  query_rejection_plain t : plain 400 (query_rejection t);
  path_rejection_plain args : plain 400 (path_rejection args);
  method_not_allowed_plain t : plain 405 (method_not_allowed t);
  finish_other m r : m ≠ ("HEAD" : str) → finish m r = r;
  finish_status m r : rs_status (finish m r) = rs_status r ∧ rs_request_id (finish m r) = rs_request_id r;
}.

(** ** The table *)

Definition resources : list Resource :=
  [Health; VersionInfo; System; Services; ServiceByName; ApplyUpdates; Updates].
Definition routes (base_path : str) : list (str * str) :=
  (λ r, (route_method r, route_path base_path r)) <$> resources.

Section router.
Context {env : Env} {sha : Sha256} {T : TomlValue} {text : JsonText} {X : Axum}.
Context {serde : Serde StoreData} {request_serde : Serde ApplyRequest}.
Context (random_hash : nat → str → N) (fresh_id : nat → str).
Context {F : Type} (parse_f64 : str → option F) (is_finite is_negative : F → bool)
        (from_secs_f64 : F → outcome N) (ARCH : str) (BUILD_COMMIT : option str).

(** ** Responses *)

Definition encode_error (b : ApiErrorBody) : str := to_text (error_to_json b).
(** [Json(body)] with a status. *)
Definition json_reply (status : N) (v : json) : Response :=
  mkResponse status (Some ("application/json" : str)) None None (to_text v).
(** [Result<_, ApiError>]. *)
Definition reply {B : Type} (f : B → Response) (r : result ApiErrorBody B) : Response :=
  match r with Ok b => f b | Err e => error_response encode_error e end.

(** A handler that panics answers nothing. *)
Definition no_response : Response := mkResponse 0 None None None [].

Definition services_reply (p : nat * list ServiceStatus) : Response :=
  mkResponse 200 (Some ("application/json" : str)) None (Some (N.of_nat (fst p)))
    (to_text (JArr (service_to_json <$> snd p))).

(** ** Handlers with their extractors *)

Definition run_handler (s : AppState) (args : list str) (r : Resource) (req : Request)
    : io (Response * outcome AppState) :=
  match r with
  | Health => b ← Handlers.health s; mret (json_reply 200 (health_to_json b), Ret s)
  | VersionInfo => mret (json_reply 200 (version_response_to_json (version BUILD_COMMIT)), Ret s)
  | System =>
      b ← Handlers.system parse_f64 is_finite is_negative from_secs_f64 ARCH s;
      mret (match b with
            | Panic => (no_response, Panic)
            | Ret b => (reply (λ b, json_reply 200 (system_to_json b)) b, Ret s)
            end)
  | Services =>
      match query_map (rq_path req) with
      | None => mret (query_rejection (rq_path req), Ret s)
      | Some params => b ← services params; mret (reply services_reply b, Ret s)
      end
  | ServiceByName =>
      match path_text args with
      | None => mret (path_rejection args, Ret s)
      | Some name => b ← service_detail name; mret (reply (λ b, json_reply 200 (detail_to_json b)) b, Ret s)
      end
  | ApplyUpdates =>
      match query_map (rq_path req) with
      | None => mret (query_rejection (rq_path req), Ret s)
      | Some params =>
          b ← apply_updates random_hash (ext_caller req) params s;
          mret (reply (λ sb, json_reply (fst sb) (apply_to_json (snd sb))) b, Ret s)
      end
  | Updates =>
      '(b, s') ← Handlers.updates s;
      mret (json_reply 200 (updates_to_json b), Ret s')
  end.

(** ** A request *)

Definition serve_with (s : AppState) (h : Resource → Request → io (Response * outcome AppState))
    (target : option Resource) (req : Request) : io (Response * outcome AppState) :=
  Server.serve fresh_id encode_error (config s) (tokens s) (Ret s) h target req.

(** What the layers and handlers make of a request; a route's layer is also in
    front of its answer to other methods. *)
Definition respond (base_path : str) (s : AppState) (req : Request) : io (Response * outcome AppState) :=
  match dispatch (routes base_path) (rq_method req) (rq_path req) with
  | Matched i args => serve_with s (run_handler s args) (resources !! i) req
  | WrongMethod i =>
      serve_with s (λ _ req, mret (method_not_allowed (rq_path req), Ret s)) (resources !! i) req
  | NoRoute => serve_with s (run_handler s []) None req
  end.

(** The response, unless the handler panicked, and the state after it. *)
Definition handle (base_path : str) (s : AppState) (req : Request) : io (outcome Response * AppState) :=
  '(r, a) ← respond base_path s req;
  mret (match a with
        | Panic => (Panic, s)
        | Ret s' => (Ret (finish (rq_method req) r), s')
        end).

End router.

(** ** Lemmas *)

(** A computation that changes nothing on the host. *)
Definition looks {A : Type} (m : io A) : Prop :=
  ∀ w, files (snd (m w)) = files w ∧ trace (snd (m w)) = trace w.

Lemma looks_ret {A : Type} (a : A) : looks (mret a).
Proof. done. Qed.
Lemma looks_bind {A B : Type} (m : io A) (f : A → io B) :
  looks m → (∀ a, looks (f a)) → looks (m ≫= f).
Proof.
  intros Hm Hf w. unfold mbind, io_bind. specialize (Hm w). destruct (m w) as [a w1].
  specialize (Hf a w1). simpl in *. destruct Hm, Hf. split; congruence.
Qed.
Lemma looks_syscall `{Env} {A : Type} (f : files_t → result io_error A) : looks (syscall f).
Proof. done. Qed.
Lemma looks_time `{Env} : looks time_now.
Proof. done. Qed.
Lemma looks_inv {A : Type} (m : io A) w a w' :
  looks m → m w = (a, w') → files w' = files w ∧ trace w' = trace w.
Proof. intros H E. specialize (H w). by rewrite E in H. Qed.

Ltac look :=
  repeat first
    [ apply looks_ret | apply looks_syscall | apply looks_time | apply looks_bind; [|intros ?] | case_match ].

Lemma looks_read `{Env} p : looks (Sysinfo.read p).
Proof. unfold Sysinfo.read, fs_read_to_string, fs_read, try. look. Qed.

Section lemmas.
Context {env : Env} {sha : Sha256} {T : TomlValue} {toml : ConfigToml} {token_toml : TokenToml}.
Context {text : JsonText} {X : Axum}.
Context {serde : Serde StoreData} {request_serde : Serde ApplyRequest} {result_serde : Serde ApplyResult}.
Context (random_hash : nat → str → N) (fresh_id : nat → str).
Context {F : Type} (parse_f64 : str → option F) (is_finite is_negative : F → bool)
        (from_secs_f64 : F → outcome N) (ARCH : str) (BUILD_COMMIT : option str).

Lemma looks_system s : looks (Handlers.system parse_f64 is_finite is_negative from_secs_f64 ARCH s).
Proof.
  unfold Handlers.system, Sysinfo.collect, collect_rest. cbv zeta.
  repeat first [apply looks_read | apply looks_ret | apply looks_bind; [|intros ?] | case_match].
Qed.
Lemma looks_health s : looks (Handlers.health s).
Proof. unfold Handlers.health, uptime_seconds. look. Qed.

(** *** A request as actions of the system *)

Section actions.
Context (ABORA_CONFIG : option str) (bind : SocketAddr → result str ()).
Context (rq rs st : str) (configs : Config → Prop) (keys : TokenStore → Prop).

Abbreviation action := (act random_hash ABORA_CONFIG bind rq rs st configs keys).

Lemma set_app_same d : set_app (d_app d) d = d.
Proof. by destruct d. Qed.

Lemma look_action w d w' :
  files w' = files w ∧ trace w' = trace w → rtc action (mkSys w (Some d)) (mkSys w' (Some (set_app (d_app d) d))).
Proof. intros [? ?]. rewrite set_app_same. by apply rtc_once, act_read. Qed.

(** The daemon when one admitted request has left. *)
Definition without_admitted (l k : list str) (d : running) : running :=
  mkRunning (d_app d) (d_sched d) (d_pass d) (l ++ k) (d_tickets d).

(** The apply handler of a caller who was admitted before. *)
Lemma apply_actions d l c k params w r w' : d_admitted d = l ++ c :: k →
  apply_updates random_hash (Some c) params (d_app d) w = (r, w') →
  rtc action (mkSys w (Some d)) (mkSys w' (Some (without_admitted l k d))).
Proof.
  intros Hd H. unfold apply_updates in H.
  destruct (dry_run_of false params) as [dry|e]; [|injection H as _ <-; by eapply rtc_once, act_drop].
  step_in H as x w1 E. injection H as _ <-. rewrite request_apply_halves in E.
  step_in E as y w2 E2. destruct y as [packages block]. cbn [default] in E.
  pose proof (act_decide random_hash ABORA_CONFIG bind rq rs st configs keys w d l c k dry packages block w2 Hd E2) as Ha.
  destruct dry; [injection E as _ <-; by apply rtc_once|].
  destruct block as [reason|]; [injection E as _ <-; by apply rtc_once|].
  eapply rtc_l; [exact Ha|]. apply rtc_once. by apply (act_commit _ _ _ _ _ _ _ _ w2
    (mkRunning (d_app d) (d_sched d) (d_pass d) (l ++ k) (mkTicket c packages :: d_tickets d)) [] (mkTicket c packages) (d_tickets d) x).
Qed.

(** The state after an answer. *)
Definition left_state (a : outcome AppState) (s : AppState) : AppState :=
  match a with Ret s' => s' | Panic => s end.

(** Every other handler. *)
Lemma reader_actions d args r req' w resp a w' : r ≠ ApplyUpdates →
  run_handler random_hash parse_f64 is_finite is_negative from_secs_f64 ARCH BUILD_COMMIT (d_app d) args r req' w
    = ((resp, a), w') →
  rtc action (mkSys w (Some d)) (mkSys w' (Some (set_app (left_state a (d_app d)) d))).
Proof.
  intros Hr H. destruct r; simpl in H; [| | | | |done|].
  - step_in H as b w1 E. injection H as _ <- <-. apply look_action, (looks_inv _ _ _ _ (looks_health _) E).
  - injection H as _ <- <-. by apply look_action.
  - step_in H as b w1 E. apply (looks_inv _ _ _ _ (looks_system _)) in E.
    destruct b; injection H as _ <- <-; by apply look_action.
  - destruct (query_map _) as [params|]; [|injection H as _ <- <-; by apply look_action].
    step_in H as b w1 E. injection H as _ <- <-. unfold services in E.
    destruct (parse_service_query params); [|injection E as _ <-; by apply look_action].
    step_in E as u w2 E2. injection E as _ <-. simpl. rewrite set_app_same.
    by eapply rtc_once, act_services.
  - destruct (path_text _) as [name|]; [|injection H as _ <- <-; by apply look_action].
    step_in H as b w1 E. injection H as _ <- <-. unfold service_detail in E.
    destruct (negb _); [injection E as _ <-; by apply look_action|].
    step_in E as u w2 E2. injection E as _ <-. simpl. rewrite set_app_same.
    by eapply rtc_once, act_service.
  - step_in H as b w1 E. destruct b as [b s']. injection H as _ <- <-. unfold Handlers.updates in E.
    step_in E as x w2 E2. destruct x as [x u]. injection E as _ <- <-. by eapply rtc_once, act_response.
Qed.

Lemma applier_actions d l c k args req' w resp a w' : d_admitted d = l ++ c :: k → ext_caller req' = Some c →
  run_handler random_hash parse_f64 is_finite is_negative from_secs_f64 ARCH BUILD_COMMIT (d_app d) args ApplyUpdates req' w
    = ((resp, a), w') →
  rtc action (mkSys w (Some d)) (mkSys w' (Some (set_app (left_state a (d_app d)) (without_admitted l k d)))).
Proof.
  intros Hd Hc H. simpl in H. rewrite Hc in H.
  destruct (query_map _) as [params|].
  - step_in H as b w1 E. injection H as _ <- <-. exact (apply_actions _ _ _ _ _ _ _ _ Hd E).
  - injection H as _ <- <-. apply rtc_once. exact (act_drop _ _ _ _ _ _ _ _ w d l c k Hd).
Qed.

(** A request that has been admitted to a resource, when its handler runs at once. *)
Lemma handler_actions d args r req req' w resp a w' :
  decide_request (config (d_app d)) (tokens (d_app d)) (route_permission r) req = Allowed →
  ext_caller req' = Some (caller_of (d_app d) req) →
  run_handler random_hash parse_f64 is_finite is_negative from_secs_f64 ARCH BUILD_COMMIT (d_app d) args r req' w
    = ((resp, a), w') →
  rtc action (mkSys w (Some d)) (mkSys w' (Some (set_app (left_state a (d_app d)) d))).
Proof.
  intros Hd Hc H. destruct (decide (r = ApplyUpdates)) as [->|Hr]; [|by eapply reader_actions].
  eapply rtc_l; [by apply act_admit|].
  exact (applier_actions (let_in _ d) [] _ (d_admitted d) _ _ _ _ _ _ eq_refl Hc H).
Qed.

End actions.

Abbreviation respond' := (respond random_hash fresh_id parse_f64 is_finite is_negative from_secs_f64 ARCH BUILD_COMMIT).
Abbreviation run' := (run_handler random_hash parse_f64 is_finite is_negative from_secs_f64 ARCH BUILD_COMMIT).

(** Every request is answered by a layer, by the framework, or by the handler
    of the route it matched. *)
Lemma respond_cases base s req w r a w' :
  respond' base s req w = ((r, a), w') →
  ∃ id w1, files w1 = files w ∧ trace w1 = trace w ∧ (∀ v, accepted_id req = Some v → id = v)
    ∧ ∃ r0, r = with_id id r0
    ∧ ((a = Ret s ∧ w' = w1
        ∧ ((∃ body, r0 = error_response encode_error body
              ∧ (er_code body = CodeNotFound ∧ er_request_id body = None ∨ ∃ d p, into_denial d p = Some body))
           ∨ r0 = method_not_allowed (rq_path req)))
       ∨ ∃ i args res req', dispatch (routes base) (rq_method req) (rq_path req) = Matched i args
          ∧ resources !! i = Some res
          ∧ decide_request (config s) (tokens s) (route_permission res) req = Allowed
          ∧ ext_caller req' = Some (caller_of s req) ∧ rq_path req' = rq_path req
          ∧ run' s args res req' w1 = ((r0, a), w')).
Proof.
  intros H.
  assert (Hs : ∃ h target, serve_with fresh_id s h target req w = ((r, a), w')
    ∧ ((∃ i args, dispatch (routes base) (rq_method req) (rq_path req) = Matched i args
          ∧ h = run' s args ∧ target = resources !! i)
       ∨ (h = λ _ req, mret (method_not_allowed (rq_path req), Ret s)) ∨ target = None)).
  { unfold respond in H. destruct (dispatch _ _ _); eexists _, _; (split; [exact H|]); eauto 10. }
  destruct Hs as (h & target & Hs & Hh).
  unfold serve_with in Hs. apply serve_cases in Hs as (id & w1 & F1 & T1 & Hid & Hs). exists id, w1. do 3 (split; [done|]).
  destruct Hs as [(-> & -> & body & -> & Hb)|(res & req' & r0 & -> & Hd & Hc & Hp & Hr & ->)].
  - eexists. split; [reflexivity|]. left. split; [done|]. split; [done|]. left.
    destruct target as [res|].
    + destruct Hb as (d & _ & _ & Hb). exists body. eauto 10.
    + exists body. auto.
  - exists r0. split; [done|]. destruct Hh as [(i & args & Hi & -> & Ht)|[->|Ht]]; [| |done].
    + right. exists i, args, res, req'. by split_and!.
    + left. injection Hr as <- <- <-. split; [done|]. split; [done|]. right. by rewrite Hp.
Qed.

(** *** Answers *)

(** JSON, an error with its envelope, or the framework's refusal. *)
Definition answer (r : Response) : Prop :=
  (∃ v, (rs_status r = 200%N ∨ rs_status r = 202%N) ∧ rs_body r = to_text v)
  ∨ (∃ e, r = error_response encode_error e ∧ er_request_id e = None)
  ∨ plain 400 r ∨ plain 405 r.

Lemma reply_answer {B : Type} (f : B → Response) (r : result ApiErrorBody B) :
  (∀ b, r = Ok b → answer (f b)) → (∀ e, r = Err e → er_request_id e = None) → answer (reply f r).
Proof. intros Hf He. destruct r as [b|e]; simpl; [by apply Hf|]. right. left. eauto. Qed.
Lemma json_answer n v : n = 200%N ∨ n = 202%N → answer (json_reply n v).
Proof. intros H. left. eauto. Qed.

Lemma apply_answer caller params s w r w' :
  apply_updates random_hash caller params s w = (r, w') →
  (∀ b, r = Ok b → fst b = 200%N ∨ fst b = 202%N) ∧ (∀ e, r = Err e → er_request_id e = None).
Proof.
  unfold apply_updates. destruct (dry_run_of false params) as [dry|e] eqn:Ed.
  - intros H. step_in H as x w1 E. injection H as <- _.
    split; [|by destruct x as [|[]]; intros ? [= <-]]. intros b. destruct x as [|[]]; try done.
    intros [= <-]. destruct dry; auto.
  - intros [= <- _]. split; [done|]. intros ? [= <-]. by destruct (dry_run_error _ _ _ Ed) as [m ->].
Qed.

Lemma services_answer params w r w' :
  services params w = (r, w') → ∀ e, r = Err e → er_request_id e = None.
Proof.
  unfold services. destruct (parse_service_query params) as [q|e] eqn:Eq; intros H.
  - step_in H as u w1 E. injection H as <- _. by destruct u; intros ? [= <-].
  - injection H as <- _. intros ? [= <-]. by destruct (query_params_error _ _ _ Eq) as [m ->].
Qed.
Lemma detail_answer name w r w' :
  service_detail name w = (r, w') → ∀ e, r = Err e → er_request_id e = None.
Proof.
  unfold service_detail. destruct (negb _); intros H; [by injection H as <- _; intros ? [= <-]|].
  step_in H as d w1 E. injection H as <- _. by destruct d as [|[]]; intros ? [= <-].
Qed.

Lemma run_replies `{!AxumOk X} s args res req' w r0 s' w' :
  run' s args res req' w = ((r0, Ret s'), w') → answer r0.
Proof.
  intros H. destruct res; simpl in H.
  - step_in H as b w1 E. injection H as <- _ _. apply json_answer. auto.
  - injection H as <- _ _. apply json_answer. auto.
  - step_in H as b w1 E. destruct b as [b|]; [|done]. injection H as <- _ _. apply reply_answer.
    + intros. apply json_answer. auto.
    + unfold Handlers.system in E. step_in E as i w2 E2. injection E as E _. intros e ->.
      by destruct i as [[]|]; simplify_eq.
  - destruct (query_map _); [|injection H as <- _ _; right; right; left; apply query_rejection_plain].
    step_in H as b w1 E. injection H as <- _ _. apply reply_answer; [|by eapply services_answer].
    intros. left. eauto.
  - destruct (path_text _); [|injection H as <- _ _; right; right; left; apply path_rejection_plain].
    step_in H as b w1 E. injection H as <- _ _. apply reply_answer; [|by eapply detail_answer].
    intros. apply json_answer. auto.
  - destruct (query_map _); [|injection H as <- _ _; right; right; left; apply query_rejection_plain].
    step_in H as b w1 E. injection H as <- _ _. apply apply_answer in E as [E1 E2].
    apply reply_answer; [|done]. intros. by apply json_answer, E1.
  - step_in H as b w1 E. destruct b as [b s1]. injection H as <- _ _. apply json_answer. auto.
Qed.

(** *** The request file *)

(** The request comes from this machine, with the token of someone who may manage
    updates; their name. *)
Definition manager (s : AppState) (req : Request) (name : str) : Prop :=
  is_loopback (default UNSPECIFIED (rq_peer req)) = true
  ∧ ∃ ks b tk, tokens s = Some ks ∧ require_authentication (security (config s)) = true
    ∧ (h ← rq_authorization req; bearer_value h) = Some b ∧ find b ks = Some tk
    ∧ ("manage:updates" : str) ∈ tk_permissions tk ∧ name = default ("unnamed token" : str) (tk_name tk).

Lemma admitted_manager s req :
  decide_request (config s) (tokens s) ManageUpdates req = Allowed → manager s req (caller_of s req).
Proof.
  intros Hd. split.
  - unfold decide_request, authorize in Hd. by destruct (is_loopback _).
  - destruct (caller_of_mutation _ _ _ _ Hd eq_refl) as (ks & h & b & tk & Hk & Ha & Hh & Hb & Hf & Hp & Hc).
    exists ks, b, tk. split_and!; try done; [by rewrite Hh|]. unfold caller_of. by rewrite Hc.
Qed.

Section request_file.
Context (rq rs st : str) (separate : rq ∉ others rs st) `{!Calm rq rs st}.
#[local] Existing Instance tidy_inert.

Lemma apply_request_file_after l caller params s w r w' :
  good_updates rq rs st l (AppState.updates s) → tidy rq rs st (λ x, x = files w !! rq) (files w) →
  apply_updates random_hash caller params s w = (r, w') →
  (files w' !! rq = files w !! rq ∧ ∀ b, r = Ok b → fst b = 200%N)
  ∨ ∃ a, r = Ok (202%N, a) ∧ ap_packages a = wanted (AppState.updates s)
      ∧ requested (config s) (default ("unknown" : str) caller) (AppState.updates s) a w w'.
Proof.
  intros Hu [Hl _] H. unfold apply_updates in H.
  destruct (dry_run_of false params) as [dry|e]; [|injection H as <- <-; by left].
  step_in H as x w1 E. injection H as <- <-.
  assert (Hn : request_node (AppState.updates s) w = files w !! rq).
  { unfold request_node. rewrite (gu_request _ _ _ _ _ Hu). apply calm, request_in_mine, self_in_family. }
  apply request_apply_inv in E as [_ E].
  - rewrite (gu_request _ _ _ _ _ Hu) in E. destruct x as [a|[]].
    + destruct (ap_dry_run a).
      * destruct E as (-> & E & _). left. rewrite E. split; [done|]. by intros b [= <-].
      * destruct E as (-> & E). right. exists a. split; [done|]. split; [|done].
        by destruct E as (? & ? & ? & ? & ? & ? & Hp & _).
    + destruct E as [_ E]. left. by rewrite E.
    + destruct E as [_ E]. left. by rewrite E.
  - rewrite (gu_request _ _ _ _ _ Hu). intros t. rewrite calm by apply request_in_mine, tmp_in_family.
    apply Hl, request_in_mine, tmp_in_family.
Qed.

Lemma run_request_file l s args res req' w r0 a w' :
  res ≠ ApplyUpdates → good_updates rq rs st l (AppState.updates s) →
  tidy rq rs st (λ x, x = files w !! rq) (files w) →
  run' s args res req' w = ((r0, a), w') → files w' !! rq = files w !! rq.
Proof.
  intros Hne Hu Ht H.
  assert (Hth : ∀ (A : Type) (m : io A) b w1, through (tidy rq rs st (λ x, x = files w !! rq)) m →
    m w = (b, w1) → files w1 !! rq = files w !! rq).
  { intros A m b w1 Hm E. pose proof (through_inv _ _ _ _ _ Hm Ht E) as [[_ Hq] _]. exact Hq. }
  destruct res; simpl in H; try done.
  - step_in H as b w1 E. injection H as _ _ <-. by apply (looks_inv _ _ _ _ (looks_health _)) in E as [-> _].
  - by injection H as _ _ <-.
  - step_in H as b w1 E. apply (looks_inv _ _ _ _ (looks_system _)) in E as [E _].
    destruct b; injection H as _ _ <-; by rewrite E.
  - destruct (query_map _) as [params|]; [|by injection H as _ _ <-].
    step_in H as b w1 E. injection H as _ _ <-. unfold services in E.
    destruct (parse_service_query params); [|by injection E as _ <-].
    step_in E as u w2 E2. injection E as _ <-. eapply Hth; [by apply through_services, tidy_inert|exact E2].
  - destruct (path_text _) as [name|]; [|by injection H as _ _ <-].
    step_in H as b w1 E. injection H as _ _ <-. unfold service_detail in E.
    destruct (negb _); [by injection E as _ <-|].
    step_in E as u w2 E2. injection E as _ <-. eapply Hth; [by apply through_service, tidy_inert|exact E2].
  - step_in H as b w1 E. destruct b as [b s']. injection H as _ _ <-. unfold Handlers.updates in E.
    step_in E as x w2 E2. destruct x as [x u]. injection E as _ _ <-.
    eapply Hth; [|exact E2]. apply through_response, (store_in_good rq rs st separate _ _ _ Hu).
Qed.

End request_file.

(** Only the apply endpoint answers 202. *)
Lemma run_status `{!AxumOk X} s args res req' w r0 s' w' :
  res ≠ ApplyUpdates → run' s args res req' w = ((r0, Ret s'), w') → rs_status r0 ≠ 202%N.
Proof.
  intros Hne H.
  assert (Hre : ∀ (B : Type) (f : B → Response) (b : result ApiErrorBody B),
    (∀ b, rs_status (f b) = 200%N) → rs_status (reply f b) ≠ 202%N).
  { intros B f [b|e] Hf; simpl; [by rewrite Hf|by destruct (er_code e)]. }
  destruct res; simpl in H; try done.
  - step_in H as b w1 E. by injection H as <- _ _.
  - by injection H as <- _ _.
  - step_in H as b w1 E. destruct b as [b|]; [|done]. injection H as <- _ _. by apply Hre.
  - destruct (query_map _); [|injection H as <- _ _; by destruct (query_rejection_plain (rq_path req')) as [-> _]].
    step_in H as b w1 E. injection H as <- _ _. by apply Hre.
  - destruct (path_text _); [|injection H as <- _ _; by destruct (path_rejection_plain args) as [-> _]].
    step_in H as b w1 E. injection H as <- _ _. by apply Hre.
  - step_in H as b w1 E. destruct b as [b s1]. by injection H as <- _ _.
Qed.

(** *** Envelopes *)

(** A document that is an error with a code, a message and a request id. *)
Definition envelope (v : json) (code : ErrorCode) (message id : str) : Prop :=
  ∃ o e m, members v = Some o ∧ o !! ("error" : str) = Some e ∧ members e = Some m
    ∧ m !! ("code" : str) = Some (JStr (code_name code))
    ∧ m !! ("message" : str) = Some (JStr message)
    ∧ m !! ("request_id" : str) = Some (JStr id).

Lemma envelope_added (b : ApiErrorBody) (id : str) : er_request_id b = None →
  ∃ v, add_request_id (J := wire_values) id (error_to_json b) = Some v
       ∧ envelope v (er_code b) (er_message b) id.
Proof.
  intros Hn. unfold error_to_json. rewrite Hn.
  eexists. split; [reflexivity|]. eexists _, _, _.
  split; [apply members_object|]. split; [by rewrite lookup_insert_eq|]. split; [apply members_object|].
  split_and!; by simplify_map_eq.
Qed.

Lemma with_id_error `{!JsonTextOk text} (b : ApiErrorBody) (id : str) : er_request_id b = None →
  ∃ v, from_text (rs_body (with_id id (error_response encode_error b))) = Some v
       ∧ envelope v (er_code b) (er_message b) id.
Proof.
  intros Hn. destruct (envelope_added b id Hn) as (v & Hv & He). exists v. split; [|done].
  unfold with_id. cbn [rs_status rs_content_type rs_body error_response].
  assert (((400 <=? http_status (er_code b)) && (http_status (er_code b) <? 600))%N = true) as ->
    by by destruct (er_code b).
  unfold inject_request_id. cbn [rs_content_type rs_body].
  change (negb (starts_with "application/json" ("application/json" : str))) with false. cbv iota.
  change (json_from_slice (encode_error b)) with (from_text (encode_error b)).
  unfold encode_error. rewrite from_to_text, Hv. simpl. apply from_to_text.
Qed.

Lemma with_id_plain (n : N) (r : Response) (id : str) : plain n r →
  rs_body (with_id id r) = rs_body r.
Proof.
  intros (_ & _ & H). unfold with_id, inject_request_id. cbn [rs_content_type].
  destruct (_ && _); [|done]. destruct (rs_content_type r) as [ct|] eqn:E; [|done].
  by rewrite (H ct eq_refl).
Qed.
Lemma with_id_success (r : Response) (id : str) : (rs_status r < 400)%N →
  rs_body (with_id id r) = rs_body r.
Proof.
  intros H. unfold with_id. cbn [rs_status]. by replace (400 <=? rs_status r)%N with false by (symmetry; apply N.leb_gt; lia).
Qed.

End lemmas.

(** ** Properties *)

Section properties.
Context {env : Env} {sha : Sha256} {T : TomlValue} {toml : ConfigToml} {token_toml : TokenToml}.
Context {text : JsonText} {X : Axum}.
Context {serde : Serde StoreData} {request_serde : Serde ApplyRequest} {result_serde : Serde ApplyResult}.
Context (random_hash : nat → str → N) (fresh_id : nat → str).
Context {F : Type} (parse_f64 : str → option F) (is_finite is_negative : F → bool)
        (from_secs_f64 : F → outcome N) (ARCH : str) (BUILD_COMMIT : option str).

Abbreviation handle' := (handle random_hash fresh_id parse_f64 is_finite is_negative from_secs_f64 ARCH BUILD_COMMIT).

(** Every HTTP request is one of the system's actions. Whatever its method,
    target, headers and peer, what serving it does - the files it touches, the
    programs it runs, the state it leaves in the daemon - is a sequence of the
    actions of [System]; so everything that holds in every reachable state of the
    system holds after any request, and the tickets and the scheduler are as they
    were. *)
Theorem request_is_actions ABORA_CONFIG bind rq rs st configs keys base d req w o s' w' :
  handle random_hash fresh_id parse_f64 is_finite is_negative from_secs_f64 ARCH BUILD_COMMIT base (d_app d) req w
    = ((o, s'), w') →
  rtc (act random_hash ABORA_CONFIG bind rq rs st configs keys)
      (mkSys w (Some d)) (mkSys w' (Some (set_app s' d)))
  ∧ (sys_reach random_hash ABORA_CONFIG bind rq rs st configs keys (mkSys w (Some d)) →
     sys_reach random_hash ABORA_CONFIG bind rq rs st configs keys (mkSys w' (Some (set_app s' d)))).
Proof.
  intros H. assert (Ha : rtc (act random_hash ABORA_CONFIG bind rq rs st configs keys)
    (mkSys w (Some d)) (mkSys w' (Some (set_app s' d)))).
  { unfold handle in H. step_in H as x w2 E. destruct x as [r a].
    apply respond_cases in E as (id & w1 & F1 & T1 & _ & r0 & _ & Hr).
    assert (s' = left_state a (d_app d) ∧ w' = w2) as [-> ->] by by destruct a; injection H as _ <- <-.
    destruct Hr as [(-> & -> & _)|(i & args & res & req' & _ & _ & Hd & Hc & _ & Hr)].
    - by apply look_action.
    - etrans; [by apply look_action|]. rewrite set_app_same. by eapply handler_actions. }
  split; [done|]. intros (s0 & Hs0 & Hs). exists s0. split; [done|].
  etrans; [exact Hs|]. eapply (rtc_congruence id) in Ha; [exact Ha|].
  intros ? ?. apply sys_act.
Qed.


(** C4: over HTTP, a request file is made in one way only. Serving a request
    leaves the request file as it is and does not answer 202, unless the request is
    a POST from this machine that bears a token which names [manage:updates], at a
    time at which policy permits applying: then the answer is 202 with an id and the
    listed packages, and the file holds that request, whole, in the name of the
    token. In particular no reading request, no request without authentication
    configured and no remote one ever writes it. *)
Theorem only_apply_requests `{!AxumOk X} rq rs st l base s req w o s' w' `{!Calm rq rs st} :
  rq ∉ others rs st → good_updates rq rs st l (AppState.updates s) →
  (∀ p, p ∈ mine rq rs st → not_link (files w) p) →
  handle' base s req w = ((o, s'), w') →
  (files w' !! rq = files w !! rq ∧ ∀ r, o = Ret r → rs_status r ≠ 202%N)
  ∨ (rq_method req = ("POST" : str) ∧ ∃ r a caller id now t m mt,
       o = Ret r ∧ rs_status r = 202%N ∧ rs_body r = to_text (apply_to_json a)
       ∧ ap_id a = Some id ∧ ap_packages a = wanted (AppState.updates s)
       ∧ manager s req caller ∧ told t ∧ apply_permitted (permissions (config s) t) = true
       ∧ files w' !! rq
         = Some (Regular (encode_json (Apply.mkRequest id now caller (wanted (AppState.updates s)))) m mt)).
Proof.
  intros Hsep Hu Hl H. unfold handle in H. step_in H as x w2 E. destruct x as [r a].
  apply respond_cases in E as (id & w1 & F1 & T1 & Hid & r0 & -> & Hr).
  destruct (with_id_fields id r0) as [_ Hs].
  assert (Hw : w' = w2) by (by destruct a; injection H). subst w'.
  assert (Ho : ∀ r', o = Ret r' → rs_status r' = rs_status r0).
  { intros r' ->. destruct a as [s2|]; [|done]. injection H as <- _. rewrite <-Hs. apply finish_status. }
  destruct Hr as [(-> & -> & Hr)|(i & args & res & req' & Hm & Hi & Hd & Hc & Hp & Hr)].
  { left. rewrite F1. split; [done|]. intros r' Hr'. rewrite (Ho r' Hr').
    destruct Hr as [(body & -> & _)| ->]; [simpl; by destruct (er_code body)|].
    by destruct (method_not_allowed_plain (rq_path req)) as [-> _]. }
  assert (Ht : tidy rq rs st (λ x, x = files w1 !! rq) (files w1)) by (split; [by rewrite F1|done]).
  assert (res = ApplyUpdates ∨ res ≠ ApplyUpdates) as [->|Hne] by (destruct res; auto).
  - simpl in Hr. destruct (query_map _) as [params|].
    + step_in Hr as b w3 E. injection Hr as <- <- <-. injection H as <- <-.
      destruct (apply_request_file_after random_hash rq rs st l _ _ _ _ _ _ Hu Ht E)
        as [[Hf H2]|(ap & -> & Hw & Hq)].
      * left. rewrite Hf, F1. split; [done|]. intros r' Hr'. rewrite (Ho r' Hr').
        destruct b as [[n ap]|e]; simpl; [|by destruct (er_code e)].
        specialize (H2 _ eq_refl). simpl in H2. by subst n.
      * right. destruct (dispatch_matched _ _ _ _ _ Hm) as (rt & Hrt & Hmeth).
        unfold routes in Hrt. rewrite list_lookup_fmap, Hi in Hrt. injection Hrt as <-.
        assert (Hpost : rq_method req = ("POST" : str)) by (destruct Hmeth as [Hmeth|[_ Hmeth]]; done).
        split; [done|]. rewrite Hc in Hq. simpl in Hq.
        destruct Hq as (rid & now & t & m & mt & H1 & H2 & _ & _ & H5 & H6 & _ & H8).
        eexists _, ap, _, rid, now, t, m, mt. split; [reflexivity|].
        rewrite finish_other by by rewrite Hpost. rewrite Hs, with_id_success by done.
        split_and!; try done; [by apply admitted_manager|].
        by rewrite (gu_request _ _ _ _ _ Hu) in H8.
    + injection Hr as <- <- <-. left. rewrite F1. split; [done|]. intros r' Hr'. rewrite (Ho r' Hr').
      by destruct (query_rejection_plain (rq_path req')) as [-> _].
  - left. rewrite (run_request_file random_hash parse_f64 is_finite is_negative from_secs_f64 ARCH BUILD_COMMIT
      rq rs st Hsep l _ _ _ _ _ _ _ _ Hne Hu Ht Hr), F1. split; [done|].
    intros r' Hr'. rewrite (Ho r' Hr').
    destruct a as [s2|]; [|by injection H as <- _]. by eapply run_status.
Qed.

End properties.

(** ** Examples *)

(** A router for patterns whose parameters stand for one segment. *)
Definition segments (path : str) : list str := split (is_char slash) path.
Fixpoint match_segments (pat path : list str) : option (list str) :=
  match pat, path with
  | [], [] => Some []
  | p :: pat, x :: path =>
      if starts_with "{" p then (if decide (x = []) then None else (x ::.) <$> match_segments pat path)
      else if decide (p = x) then match_segments pat path else None
  | _, _ => None
  end.
Fixpoint find_route (i : nat) (rs : list (str * str)) (m : str) (path : list str) : routed :=
  match rs with
  | [] => NoRoute
  | (meth, pat) :: rs =>
      match match_segments (segments pat) path with
      | Some args =>
          if decide (meth = m ∨ (m = ("HEAD" : str) ∧ meth = ("GET" : str))) then Matched i args else WrongMethod i
      | None => find_route (S i) rs m path
      end
  end.
(** A path without parameters comes before the patterns. *)
Fixpoint find_exact (i : nat) (rs : list (str * str)) (path : str) : option (nat * str) :=
  match rs with
  | [] => None
  | (meth, pat) :: rs =>
      if decide (pat = path ∧ ("{"%char : ascii) ∉ pat) then Some (i, meth) else find_exact (S i) rs path
  end.
Definition route_answers (meth m : str) : bool :=
  bool_decide (meth = m ∨ (m = ("HEAD" : str) ∧ meth = ("GET" : str))).
Definition path_of (target : str) : str :=
  match split_once "?" target with Some (p, _) => p | None => target end.
Definition example_dispatch (rs : list (str * str)) (m target : str) : routed :=
  let path := path_of target in
  match find_exact 0 rs path with
  | Some (i, meth) => if route_answers meth m then Matched i [] else WrongMethod i
  | None => find_route 0 rs m (segments path)
  end.
(** [k=v] pairs; of two with one key the later counts. *)
Definition pair_of (s : str) : str * str := default (s, []) (split_once "=" s).
Definition example_query (target : str) : query :=
  match split_once "?" target with
  | Some (_, q) => foldl (λ acc kv, filter (λ x, fst x ≠ fst kv) acc ++ [kv]) [] (pair_of <$> split (is_char "&"%char) q)
  | None => []
  end.
Definition text_reply (status : N) (body : str) : Response :=
  mkResponse status (Some ("text/plain; charset=utf-8" : str)) None None body.
Definition example_axum : Axum := {|
  dispatch := example_dispatch;
  query_map target := Some (example_query target);
  path_text args := head args;
  query_rejection _ := text_reply 400 "Failed to deserialize query string";
  path_rejection _ := text_reply 400 "Invalid URL";
  method_not_allowed _ := mkResponse 405 None None None [];
  finish m r := if decide (m = ("HEAD" : str))
                then mkResponse (rs_status r) (rs_content_type r) (rs_request_id r) (rs_total_count r) [] else r;
|}.

Lemma find_route_matched i rs m path j args : find_route i rs m path = Matched j args →
  ∃ k r, j = i + k ∧ rs !! k = Some r ∧ (fst r = m ∨ (m = ("HEAD" : str) ∧ fst r = ("GET" : str))).
Proof.
  revert i. induction rs as [|[meth pat] rs IH]; intros i; simpl; [done|].
  destruct (match_segments _ _) as [l|].
  - case_decide; [|done]. intros [= <- <-]. exists 0, (meth, pat). split_and!; [lia|done|done].
  - intros (k & r & -> & Hr & Hm)%IH. exists (S k), r. split_and!; [lia|done|done].
Qed.
Lemma find_route_wrong i rs m path j : find_route i rs m path = WrongMethod j →
  ∃ k r, j = i + k ∧ rs !! k = Some r ∧ fst r ≠ m.
Proof.
  revert i. induction rs as [|[meth pat] rs IH]; intros i; simpl; [done|].
  destruct (match_segments _ _) as [l|].
  - case_decide as Hd; [done|]. intros [= <-]. exists 0, (meth, pat). split_and!; [lia|done|].
    intros Hm. apply Hd. by left.
  - intros (k & r & -> & Hr & Hm)%IH. exists (S k), r. split_and!; [lia|done|done].
Qed.
Lemma find_exact_spec i rs path j meth : find_exact i rs path = Some (j, meth) →
  ∃ k, j = i + k ∧ rs !! k = Some (meth, path).
Proof.
  revert i. induction rs as [|[m pat] rs IH]; intros i; simpl; [done|].
  case_decide as Hd.
  - intros [= <- <-]. exists 0. destruct Hd as [-> _]. split; [lia|done].
  - intros (k & -> & Hk)%IH. exists (S k). split; [lia|done].
Qed.
Lemma find_exact_some i rs path k meth : rs !! k = Some (meth, path) → ("{"%char : ascii) ∉ path →
  is_Some (find_exact i rs path).
Proof.
  revert i k. induction rs as [|[m pat] rs IH]; intros i [|k] Hk Hb; try done; simpl; case_decide; try by eexists.
  - injection Hk as <- <-. naive_solver.
  - by eapply IH.
Qed.
Lemma path_of_plain t : forallb (λ c, negb (bool_decide (c ∈ ("{?%" : str)))) t = true →
  path_of t = t ∧ ("{"%char : ascii) ∉ t.
Proof.
  intros H. rewrite forallb_forall in H.
  assert (Hn : ∀ c, c ∈ ("{?%" : str) → c ∉ t).
  { intros c Hc Ht. apply list_elem_of_In, H in Ht. by rewrite bool_decide_eq_true_2 in Ht. }
  split; [|apply Hn; set_solver]. unfold path_of. destruct (split_once "?" t) as [[p q]|] eqn:E; [|done].
  apply split_once_Some in E as [-> _]. exfalso. apply (Hn "?"%char); set_solver.
Qed.
Lemma without_notin c t : without c t = true → c ∉ t.
Proof.
  intros H Hc. unfold without in H. rewrite forallb_forall in H. apply list_elem_of_In, H in Hc.
  by rewrite bool_decide_eq_true_2 in Hc.
Qed.
Lemma split_none t : without "?"%char t = true → split_once "?" t = None.
Proof. intros H. by apply split_once_None, without_notin. Qed.
Lemma split_query t q : without "?"%char t = true → split_once "?" (t ++ "?"%char :: q) = Some (t, q).
Proof. intros H. by apply (split_once_app "?"%char t q), without_notin. Qed.
Lemma query_chars k v c : forallb query_char k = true → forallb query_char v = true →
  c ∈ k ++ "="%char :: v → is_char "&" c = false.
Proof.
  rewrite !forallb_forall. intros Hk Hv Hc. destruct (is_char "&" c) eqn:E; [|done].
  apply is_char_spec in E as ->. rewrite elem_of_app, elem_of_cons in Hc.
  destruct Hc as [Hc|[Hc|Hc]]; [apply list_elem_of_In, Hk in Hc|done|apply list_elem_of_In, Hv in Hc]; done.
Qed.
#[global] Instance example_axum_ok : AxumOk example_axum.
Proof.
  assert (Hp : ∀ n body, plain n (text_reply n body)).
  { intros n body. split; [done|]. split; [by intros [=]|]. by intros ct [= <-]. }
  split; simpl.
  - intros rs m t i args. unfold example_dispatch. cbv zeta. destruct (find_exact _ _ _) as [[j meth]|] eqn:E.
    + apply find_exact_spec in E as (k & -> & Hk). unfold route_answers. case_bool_decide as Hm; [|done].
      intros [= <- <-]. by eexists.
    + intros (k & r & -> & Hr & Hm)%find_route_matched. by exists r.
  - intros rs m t i Hi Ht Hu. unfold example_dispatch. cbv zeta. destruct (path_of_plain _ Ht) as [-> Hb].
    destruct (find_exact_some 0 rs t i m Hi Hb) as [[j meth] E]. rewrite E.
    apply find_exact_spec in E as (k & -> & Hk). simpl. assert (k = i) as -> by by eapply Hu.
    rewrite Hi in Hk. injection Hk as <-. unfold route_answers. by rewrite bool_decide_eq_true_2 by auto.
  - intros rs m t q Ht. unfold example_dispatch, path_of. by rewrite split_query, split_none.
  - intros t Ht. unfold example_query. by rewrite split_none.
  - intros t k v Ht Hk Hv. unfold example_query. rewrite split_query by done. f_equal.
    rewrite (split_no_sep _ (k ++ "="%char :: v)); [|intros c Hc; apply (query_chars k v c Hk Hv Hc)].
    cbn [fmap list_fmap foldl]. unfold pair_of. rewrite (split_once_app _ k v); [done|].
    intros Hc. rewrite forallb_forall in Hk. apply list_elem_of_In, Hk in Hc. done.
  - intros rs m t i. unfold example_dispatch. cbv zeta. destruct (find_exact _ _ _) as [[j meth]|] eqn:E.
    + apply find_exact_spec in E as (k & -> & Hk). unfold route_answers. case_bool_decide as Hm; [done|].
      intros [= <-]. eexists. split; [exact Hk|]. intros Hmm. apply Hm. by left.
    + intros (k & r & -> & Hr & Hm)%find_route_wrong. by exists r.
  - intros. apply Hp.
  - intros. apply Hp.
  - intros. by split; [|split].
  - intros m r Hm. by rewrite decide_False.
  - intros m r. by case_decide.
Qed.

(** The handlers on a host without floating point. *)
Abbreviation example_handle :=
  (handle (text := example_text) (X := example_axum) ex_hash (λ _, "0123456789abcdef" : str)
     (λ _ : str, None : option ()) (λ _, true) (λ _, false) (λ _, Panic) "x86_64" None).

Definition from_localhost (method target : str) (token : option str) : Request :=
  mkRequest method target None ((λ t, "Bearer " ++ t) <$> token) (Some (V4 [127; 0; 0; 1]%N)) None None.

Lemma triple {A B C : Type} (x : A * B * C) : x = (fst (fst x), snd (fst x), snd x).
Proof. by destruct x as [[] ?]. Qed.

Section witnesses.
#[local] Instance w_env : Env := example_env.
#[local] Instance w_T : TomlValue := example_toml.
#[local] Instance w_request : Serde ApplyRequest := request_codec.
#[local] Existing Instance example_sha.

Section system.
#[local] Instance w_result : Serde ApplyResult := example_serde done_result.
#[local] Instance w_store : Serde StoreData := example_serde store_default.
#[local] Instance w_toml : ConfigToml := ex_toml.
#[local] Instance w_tokens : TokenToml := ex_tokens.

Definition ex_daemon : running := mkRunning (snd (fst (fst ex_pass2))) (fst (fst (fst ex_pass2))) Idle [] [].
Definition ex_answer := example_handle "/api/v1" (d_app ex_daemon) (from_localhost "GET" "/api/v1/updates" None) (snd ex_pass2).

#[local] Strategy expand [ex_answer ex_daemon].

Lemma request_is_actions_witness :
  sys_reach ex_hash None ex_bind ex_rq ex_rs ex_st (λ _, True) (λ _, True)
    (mkSys (snd ex_answer) (Some (set_app (snd (fst ex_answer)) ex_daemon))).
Proof.
  pose proof (request_is_actions (text := example_text) (X := example_axum) ex_hash
    (λ _, "0123456789abcdef" : str) (λ _ : str, None : option ()) (λ _, true) (λ _, false) (λ _, Panic) "x86_64" None
    None ex_bind ex_rq ex_rs ex_st (λ _, True) (λ _, True) "/api/v1" ex_daemon
    (from_localhost "GET" "/api/v1/updates" None) (snd ex_pass2) _ _ _ (triple _)) as [_ H].
  exact (H ex_reach).
Defined.
End system.

#[local] Instance w_store' : Serde StoreData := example_serde store_default.
Definition w_app : AppState := mkAppState example_config 0 (Some example_store) 0 "t" example_state.


#[local] Instance w_calm : Calm (apply_request_file example_state) "/r/result" "/s/u".
Proof. done. Qed.
Definition w_post : Request := from_localhost "POST" "/api/v1/updates/apply" (Some ("two" : str)).
Definition w_posted := example_handle "/api/v1" w_app w_post empty_world.

#[local] Strategy expand [w_posted].

Lemma only_apply_requests_witness :
  manager w_app w_post "operator"
  ∧ ∃ id now m mt, files (snd w_posted) !! apply_request_file example_state
      = Some (Regular (encode_json (Apply.mkRequest id now "operator" ["apt" : str; "zlib1g" : str])) m mt).
Proof.
  pose proof (triple w_posted) as E. unfold w_posted in E.
  destruct (only_apply_requests (text := example_text) (X := example_axum) ex_hash
    (λ _, "0123456789abcdef" : str) (λ _ : str, None : option ()) (λ _, true) (λ _, false) (λ _, Panic) "x86_64" None
    (apply_request_file example_state) "/r/result" "/s/u" (au_component <$> available example_state)
    "/api/v1" w_app w_post empty_world (fst (fst w_posted)) (snd (fst w_posted)) (snd w_posted)) as [[H _]|(_ & r & a & caller & id & now & t & m & mt & _ & _ & _ & _ & _ & Hm & _ & _ & Hf)].
  - apply (bool_decide_eq_true_1 (apply_request_file example_state ∉ others "/r/result" "/s/u")). vm_compute. reflexivity.
  - split; [reflexivity|reflexivity|intros p Hp; discriminate Hp|].
    intros x Hx. apply list_elem_of_fmap. exists x. split; [reflexivity|exact Hx].
  - intros p _ t Hp. discriminate Hp.
  - exact E.
  - vm_compute in H. discriminate H.
  - assert (Hc : caller = ("operator" : str)).
    { destruct Hm as [_ (ks & b & tk & Hk & _ & Hb & Hfd & _ & ->)]. injection Hk as <-.
      vm_compute in Hb. injection Hb as <-. vm_compute in Hfd. by injection Hfd as <-. }
    subst caller. split; [exact Hm|]. exists id, now, m, mt. exact Hf.
Defined.
End witnesses.
