(* ===== verification/Overlap.v ===== *)
(** * aborad: requests that overlap a reload

    A request is authorized against one state of the daemon and handled in another,
    when a reload (or another request, or a pass of the scheduler) comes between the
    layer of [services/aborad/src/server.rs] and the handler. And a reload itself
    ([services/aborad/src/reload.rs]) replaces first the configuration and then the
    token store, so a request may meet the new one with the old other. *)

From S2P Require Import Prelude Str World Frame Net Log Version Types Store Host Apply Protocol Config Schedule Helper Tokens Api Auth State Server AppState Handlers Scheduler Reload Daemon Ops System Wire Derive Router.

(** ** A request with a gap *)

Fixpoint remove_first (c : str) (l : list str) : list str :=
  match l with
  | [] => []
  | x :: l => if decide (c = x) then l else x :: remove_first c l
  end.

Section across.
Context {env : Env} {sha : Sha256} {T : TomlValue} {text : JsonText} {X : Axum}.
Context {serde : Serde StoreData} {request_serde : Serde ApplyRequest}.
Context (random_hash : nat → str → N) (fresh_id : nat → str).
Context {F : Type} (parse_f64 : str → option F) (is_finite is_negative : F → bool)
        (from_secs_f64 : F → outcome N) (ARCH : str) (BUILD_COMMIT : option str).

(** The daemon when a caller has been admitted to a resource, and when the handler
    of that resource has run. *)
Definition arrived (res : Resource) (c : str) (d : running) : running :=
  if decide (res = ApplyUpdates) then let_in c d else d.
Definition left (res : Resource) (c : str) (d : running) : running :=
  if decide (res = ApplyUpdates)
  then mkRunning (d_app d) (d_sched d) (d_pass d) (remove_first c (d_admitted d)) (d_tickets d) else d.

(** A route's handler after [gap], which is whatever else the daemon does once the
    caller has been admitted; with the daemon it leaves, and whether it panicked. *)
Definition late_handler (d : running) (gap : Resource → str → io running) (args : list str)
    (res : Resource) (req : Request) : io (Response * (running * bool)) :=
  let c := default [] (ext_caller req) in
  d2 ← gap res c;
  '(r, a) ← run_handler random_hash parse_f64 is_finite is_negative from_secs_f64 ARCH BUILD_COMMIT (d_app d2) args res req;
  mret (r, match a with
           | Ret s' => (set_app s' (left res c d2), false)
           | Panic => (left res c d2, true)
           end).

(** [Router.handle], with the gap. *)
Definition handle_across (base_path : str) (d : running) (gap : Resource → str → io running) (req : Request)
    : io (outcome Response * running) :=
  let serve h target :=
    Server.serve fresh_id encode_error (config (d_app d)) (tokens (d_app d)) (d, false) h target req in
  '(r, (d', panics)) ←
    match dispatch (routes base_path) (rq_method req) (rq_path req) with
    | Matched i args => serve (late_handler d gap args) (resources !! i)
    | WrongMethod i => serve (λ _ req, mret (method_not_allowed (rq_path req), (d, false))) (resources !! i)
    | NoRoute => serve (late_handler d gap []) None
    end;
  mret (if (panics : bool) then Panic else Ret (finish (rq_method req) r), d').

(** The gap in which nothing happens. *)
Definition no_gap (d : running) (res : Resource) (c : str) : io running := mret (arrived res c d).

End across.

(** A reload turns authentication on over tokens that were loaded and not
    enforced, and the request bears one of them that manages updates. *)
Definition bearer_of (req : Request) : option str := h ← rq_authorization req; bearer_value h.
Definition unenforced `{Sha256} {T : TomlValue} (s : AppState) (fresh : Config) (p : Permission) (req : Request) : Prop :=
  is_mutating p = true ∧ require_authentication (security (config s)) = false
  ∧ require_authentication (security fresh) = true
  ∧ ∃ ks b tk, tokens s = Some ks ∧ bearer_of req = Some b ∧ find b ks = Some tk
     ∧ ("manage:updates" : str) ∈ tk_permissions tk.

(** ** Lemmas *)

Lemma remove_first_spec c l : c ∈ l → ∃ l1 l2, l = l1 ++ c :: l2 ∧ remove_first c l = l1 ++ l2.
Proof.
  induction l as [|x l IH]; [by intros ?%elem_of_nil|]. simpl. case_decide as E.
  - subst x. intros _. by exists [], l.
  - intros [?|H]%elem_of_cons; [done|]. destruct (IH H) as (l1 & l2 & -> & ->). by exists (x :: l1), l2.
Qed.

Section lemmas.
Context {env : Env} {sha : Sha256} {T : TomlValue} {toml : ConfigToml} {token_toml : TokenToml}.
Context {text : JsonText} {X : Axum}.
Context {serde : Serde StoreData} {request_serde : Serde ApplyRequest} {result_serde : Serde ApplyResult}.
Context (random_hash : nat → str → N) (fresh_id : nat → str).
Context {F : Type} (parse_f64 : str → option F) (is_finite is_negative : F → bool)
        (from_secs_f64 : F → outcome N) (ARCH : str) (BUILD_COMMIT : option str).

Abbreviation across' :=
  (handle_across random_hash fresh_id parse_f64 is_finite is_negative from_secs_f64 ARCH BUILD_COMMIT).
Abbreviation run' := (run_handler random_hash parse_f64 is_finite is_negative from_secs_f64 ARCH BUILD_COMMIT).

Lemma arrived_app res c d : d_app (arrived res c d) = d_app d.
Proof. unfold arrived. by case_decide. Qed.
Lemma left_arrived res c d : left res c (arrived res c d) = d.
Proof.
  unfold left, arrived. case_decide; [|done]. destruct d. unfold let_in. simpl. by rewrite decide_True.
Qed.

(** A request that meets no gap is [Router.handle]. *)
Lemma across_no_gap base d req w :
  across' base d (no_gap d) req w
  = let '((o, s'), w') := handle random_hash fresh_id parse_f64 is_finite is_negative from_secs_f64 ARCH BUILD_COMMIT
                            base (d_app d) req w in
    ((o, set_app s' d), w').
Proof.
  set (g a := match a with Ret s' => (set_app s' d, false) | Panic => (d, true) end).
  assert (Hl : ∀ args res rq w, late_handler random_hash parse_f64 is_finite is_negative from_secs_f64 ARCH BUILD_COMMIT
      d (no_gap d) args res rq w = let '((r, a), w') := run' (d_app d) args res rq w in ((r, g a), w')).
  { intros args res rq w0. unfold late_handler, no_gap, mbind, io_bind. cbn [mret io_ret].
    rewrite arrived_app. destruct (run' _ _ _ _ _) as [[r a] w1]. cbn [mret io_ret].
    rewrite left_arrived. by destruct a. }
  assert (Hg : (d, false) = g (Ret (d_app d))) by (simpl; by rewrite set_app_same).
  set (m req := (mret (method_not_allowed (rq_path req), Ret (d_app d)) : io (Response * outcome AppState))).
  assert (Hw : ∀ (res : Resource) rq w, (mret (method_not_allowed (rq_path rq), (d, false)) : io (Response * (running * bool))) w
    = let '((r, a), w') := m rq w in ((r, g a), w')) by (intros _ rq w0; cbn; by rewrite set_app_same).
  unfold handle_across, handle, respond, serve_with, mbind, io_bind.
  destruct (dispatch _ _ _) as [i args|i|];
    [rewrite (serve_map _ _ g _ _ _ _ _ _ _ _ _ Hg (Hl _))|rewrite (serve_map _ _ g _ _ _ _ (λ _ rq, m rq) _ _ _ _ Hg Hw)
    |rewrite (serve_map _ _ g _ _ _ _ _ _ _ _ _ Hg (Hl _))];
    destruct (Server.serve _ _ _ _ (Ret _) _ _ _ _) as [[r [s'|]] w1]; cbn; by rewrite ?set_app_same.
Qed.

(** A handler that answers 202 has written the request it was called for. *)
Lemma accepted_run `{!AxumOk X} rqf rs st l `{!Calm rqf rs st} s args res req' c w r a w' :
  good_updates rqf rs st l (AppState.updates s) → (∀ p, p ∈ mine rqf rs st → not_link (files w) p) →
  ext_caller req' = Some c →
  run' s args res req' w = ((r, Ret a), w') → rs_status r = 202%N →
  res = ApplyUpdates ∧ ∃ id now t m mt, told t ∧ apply_permitted (permissions (config s) t) = true
    ∧ files w' !! rqf = Some (Regular (encode_json (Apply.mkRequest id now c (wanted (AppState.updates s)))) m mt).
Proof.
  intros Hu Hl Hc H Hs. destruct (decide (res = ApplyUpdates)) as [->|Hne].
  2:{ by apply run_status in H. }
  split; [done|]. simpl in H. rewrite Hc in H. destruct (query_map _) as [params|].
  2:{ injection H as <- _ _. by destruct (query_rejection_plain (rq_path req')) as [Hp _]; rewrite Hp in Hs. }
  step_in H as b w1 E. injection H as <- _ <-.
  destruct (apply_request_file_after random_hash rqf rs st l _ _ _ _ _ _ Hu (conj Hl eq_refl) E) as [[_ Hn]|(ap & -> & _ & Hq)].
  - destruct b as [[n ap]|e]; simpl in Hs; [|by destruct (er_code e)]. specialize (Hn _ eq_refl). simpl in Hn. by subst n.
  - destruct Hq as (id & now & t & m & mt & _ & _ & _ & _ & H5 & H6 & _ & H8). rewrite (gu_request _ _ _ _ _ Hu) in H8.
    by exists id, now, t, m, mt.
Qed.

Section actions.
Context (ABORA_CONFIG : option str) (bind : SocketAddr → result str ()).
Context (rq rs st : str) (configs : Config → Prop) (keys : TokenStore → Prop).

Abbreviation action := (act random_hash ABORA_CONFIG bind rq rs st configs keys).

(** What else the daemon does is some of the actions of the system, and does not
    take the admitted caller away. *)
Definition busy (d : running) (gap : Resource → str → io running) : Prop :=
  ∀ res c w d2 w2, gap res c w = (d2, w2) →
    rtc action (mkSys w (Some (arrived res c d))) (mkSys w2 (Some d2))
    ∧ (res = ApplyUpdates → c ∈ d_admitted d2).

Lemma late_actions d gap args res req req' w r d' p w' :
  busy d gap →
  decide_request (config (d_app d)) (tokens (d_app d)) (route_permission res) req = Allowed →
  ext_caller req' = Some (caller_of (d_app d) req) →
  late_handler random_hash parse_f64 is_finite is_negative from_secs_f64 ARCH BUILD_COMMIT d gap args res req' w
    = ((r, (d', p)), w') →
  rtc action (mkSys w (Some d)) (mkSys w' (Some d')).
Proof.
  intros Hb Hd Hc H. unfold late_handler in H. rewrite Hc in H. cbn [default from_option id] in H. step_in H as d2 w2 E2.
  destruct (Hb _ _ _ _ _ E2) as [Hg Hin]. step_in H as x w3 E3. destruct x as [r3 a]. injection H as <- H <-.
  assert (d' = set_app (left_state a (d_app d2)) (left res (caller_of (d_app d) req) d2)) as ->.
  { destruct a; injection H as <- _; [done|]. unfold left. by case_decide; [|destruct d2]. }
  clear H. unfold arrived, left in *. case_decide as Hr.
  - subst res. destruct (remove_first_spec _ _ (Hin eq_refl)) as (l1 & l2 & Hl & ->).
    eapply rtc_l; [by apply act_admit|]. etrans; [exact Hg|]. eapply applier_actions; [exact Hl|exact Hc|exact E3].
  - etrans; [exact Hg|]. by eapply reader_actions.
Qed.

End actions.

End lemmas.

(** ** Properties *)

Section properties.
Context {env : Env} {sha : Sha256} {T : TomlValue} {toml : ConfigToml} {token_toml : TokenToml}.
Context {text : JsonText} {X : Axum}.
Context {serde : Serde StoreData} {request_serde : Serde ApplyRequest} {result_serde : Serde ApplyResult}.
Context (random_hash : nat → str → N) (fresh_id : nat → str).
Context {F : Type} (parse_f64 : str → option F) (is_finite is_negative : F → bool)
        (from_secs_f64 : F → outcome N) (ARCH : str) (BUILD_COMMIT : option str).

(** C5: requests overlap with everything, and still are what the system does.
    Whatever its method, target, headers and peer, and whatever else the daemon does
    between the authorization of a request and its handler - reloads, other requests,
    passes of the scheduler - what serving it does to the files, the programs run and
    the daemon is a sequence of the actions of [System], so all that holds in every
    reachable state of the system goes on to hold. And each half of an accepted apply
    is held to the state it met: the caller was admitted by the configuration and
    the tokens of the moment the request arrived (a reload that comes later does not
    stop it), policy permitted by the configuration the handler met, and the request
    file holds the updates the daemon then knew of. *)
Theorem overlapping_request ABORA_CONFIG bind rqf rs st configs keys base d gap req w o d' w' :
  busy random_hash ABORA_CONFIG bind rqf rs st configs keys d gap →
  handle_across random_hash fresh_id parse_f64 is_finite is_negative from_secs_f64 ARCH BUILD_COMMIT base d gap req w
    = ((o, d'), w') →
  rtc (act random_hash ABORA_CONFIG bind rqf rs st configs keys) (mkSys w (Some d)) (mkSys w' (Some d'))
  ∧ ∀ (axum_ok : AxumOk X) (calm : Calm rqf rs st) l r, o = Ret r → rs_status r = 202%N →
      (∀ c w1 d2 w2, files w1 = files w → gap ApplyUpdates c w1 = (d2, w2) → good_updates rqf rs st l (AppState.updates (d_app d2))
         ∧ ∀ p, p ∈ mine rqf rs st → not_link (files w2) p) →
      ∃ caller w1 d2 w2 id now t m mt, manager (d_app d) req caller
        ∧ gap ApplyUpdates caller w1 = (d2, w2) ∧ files w1 = files w
        ∧ told t ∧ apply_permitted (permissions (config (d_app d2)) t) = true
        ∧ files w' !! rqf = Some (Regular (encode_json
            (Apply.mkRequest id now caller (wanted (AppState.updates (d_app d2))))) m mt).
Proof.
  intros Hb H. unfold handle_across in H. step_in H as x w2 E. destruct x as [r [d2 p]]. injection H as <- <- <-.
  assert (Hq : ∀ w0 w1, files w1 = files w0 ∧ trace w1 = trace w0 →
    rtc (act random_hash ABORA_CONFIG bind rqf rs st configs keys) (mkSys w0 (Some d)) (mkSys w1 (Some d))).
  { intros w0 w1 Hw. pose proof (look_action random_hash ABORA_CONFIG bind rqf rs st configs keys _ d _ Hw) as Hl.
    by rewrite set_app_same in Hl. }
  assert (Hs : ∀ id r0 r1, (if p then Panic else Ret (finish (rq_method req) (with_id id r0))) = Ret r1 →
    p = false ∧ ∀ `{!AxumOk X}, rs_status r1 = rs_status r0).
  { intros id r0 r1. destruct p; [done|]. intros [= <-]. split; [done|]. intros HX.
    destruct (finish_status (rq_method req) (with_id id r0)) as [-> _]. apply with_id_fields. }
  destruct (dispatch _ _ _) as [i args|i|];
    apply serve_cases in E as (ri & w1 & F1 & T1 & _ & [([= -> ->] & -> & body & -> & _)|
      (res & req' & r0 & Ht & Hd & Hc & _ & E & ->)]); try done.
  all: try (split; [by apply Hq|]; intros HX Hcalm l r1 Ho H202; destruct (Hs _ _ _ Ho) as [_ Ho']; clear Ho; rename Ho' into Ho; rewrite (Ho HX) in H202; simpl in H202;
    by destruct (er_code body)).
  - split.
    { etrans; [by apply Hq|]. by eapply late_actions. }
    intros HX Hcalm l r1 Ho H202 Hgap. destruct (Hs _ _ _ Ho) as [-> Ho']. clear Ho. rename Ho' into Ho.
    rewrite (Ho HX) in H202. unfold late_handler in E. rewrite Hc in E.
    cbn [default from_option id] in E. step_in E as d3 w3 E3. step_in E as x w4 E4. destruct x as [r3 a].
    destruct a as [s3|]; [|done]. injection E as -> <- <-.
    destruct (decide (res = ApplyUpdates)) as [->|Hne]; [|by apply run_status in E4].
    destruct (Hgap _ _ _ _ F1 E3) as [Hu Hl].
    destruct (accepted_run random_hash parse_f64 is_finite is_negative from_secs_f64 ARCH BUILD_COMMIT rqf rs st l _ _ _ _ _ _ _ _ _ Hu Hl Hc E4 H202) as (_ & rid & now & t & m & mt & Ht1 & Ht2 & Hf).
    exists (caller_of (d_app d) req), w1, d3, w3, rid, now, t, m, mt. split_and!; try done. by apply admitted_manager.
  - injection E as <- <- <- <-. split; [by apply Hq|]. intros HX Hcalm l r1 Ho H202. destruct (Hs _ _ _ Ho) as [_ Ho']; clear Ho; rename Ho' into Ho.
    rewrite (Ho HX) in H202. by destruct (method_not_allowed_plain (rq_path req')) as [Hp _]; rewrite Hp in H202.
Qed.

(** C27: a reload in two halves. Between the swap of the configuration and that of
    the tokens, a request is admitted only if it was before, or will be after, the
    reload - but for one case: a reload that turns authentication on, over tokens
    that were loaded and not enforced, admits changes of their holders, which no one
    was allowed before and which the new token file may not allow either. *)
Theorem reload_window s fresh p req w r w' :
  let mid := swap_config fresh s in
  refresh_tokens mid w = (r, w') →
  (decide_request (config mid) (tokens mid) p req = Allowed →
     decide_request (config s) (tokens s) p req = Allowed
     ∨ decide_request (config (after r)) (tokens (after r)) p req = Allowed ∨ unenforced s fresh p req)
  ∧ (unenforced s fresh p req → is_loopback (default UNSPECIFIED (rq_peer req)) = true →
       decide_request (config mid) (tokens mid) p req = Allowed
       ∧ decide_request (config s) (tokens s) p req = TokensRequired
       ∧ (∀ ks b, tokens (after r) = Some ks → bearer_of req = Some b → find b ks = None →
            decide_request (config (after r)) (tokens (after r)) p req = AuthenticationRequired)).
Proof.
  intros mid Hr. destruct (swap_config_spec fresh s) as (Cc & _ & Ct & _). fold mid in Cc, Ct.
  apply refresh_tokens_inv in Hr as (Rc & _ & _ & _). rewrite Rc, Cc, Ct.
  unfold decide_request, enforced_store, authorize. fold (bearer_of req). set (bearer := bearer_of req). split.
  - destruct (negb _); [done|]. destruct (require_authentication (security fresh)) eqn:Ef, (require_authentication (security (config s))) eqn:Es; auto.
    destruct (tokens s) as [ks|] eqn:Ek; [|auto]. destruct bearer as [b|] eqn:Eb; [|done].
    destruct (find b ks) as [tk|] eqn:Eg; [|done]. destruct (grants _ tk) eqn:Egr; [|done]. intros _.
    destruct (is_mutating p) eqn:Em; [|auto]. right. right. unfold unenforced. fold bearer. split_and!; try done. exists ks, b, tk.
    split_and!; try done. apply grants_spec in Egr as [H|[_ H]]; [by destruct p|by rewrite read_permission, Em in H].
  - intros (Em & Es & Ef & ks & b & tk & Ek & Eb & Eg & Hp) Hlo. fold bearer in Eb. rewrite Hlo, Es, Ef, Ek, Eb. cbn [negb mbind option_bind].
    rewrite Eg, Em. assert (grants (permission_id p) tk = true) as ->.
    { apply grants_spec. left. by destruct p. }
    split_and!; try done. intros ks' b' -> [= <-] Hn. by rewrite Hn.
Qed.

End properties.

(** ** Examples: a token is revoked while a request of its holder is on its way *)

Section witnesses.
#[local] Instance o_env : Env := example_env.
#[local] Instance o_T : TomlValue := example_toml.
#[local] Instance o_request : Serde ApplyRequest := request_codec.
#[local] Instance o_result : Serde ApplyResult := example_serde done_result.
#[local] Instance o_store : Serde StoreData := example_serde store_default.
#[local] Instance o_toml : ConfigToml := ex_toml.
#[local] Instance o_tokens : TokenToml := ex_tokens.
#[local] Existing Instance example_sha.

Definition o_app : AppState := mkAppState example_config 0 (Some example_store) 0 "t" example_state.
Definition o_daemon : running := mkRunning o_app scheduler_start Idle [] [].
Definition o_post : Request := from_localhost "POST" "/api/v1/updates/apply" (Some ("two" : str)).
(** The token half of a reload: no token file is configured any more. *)
Definition o_revoked : AppState := set_tokens None o_app.
Definition o_gap (res : Resource) (c : str) : io running :=
  λ w, (set_app o_revoked (arrived res c o_daemon), w).
Abbreviation o_rq := (apply_request_file example_state).
#[local] Instance o_calm : Calm o_rq "/r/result" "/s/u".
Proof. done. Qed.

Lemma o_busy : busy ex_hash None ex_bind o_rq "/r/result" "/s/u" (λ _, True) (λ _, True) o_daemon o_gap.
Proof.
  intros res c w d2 w2 [= <- <-]. split.
  - apply rtc_once. apply (act_refresh _ _ _ _ _ _ _ _ w (arrived res c o_daemon)
      (mkReloaded o_revoked [reload_note Info "token authentication disabled (no token_file)"] false)); [|done|done].
    rewrite arrived_app. reflexivity.
  - intros ->. simpl. apply list_elem_of_singleton. reflexivity.
Qed.

Definition o_served :=
  handle_across (text := example_text) (X := example_axum) ex_hash (λ _, "0123456789abcdef" : str)
    (λ _ : str, None : option ()) (λ _, true) (λ _, false) (λ _, Panic) "x86_64" None
    "/api/v1" o_daemon o_gap o_post empty_world.
#[local] Strategy expand [o_served].

Lemma overlapping_request_witness :
  decide_request (config o_revoked) (tokens o_revoked) ManageUpdates o_post = TokensRequired
  ∧ ∃ caller id now m mt, manager o_app o_post caller
    ∧ files (snd o_served) !! o_rq
      = Some (Regular (encode_json (Apply.mkRequest id now caller ["apt" : str; "zlib1g" : str])) m mt).
Proof.
  split; [vm_compute; reflexivity|].
  pose proof (triple o_served) as E. unfold o_served in E.
  destruct (overlapping_request (text := example_text) (X := example_axum) ex_hash (λ _, "0123456789abcdef" : str)
    (λ _ : str, None : option ()) (λ _, true) (λ _, false) (λ _, Panic) "x86_64" None None ex_bind
    o_rq "/r/result" "/s/u" (λ _, True) (λ _, True) _ _ _ _ _ _ _ _ o_busy E) as [_ H].
  assert (Ho : ∃ r, fst (fst o_served) = Ret r ∧ rs_status r = 202%N) by (eexists; split; vm_compute; reflexivity).
  destruct Ho as (r & Hr & Hs). unfold o_served in Hr.
  destruct (H _ _ (au_component <$> available example_state) r Hr Hs) as (caller & w1 & d2 & w2 & id & now & t & m & mt & Hm & Hg & _ & _ & _ & Hf).
  - intros c w1 d2 w2 Fw [= <- <-]. split; [|intros p _ t Hp; rewrite Fw in Hp; discriminate Hp].
    split; [reflexivity|reflexivity|intros p Hp; discriminate Hp|].
    intros x Hx. apply list_elem_of_fmap. exists x. split; [reflexivity|exact Hx].
  - injection Hg as <- _. exists caller, id, now, m, mt. split; [exact Hm|exact Hf].
Defined.

(** A reload turns authentication on and takes the token file away. *)
Definition o_open : AppState := set_config (mkConfig _ (Config.system example_config) (Config.updates example_config)
  (Config.maintenance example_config) (remote example_config) (mkSecurity false None) (logging example_config)
  (api example_config) (features example_config) ∅) o_app.

Lemma reload_window_witness :
  let mid := swap_config example_config o_open in
  decide_request (config o_open) (tokens o_open) ManageUpdates o_post = TokensRequired
  ∧ decide_request (config mid) (tokens mid) ManageUpdates o_post = Allowed.
Proof.
  intros mid. pose proof (surjective_pairing (refresh_tokens mid empty_world)) as E.
  destruct (reload_window o_open example_config ManageUpdates o_post empty_world _ _ E) as [_ H].
  destruct H as (Hm & Hs & _); [|reflexivity|split; [exact Hs|exact Hm]].
  split; [reflexivity|]. split; [reflexivity|]. split; [reflexivity|].
  exists example_store, ("two" : str), (mkToken (Some ("operator" : str)) ["manage:updates" : str]).
  split_and!; [reflexivity|reflexivity|vm_compute; reflexivity|by apply list_elem_of_singleton].
Defined.

End witnesses.
