(* ===== verification/Logged.v ===== *)
(** * aborad: computations that log

    The scheduler ([services/aborad/src/scheduler.rs]) and the start ([main.rs])
    with the records they log, in their order; those of a reload are in [Reload],
    those of requests in [Records]. Without the records they are the definitions of
    [Scheduler] and [Daemon]. What becomes of a record - the threshold, the sink - is
    in [Log]. *)

From S2P Require Import Prelude Str World Net Log Version Types Store Host Apply Config Schedule Helper Tokens Api Sysinfo State Server AppState Scheduler Reload Daemon.

(** ** Computations that log *)

Definition lio (A : Type) : Type := io (A * list note).

#[global] Instance lio_ret : MRet lio := λ A a w, ((a, []), w).
#[global] Instance lio_bind : MBind lio := λ A B f m w,
  let '((a, n), w1) := m w in let '((b, k), w2) := f a w1 in ((b, n ++ k), w2).

Definition lift {A : Type} (m : io A) : lio A := λ w, let '(a, w1) := m w in ((a, []), w1).
Definition log (l : Level) (text : str) : lio () := λ w, (((), [(l, text)]), w).

(** What is left without the records. *)
Definition erase {A : Type} (m : lio A) : io A := λ w, let '((a, _), w1) := m w in (a, w1).

(** The same results and worlds. *)
Definition same {A : Type} (m k : io A) : Prop := ∀ w, m w = k w.
#[global] Instance same_equivalence A : Equivalence (@same A).
Proof. split; unfold same; [done|by intros ? ? H w; rewrite H|by intros ? ? ? H K w; rewrite H]. Qed.
#[global] Instance bind_same A B : Proper (pointwise_relation A same ==> same ==> same) (@mbind io _ A B).
Proof.
  intros f g Hf m k Hm w. unfold mbind, io_bind. rewrite Hm. destruct (k w) as [a w1]. apply Hf.
Qed.

Lemma erase_ret {A : Type} (a : A) : same (erase (mret a)) (mret a).
Proof. done. Qed.
Lemma erase_lift {A : Type} (m : io A) : same (erase (lift m)) m.
Proof. intros w. unfold erase, lift. by destruct (m w). Qed.
Lemma erase_bind {A B : Type} (m : lio A) (f : A → lio B) :
  same (erase (m ≫= f)) (erase m ≫= λ a, erase (f a)).
Proof.
  intros w. unfold erase, mbind, lio_bind, io_bind. destruct (m w) as [[a n] w1].
  by destruct (f a w1) as [[b k] w2].
Qed.
Lemma erase_log {B : Type} l t (m : lio B) : same (erase (_ ← log l t; m)) (erase m).
Proof. intros w. unfold erase, mbind, lio_bind, log. by destruct (m w) as [[b k] w2]. Qed.

(** Step through a computation that logs. *)
Lemma lio_inv {A B : Type} (m : lio A) (f : A → lio B) w b n w' :
  (m ≫= f) w = ((b, n), w') →
  ∃ a n1 w1 n2, m w = ((a, n1), w1) ∧ f a w1 = ((b, n2), w') ∧ n = n1 ++ n2.
Proof.
  unfold mbind, lio_bind. destruct (m w) as [[a n1] w1]. destruct (f a w1) as [[b2 n2] w2] eqn:E.
  intros [= <- <- <-]. by exists a, n1, w1, n2.
Qed.

(** Follow an operation and its version without records. *)
Ltac erasing :=
  repeat first
    [ rewrite erase_log | rewrite erase_bind, erase_lift; apply bind_same; [intros ?|reflexivity]
    | apply erase_ret | reflexivity | case_match ].

(** ** The scheduler *)

Section scheduler.
Context {env : Env} {T : TomlValue} {serde : Serde StoreData}.
Context {request_serde : Serde ApplyRequest} {result_serde : Serde ApplyResult}.
Context (random_hash : nat → str → N).

Definition check_phase_logged (interval : N) (ch : Channel) (last : option N) (was_ok : bool)
    (u : UpdatesState) : lio (option N * bool * UpdatesState) :=
  due ← lift match last with
        | None => mret true
        | Some t => e ← elapsed t; mret (check_is_due e was_ok interval)
        end;
  if (due : bool) then
    now ← lift time_now;
    x ← lift (refresh ch u);
    _ ← match fst x with
        | Ok n => log Info ("update check finished: " ++ dec_nat n ++ " update(s) available")
        | Err e => log Warn ("update check failed: " ++ e)
        end;
    mret (Some now, is_ok (fst x), snd x)
  else mret (last, was_ok, u).

(** [{:?}] of a text, and of a refusal. Characters beyond ASCII are kept, as those
    are that can be printed. *)
Definition escape_debug (c : ascii) : str :=
  if bool_decide (c ∈ [DQUOTE; "\"%char]) then ["\"%char; c]
  else if bool_decide (c = LF) then "\n"
  else if bool_decide (c = chr 13) then "\r"
  else if bool_decide (c = chr 9) then "\t"
  else if bool_decide (c = chr 0) then "\0"
  else if ((code c <? 32) || (code c =? 127))%N then "\u{" ++ (if (code c <? 16)%N then [HEX (code c)] else hex_lower [code c]) ++ "}"
  else [c].
Definition debug_text (s : str) : str := [DQUOTE] ++ concat (escape_debug <$> s) ++ [DQUOTE].
Definition refusal_debug (e : ApplyRefusal) : str :=
  match e with
  | RefusedConflict reason => "Conflict(" ++ debug_text reason ++ ")"
  | RefusedInternal message => "Internal(" ++ debug_text message ++ ")"
  end.

Definition automatic_line (r : ApplyResponse) : str :=
  "audit: automatic apply requested for " ++ dec_nat (length (ap_packages r)) ++ " package(s) (request "
  ++ default ("-" : str) (ap_id r) ++ ")".

Definition auto_phase_logged (cfg : Config) (perms : Permissions) (interval : N) (last : option N)
    (u : UpdatesState) : lio (option N * option (result ApplyRefusal ApplyResponse)) :=
  inputs ← lift (apply_inputs u);
  since ← lift match last with
          | Some t => e ← elapsed t; mret (Some e)
          | None => mret None
          end;
  if should_auto_apply perms (fst inputs) (snd inputs) since interval then
    now ← lift time_now;
    r ← lift (request_apply random_hash cfg AUTOMATIC false u);
    _ ← match r with
        | Ok r => log Info (automatic_line r)
        | Err e => log Warn ("audit: automatic apply not requested: " ++ refusal_debug e)
        end;
    mret (Some now, Some r)
  else mret (last, None).

Definition window_text (w : option bool) : str :=
  match w with Some true => "open" | Some false => "closed" | None => "unknown" end.
Definition permitted_text (b : bool) : str := if b then "permitted" else "not permitted".
Definition policy_line (p : Permissions) : str :=
  "update policy changed: maintenance window " ++ window_text (in_maintenance_window p) ++ ", installs "
  ++ permitted_text (installs_permitted p) ++ ", reboot " ++ permitted_text (reboot_permitted p)
  ++ " (installing is not implemented, so nothing is done)".

(** A record, or none. *)
Definition log_when (b : bool) (l : Level) (text : str) : lio () := if b then log l text else mret ().

Definition pass_logged (st : SchedulerState) (s : AppState)
    : lio (SchedulerState * AppState * option (result ApplyRefusal ApplyResponse)) :=
  let cfg := config s in
  let interval := check_interval_of cfg in
  let ch := channel (Config.updates cfg) in
  now ← lift local_time;
  _ ← log_when (bool_decide (now = None)) Warn
        "could not read the local time; maintenance windows are treated as closed";
  let perms := permissions cfg now in
  let u := set_schedule (schedule_info interval perms) (AppState.updates s) in
  _ ← log_when (bool_decide (is_Some (previous st) ∧ previous st ≠ Some perms)) Info (policy_line perms);
  x ← lift (ingest_apply_result ch u);
  _ ← log_when (fst x) Info "an update apply finished; recorded in the history";
  let last := if (fst x : bool) then None else last_attempt st in
  '(last, ok, u) ← check_phase_logged interval ch last (last_ok st) (snd x);
  '(last_auto, asked) ← auto_phase_logged cfg perms interval (last_auto_attempt st) u;
  mret (mkScheduler last ok (Some perms) last_auto, set_updates u s, asked).

Lemma erase_log_when {B : Type} b l t (m : lio B) : same (erase (_ ← log_when b l t; m)) (erase m).
Proof. intros w. unfold erase, mbind, lio_bind, log_when. destruct b; simpl; by destruct (m w) as [[? k] w2]. Qed.

Lemma erase_check interval ch last was u :
  same (erase (check_phase_logged interval ch last was u)) (check_phase interval ch last was u).
Proof.
  unfold check_phase_logged, check_phase. rewrite erase_bind, erase_lift. apply bind_same; [intros due|done].
  destruct due; [|done]. rewrite erase_bind, erase_lift. apply bind_same; [intros now|done].
  rewrite erase_bind, erase_lift. apply bind_same; [intros [[n|e] u']|done]; cbn [fst snd]; by rewrite erase_log.
Qed.
Lemma erase_auto cfg perms interval last u :
  same (erase (auto_phase_logged cfg perms interval last u)) (auto_phase random_hash cfg perms interval last u).
Proof.
  unfold auto_phase_logged, auto_phase. rewrite erase_bind, erase_lift. apply bind_same; [intros [has pending]|done].
  rewrite erase_bind, erase_lift. apply bind_same; [intros since|done]. cbn [fst snd].
  destruct (should_auto_apply _ _ _ _ _); [|done].
  rewrite erase_bind, erase_lift. apply bind_same; [intros now|done].
  rewrite erase_bind, erase_lift. apply bind_same; [intros [r|e]|done]; by rewrite erase_log.
Qed.
Lemma erase_pass st s : same (erase (pass_logged st s)) (pass random_hash st s).
Proof.
  unfold pass_logged, pass. cbv zeta. rewrite erase_bind, erase_lift. apply bind_same; [intros now|done].
  rewrite !erase_log_when, erase_bind, erase_lift. apply bind_same; [intros [ingested u]|done]. cbn [fst snd].
  rewrite erase_log_when, erase_bind, erase_check. apply bind_same; [intros [[last ok] u']|done].
  rewrite erase_bind, erase_auto. apply bind_same; [intros [la asked]|]; done.
Qed.

(** An automatic request leaves its audit record. *)
Lemma auto_recorded cfg perms interval last u w la r k w' :
  auto_phase_logged cfg perms interval last u w = ((la, Some (Ok r), k), w') → (Info, automatic_line r) ∈ k.
Proof.
  unfold auto_phase_logged, mbind, lio_bind, lift. destruct (apply_inputs u w) as [inputs w1].
  match goal with |- context [match ?m w1 with _ => _ end] => destruct (m w1) as [since w2] end.
  destruct (should_auto_apply _ _ _ _ _); [|done]. destruct (time_now w2) as [now w3].
  destruct (request_apply _ _ _ _ _ w3) as [[r'|e] w4]; [|done]. intros [= <- <- <- <-]. set_solver.
Qed.

Lemma pass_recorded st s w st' s' r k w' :
  pass_logged st s w = ((st', s', Some (Ok r), k), w') → (Info, automatic_line r) ∈ k.
Proof.
  unfold pass_logged. cbv zeta. intros H.
  do 4 (apply lio_inv in H as (? & ? & ? & ? & _ & H & ->)).
  apply lio_inv in H as (? & ? & ? & ? & _ & H & ->).
  apply lio_inv in H as ([[last ok] u] & ? & ? & ? & _ & H & ->).
  apply lio_inv in H as ([la asked] & ? & ? & ? & Ha & H & ->). injection H as _ _ -> <- _.
  apply auto_recorded in Ha. set_solver.
Qed.

End scheduler.

(** ** The start *)

Section start.
Context {env : Env} {T : TomlValue} {toml : ConfigToml} {token_toml : TokenToml}.
Context {serde : Serde StoreData}.
Context (ABORA_CONFIG : option str) (bind : SocketAddr → result str ()).

(** [resolve_config]; its record goes to the first logger, which has the defaults. *)
Definition resolve_config_logged (explicit : option str) : lio (result str (Config * ConfigSource)) :=
  match explicit, ABORA_CONFIG with
  | Some path, _ => lift (load_from path (Explicit path))
  | None, Some path => lift (load_from path (Environment path))
  | None, None =>
      c ← lift (Config.load DEFAULT_CONFIG_PATH);
      match c with
      | Ok c => mret (Ok (c, Explicit DEFAULT_CONFIG_PATH))
      | Err (CIo path e) =>
          if bool_decide (path = DEFAULT_CONFIG_PATH) then
            there ← lift (exists_path DEFAULT_CONFIG_PATH);
            if (there : bool) then mret (Err (config_error_to_string (CIo path e)))
            else
              _ ← log Warn ("no configuration file at " ++ DEFAULT_CONFIG_PATH ++ "; using compiled-in defaults");
              mret (Ok (config_default, BuiltinDefaults))
          else mret (Err (config_error_to_string (CIo path e)))
      | Err e => mret (Err (config_error_to_string e))
      end
  end.

Definition tokens_line (c : Config) (path : str) (st : TokenStore) : note :=
  if negb (require_authentication (security c)) then
    (Warn, "[security].require_authentication = false: tokens in " ++ path ++ " are loaded but NOT enforced")
  else if is_empty st then
    (Warn, "token file " ++ path ++ " contains no tokens; all API requests will be rejected with 401 until tokens are added (see `abora auth generate-token`)")
  else (Info, "token authentication enabled (" ++ dec_nat (len st) ++ " token(s) from " ++ path ++ ")").

Definition load_token_store_logged (c : Config) : lio (outcome (result str (option TokenStore))) :=
  match token_file (security c) with
  | None =>
      _ ← log Warn "[security].token_file not configured: loopback clients are trusted, remote clients are refused. Generate tokens with `abora auth generate-token`; see docs/security.md.";
      mret (Ret (Ok None))
  | Some path =>
      r ← lift (Tokens.load path);
      match r with
      | Panic => mret Panic
      | Ret (Ok st) =>
          _ ← log (fst (tokens_line c path st)) (snd (tokens_line c path st));
          mret (Ret (Ok (Some st)))
      | Ret (Err e) => mret (Ret (Err (token_error_to_string e)))
      end
  end.

Definition open_updates_logged (c : Config) : lio UpdatesState :=
  let path := state_file (Config.updates c) in
  let host st := State.host st (request_file_of c) (apply_result_file (Config.updates c)) in
  r ← lift (Store.open path);
  match r with
  | Ok (st, Loaded) => _ ← log Info ("update state loaded from " ++ path); mret (host st)
  | Ok (st, Fresh) => _ ← log Info ("no update state at " ++ path ++ " yet; starting empty"); mret (host st)
  | Ok (st, Recovered backup) =>
      _ ← log Warn ("update state " ++ path ++ " was unreadable; moved to " ++ backup ++ " and starting empty");
      mret (host st)
  | Err e => _ ← log Warn (store_error_to_string e ++ "; update history will not be saved"); mret (host in_memory)
  end.

(** [Display] of a loopback address: [is_loopback] leaves only [::1] of IPv6. *)
Definition loopback_text (a : SocketAddr) : str :=
  match ip a with
  | V4 octets => join "." (dec <$> octets) ++ ":" ++ dec (port a)
  | V6 _ => "[::1" ++ (if (scope_id a =? 0)%N then [] else "%" ++ dec (scope_id a)) ++ "]:" ++ dec (port a)
  end.

Fixpoint log_all (l : list note) : lio () :=
  match l with [] => mret () | (lv, t) :: l => _ ← log lv t; log_all l end.

(** What the start says of the configuration. *)
Definition start_notes (c : Config) (source : ConfigSource) : list note :=
  (Info, "starting " ++ DAEMON_NAME ++ " " ++ FRAMEWORK_VERSION ++ " (api " ++ API_VERSION ++ ")" : str)
  :: match source with
     | Explicit p => [(Info, "configuration loaded from " ++ p)]
     | Environment p => [(Info, "configuration loaded from " ++ p ++ " (ABORA_CONFIG)")]
     | BuiltinDefaults => []
     end
  ++ ((λ line, (Info, line)) <$> summary c)
  ++ (if r_enabled (remote c)
      then [(Warn, "[remote].enabled is set but remote management is not implemented; ignoring it" : str)] else []).

(** [run], up to serving requests. *)
Definition run_logged (config_path : option str) : lio (outcome (result str Started)) :=
  loaded ← resolve_config_logged config_path;
  match loaded with
  | Err e => mret (Ret (Err e))
  | Ok (c, source) =>
      match validate c with
      | Err errors => mret (Ret (Err ("invalid configuration:" ++ [LF] ++ join [LF] errors)))
      | Ok _ =>
          match check_bind_addr c with
          | Err e => mret (Ret (Err e))
          | Ok addr =>
              _ ← log_all (start_notes c source);
              tk ← load_token_store_logged c;
              match tk with
              | Panic => mret Panic
              | Ret (Err e) => mret (Ret (Err e))
              | Ret (Ok tk) =>
                  match bind addr with
                  | Err e => mret (Ret (Err e))
                  | Ok _ =>
                      _ ← log Info ("listening on " ++ loopback_text addr ++ " (loopback only)");
                      u ← open_updates_logged c;
                      s ← lift (with_updates c (log_level (logging c)) tk u);
                      mret (Ret (Ok (mkStarted s addr (reload_source source))))
                  end
              end
          end
      end
  end.

Lemma erase_log_all {B : Type} l (m : lio B) : same (erase (_ ← log_all l; m)) (erase m).
Proof.
  intros w. unfold erase, mbind, lio_bind.
  assert (H : ∀ w, ∃ k, log_all l w = (((), k), w)).
  { induction l as [|[lv t] l IH]; intros w0; [by eexists|]. destruct (IH w0) as [k Hk]. eexists. simpl.
    unfold mbind, lio_bind, log. rewrite Hk. reflexivity. }
  destruct (H w) as [k ->]. by destruct (m w) as [[b k'] w1].
Qed.
Lemma erase_resolve explicit : same (erase (resolve_config_logged explicit)) (resolve_config ABORA_CONFIG explicit).
Proof.
  unfold resolve_config_logged, resolve_config. destruct explicit; [apply erase_lift|].
  destruct ABORA_CONFIG; [apply erase_lift|]. rewrite erase_bind, erase_lift. apply bind_same; [intros c|done].
  destruct c as [c|[]]; try done. destruct (bool_decide _); [|done].
  rewrite erase_bind, erase_lift. apply bind_same; [intros []|]; done.
Qed.
Lemma erase_tokens c : same (erase (load_token_store_logged c)) (load_token_store c).
Proof. unfold load_token_store_logged, load_token_store. erasing. Qed.
Lemma erase_open c : same (erase (open_updates_logged c)) (open_updates c).
Proof.
  unfold open_updates_logged, open_updates. rewrite erase_bind, erase_lift.
  apply bind_same; [intros [[st []]|e]|]; done.
Qed.
Lemma erase_start config_path : same (erase (run_logged config_path)) (Daemon.run ABORA_CONFIG bind config_path).
Proof.
  unfold run_logged, Daemon.run. rewrite erase_bind, erase_resolve. apply bind_same; [intros [[c source]|e]|done]; [|done].
  destruct (validate c); [|done]. destruct (check_bind_addr c) as [addr|]; [|done].
  rewrite erase_log_all, erase_bind, erase_tokens. apply bind_same; [intros [[tk|e]|]|done]; [|done..].
  destruct (bind addr); [|done]. rewrite erase_log, erase_bind, erase_open. apply bind_same; [intros u|done].
  rewrite erase_bind, erase_lift. by apply bind_same.
Qed.

End start.
