(* ===== verification/Records.v ===== *)
(** * aborad: the log records of requests

    The layers and handlers ([services/aborad/src/server.rs], [handlers.rs]) with
    the records they log: what of a request is seen in the log, and what is always
    recorded. Without the records they are [Handlers] and [Router]. *)

From S2P Require Import Prelude Str World Frame Net Log Version Types Store Host Apply Protocol Config Schedule Helper Tokens Api Sysinfo Services Auth State Server AppState Handlers Scheduler Reload Daemon Ops System Wire Derive Router Logged.

(** ** Handlers *)

Section handlers.
Context {env : Env} {T : TomlValue} {serde : Serde StoreData}.
Context {request_serde : Serde ApplyRequest}.
Context (random_hash : nat → str → N).
Context {F : Type} (parse_f64 : str → option F) (is_finite is_negative : F → bool)
        (from_secs_f64 : F → outcome N) (ARCH : str).

Definition system_logged (s : AppState) : lio (outcome (result ApiErrorBody SystemResponse)) :=
  info ← lift (Sysinfo.collect parse_f64 is_finite is_negative from_secs_f64 ARCH);
  match info with
  | Panic => mret Panic
  | Ret (Err e) =>
      _ ← log Error ("system info collection failed: " ++ sys_error_to_string e);
      mret (Ret (Err (internal_error ("could not collect system information: " ++ sys_error_to_string e))))
  | Ret (Ok info) => mret (Ret (Ok (system_response (config s) info)))
  end.

Definition services_unavailable_logged (e : ServicesError) : lio ApiErrorBody :=
  _ ← log Warn ("service discovery failed: " ++ services_error_to_string e);
  mret (services_unavailable e).

Definition services_logged (params : query) : lio (result ApiErrorBody (nat * list ServiceStatus)) :=
  match parse_service_query params with
  | Err e => mret (Err e)
  | Ok q =>
      units ← lift Services.collect;
      match units with
      | Err e => e ← services_unavailable_logged e; mret (Err e)
      | Ok units => mret (Ok (total_matching q units, Services.apply q units))
      end
  end.

Definition service_detail_logged (name : str) : lio (result ApiErrorBody ServiceDetail) :=
  if negb (validate_unit_name name)
  then mret (Err (bad_request "the service name must be a unit name ending in `.service`"))
  else
    d ← lift (Services.detail name);
    match d with
    | Ok d => mret (Ok d)
    | Err (UnitNotFound n) => mret (Err (error_new CodeNotFound ("no such service: " ++ n)))
    | Err e => e ← services_unavailable_logged e; mret (Err e)
    end.

(** The record of an accepted apply, for the audit trail. *)
Definition audit_line (caller : str) (packages : list str) (id : option str) : str :=
  "audit: " ++ caller ++ " requested applying " ++ dec_nat (length packages)
  ++ " package(s) (request " ++ default ("-" : str) id ++ ")".

Definition apply_updates_logged (caller : option Caller) (params : query) (s : AppState)
    : lio (result ApiErrorBody (N * ApplyResponse)) :=
  match dry_run_of false params with
  | Err e => mret (Err e)
  | Ok dry_run =>
      let caller := default ("unknown" : str) caller in
      r ← lift (request_apply random_hash (config s) caller dry_run (AppState.updates s));
      match r with
      | Ok response =>
          if (dry_run : bool) then mret (Ok (200%N, response))
          else
            _ ← log Info (audit_line caller (ap_packages response) (ap_id response));
            mret (Ok (202%N, response))
      | Err (RefusedConflict reason) =>
          _ ← log Warn ("audit: " ++ caller ++ " apply request refused: " ++ reason);
          mret (Err (error_new CodeConflict reason))
      | Err (RefusedInternal message) =>
          _ ← log Error ("audit: " ++ caller ++ " apply request failed: " ++ message);
          mret (Err (error_new Internal "could not hand the request to the update helper"))
      end
  end.

Lemma erase_system s : same (erase (system_logged s)) (Handlers.system parse_f64 is_finite is_negative from_secs_f64 ARCH s).
Proof. unfold system_logged, Handlers.system. erasing. Qed.
Lemma erase_services params : same (erase (services_logged params)) (services params).
Proof. unfold services_logged, services, services_unavailable_logged. erasing. Qed.
Lemma erase_detail name : same (erase (service_detail_logged name)) (service_detail name).
Proof. unfold service_detail_logged, service_detail, services_unavailable_logged. erasing. Qed.
Lemma erase_apply caller params s : same (erase (apply_updates_logged caller params s)) (apply_updates random_hash caller params s).
Proof. unfold apply_updates_logged, apply_updates. erasing. Qed.

End handlers.

(** ** Requests *)

Section requests.
Context {env : Env} {sha : Sha256} {T : TomlValue} {text : JsonText} {X : Axum}.
Context {serde : Serde StoreData} {request_serde : Serde ApplyRequest}.
Context (random_hash : nat → str → N) (fresh_id : nat → str).
Context {F : Type} (parse_f64 : str → option F) (is_finite is_negative : F → bool)
        (from_secs_f64 : F → outcome N) (ARCH : str) (BUILD_COMMIT : option str).

(** The handlers with their extractors, as [Router.run_handler]. *)
Definition run_handler_logged (s : AppState) (args : list str) (r : Resource) (req : Request)
    : lio (Response * outcome AppState) :=
  match r with
  | System =>
      b ← system_logged parse_f64 is_finite is_negative from_secs_f64 ARCH s;
      mret (match b with
            | Panic => (no_response, Panic)
            | Ret b => (reply (λ b, json_reply 200 (system_to_json b)) b, Ret s)
            end)
  | Services =>
      match query_map (rq_path req) with
      | None => mret (query_rejection (rq_path req), Ret s)
      | Some params => b ← services_logged params; mret (reply services_reply b, Ret s)
      end
  | ServiceByName =>
      match path_text args with
      | None => mret (path_rejection args, Ret s)
      | Some name => b ← service_detail_logged name; mret (reply (λ b, json_reply 200 (detail_to_json b)) b, Ret s)
      end
  | ApplyUpdates =>
      match query_map (rq_path req) with
      | None => mret (query_rejection (rq_path req), Ret s)
      | Some params =>
          b ← apply_updates_logged random_hash (ext_caller req) params s;
          mret (reply (λ sb, json_reply (fst sb) (apply_to_json (snd sb))) b, Ret s)
      end
  | Health | VersionInfo | Updates =>
      lift (run_handler random_hash parse_f64 is_finite is_negative from_secs_f64 ARCH BUILD_COMMIT s args r req)
  end.

(** The records of the authorization layer: at the threshold [debug] what it
    allows, and always what it denies, without the peer's address. *)
Definition shown_id (req : Request) : str := default ("-" : str) (ext_request_id req).
Definition allowed_note (p : Permission) (req : Request) : note :=
  (Info, shown_id req ++ " " ++ rq_method req ++ " " ++ rq_path req ++ " allowed (permission: " ++ permission_id p ++ ")").
Definition denied_note (p : Permission) (req : Request) : note :=
  (Warn, shown_id req ++ " denied " ++ rq_method req ++ " " ++ rq_path req ++ " (permission: " ++ permission_id p
         ++ ", peer: " ++ redacted_to_string (redact (default UNSPECIFIED (rq_peer req))) ++ ")").

(** What lies inside the layers also leaves its records. *)
Definition next_logged : Type := Request → io (Response * (outcome AppState * list note)).

Definition authorize_logged (s : AppState) (p : Permission) (next : next_logged) : next_logged := λ req,
  let bearer := h ← rq_authorization req; bearer_value h in
  let caller := caller_name (enforced_store (config s) (tokens s)) bearer in
  match decide_request (config s) (tokens s) p req with
  | Allowed =>
      let first := if (as_rank Debug <=? as_rank (from_rank (level_rank s)))%N then [allowed_note p req] else [] in
      '(r, (a, n)) ← next (mkRequest (rq_method req) (rq_path req) (rq_request_id req) (rq_authorization req)
                             (rq_peer req) (ext_request_id req)
                             (Some (default ("loopback (no token)" : str) caller)));
      mret (r, (a, first ++ n))
  | denied =>
      match into_denial denied p with
      | Some body => mret (error_response encode_error body, (Ret s, [denied_note p req]))
      | None => mret (error_response encode_error (internal_error "unexpected authorization failure"), (Ret s, []))
      end
  end.

Definition with_records (h : Request → lio (Response * outcome AppState)) : next_logged := λ req,
  '((r, a), n) ← (h req : io (Response * outcome AppState * list note)); mret (r, (a, n)).

Definition serve_logged (s : AppState) (h : Resource → Request → lio (Response * outcome AppState))
    (target : option Resource) : next_logged :=
  request_id_layer fresh_id (λ req,
    match target with
    | Some res => authorize_logged s (route_permission res) (with_records (h res)) req
    | None => mret (fallback encode_error (rq_path req), (Ret s, []))
    end).

(** [Router.handle], with the records of the request. A handler that panics
    leaves the record of the panic hook besides ([Log.panic_record]). *)
Definition handle_logged (base_path : str) (s : AppState) (req : Request)
    : io (outcome Response * AppState * list note) :=
  '(r, (a, n)) ←
    match dispatch (routes base_path) (rq_method req) (rq_path req) with
    | Matched i args => serve_logged s (run_handler_logged s args) (resources !! i) req
    | WrongMethod i =>
        serve_logged s (λ _ req, mret (method_not_allowed (rq_path req), Ret s)) (resources !! i) req
    | NoRoute => serve_logged s (run_handler_logged s []) None req
    end;
  mret (match a with
        | Panic => (Panic, s, n)
        | Ret s' => (Ret (finish (rq_method req) r), s', n)
        end).

(** *** Without the records it is [Router.handle] *)

Lemma erase_run s args r req :
  same (erase (run_handler_logged s args r req))
       (run_handler random_hash parse_f64 is_finite is_negative from_secs_f64 ARCH BUILD_COMMIT s args r req).
Proof.
  destruct r; simpl; try apply erase_lift.
  - rewrite erase_bind, erase_system. by apply bind_same; [intros ?|].
  - case_match; [|apply erase_ret]. rewrite erase_bind, erase_services. by apply bind_same; [intros ?|].
  - case_match; [|apply erase_ret]. rewrite erase_bind, erase_detail. by apply bind_same; [intros ?|].
  - case_match; [|apply erase_ret]. rewrite erase_bind, erase_apply. by apply bind_same; [intros ?|].
Qed.

Lemma erase_serve s h k target req w :
  (∀ res rq, same (erase (h res rq)) (k res rq)) →
  (let '((r, (a, _)), w') := serve_logged s h target req w in ((r, a), w'))
  = serve_with fresh_id s k target req w.
Proof.
  intros Hk. unfold serve_logged, serve_with, Server.serve, request_id_layer, mbind, io_bind.
  set (m := match accepted_id req with Some id => mret id | None => draw_id fresh_id end).
  destruct (m w) as [id w1]. destruct target as [res|]; [|done].
  unfold authorize_logged, authorize_layer. destruct (decide_request _ _ _ _); [|done..].
  unfold with_records, mbind, io_bind. rewrite <-Hk. unfold erase.
  by destruct (h res _ w1) as [[[r a] n] w2].
Qed.

Lemma erase_handle base s req w :
  (let '((o, s', _), w') := handle_logged base s req w in ((o, s'), w'))
  = handle random_hash fresh_id parse_f64 is_finite is_negative from_secs_f64 ARCH BUILD_COMMIT base s req w.
Proof.
  unfold handle_logged, handle, respond, mbind, io_bind.
  destruct (dispatch _ _ _) as [i args|i|].
  - rewrite <-(erase_serve s (run_handler_logged s args)) by apply erase_run.
    by destruct (serve_logged _ _ _ _ _) as [[r [[s'|] n]] w1].
  - rewrite <-(erase_serve s (λ _ req, mret (method_not_allowed (rq_path req), Ret s))) by (intros; apply erase_ret).
    by destruct (serve_logged _ _ _ _ _) as [[r [[s'|] n]] w1].
  - rewrite <-(erase_serve s (run_handler_logged s [])) by apply erase_run.
    by destruct (serve_logged _ _ _ _ _) as [[r [[s'|] n]] w1].
Qed.

End requests.

(** ** Lemmas *)

Section lemmas.
Context {env : Env} {sha : Sha256} {T : TomlValue} {text : JsonText} {X : Axum}.
Context {serde : Serde StoreData} {request_serde : Serde ApplyRequest}.
Context (random_hash : nat → str → N) (fresh_id : nat → str).
Context {F : Type} (parse_f64 : str → option F) (is_finite is_negative : F → bool)
        (from_secs_f64 : F → outcome N) (ARCH : str) (BUILD_COMMIT : option str).

Abbreviation run_logged' :=
  (run_handler_logged random_hash parse_f64 is_finite is_negative from_secs_f64 ARCH BUILD_COMMIT).

(** *** What the secret of a request has an influence on *)

(** The same request with another credential, from another peer. *)
Definition same_request (r1 r2 : Request) : Prop :=
  rq_method r1 = rq_method r2 ∧ rq_path r1 = rq_path r2 ∧ rq_request_id r1 = rq_request_id r2
  ∧ ext_request_id r1 = ext_request_id r2.
(** The same daemon with other tokens. *)
Definition retoken (tk : option TokenStore) (a : outcome AppState) : outcome AppState :=
  match a with Ret s => Ret (set_tokens tk s) | Panic => Panic end.

Lemma run_retoken tk s args res r1 r2 w :
  rq_path r1 = rq_path r2 → ext_caller r1 = ext_caller r2 →
  run_logged' (set_tokens tk s) args res r2 w
  = let '(((r, a), n), w') := run_logged' s args res r1 w in (((r, retoken tk a), n), w').
Proof.
  intros Hp Hc. destruct res; simpl; unfold lift; simpl; unfold mbind, lio_bind, io_bind; rewrite <-?Hp, <-?Hc.
  - change (Handlers.health (set_tokens tk s)) with (Handlers.health s). by destruct (Handlers.health s w).
  - done.
  - change (system_logged parse_f64 is_finite is_negative from_secs_f64 ARCH (set_tokens tk s))
      with (system_logged parse_f64 is_finite is_negative from_secs_f64 ARCH s).
    by destruct (system_logged _ _ _ _ _ s w) as [[[b|] n] w1].
  - destruct (query_map _) as [params|]; [|done]. by destruct (services_logged params w) as [[b n] w1].
  - destruct (path_text _) as [name|]; [|done]. by destruct (service_detail_logged name w) as [[b n] w1].
  - destruct (query_map _) as [params|]; [|done].
    change (apply_updates_logged random_hash (ext_caller r1) params (set_tokens tk s))
      with (apply_updates_logged random_hash (ext_caller r1) params s).
    by destruct (apply_updates_logged _ _ params s w) as [[b n] w1].
  - unfold Handlers.updates, mbind, io_bind. cbn [AppState.updates set_tokens].
    by destruct (State.response (AppState.updates s) w) as [[b u] w1].
Qed.

Lemma serve_retoken tk s h1 h2 target r1 r2 w :
  same_request r1 r2 →
  (∀ p, decide_request (config s) (tokens s) p r1 = decide_request (config s) tk p r2) →
  caller_of s r1 = caller_of (set_tokens tk s) r2 →
  (∀ res q1 q2 w, rq_path q1 = rq_path q2 → ext_caller q1 = ext_caller q2 →
     h2 res q2 w = let '(((r, a), n), w') := h1 res q1 w in (((r, retoken tk a), n), w')) →
  serve_logged fresh_id (set_tokens tk s) h2 target r2 w
  = let '((r, (a, n)), w') := serve_logged fresh_id s h1 target r1 w in ((r, (retoken tk a, n)), w').
Proof.
  intros (Hm & Hp & Hi & He) Hd Hc Hh.
  assert (Ha : accepted_id r2 = accepted_id r1) by (unfold accepted_id; by rewrite Hi).
  unfold serve_logged, request_id_layer, mbind, io_bind. rewrite Ha.
  set (m := match accepted_id r1 with Some id => mret id | None => draw_id fresh_id end).
  destruct (m w) as [id w1]. destruct target as [res|]; [|by rewrite <-Hp].
  unfold authorize_logged.
  change (decide_request (config (set_tokens tk s)) (tokens (set_tokens tk s)) (route_permission res) (mkRequest _ _ _ _ _ _ _))
    with (decide_request (config s) tk (route_permission res) r2).
  change (decide_request (config s) (tokens s) (route_permission res) (mkRequest _ _ _ _ _ _ _))
    with (decide_request (config s) (tokens s) (route_permission res) r1).
  rewrite <-Hd. destruct (decide_request (config s) (tokens s) (route_permission res) r1).
  2-5: unfold denied_note, shown_id; cbn [rq_method rq_path ext_request_id]; by rewrite <-Hm, <-Hp.
  unfold with_records, mbind, io_bind.
  match goal with |- context [h2 res ?q2 w1] => match goal with |- context [h1 res ?q1 w1] =>
    rewrite (Hh res q1 q2 w1 Hp (f_equal Some Hc)) end end.
  destruct (h1 res _ w1) as [[[r a] n] w2]. unfold allowed_note, shown_id.
  cbn [rq_method rq_path ext_request_id]. by rewrite <-Hm, <-Hp.
Qed.

(** *** What is recorded of a request *)

(** The record of a denial, under the id of the answer. *)
Definition denial_text (id : str) (p : Permission) (req : Request) : str :=
  id ++ " denied " ++ rq_method req ++ " " ++ rq_path req ++ " (permission: " ++ permission_id p ++ ", peer: <redacted>)".

Lemma serve_logged_cases s h target req w r a n w' :
  serve_logged fresh_id s h target req w = ((r, (a, n)), w') →
  ∃ id w1, files w1 = files w ∧ rs_request_id r = Some id
    ∧ ((a = Ret s ∧ w' = w1 ∧ match target with
          | Some res => decide_request (config s) (tokens s) (route_permission res) req ≠ Allowed
                        ∧ n = [(Warn, denial_text id (route_permission res) req)]
          | None => n = []
          end)
       ∨ ∃ res req' r0 first k, target = Some res
          ∧ decide_request (config s) (tokens s) (route_permission res) req = Allowed
          ∧ ext_caller req' = Some (caller_of s req)
          ∧ h res req' w1 = (((r0, a), k), w') ∧ n = first ++ k).
Proof.
  unfold serve_logged, request_id_layer. intros H. step_in H as id w1 E1.
  step_in H as x w2 E2. destruct x as [r0 [a0 n0]]. injection H as <- <- <- <-.
  assert (F1 : files w1 = files w) by (destruct (accepted_id req); by injection E1 as _ <-).
  exists id, w1. split; [done|]. split; [apply with_id_fields|].
  destruct target as [res|]; [|left; by injection E2 as <- <- <- <-]. unfold authorize_logged in E2.
  change (decide_request _ _ (route_permission res) (mkRequest _ _ _ _ _ _ _))
    with (decide_request (config s) (tokens s) (route_permission res) req) in E2.
  destruct (decide_request (config s) (tokens s) (route_permission res) req) eqn:Hd.
  2-5: left; by injection E2 as <- <- <- <-.
  right. unfold with_records in E2. step_in E2 as x w3 E3. destruct x as [r3 [a3 k]]. injection E2 as <- <- <- <-.
  step_in E3 as x w4 E4. destruct x as [[r4 a4] k4]. injection E3 as <- <- <- <-.
  match type of E4 with h res ?q w1 = _ => exists res, q, r4 end. eexists _, k4. by split_and!.
Qed.

(** An accepted apply leaves its audit record. *)
Lemma apply_recorded caller params s w a k w' :
  apply_updates_logged random_hash caller params s w = ((Ok (202%N, a), k), w') →
  k = [(Info, audit_line (default ("unknown" : str) caller) (ap_packages a) (ap_id a))].
Proof.
  unfold apply_updates_logged. destruct (dry_run_of false params) as [dry|e]; [|done].
  unfold mbind, lio_bind, lift. destruct (request_apply _ _ _ _ _ w) as [[r|[m|m]] w1]; [|done..].
  destruct dry; [done|]. simpl. by intros [= <- <- _].
Qed.

Lemma apply_erased caller params s w b k w' :
  apply_updates_logged random_hash caller params s w = ((b, k), w') →
  apply_updates random_hash caller params s w = (b, w').
Proof. intros H. rewrite <-(erase_apply random_hash caller params s w). unfold erase. by rewrite H. Qed.
Lemma run_erased s args res req w r a k w' :
  run_logged' s args res req w = (((r, a), k), w') →
  run_handler random_hash parse_f64 is_finite is_negative from_secs_f64 ARCH BUILD_COMMIT s args res req w = ((r, a), w').
Proof. intros H. rewrite <-erase_run. unfold erase. by rewrite H. Qed.

End lemmas.

(** ** Properties *)

Section properties.
Context {env : Env} {sha : Sha256} {T : TomlValue} {text : JsonText} {X : Axum}.
Context {serde : Serde StoreData} {request_serde : Serde ApplyRequest} {result_serde : Serde ApplyResult}.
Context (random_hash : nat → str → N) (fresh_id : nat → str).
Context {F : Type} (parse_f64 : str → option F) (is_finite is_negative : F → bool)
        (from_secs_f64 : F → outcome N) (ARCH : str) (BUILD_COMMIT : option str).

Abbreviation handle_logged' :=
  (handle_logged random_hash fresh_id parse_f64 is_finite is_negative from_secs_f64 ARCH BUILD_COMMIT).

(** C11: secrets stay where they are. Of the credential a request bears, of the
    tokens it is compared with and of the address it comes from, nothing is seen
    anywhere but the decision and the name of the token: two requests that are
    otherwise the same, to daemons that are but for their tokens the same, on the
    same host, and that are decided alike for callers of the same name, get the same
    answer, leave the same log records, the same files and programs run, and the
    same state. *)
Theorem secrets_stay_out base s tk r1 r2 w :
  same_request r1 r2 →
  (∀ p, decide_request (config s) (tokens s) p r1 = decide_request (config s) tk p r2) →
  caller_of s r1 = caller_of (set_tokens tk s) r2 →
  handle_logged random_hash fresh_id parse_f64 is_finite is_negative from_secs_f64 ARCH BUILD_COMMIT
    base (set_tokens tk s) r2 w
  = let '((o, s', n), w') := handle_logged' base s r1 w in ((o, set_tokens tk s', n), w').
Proof.
  intros Hr Hd Hc. pose proof Hr as (Hm & Hp & _). unfold handle_logged, mbind, io_bind. rewrite <-Hm, <-Hp.
  set (run := run_handler_logged random_hash parse_f64 is_finite is_negative from_secs_f64 ARCH BUILD_COMMIT).
  assert (Hrun : ∀ args res q1 q2 w, rq_path q1 = rq_path q2 → ext_caller q1 = ext_caller q2 →
    run (set_tokens tk s) args res q2 w = let '(((r, a), n), w') := run s args res q1 w in (((r, retoken tk a), n), w'))
    by (intros; by apply run_retoken).
  destruct (dispatch _ _ _) as [i args|i|].
  - rewrite (serve_retoken fresh_id tk s (run s args) (run (set_tokens tk s) args) _ r1 r2 w Hr Hd Hc (Hrun args)).
    by destruct (serve_logged _ _ _ _ _) as [[r [[s'|] n]] w'].
  - set (other s' := (λ _ req, mret (method_not_allowed (rq_path req), Ret s')) : Resource → Request → lio (Response * outcome AppState)).
    rewrite (serve_retoken fresh_id tk s (other s) (other (set_tokens tk s)) _ r1 r2 w Hr Hd Hc)
      by (intros res q1 q2 w0 Hq _; unfold other; by rewrite Hq).
    by destruct (serve_logged _ _ _ _ _) as [[r [[s'|] n]] w'].
  - rewrite (serve_retoken fresh_id tk s (run s []) (run (set_tokens tk s) []) _ r1 r2 w Hr Hd Hc (Hrun [])).
    by destruct (serve_logged _ _ _ _ _) as [[r [[s'|] n]] w'].
Qed.

(** C12: no change without a record. Whatever the request, when the request file
    is not what it was, the records of the request hold the audit record that names
    the caller, the number of packages and the id that the file holds; a request
    denied by authorization leaves exactly one record, a warning under the id it is
    answered with, which does not show the address of the peer. The audit record is
    an [info] record: it reaches the log only when the threshold lets those pass. *)
Theorem applies_audited `{!AxumOk X} rqf rs st l base s req w o s' n w' `{!Calm rqf rs st} :
  rqf ∉ others rs st → good_updates rqf rs st l (AppState.updates s) →
  (∀ p, p ∈ mine rqf rs st → not_link (files w) p) →
  handle_logged random_hash fresh_id parse_f64 is_finite is_negative from_secs_f64 ARCH BUILD_COMMIT base s req w
    = ((o, s', n), w') →
  (files w' !! rqf ≠ files w !! rqf →
     ∃ caller id now packages m mt, manager s req caller
       ∧ files w' !! rqf = Some (Regular (encode_json (Apply.mkRequest id now caller packages)) m mt)
       ∧ (Info, audit_line caller packages (Some id)) ∈ n)
  ∧ (∀ i args res, dispatch (routes base) (rq_method req) (rq_path req) = Matched i args → resources !! i = Some res →
       decide_request (config s) (tokens s) (route_permission res) req ≠ Allowed →
       ∃ r id, o = Ret r ∧ rs_request_id r = Some id ∧ n = [(Warn, denial_text id (route_permission res) req)])
  ∧ (∀ st st' s1 r k w1, pass_logged random_hash st s w = ((st', s1, Some (Ok r), k), w1) → (Info, automatic_line r) ∈ k)
  ∧ (∀ fmt out, enabled (mkLogger (level_rank s) fmt out) Info = true ↔ (as_rank Info ≤ level_rank s)%N).
Proof.
  intros Hsep Hu Hl H. unfold handle_logged in H. step_in H as x w2 E. destruct x as [r [a k]].
  assert (n = k ∧ w' = w2 ∧ ∀ s1, a = Ret s1 → o = Ret (finish (rq_method req) r)) as (-> & -> & Ho)
    by (by destruct a; injection H as <- <- <- <-).
  split_and!; [| |intros sc sc' s1 r1 k1 w1; apply pass_recorded|].
  - intros Hne. destruct (dispatch _ _ _) as [i args|i|];
      apply serve_logged_cases in E as (id & w1 & F1 & _ & [(_ & -> & _)|(res & req' & r0 & first & k0 & Ht & Hd & Hc & E & ->)]);
      try (by rewrite F1 in Hne); [|by injection E as _ _ _ <-; rewrite F1 in Hne|done].
    assert (Htd : tidy rqf rs st (λ x, x = files w1 !! rqf) (files w1)) by (split; [by rewrite F1|done]).
    destruct (decide (res = ApplyUpdates)) as [->|Hna].
    2:{ apply run_erased, (run_request_file random_hash parse_f64 is_finite is_negative from_secs_f64 ARCH BUILD_COMMIT
          rqf rs st Hsep l _ _ _ _ _ _ _ _ Hna Hu Htd) in E. by rewrite E, F1 in Hne. }
    simpl in E. destruct (query_map _) as [params|]; [|by injection E as _ _ _ <-; rewrite F1 in Hne].
    unfold mbind, lio_bind in E. destruct (apply_updates_logged _ _ _ _ w1) as [[b k1] w3] eqn:Eb.
    injection E as _ _ <- <-. rewrite app_nil_r.
    destruct (apply_request_file_after random_hash rqf rs st l _ _ _ _ _ _ Hu Htd (apply_erased _ _ _ _ _ _ _ _ Eb))
      as [[Hf _]|(ap & -> & Hw & Hq)]; [by rewrite Hf, F1 in Hne|].
    apply apply_recorded in Eb as ->. rewrite Hc in Hq |- *. destruct Hq as (rid & now & t & m & mt & Hid & _ & _ & _ & _ & _ & _ & Hf).
    rewrite (gu_request _ _ _ _ _ Hu) in Hf. exists (caller_of s req), rid, now, (wanted (AppState.updates s)), m, mt.
    split_and!; [by apply admitted_manager|done|]. rewrite Hw, Hid. apply elem_of_app. right. by apply list_elem_of_singleton.
  - intros i args res Hm Hi Hd. rewrite Hm, Hi in E.
    apply serve_logged_cases in E as (id & w1 & F1 & Hid & [(-> & -> & _ & ->)|(res' & req' & r0 & first & k0 & [= <-] & Ha & _)]); [|done].
    eexists _, id. split; [by eapply Ho|]. split; [|done].
    by destruct (finish_status (rq_method req) r) as [_ ->].
  - intros fmt out. unfold enabled. simpl. rewrite !andb_true_iff, negb_true_iff, N.eqb_neq, N.leb_le. simpl.
    split; [by intros [_ ?]|]. intros Hr. split_and!; [lia|done|done].
Qed.

End properties.

(** ** Examples *)

Section witnesses.
#[local] Instance r_env : Env := example_env.
#[local] Instance r_T : TomlValue := example_toml.
#[local] Instance r_request : Serde ApplyRequest := request_codec.
#[local] Instance r_result : Serde ApplyResult := example_serde done_result.
#[local] Instance r_store : Serde StoreData := example_serde store_default.
#[local] Existing Instance example_sha.

Definition r_id : nat → str := λ _, "0123456789abcdef".
Definition r_f64 : str → option () := λ _, None.
Definition r_app : AppState := mkAppState example_config 3 (Some example_store) 0 "t" example_state.
Definition r_post (secret : str) : Request := from_localhost "POST" "/api/v1/updates/apply" (Some secret).
Abbreviation example_logged :=
  (handle_logged (text := example_text) (X := example_axum) ex_hash r_id r_f64 (λ _, true) (λ _, false) (λ _, Panic) "x86_64" None "/api/v1").
Definition r_logged := example_logged r_app (r_post "two") empty_world.
#[local] Strategy expand [r_logged].

(** The operator has another secret. *)
Definition r_tokens : option TokenStore :=
  Some [mkTokenEntry (mkToken (Some ("operator" : str)) ["manage:updates" : str]) (sha256 "three")].

Lemma secrets_stay_out_witness :
  snd (fst (example_logged (set_tokens r_tokens r_app) (r_post "three") empty_world)) = snd (fst r_logged)
  ∧ snd (fst r_logged) = [(Info, "audit: operator requested applying 2 package(s) (request apply-0000000000000007)" : str)].
Proof.
  split; [|vm_compute; reflexivity].
  assert (Hd : ∀ p, decide_request (config r_app) (tokens r_app) p (r_post "two")
    = decide_request (config r_app) r_tokens p (r_post "three")) by (intros []; vm_compute; reflexivity).
  assert (Hc : caller_of r_app (r_post "two") = caller_of (set_tokens r_tokens r_app) (r_post "three"))
    by (vm_compute; reflexivity).
  pose proof (secrets_stay_out (text := example_text) (X := example_axum) ex_hash r_id r_f64 (λ _, true) (λ _, false) (λ _, Panic) "x86_64" None "/api/v1" r_app r_tokens
    (r_post "two") (r_post "three") empty_world (conj eq_refl (conj eq_refl (conj eq_refl eq_refl))) Hd Hc) as H.
  rewrite H. unfold r_logged.
  generalize (example_logged r_app (r_post "two") empty_world). intros [[[o s] n] w]. reflexivity.
Defined.

#[local] Instance r_calm : Calm (apply_request_file example_state) "/r/result" "/s/u".
Proof. done. Qed.

Lemma applies_audited_witness :
  ∃ caller id now packages m mt, manager r_app (r_post "two") caller
    ∧ files (snd r_logged) !! apply_request_file example_state
      = Some (Regular (encode_json (Apply.mkRequest id now caller packages)) m mt)
    ∧ (Info, audit_line caller packages (Some id)) ∈ snd (fst r_logged).
Proof.
  pose proof (quadruple r_logged) as E. unfold r_logged in E.
  destruct (applies_audited (text := example_text) (X := example_axum) ex_hash r_id r_f64
    (λ _, true) (λ _, false) (λ _, Panic) "x86_64" None
    (apply_request_file example_state) "/r/result" "/s/u" (au_component <$> available example_state)
    "/api/v1" r_app (r_post "two") empty_world (fst (fst (fst r_logged))) (snd (fst (fst r_logged)))
    (snd (fst r_logged)) (snd r_logged)) as [H _].
  - apply (bool_decide_eq_true_1 (apply_request_file example_state ∉ others "/r/result" "/s/u")). vm_compute. reflexivity.
  - split; [reflexivity|reflexivity|intros p Hp; discriminate Hp|].
    intros x Hx. apply list_elem_of_fmap. exists x. split; [reflexivity|exact Hx].
  - intros p _ t Hp. discriminate Hp.
  - exact E.
  - apply H. intros Hf. vm_compute in Hf. discriminate Hf.
Defined.

End witnesses.
