(* ===== verification/Canvas.v ===== *)
(** * abora-boot: the canvas, the font and the logo

    Models [boot/abora-boot/src/canvas.rs], [font.rs] and [logo.rs]. A canvas is
    the geometry of the framebuffer and its bytes; an index or slice out of range
    is a panic. Sizes and coordinates ([usize]) are [nat], bytes are [N]. *)

From S2P Require Import Prelude Str World.

(** ** font.rs *)

Record Font := mkFont { font_height : nat; glyphs : list N; count : nat }.

Definition le_u32 (b : list N) : N := foldr (λ d n, d + 256 * n)%N 0%N b.
Definition bytes_of (data : str) : list N := code <$> data.

Definition font_of (data : list N) : result str Font :=
  let byte (i : nat) := nth i data 0%N in
  if (length data <? 4) || negb (N.eqb (byte 0) 54) || negb (N.eqb (byte 1) 4)
  then Err ("not a PSF1 font" : str)
  else
    let count := if negb (N.eqb (N.land (byte 2) 1) 0) then 512 else 256 in
    let height := N.to_nat (byte 3) in
    let need := 4 + count * height in
    if (height =? 0) || (length data <? need) then Err ("truncated PSF1 font" : str)
    else Ok (mkFont height (drop 4 (take need data)) count).

Definition font_load `{Env} (path : str) : io (result str Font) :=
  r ← fs_read path;
  mret (match r with Err e => Err (io_message e) | Ok data => font_of (bytes_of data) end).

Definition font_width : nat := 8.

(** [&v[i..j]]. *)
Definition subslice {A} (l : list A) (i j : nat) : outcome (list A) :=
  if (i <=? j) && (j <=? length l) then Ret (drop i (take j l)) else Panic.

Definition glyph (f : Font) (c : N) : outcome (list N) :=
  let i := if (N.min 256 (N.of_nat (count f)) <=? c)%N || (c <? 32)%N then 63 else N.to_nat c in
  subslice (glyphs f) (i * font_height f) ((i + 1) * font_height f).

(** ** logo.rs *)

Record Logo := mkLogo { logo_width : nat; logo_height : nat; rgba : list N }.

Definition logo_of (data : list N) : result str Logo :=
  if (length data <? 12) || negb (bool_decide (take 4 data = bytes_of "ABR1"))
  then Err ("not an ABR1 logo file" : str)
  else
    let width := N.to_nat (le_u32 (take 4 (drop 4 data))) in
    let height := N.to_nat (le_u32 (take 4 (drop 8 data))) in
    if (width =? 0) || (height =? 0) || negb (length data =? 12 + width * height * 4)
    then Err ("logo size does not match its header" : str)
    else Ok (mkLogo width height (drop 12 data)).

Definition logo_load `{Env} (path : str) : io (result str Logo) :=
  r ← fs_read path;
  mret (match r with
        | Err e => Err (path ++ ": " ++ io_message e)
        | Ok data => logo_of (bytes_of data)
        end).

(** [v[i]]. *)
Definition at_index (l : list N) (i : nat) : outcome N :=
  match l !! i with Some v => Ret v | None => Panic end.

(** A colour multiplied by its alpha, and the alpha times 255. *)
Definition texel (l : Logo) (x y : nat) : outcome (N * N * N * N) :=
  let i := (Nat.min y (logo_height l - 1) * logo_width l + Nat.min x (logo_width l - 1)) * 4 in
  a ← at_index (rgba l) (i + 3);
  r ← at_index (rgba l) i;
  g ← at_index (rgba l) (i + 1);
  b ← at_index (rgba l) (i + 2);
  mret (r * a, g * a, b * a, a * 255)%N.

(** One channel, interpolated; the lower row is weighted by [fy], not [fx]. *)
Definition mix (fx fy t00 t10 t01 t11 : N) : N :=
  let top := (t00 * (256 - fx) + t10 * fx)%N in
  let bottom := (t01 * (256 - fy) + t11 * fy)%N in
  N.shiftr (top * (256 - fy) + bottom * fy)%N 16.

(** Colour and alpha at a destination pixel. The subtraction of [nat] is the
    [max(0)] of the source. *)
Definition sample (l : Logo) (dx dy dw dh : nat) : outcome (N * N * N * N) :=
  if (dw =? 0) || (dh =? 0) then Panic
  else
    let sx := (2 * dx + 1) * logo_width l * 128 / dw - 128 in
    let sy := (2 * dy + 1) * logo_height l * 128 / dh - 128 in
    let x0 := sx / 256 in let y0 := sy / 256 in
    let fx := N.of_nat (sx mod 256) in let fy := N.of_nat (sy mod 256) in
    '(r00, g00, b00, a00) ← texel l x0 y0;
    '(r10, g10, b10, a10) ← texel l (x0 + 1) y0;
    '(r01, g01, b01, a01) ← texel l x0 (y0 + 1);
    '(r11, g11, b11, a11) ← texel l (x0 + 1) (y0 + 1);
    let alpha := (mix fx fy a00 a10 a01 a11 / 255)%N in
    if (alpha =? 0)%N then mret (0, 0, 0, 0)%N
    else
      let un v := N.min (v / alpha)%N 255 in
      mret (un (mix fx fy r00 r10 r01 r11), un (mix fx fy g00 g10 g01 g11),
            un (mix fx fy b00 b10 b01 b11), N.min alpha 255).

(** ** canvas.rs *)

Record Rgb := mkRgb { red : N; green : N; blue : N }.

(** [device] is the path of the framebuffer that is written to. *)
Record Canvas := mkCanvas {
  device : str;
  width : nat;
  height : nat;
  stride : nat;
  pixels : list N;
}.
Definition with_pixels (p : list N) (c : Canvas) : Canvas :=
  mkCanvas (device c) (width c) (height c) (stride c) p.

Definition usize (s : str) : option N := parse_uint u64_max s.

Section open.
Context `{Env}.

(** [OpenOptions::new().write(true).open]. *)
Definition open_for_writing (p : str) : io (result io_error ()) :=
  syscall (λ fs,
    match resolve fs p with
    | None => Err eloop
    | Some q =>
        match fs !! q with
        | Some (Regular _ _ _) => Ok ()
        | Some _ => Err eisdir
        | None => Err enoent
        end
    end).

Definition read_sys (sys file : str) : io (result str str) :=
  let path := sys ++ "/" ++ file in
  r ← fs_read_to_string path;
  mret (map_err (λ e, path ++ ": " ++ io_message e) r).

(** The checks after the geometry is read; products wrap at 64 bits. *)
Definition geometry (name : str) (w h s bpp : N) : io (result str Canvas) :=
  if negb (bpp =? 32)%N
  then mret (Err (dec bpp ++ " bits per pixel is not supported (need 32)"))
  else if (w =? 0)%N || (h =? 0)%N || (s <? wrap64 (w * 4))%N
  then mret (Err ("nonsensical framebuffer geometry" : str))
  else
    let dev := "/dev/" ++ name in
    r ← open_for_writing dev;
    mret (match r with
          | Err e => Err (dev ++ ": " ++ io_message e)
          | Ok _ => Ok (mkCanvas dev (N.to_nat w) (N.to_nat h) (N.to_nat s)
                          (replicate (N.to_nat (wrap64 (s * h))) 0%N))
          end).

Definition open (name : str) : io (result str Canvas) :=
  let sys := "/sys/class/graphics/" ++ name in
  try (read_sys sys "virtual_size") (λ size,
    match split_once ","%char (trim size) with
    | None => mret (Err ("bad virtual_size" : str))
    | Some (w, h) =>
        match usize w, usize h with
        | None, _ => mret (Err ("bad width" : str))
        | Some _, None => mret (Err ("bad height" : str))
        | Some w, Some h =>
            try (read_sys sys "stride") (λ s,
              match usize (trim s) with
              | None => mret (Err ("bad stride" : str))
              | Some s =>
                  try (read_sys sys "bits_per_pixel") (λ bpp,
                    match usize (trim bpp) with
                    | None => mret (Err ("bad bits_per_pixel" : str))
                    | Some bpp => geometry name w h s bpp
                    end)
              end)
        end
    end).

End open.

(** ** Drawing *)

Definition set_index (l : list N) (i : nat) (v : N) : outcome (list N) :=
  if i <? length l then Ret (<[i := v]> l) else Panic.

Definition put (x y : nat) (c : Rgb) (cv : Canvas) : outcome Canvas :=
  if (x <? width cv) && (y <? height cv) then
    let i := y * stride cv + x * 4 in
    p ← set_index (pixels cv) i (blue c);
    p ← set_index p (i + 1) (green c);
    p ← set_index p (i + 2) (red c);
    p ← set_index p (i + 3) 255%N;
    mret (with_pixels p cv)
  else mret cv.

Definition get (x y : nat) (cv : Canvas) : outcome Rgb :=
  let i := y * stride cv + x * 4 in
  r ← at_index (pixels cv) (i + 2);
  g ← at_index (pixels cv) (i + 1);
  b ← at_index (pixels cv) i;
  mret (mkRgb r g b).

(** The range [a..b]. *)
Definition range (a b : nat) : list nat := seq a (b - a).

Definition fill_rect (x y w h : nat) (c : Rgb) (cv : Canvas) : outcome Canvas :=
  for_each (λ row, for_each (λ col, put col row c) (range x (Nat.min (x + w) (width cv))))
    (range y (Nat.min (y + h) (height cv))) cv.

(** [bits & (0x80 >> gx) != 0]. *)
Definition bit_set (bits : N) (gx : nat) : bool :=
  negb (N.eqb (N.land bits (N.shiftr 128 (N.of_nat gx))) 0).

(** One character, its left edge at [px]. *)
Definition draw_glyph (scale px y : nat) (rows : list N) (color : Rgb) : Canvas → outcome Canvas :=
  for_each (λ '(gy, bits),
    for_each (λ gx cv,
      if bit_set bits gx
      then fill_rect (px + gx * scale) (y + gy * scale) scale scale color cv
      else mret cv) (range 0 font_width))
    (imap pair rows).

Fixpoint text (f : Font) (scale px y : nat) (cs : list N) (color : Rgb) (cv : Canvas) : outcome Canvas :=
  match cs with
  | [] => Ret cv
  | c :: cs =>
      let cw := font_width * scale in
      if width cv <? px + cw then Ret cv
      else
        rows ← glyph f c;
        cv ← draw_glyph scale px y rows color cv;
        text f scale (px + cw) y cs color cv
  end.

(** [as u8]. *)
Definition as_u8 (n : N) : N := (n mod 256)%N.
Definition blend (a f u : N) : N := as_u8 ((f * a + u * (255 - a)) / 255)%N.

Definition blit_pixel (l : Logo) (x y w h dx dy : nat) (cv : Canvas) : outcome Canvas :=
  '(r, g, b, a) ← sample l dx dy w h;
  if (a =? 0)%N then mret cv
  else if (x + dx <? width cv) && (y + dy <? height cv) then
    under ← get (x + dx) (y + dy) cv;
    put (x + dx) (y + dy)
      (mkRgb (blend a r (red under)) (blend a g (green under)) (blend a b (blue under))) cv
  else mret cv.

Definition blit_scaled (l : Logo) (x y w h : nat) (cv : Canvas) : outcome Canvas :=
  for_each (λ dy, for_each (λ dx, blit_pixel l x y w h dx dy) (range 0 w)) (range 0 h) cv.

(** What is written to the device: the offset and the bytes. *)
Definition flush_rows (top bottom : nat) (cv : Canvas) : outcome (option (nat * list N)) :=
  let bottom := Nat.min bottom (height cv) in
  if bottom <=? top then Ret None
  else
    b ← subslice (pixels cv) (top * stride cv) (bottom * stride cv);
    Ret (Some (top * stride cv, b)).
Definition flush_all (cv : Canvas) : outcome (option (nat * list N)) := flush_rows 0 (height cv) cv.

(** ** What drawing does to the pixels

    A canvas fits its bytes when rows do not overlap and are all there. [draws g]
    says of a drawing routine that on any such canvas (of the fixed geometry) it
    does not panic, keeps the geometry, and turns the four bytes [v] of the pixel
    [(x, y)] into [g x y v]. *)

Definition fits (cv : Canvas) : Prop :=
  width cv * 4 ≤ stride cv ∧ length (pixels cv) = stride cv * height cv.
Definition font_ok (f : Font) : Prop :=
  256 ≤ count f ∧ 0 < font_height f ∧ length (glyphs f) = count f * font_height f.
Definition logo_ok (l : Logo) : Prop :=
  0 < logo_width l ∧ 0 < logo_height l ∧ length (rgba l) = logo_width l * logo_height l * 4
  ∧ Forall (λ b, (b < 256)%N) (rgba l).

Definition view (cv : Canvas) (x y : nat) : list N := take 4 (drop (y * stride cv + x * 4) (pixels cv)).
Definition bgrx (c : Rgb) : list N := [blue c; green c; red c; 255%N].
Definition rgb_of (v : list N) : Rgb := mkRgb (nth 2 v 0%N) (nth 1 v 0%N) (nth 0 v 0%N).
Definition in_rect (x y w h x' y' : nat) : bool :=
  (x <=? x') && (x' <? x + w) && (y <=? y') && (y' <? y + h).
Definition tint (R : nat → nat → bool) (c : Rgb) (x y : nat) (v : list N) : list N :=
  if R x y then bgrx c else v.

Lemma splice (p : list N) i b0 b1 b2 b3 :
  i + 4 ≤ length p →
  <[i+3:=b3]> (<[i+2:=b2]> (<[i+1:=b1]> (<[i:=b0]> p))) = take i p ++ [b0; b1; b2; b3] ++ drop (i + 4) p.
Proof.
  intros Hl. apply list_eq. intros j.
  destruct (decide (j < i)).
  - rewrite !list_lookup_insert_ne by lia. rewrite lookup_app_l by (rewrite length_take; lia).
    by rewrite lookup_take_lt.
  - rewrite lookup_app_r by (rewrite length_take; lia). rewrite length_take, Nat.min_l by lia.
    destruct (decide (j < i + 4)) as [Hj|Hj].
    + rewrite !list_lookup_insert, !length_insert. remember (j - i) as k eqn:Hk.
      destruct k as [|[|[|[|k]]]]; simpl; repeat case_decide; done || lia.
    + rewrite !list_lookup_insert_ne by lia. rewrite lookup_app_r by (simpl; lia). simpl.
      rewrite lookup_drop. f_equal. lia.
Qed.

(** Different pixels have different bytes. *)
Lemma view_apart (s w x y x' y' : nat) :
  w * 4 ≤ s → x < w → x' < w → (x' ≠ x ∨ y' ≠ y) →
  y' * s + x' * 4 + 4 ≤ y * s + x * 4 ∨ y * s + x * 4 + 4 ≤ y' * s + x' * 4.
Proof.
  intros Hs Hx Hx' Hne. destruct (decide (y' = y)) as [->|]; [lia|].
  destruct (decide (y' < y)); [left|right]; nia.
Qed.

Lemma view_inside (s h w x y : nat) : w * 4 ≤ s → x < w → y < h → y * s + x * 4 + 4 ≤ s * h.
Proof. intros. nia. Qed.

Lemma put_in x y c cv :
  fits cv → x < width cv → y < height cv →
  put x y c cv = Ret (with_pixels (take (y * stride cv + x * 4) (pixels cv) ++ bgrx c
                                   ++ drop (y * stride cv + x * 4 + 4) (pixels cv)) cv).
Proof.
  intros [Hs Hl] Hx Hy. pose proof (view_inside _ _ _ _ _ Hs Hx Hy). unfold put, set_index.
  rewrite !(proj2 (Nat.ltb_lt _ _)) by done. cbn [andb]. cbn [mbind outcome_bind mret outcome_ret].
  repeat (rewrite (proj2 (Nat.ltb_lt _ _)) by (rewrite ?length_insert; lia); cbn [mbind outcome_bind]).
  unfold bgrx. rewrite <-splice by lia. done.
Qed.

Lemma view_spliced cv x y x' y' c :
  fits cv → x < width cv → y < height cv → x' < width cv → y' < height cv →
  view (with_pixels (take (y * stride cv + x * 4) (pixels cv) ++ bgrx c
                     ++ drop (y * stride cv + x * 4 + 4) (pixels cv)) cv) x' y'
  = if (x' =? x) && (y' =? y) then bgrx c else view cv x' y'.
Proof.
  intros [Hs Hl] Hx Hy Hx' Hy'. unfold view. cbn [stride pixels with_pixels].
  pose proof (view_inside _ _ _ _ _ Hs Hx Hy). pose proof (view_inside _ _ _ _ _ Hs Hx' Hy').
  set (i := y * stride cv + x * 4) in *. set (i' := y' * stride cv + x' * 4) in *.
  destruct ((x' =? x) && (y' =? y)) eqn:E.
  - bool_norm. subst x' y'. subst i'. fold i. rewrite drop_app_length' by (rewrite length_take; lia).
    by rewrite take_app_length' by done.
  - assert (x' ≠ x ∨ y' ≠ y) as Hne by (apply andb_false_iff in E as [E|E]; bool_norm; auto).
    apply list_eq. intros k. destruct (decide (k < 4)); [|rewrite !lookup_take_ge by lia; done].
    rewrite !lookup_take_lt, !lookup_drop by lia.
    destruct (view_apart _ _ x y x' y' Hs Hx Hx' Hne) as [Ha|Ha]; fold i i' in Ha.
    + rewrite lookup_app_l by (rewrite length_take; lia). apply lookup_take_lt. lia.
    + rewrite app_assoc, lookup_app_r by (rewrite length_app, length_take; simpl; lia).
      rewrite length_app, length_take, lookup_drop. simpl. f_equal. lia.
Qed.

Section draws.
Variables W H S : nat.
Variable dev : str.
Implicit Types g : nat → nat → list N → list N.

Definition shaped (cv : Canvas) : Prop :=
  fits cv ∧ width cv = W ∧ height cv = H ∧ stride cv = S ∧ device cv = dev.
(** Byte [j] belongs to no pixel. *)
Definition padding (j : nat) : Prop :=
  ∀ x y, x < W → y < H → j < y * S + x * 4 ∨ y * S + x * 4 + 4 ≤ j.
Definition draws g (f : Canvas → outcome Canvas) : Prop := ∀ cv, shaped cv →
  ∃ cv', f cv = Ret cv' ∧ shaped cv'
    ∧ (∀ x y, x < W → y < H → view cv' x y = g x y (view cv x y))
    ∧ (∀ j, padding j → pixels cv' !! j = pixels cv !! j).

Lemma draws_ret : draws (λ _ _ v, v) Ret.
Proof. intros cv Hc. eauto. Qed.

Lemma draws_ext g g' f :
  draws g f → (∀ x y v, x < W → y < H → g x y v = g' x y v) → draws g' f.
Proof.
  intros Hf Hg cv Hc. destruct (Hf cv Hc) as (cv' & E & Hc' & Hv & Hp). exists cv'. split_and!; try done.
  intros. rewrite Hv by done. auto.
Qed.

Lemma draws_bind g1 g2 f1 f2 :
  draws g1 f1 → draws g2 f2 → draws (λ x y v, g2 x y (g1 x y v)) (λ cv, cv ← f1 cv; f2 cv).
Proof.
  intros H1 H2 cv Hc. destruct (H1 cv Hc) as (c1 & E1 & Hc1 & Hv1 & Hp1).
  destruct (H2 c1 Hc1) as (c2 & E2 & Hc2 & Hv2 & Hp2). exists c2. rewrite E1. cbn [mbind outcome_bind].
  split_and!; try done; intros; [by rewrite Hv2, Hv1|by rewrite Hp2, Hp1].
Qed.

Lemma draws_for_each {A} (g : A → nat → nat → list N → list N) f l :
  (∀ a, a ∈ l → draws (g a) (f a)) →
  draws (λ x y v, foldl (λ v a, g a x y v) v l) (for_each f l).
Proof.
  induction l as [|a l IH]; intros Hf; cbn [for_each foldl]; [apply draws_ret|].
  apply (draws_bind (g a) (λ x y v, foldl (λ v a, g a x y v) v l)).
  - apply Hf. set_solver.
  - apply IH. intros. apply Hf. set_solver.
Qed.

Lemma draws_put x y c : draws (tint (λ x' y', (x' =? x) && (y' =? y)) c) (put x y c).
Proof.
  intros cv Hc. pose proof Hc as (Hf & HW & HH & HS & Hd).
  destruct (decide (x < W ∧ y < H)) as [[Hx Hy]|Hout].
  - rewrite <-HW in Hx. rewrite <-HH in Hy. eexists. split; [by apply put_in|]. split.
    + destruct Hf as [Hs Hl]. pose proof (view_inside _ _ _ _ _ Hs Hx Hy).
      split; [split|done]; [done|]. cbn [pixels with_pixels height stride]. rewrite <-Hl.
      rewrite !length_app, length_take, length_drop. simpl. lia.
    + split; [intros x' y' Hx' Hy'; apply view_spliced; done || by rewrite ?HW, ?HH|].
      intros j Hj. rewrite HW in Hx. rewrite HH in Hy. specialize (Hj x y Hx Hy). cbn [pixels with_pixels].
      destruct Hf as [Hs Hl]. rewrite <-HW in Hx. rewrite <-HH in Hy.
      pose proof (view_inside _ _ _ _ _ Hs Hx Hy). rewrite HS in *.
      destruct Hj as [Hj|Hj]; [rewrite lookup_app_l by (rewrite length_take; lia); apply lookup_take_lt; lia|].
      rewrite app_assoc, lookup_app_r by (rewrite length_app, length_take; simpl; lia).
      rewrite length_app, length_take, lookup_drop. simpl. f_equal. lia.
  - exists cv. split; [|split; [done|split; [|done]]].
    + unfold put. destruct (_ && _) eqn:E; [|done]. bool_norm. lia.
    + intros x' y' Hx' Hy'. unfold tint. destruct (_ && _) eqn:E; [|done]. bool_norm. lia.
Qed.

End draws.

(** A loop over a range that acts on its own position only. *)
Lemma fold_hit {V} (b p s n : nat) (f : nat → V → V) v :
  foldl (λ v a, if p =? b + a then f a v else v) v (seq s n)
  = if (b + s <=? p) && (p <? b + s + n) then f (p - b) v else v.
Proof.
  revert s v. induction n as [|n IH]; intros s v; simpl.
  - destruct (_ && _) eqn:E; [bool_norm; lia|done].
  - rewrite IH. destruct (p =? b + s) eqn:E1; bool_norm.
    + subst p. replace (b + s - b) with s by lia.
      destruct ((b + S s <=? b + s) && _) eqn:E2; [bool_norm; lia|].
      destruct ((b + s <=? b + s) && _) eqn:E3; [done|].
      apply andb_false_iff in E3 as [E3|E3]; bool_norm; lia.
    + destruct ((b + S s <=? p) && (p <? b + S s + n)) eqn:E2,
        ((b + s <=? p) && (p <? b + s + S n)) eqn:E3; try done; bool_norm;
        match goal with E : _ && _ = false |- _ => apply andb_false_iff in E as [E|E]; bool_norm; lia end.
Qed.

(** Two nested ranges: each pixel is hit once, by the pair of loop variables
    that is its own position. *)
Lemma fold_hit2 {V} (bx by_ x y sx nx sy ny : nat) (f : nat → nat → V → V) (v : V) :
  foldl (λ v row, foldl (λ v col, if (x =? bx + col) && (y =? by_ + row) then f col row v else v) v (seq sx nx))
    v (seq sy ny)
  = if ((bx + sx <=? x) && (x <? bx + sx + nx)) && ((by_ + sy <=? y) && (y <? by_ + sy + ny))
    then f (x - bx) (y - by_) v else v.
Proof.
  transitivity (foldl (λ v row, if y =? by_ + row
      then (if (bx + sx <=? x) && (x <? bx + sx + nx) then f (x - bx) row v else v) else v) v (seq sy ny)).
  - apply foldl_ext. intros v' row. destruct (y =? by_ + row).
    + rewrite <-(fold_hit bx x sx nx (λ col, f col row)). apply foldl_ext.
      intros. by rewrite andb_true_r.
    + induction (seq sx nx) as [|a l IH]; [done|]. simpl. by rewrite andb_false_r.
  - rewrite (fold_hit by_ y sy ny (λ row v, if (bx + sx <=? x) && (x <? bx + sx + nx) then f (x - bx) row v else v)).
    by destruct (_ && (x <? _)), (_ && (y <? _)).
Qed.

Section routines.
Context (W H S : nat) (dev : str).
Abbreviation draws := (draws W H S dev).

Lemma draws_fill x y w h c : draws (tint (in_rect x y w h) c) (fill_rect x y w h c).
Proof.
  intros cv Hc. pose proof Hc as (_ & HW & HH & _). unfold fill_rect. rewrite HW, HH.
  assert (Hd := draws_for_each W H S dev
    (λ row x' y' v, foldl (λ v col, tint (λ x' y', (x' =? col) && (y' =? row)) c x' y' v) v
                      (range x (Nat.min (x + w) W)))
    (λ row, for_each (λ col, put col row c) (range x (Nat.min (x + w) W)))
    (range y (Nat.min (y + h) H))).
  eapply draws_ext; [apply Hd; intros; apply draws_for_each; intros; apply draws_put| |exact Hc].
  clear Hd. intros x' y' v Hx Hy. unfold tint, range.
  rewrite (fold_hit2 0 0 x' y' _ _ _ _ (λ _ _ _, bgrx c)). unfold in_rect. simpl.
  destruct ((x <=? x') && _ && _) eqn:E1, ((x <=? x') && (x' <? x + w) && (y <=? y') && (y' <? y + h)) eqn:E2;
    try done; bool_norm; repeat match goal with E : _ && _ = false |- _ => apply andb_false_iff in E as [E|E] end;
    bool_norm; lia.
Qed.

(** Painting in one colour composes by union. *)
Lemma draws_for_each_tint {A} (R : A → nat → nat → bool) c f l :
  (∀ a, a ∈ l → draws (tint (R a) c) (f a)) →
  draws (tint (λ x y, existsb (λ a, R a x y) l) c) (for_each f l).
Proof.
  intros Hf. eapply draws_ext; [exact (draws_for_each _ _ _ _ (λ a, tint (R a) c) f l Hf)|]. cbn beta. intros x y v _ _.
  unfold tint. clear Hf. revert v. induction l as [|a l IH]; intros v; simpl; [done|].
  rewrite IH. by destruct (R a x y), (existsb _ l).
Qed.

Lemma draws_bind_tint R1 R2 c f1 f2 :
  draws (tint R1 c) f1 → draws (tint R2 c) f2 →
  draws (tint (λ x y, R1 x y || R2 x y) c) (λ cv, cv ← f1 cv; f2 cv).
Proof.
  intros H1 H2. eapply draws_ext; [exact (draws_bind _ _ _ _ _ _ _ _ H1 H2)|]. cbn beta. intros x y v _ _. unfold tint.
  by destruct (R1 x y), (R2 x y).
Qed.

Lemma draws_nothing c : draws (tint (λ _ _, false) c) Ret.
Proof. apply draws_ret. Qed.

(** The pixels of one glyph. *)
Definition row_ink (scale px y : nat) (row : nat * N) (x' y' : nat) : bool :=
  existsb (λ gx, bit_set row.2 gx && in_rect (px + gx * scale) (y + row.1 * scale) scale scale x' y')
    (range 0 font_width).
Definition glyph_ink (scale px y : nat) (rows : list N) (x' y' : nat) : bool :=
  existsb (λ row, row_ink scale px y row x' y') (imap pair rows).

Lemma draws_glyph scale px y rows c : draws (tint (glyph_ink scale px y rows) c) (draw_glyph scale px y rows c).
Proof.
  apply (draws_for_each_tint (row_ink scale px y)). intros [gy bits] _.
  apply (draws_for_each_tint (λ gx x' y', bit_set bits gx
    && in_rect (px + gx * scale) (y + gy * scale) scale scale x' y')).
  intros gx _. destruct (bit_set bits gx); [apply draws_fill|apply draws_nothing].
Qed.

Lemma glyph_total f c : font_ok f → ∃ rows, glyph f c = Ret rows ∧ length rows = font_height f.
Proof.
  intros (Hc & Hh & Hl). unfold glyph, subslice. cbv zeta. set (i := if _ : bool then 63 else N.to_nat c).
  assert (Hi : i < 256) by (subst i; destruct (_ || _) eqn:E; [lia|]; bool_norm; lia).
  rewrite (proj2 (Nat.leb_le _ _)) by nia. rewrite (proj2 (Nat.leb_le _ _)) by nia. cbn [andb].
  eexists. split; [done|]. rewrite length_drop, length_take. nia.
Qed.

Fixpoint text_ink (f : Font) (scale px y : nat) (cs : list N) (x' y' : nat) : bool :=
  match cs with
  | [] => false
  | c :: cs =>
      if W <? px + font_width * scale then false
      else match glyph f c with
           | Ret rows => glyph_ink scale px y rows x' y' || text_ink f scale (px + font_width * scale) y cs x' y'
           | Panic => false
           end
  end.

Lemma draws_text f scale px y cs c :
  font_ok f → draws (tint (text_ink f scale px y cs) c) (text f scale px y cs c).
Proof.
  intros Hf. revert px. induction cs as [|ch cs IH]; intros px; cbn [text text_ink]; [apply draws_nothing|].
  intros cv Hc. pose proof Hc as (_ & HW & _). rewrite HW. destruct (W <? _); [by apply draws_nothing|].
  destruct (glyph_total f ch Hf) as (rows & -> & _). cbn [mbind outcome_bind].
  revert cv Hc HW. intros cv Hc _. revert cv Hc.
  apply (draws_bind_tint (glyph_ink scale px y rows) _ c (draw_glyph scale px y rows c)); [apply draws_glyph|].
  apply IH.
Qed.

End routines.

(** The square of a set bit of a glyph that is drawn. *)
Definition inked (f : Font) (scale x y : nat) (cs : list N) (W px py : nat) : Prop :=
  ∃ i c rows gy bits gx, cs !! i = Some c ∧ x + (i + 1) * (font_width * scale) ≤ W
    ∧ glyph f c = Ret rows ∧ rows !! gy = Some bits ∧ gx < font_width ∧ bit_set bits gx = true
    ∧ in_rect (x + i * (font_width * scale) + gx * scale) (y + gy * scale) scale scale px py = true.

Lemma elem_of_imap_pair {A} (l : list A) i a : (i, a) ∈ imap pair l ↔ l !! i = Some a.
Proof.
  rewrite list_elem_of_lookup. split.
  - intros [k H]. rewrite list_lookup_imap in H. destruct (l !! k) eqn:E; [|done].
    simpl in H. by injection H as -> ->.
  - intros H. exists i. by rewrite list_lookup_imap, H.
Qed.

Lemma existsb_elem {A} (p : A → bool) l : existsb p l = true ↔ ∃ a, a ∈ l ∧ p a = true.
Proof. rewrite existsb_exists. by setoid_rewrite <-list_elem_of_In. Qed.

Lemma glyph_ink_spec scale px y rows x' y' :
  glyph_ink scale px y rows x' y' = true ↔
  ∃ gy bits gx, rows !! gy = Some bits ∧ gx < font_width ∧ bit_set bits gx = true
    ∧ in_rect (px + gx * scale) (y + gy * scale) scale scale x' y' = true.
Proof.
  unfold glyph_ink. rewrite existsb_elem. split.
  - intros ([gy bits] & Hr & H). apply elem_of_imap_pair in Hr. unfold row_ink in H.
    apply existsb_elem in H as (gx & Hgx & H). simpl in H. apply andb_true_iff in H as [Hb Hi].
    unfold range in Hgx. rewrite elem_of_seq in Hgx. exists gy, bits, gx. split_and!; try done. lia.
  - intros (gy & bits & gx & Hr & Hgx & Hb & Hi). exists (gy, bits). rewrite elem_of_imap_pair.
    split; [done|]. unfold row_ink. apply existsb_elem. exists gx. unfold range. rewrite elem_of_seq.
    simpl. rewrite Hb. split; [unfold font_width in *; lia|done].
Qed.

Lemma text_ink_spec W f scale x y cs px py :
  font_ok f → text_ink W f scale x y cs px py = true ↔ inked f scale x y cs W px py.
Proof.
  intros Hf. unfold inked. revert x. induction cs as [|ch cs IH]; intros x; cbn [text_ink].
  - split; [done|]. by intros (i & ? & ? & ? & ? & ? & H & _).
  - destruct (W <? _) eqn:EW; bool_norm.
    + split; [done|]. intros (i & ? & ? & ? & ? & ? & _ & H & _). nia.
    + destruct (glyph_total f ch Hf) as (rows & Hg & _). rewrite Hg.
      rewrite orb_true_iff, glyph_ink_spec, IH. split.
      * intros [(gy & bits & gx & H)|(i & c & rows' & gy & bits & gx & Hc & Hw & H)].
        -- exists 0, ch, rows, gy, bits, gx. rewrite Nat.mul_0_l, Nat.add_0_r. split_and!; naive_solver lia.
        -- exists (S i), c, rows', gy, bits, gx. split; [done|]. split; [lia|].
           by replace (x + S i * (font_width * scale)) with (x + font_width * scale + i * (font_width * scale)) by lia.
      * intros ([|i] & c & rows' & gy & bits & gx & Hc & Hw & Hg' & H).
        -- left. injection Hc as <-. rewrite Hg in Hg'. injection Hg' as <-.
           rewrite Nat.mul_0_l, Nat.add_0_r in H. eauto.
        -- right. exists i, c, rows', gy, bits, gx. split; [done|]. split; [lia|]. split; [done|].
           by replace (x + font_width * scale + i * (font_width * scale)) with (x + S i * (font_width * scale)) by lia.
Qed.

(** *** Sampling and blending *)

Lemma texel_total l x y :
  logo_ok l → ∃ r g b a, texel l x y = Ret (r * a, g * a, b * a, a * 255)%N
    ∧ (r < 256 ∧ g < 256 ∧ b < 256 ∧ a < 256)%N.
Proof.
  intros (Hw & Hh & Hl & Hb). unfold texel, at_index.
  set (p := Nat.min y (logo_height l - 1) * logo_width l + Nat.min x (logo_width l - 1)).
  assert (Hp : p < logo_width l * logo_height l) by (subst p; nia).
  assert (Hk : ∀ k, k < 4 → ∃ v, rgba l !! (p * 4 + k) = Some v ∧ (v < 256)%N).
  { intros k Hk. destruct (lookup_lt_is_Some_2 (rgba l) (p * 4 + k)) as [v Hv]; [lia|].
    exists v. split; [done|]. rewrite Forall_lookup in Hb. eauto. }
  destruct (Hk 0) as (r & Hr & ?); [lia|]. rewrite Nat.add_0_r in Hr.
  destruct (Hk 1) as (g & Hg & ?); [lia|]. destruct (Hk 2) as (b & Hb' & ?); [lia|].
  destruct (Hk 3) as (a & Ha & ?); [lia|]. rewrite Hr, Hg, Hb', Ha. simpl. eauto 10.
Qed.

(** A weighted mean of two values is at most a common bound. *)
Lemma weighted_le k f s t m : (f < 256 → s ≤ m * k → t ≤ m * k → s * (256 - f) + t * f ≤ m * k * 256)%N.
Proof.
  intros Hf Hs Ht. transitivity (m * k * (256 - f) + m * k * f)%N.
  - apply N.add_le_mono; by apply N.mul_le_mono_r.
  - rewrite <-N.mul_add_distr_l. by replace (256 - f + f)%N with 256%N by lia.
Qed.

Lemma mix_le m fx fy t00 t10 t01 t11 :
  (fx < 256 → fy < 256 → t00 ≤ m → t10 ≤ m → t01 ≤ m → t11 ≤ m → mix fx fy t00 t10 t01 t11 ≤ m)%N.
Proof.
  intros. unfold mix. rewrite N.shiftr_div_pow2. change (2 ^ 16)%N with (256 * 256)%N.
  apply N.Div0.div_le_upper_bound. rewrite (N.mul_comm (256 * 256)), N.mul_assoc.
  apply weighted_le; [done|rewrite <-(N.mul_1_r m); apply weighted_le; lia..].
Qed.

Lemma mix_same fx fy t : (fx < 256 → fy < 256 → mix fx fy t t t t = t)%N.
Proof.
  intros. unfold mix. rewrite N.shiftr_div_pow2. change (2 ^ 16)%N with 65536%N.
  replace (_ + _)%N with (t * 65536)%N by nia. apply N.div_mul. lia.
Qed.

Lemma fraction n : (N.of_nat (n mod 256) < 256)%N.
Proof. pose proof (Nat.mod_upper_bound n 256). lia. Qed.

(** Sampling is total and gives bytes. *)
Lemma sample_total l dx dy w h :
  logo_ok l → w ≠ 0 → h ≠ 0 →
  ∃ r g b a, sample l dx dy w h = Ret (r, g, b, a) ∧ (r ≤ 255 ∧ g ≤ 255 ∧ b ≤ 255 ∧ a ≤ 255)%N.
Proof.
  intros Hl Hw Hh. unfold sample. apply Nat.eqb_neq in Hw, Hh. rewrite Hw, Hh. cbv zeta.
  set (sx := (2 * dx + 1) * logo_width l * 128 / w - 128). set (sy := (2 * dy + 1) * logo_height l * 128 / h - 128).
  destruct (texel_total l (sx / 256) (sy / 256) Hl) as (r0 & g0 & b0 & a0 & -> & _).
  destruct (texel_total l (sx / 256 + 1) (sy / 256) Hl) as (r1 & g1 & b1 & a1 & -> & _).
  destruct (texel_total l (sx / 256) (sy / 256 + 1) Hl) as (r2 & g2 & b2 & a2 & -> & _).
  destruct (texel_total l (sx / 256 + 1) (sy / 256 + 1) Hl) as (r3 & g3 & b3 & a3 & -> & _).
  cbn [mbind outcome_bind orb]. destruct (_ =? 0)%N.
  - do 4 eexists. split; [done|lia].
  - do 4 eexists. split; [done|]. split_and!; apply N.le_min_r.
Qed.

(** A logo of one colour is sampled as that colour, at any size. *)
Definition uniform (l : Logo) (r g b a : N) : Prop :=
  rgba l = concat (replicate (logo_width l * logo_height l) [r; g; b; a]).

Lemma uniform_lookup (n : nat) (v : list N) p k :
  length v = 4 → p < n → k < 4 → concat (replicate n v) !! (p * 4 + k) = v !! k.
Proof.
  intros Hv. revert p. induction n as [|n IH]; intros p Hp Hk; [lia|]. simpl. destruct p as [|p].
  - by rewrite lookup_app_l by lia.
  - rewrite lookup_app_r by lia. rewrite Hv. replace (S p * 4 + k - 4) with (p * 4 + k) by lia.
    apply IH; lia.
Qed.

Lemma uniform_texel l r g b a x y :
  logo_ok l → uniform l r g b a → texel l x y = Ret (r * a, g * a, b * a, a * 255)%N.
Proof.
  intros (Hw & Hh & _) Hu. unfold texel, at_index. rewrite Hu.
  set (p := Nat.min y (logo_height l - 1) * logo_width l + Nat.min x (logo_width l - 1)).
  assert (Hp : p < logo_width l * logo_height l) by (subst p; nia).
  replace (p * 4) with (p * 4 + 0) by lia.
  rewrite <-!Nat.add_assoc, !uniform_lookup by (done || lia). done.
Qed.

Lemma uniform_sample l r g b a dx dy w h :
  logo_ok l → uniform l r g b a → w ≠ 0 → h ≠ 0 →
  (r ≤ 255 → g ≤ 255 → b ≤ 255 → a ≤ 255 → a ≠ 0 → sample l dx dy w h = Ret (r, g, b, a))%N.
Proof.
  intros Hl Hu Hw Hh Hr Hg Hb Ha Ha0. unfold sample. apply Nat.eqb_neq in Hw, Hh. rewrite Hw, Hh. cbv zeta.
  rewrite !(uniform_texel _ _ _ _ _ _ _ Hl Hu). cbn [mbind outcome_bind orb].
  rewrite !mix_same by apply fraction. rewrite N.div_mul by done.
  rewrite (proj2 (N.eqb_neq a 0)) by done. rewrite !N.div_mul by done. by rewrite !N.min_l by done.
Qed.

(** Blending stays between the two values, so nothing is cut off. *)
Lemma blend_between a f u :
  (a ≤ 255 → f ≤ 255 → u ≤ 255 → N.min f u ≤ blend a f u ≤ N.max f u)%N.
Proof.
  intros Ha Hf Hu. unfold blend, as_u8.
  assert (Hb : (N.min f u * 255 ≤ f * a + u * (255 - a) ≤ N.max f u * 255)%N).
  { replace (N.min f u * 255)%N with (N.min f u * a + N.min f u * (255 - a))%N by nia.
    replace (N.max f u * 255)%N with (N.max f u * a + N.max f u * (255 - a))%N by nia.
    split; apply N.add_le_mono; apply N.mul_le_mono_r; lia. }
  set (n := (f * a + u * (255 - a))%N) in *.
  assert (N.min f u ≤ n / 255)%N by (apply N.div_le_lower_bound; lia).
  assert (n / 255 ≤ N.max f u)%N by (apply N.Div0.div_le_upper_bound; lia).
  rewrite N.mod_small by lia. done.
Qed.

Lemma blend_opaque f u : (f ≤ 255 → blend 255 f u = f)%N.
Proof.
  intros. unfold blend, as_u8. replace (u * (255 - 255))%N with 0%N by lia. rewrite N.add_0_r, N.div_mul by done.
  apply N.mod_small. lia.
Qed.

Lemma get_in x y cv :
  fits cv → x < width cv → y < height cv → get x y cv = Ret (rgb_of (view cv x y)).
Proof.
  intros [Hs Hl] Hx Hy. pose proof (view_inside _ _ _ _ _ Hs Hx Hy). unfold get, at_index, view.
  set (i := y * stride cv + x * 4) in *.
  assert (Hk : ∀ k, k < 4 → pixels cv !! (i + k) = Some (nth k (take 4 (drop i (pixels cv))) 0%N)).
  { intros k Hk. destruct (lookup_lt_is_Some_2 (pixels cv) (i + k)) as [v Hv]; [lia|]. rewrite Hv.
    f_equal. symmetry. apply nth_lookup_Some. by rewrite lookup_take_lt, lookup_drop. }
  pose proof (Hk 0) as H0. rewrite Nat.add_0_r in H0. by rewrite H0, !Hk by lia.
Qed.

(** What a logo, drawn in a box at [(x, y)], makes of the bytes [v] of a pixel. *)
Definition blended (l : Logo) (w h dx dy : nat) (v : list N) : list N :=
  match sample l dx dy w h with
  | Ret (r, g, b, a) =>
      if (a =? 0)%N then v
      else let u := rgb_of v in
           bgrx (mkRgb (blend a r (red u)) (blend a g (green u)) (blend a b (blue u)))
  | Panic => v
  end.

Section blit.
Context (W H S : nat) (dev : str).
Abbreviation draws := (draws W H S dev).

Lemma draws_blit_pixel l x y w h dx dy :
  logo_ok l → w ≠ 0 → h ≠ 0 →
  draws (λ x' y' v, if (x' =? x + dx) && (y' =? y + dy) then blended l w h dx dy v else v)
    (blit_pixel l x y w h dx dy).
Proof.
  intros Hl Hw Hh cv Hc. pose proof Hc as (Hf & HW & HH & _). unfold blit_pixel, blended.
  destruct (sample_total l dx dy w h Hl Hw Hh) as (r & g & b & a & -> & _). cbn [mbind outcome_bind].
  destruct (a =? 0)%N.
  { exists cv. split_and!; try done. intros. by destruct (_ && _). }
  rewrite HW, HH. destruct ((x + dx <? W) && (y + dy <? H)) eqn:Ein.
  - bool_norm. rewrite get_in by (done || lia). cbn [mbind outcome_bind].
    set (c := mkRgb _ _ _). destruct (draws_put W H S dev (x + dx) (y + dy) c cv Hc) as (cv' & E & Hc' & Hv & Hp).
    exists cv'. split_and!; try done. intros x' y' Hx' Hy'. rewrite Hv by done. unfold tint.
    destruct (_ && _) eqn:Ehit; [|done]. bool_norm. by subst.
  - exists cv. split_and!; try done. intros x' y' Hx' Hy'. destruct (_ && (y' =? _)) eqn:Ehit; [|done].
    bool_norm. apply andb_false_iff in Ein as [Ein|Ein]; bool_norm; lia.
Qed.

Lemma draws_blit l x y w h :
  logo_ok l →
  draws (λ x' y' v, if in_rect x y w h x' y' then blended l w h (x' - x) (y' - y) v else v)
    (blit_scaled l x y w h).
Proof.
  intros Hl. unfold blit_scaled. eapply draws_ext.
  - apply (draws_for_each W H S dev (λ dy x' y' v, foldl (λ v dx,
      if (x' =? x + dx) && (y' =? y + dy) then blended l w h dx dy v else v) v (range 0 w))).
    intros dy Hdy. apply (draws_for_each W H S dev (λ dx x' y' v,
      if (x' =? x + dx) && (y' =? y + dy) then blended l w h dx dy v else v)).
    intros dx Hdx. unfold range in *. rewrite elem_of_seq in Hdx, Hdy. apply draws_blit_pixel; [done|lia..].
  - cbn beta. intros x' y' v _ _. unfold range. rewrite (fold_hit2 x y x' y' _ _ _ _ (blended l w h)).
    unfold in_rect. rewrite !Nat.sub_0_r, !Nat.add_0_r, !andb_assoc. done.
Qed.

End blit.

(** *** Rows and the device *)

Section rows.
Context (W H S : nat) (dev : str).

Lemma byte_same cv cv' j :
  shaped W H S dev cv → shaped W H S dev cv' → j < S * H →
  (∀ x, x < W → view cv' x (j / S) = view cv x (j / S)) →
  (∀ i, padding W H S i → pixels cv' !! i = pixels cv !! i) →
  pixels cv' !! j = pixels cv !! j.
Proof.
  intros (Hf & HW & HH & HS & _) (_ & _ & _ & HS' & _) Hj Hv Hp.
  assert (HWS : W * 4 ≤ S) by (destruct Hf; lia).
  assert (S ≠ 0) as HS0 by (intros ->; lia).
  pose proof (Nat.div_mod j S HS0) as Hd. pose proof (Nat.mod_upper_bound j S HS0) as Hm.
  set (q := j / S) in *. set (c := j mod S) in *.
  destruct (decide (c < W * 4)) as [Hc|Hc].
  - specialize (Hv (c / 4)). pose proof (Nat.div_mod c 4) as Hd4. pose proof (Nat.mod_upper_bound c 4) as Hm4.
    assert (Hx : c / 4 < W) by (apply Nat.Div0.div_lt_upper_bound; lia).
    specialize (Hv Hx). apply (f_equal (.!! (c mod 4))) in Hv. unfold view in Hv.
    rewrite !lookup_take_lt, !lookup_drop in Hv by lia. rewrite HS, HS' in Hv.
    by replace (q * S + c / 4 * 4 + c mod 4) with j in Hv by lia.
  - apply Hp. intros x y Hx Hy. destruct (lt_eq_lt_dec y q) as [[Hlt| ->]|Hgt].
    + right. assert (y * S + S ≤ q * S) by nia. lia.
    + right. lia.
    + left. assert (q * S + S ≤ y * S) by nia. lia.
Qed.

(** Rows whose pixels did not change did not change in any byte. *)
Lemma rows_same cv cv' t b :
  shaped W H S dev cv → shaped W H S dev cv' →
  (∀ x y, x < W → y < H → (y < t ∨ b ≤ y) → view cv' x y = view cv x y) →
  (∀ i, padding W H S i → pixels cv' !! i = pixels cv !! i) → t ≤ H →
  take (t * S) (pixels cv') = take (t * S) (pixels cv) ∧ drop (b * S) (pixels cv') = drop (b * S) (pixels cv).
Proof.
  intros Hc Hc' Hv Hp Ht. pose proof Hc as ((_ & Hl) & HW & HH & HS & _). pose proof Hc' as ((_ & Hl') & _ & HH' & HS' & _).
  rewrite HS, HH in Hl. rewrite HS', HH' in Hl'.
  assert (Hb : ∀ j, (j < t * S ∨ b * S ≤ j) → pixels cv' !! j = pixels cv !! j).
  { intros j Hj. destruct (decide (j < S * H)) as [Hin|]; [|by rewrite !lookup_ge_None_2 by lia].
    assert (S ≠ 0) by (intros ->; lia).
    apply byte_same; try done. intros x Hx. apply Hv; [done|apply Nat.Div0.div_lt_upper_bound; lia|].
    destruct Hj; [left; apply Nat.Div0.div_lt_upper_bound; lia|right; apply Nat.div_le_lower_bound; lia]. }
  split; apply list_eq; intros j.
  - destruct (decide (j < t * S)); [|by rewrite !lookup_take_ge by lia].
    rewrite !lookup_take_lt by lia. apply Hb. lia.
  - rewrite !lookup_drop. apply Hb. lia.
Qed.

End rows.

(** The device after a write at an offset. *)
Definition after_write (w : option (nat * list N)) (dev : list N) : list N :=
  match w with
  | None => dev
  | Some (off, b) => take off dev ++ b ++ drop (off + length b) dev
  end.

(** Writing the rows that may have changed brings the device up to date. *)
Lemma flush_rows_spec t b cv old :
  fits cv → t ≤ b → b ≤ height cv →
  take (t * stride cv) (pixels cv) = take (t * stride cv) old →
  drop (b * stride cv) (pixels cv) = drop (b * stride cv) old →
  length old = length (pixels cv) →
  ∃ w, flush_rows t b cv = Ret w ∧ after_write w old = pixels cv.
Proof.
  intros [Hs Hl] Htb Hb Ht Hd Hlen. unfold flush_rows. rewrite Nat.min_l by done.
  destruct (b <=? t) eqn:E; bool_norm.
  - exists None. split; [done|]. simpl. replace b with t in Hd by lia.
    by rewrite <-(take_drop (t * stride cv) old), <-Ht, <-Hd, take_drop.
  - unfold subslice. rewrite !(proj2 (Nat.leb_le _ _)) by nia. cbn [andb mbind outcome_bind].
    eexists. split; [done|]. cbn [after_write].
    rewrite length_drop, length_take, Nat.min_l by nia.
    replace (t * stride cv + (b * stride cv - t * stride cv)) with (b * stride cv) by nia.
    rewrite <-Ht, <-Hd. set (p := pixels cv). rewrite app_assoc.
    replace (take (t * stride cv) p) with (take (t * stride cv) (take (b * stride cv) p))
      by (rewrite take_take; f_equal; nia).
    by rewrite !take_drop.
Qed.

(** A canvas is of its own shape. *)
Lemma shaped_self cv : fits cv → shaped (width cv) (height cv) (stride cv) (device cv) cv.
Proof. by intros. Qed.

(** A routine that draws, on one canvas. *)
Lemma draws_on g f cv :
  fits cv → draws (width cv) (height cv) (stride cv) (device cv) g f →
  ∃ cv', f cv = Ret cv' ∧ fits cv' ∧ width cv' = width cv ∧ height cv' = height cv ∧ stride cv' = stride cv
    ∧ ∀ x y, x < width cv → y < height cv → view cv' x y = g x y (view cv x y).
Proof. intros Hf Hd. destruct (Hd cv (shaped_self cv Hf)) as (cv' & ? & (? & ? & ? & ? & ?) & ? & ?). eauto 10. Qed.

(** *** What loading gives *)

Lemma font_of_ok data f : font_of data = Ok f → font_ok f.
Proof.
  unfold font_of. destruct (_ || _); [done|]. set (cnt := if _ : bool then 512 else 256).
  set (h := N.to_nat _). destruct (_ || _) eqn:E; [done|]. intros [= <-]. bool_norm.
  unfold font_ok. cbn [count font_height glyphs]. split; [subst cnt; destruct (negb _); lia|]. split; [lia|].
  rewrite length_drop, length_take. lia.
Qed.

Lemma logo_of_ok data l : Forall (λ b, (b < 256)%N) data → logo_of data = Ok l → logo_ok l.
Proof.
  intros Hb. unfold logo_of. destruct (_ || _) eqn:E0; [done|]. set (w := N.to_nat (le_u32 (take 4 (drop 4 _)))).
  set (h := N.to_nat _).
  destruct ((w =? 0) || (h =? 0) || negb _) eqn:E; [done|]. intros [= <-]. bool_norm.
  unfold logo_ok. cbn [logo_width logo_height rgba]. split_and!; [lia..| |by apply Forall_drop].
  rewrite length_drop. lia.
Qed.

Lemma bytes_of_bound data : Forall (λ b, (b < 256)%N) (bytes_of data).
Proof. apply Forall_forall. intros b Hb. apply list_elem_of_In, list_elem_of_fmap in Hb as (c & -> & _). apply code_bound. Qed.

(** A framebuffer that opens has a sound geometry, unless its size overflows. *)
Lemma open_fits `{Env} name w cv w' :
  Canvas.open name w = (Ok cv, w') →
  (N.of_nat (width cv) * 4 ≤ u64_max)%N → (N.of_nat (stride cv) * N.of_nat (height cv) ≤ u64_max)%N →
  fits cv ∧ 0 < width cv ∧ 0 < height cv.
Proof.
  intros Ho. unfold Canvas.open, try in Ho. step_in Ho as size w1 E1. destruct size as [size|e]; [|done].
  destruct (split_once _ _) as [[a b]|]; [|done]. destruct (usize a) as [wd|]; [|done]. destruct (usize b) as [ht|]; [|done].
  step_in Ho as s w2 E2. destruct s as [s|e]; [|done]. destruct (usize (trim s)) as [st|]; [|done].
  step_in Ho as bpp w3 E3. destruct bpp as [bpp|e]; [|done]. destruct (usize (trim bpp)) as [bits|]; [|done].
  unfold geometry in Ho. destruct (negb _); [done|].
  destruct ((wd =? 0)%N || (ht =? 0)%N || _) eqn:E; [done|]. step_in Ho as r w4 E4. destruct r; [|done]. injection Ho as <- _. cbn [width height stride pixels]. bool_norm.
  rewrite !N2Nat.id. intros H4 Hsh. rewrite wrap64_small in * by done.
  unfold fits. cbn [width height stride pixels]. rewrite length_replicate. lia.
Qed.

(** ** Properties *)

(** Text is drawn exactly, and never outside. On a canvas whose bytes are
    all there, with a loaded font, drawing any characters anywhere at any scale
    does not panic and keeps the geometry, and a pixel takes the text's colour
    exactly when it lies in the square of a set bit of the glyph of a character
    that fits in the width, and is otherwise unchanged. *)
Theorem text_spec (f : Font) (scale x y : nat) (cs : list N) (c : Rgb) (cv : Canvas) :
  fits cv → font_ok f →
  ∃ cv', text f scale x y cs c cv = Ret cv' ∧ fits cv' ∧ width cv' = width cv ∧ height cv' = height cv
    ∧ ∀ px py, px < width cv → py < height cv →
        (inked f scale x y cs (width cv) px py → view cv' px py = bgrx c)
        ∧ (¬ inked f scale x y cs (width cv) px py → view cv' px py = view cv px py).
Proof.
  intros Hf Hfont. destruct (draws_on _ _ cv Hf (draws_text _ _ _ _ f scale x y cs c Hfont))
    as (cv' & E & Hf' & HW & HH & _ & Hv). exists cv'. split_and!; try done.
  intros px py Hx Hy. rewrite Hv by done. unfold tint. pose proof (text_ink_spec (width cv) f scale x y cs px py Hfont).
  by destruct (text_ink _ _ _ _ _ _ _ _); naive_solver.
Qed.


(** ** Examples *)

Definition example_canvas : Canvas := mkCanvas "/dev/fb0" 10 2 40 (replicate 80 7%N).
Definition example_font : Font := mkFont 1 (replicate 65 0%N ++ [129%N] ++ replicate 190 0%N) 256.
Definition example_logo : Logo := mkLogo 1 1 [200; 100; 50; 255]%N.

Lemma example_font_ok : font_ok example_font.
Proof. unfold font_ok. cbn [count font_height example_font]. split; [lia|]. split; [lia|reflexivity]. Qed.

(** A single letter: the first bit of its glyph is its left-most pixel. *)
Lemma text_spec_witness :
  ∃ cv', text example_font 1 1 0 [65%N] (mkRgb 1 2 3) example_canvas = Ret cv' ∧ view cv' 1 0 = [3; 2; 1; 255]%N.
Proof.
  destruct (text_spec example_font 1 1 0 [65%N] (mkRgb 1 2 3) example_canvas) as (cv' & E & _ & _ & _ & Hv).
  - split; vm_compute; [lia|reflexivity].
  - exact example_font_ok.
  - exists cv'. split; [exact E|]. destruct (Hv 1 0) as [Hin _]; [vm_compute; lia..|]. apply Hin.
    exists 0, 65%N, [129%N], 0, 129%N, 0. split_and!; try reflexivity; vm_compute; lia.
Defined.


(** The lower row is weighted by the vertical fraction: a sample in the first
    column of this logo, whose only coloured pixel is in the second, is not
    colourless. *)
Example sample_lower_row :
  sample (mkLogo 2 2 [0; 0; 0; 255; 0; 0; 0; 255; 0; 0; 0; 255; 255; 0; 0; 255]%N) 0 1 2 4
  = Ret (15, 0, 0, 255)%N.
Proof. reflexivity. Qed.
