(* ===== verification/Boot.v ===== *)
(** * abora-boot: the boot screen

    Models [boot/abora-boot/src/main.rs]: the arguments, the kernel's log
    records, the screen with its scrolled lines, and what one batch of events
    does. The threads that read the two sources only forward lines; a screen
    operation returns what it wrote to the device. *)

From S2P Require Import Prelude Str World Canvas.

Definition BACKGROUND : Rgb := mkRgb 0 0 0.
Definition TEXT : Rgb := mkRgb 208 208 208.
Definition MAX_LINES : nat := 500.

Inductive Source := Kernel | Init.
#[global] Instance source_eq_dec : EqDecision Source.
Proof. solve_decision. Defined.
Record Event := mkEvent { ev_source : Source; ev_line : str }.

Record Args := mkArgs { fifo : str; logo : str; font : str; fb : str }.
Definition args_default : Args :=
  mkArgs "/run/boot.fifo" "/usr/share/abora/logo.rgba" "/usr/share/abora/font.psf" "fb0".

(** [None] is [--help]: the usage is printed and the program succeeds. *)
Fixpoint parse_args_go (a : Args) (argv : list str) : result str (option Args) :=
  match argv with
  | [] => Ok (Some a)
  | flag :: rest =>
      let value (set : str → Args) :=
        match rest with
        | v :: rest => parse_args_go (set v) rest
        | [] => Err (flag ++ " needs a value")
        end in
      if decide (flag = ("--fifo" : str)) then value (λ v, mkArgs v (logo a) (font a) (fb a))
      else if decide (flag = ("--logo" : str)) then value (λ v, mkArgs (fifo a) v (font a) (fb a))
      else if decide (flag = ("--font" : str)) then value (λ v, mkArgs (fifo a) (logo a) v (fb a))
      else if decide (flag = ("--fb" : str)) then value (λ v, mkArgs (fifo a) (logo a) (font a) v)
      else if decide (flag = ("--help" : str) ∨ flag = ("-h" : str)) then Ok None
      else Err ("unknown argument `" ++ flag ++ "`")
  end.
Definition parse_args (argv : list str) : result str (option Args) := parse_args_go args_default argv.

(** One [/dev/kmsg] record, [pri,seq,usec,flags;message]. *)
Definition stamp (usec : N) (message : str) : str :=
  "[" ++ pad_left " "%char 5 (dec (usec / 1000000)) ++ "."
  ++ pad_left "0"%char 3 (dec ((usec / 1000) mod 1000)) ++ "] " ++ message.
Definition parse_kmsg (record : str) : option str :=
  first ← head (lines record);
  '(meta, message) ← split_once ";"%char first;
  field ← split (is_char ","%char) meta !! 2;
  usec ← parse_uint u64_max field;
  Some (stamp usec (trim_end message)).

(** ** The screen

    A line is kept as its characters. [None] stands for no logo. *)

Record Screen := mkScreen {
  canvas : Canvas;
  sc_font : Font;
  sx : nat; sy : nat; sw : nat; sh : nat;
  sc_lines : list (list N);
}.

(** [a - b] on [usize], which panics (or wraps, in a release build) below zero. *)
Definition usize_sub (a b : nat) : outcome nat := if b <=? a then Ret (a - b) else Panic.
Definition margin : nat := 16.
Definition clamp (lo hi n : nat) : nat := Nat.max lo (Nat.min n hi).
Definition logo_size (w h : nat) : nat := Nat.min (clamp 96 320 (h / 3)) (w / 3).

Definition write_of : Type := option (nat * list N).

Definition new (cv : Canvas) (f : Font) (l : option Logo) : outcome (Screen * write_of) :=
  let w := width cv in let h := height cv in
  cv ← fill_rect 0 0 w h BACKGROUND cv;
  text_w ← usize_sub w (2 * margin);
  '(cv, text_w) ←
    match l with
    | Some l =>
        let size := logo_size w h in
        lx ← usize_sub w margin; lx ← usize_sub lx size;
        cv ← blit_scaled l lx margin size size cv;
        text_w ← usize_sub w (3 * margin); text_w ← usize_sub text_w size;
        mret (cv, text_w)
    | None => mret (cv, text_w)
    end;
  written ← flush_all cv;
  text_h ← usize_sub h (2 * margin);
  mret (mkScreen cv f margin margin text_w text_h [], written).

Definition cols (s : Screen) : nat := Nat.max (sw s / font_width) 8.
Definition wrapped (n : nat) (cs : list N) : list (list N) :=
  match cs with
  | [] => [[]]
  | _ => imap (λ i chunk, if i =? 0 then chunk else [32; 32]%N ++ chunk) (chunks n cs)
  end.
Definition push (text : str) (s : Screen) : Screen :=
  let cs := (λ c, if (c =? 9)%N then 32%N else c) <$> chars text in
  let all := sc_lines s ++ wrapped (cols s) cs in
  mkScreen (canvas s) (sc_font s) (sx s) (sy s) (sw s) (sh s) (drop (length all - MAX_LINES) all).

(** The lines shown, with their row. *)
Definition rows (s : Screen) : nat := sh s / font_height (sc_font s).
Definition shown (s : Screen) : list (nat * list N) :=
  imap pair (drop (length (sc_lines s) - rows s) (sc_lines s)).

Definition draw (s : Screen) : outcome (Screen * write_of) :=
  let ch := font_height (sc_font s) in
  cv ← fill_rect (sx s) (sy s) (sw s) (sh s) BACKGROUND (canvas s);
  if ch =? 0 then Panic
  else
    cv ← for_each (λ '(row, line), text (sc_font s) 1 (sx s) (sy s + row * ch) line TEXT) (shown s) cv;
    written ← flush_rows (sy s) (sy s + sh s) cv;
    mret (mkScreen cv (sc_font s) (sx s) (sy s) (sw s) (sh s) (sc_lines s), written).

(** One turn of the loop of [run]: the waiting events, what is echoed to the
    console, and the screen when there is a framebuffer. *)
Definition echoed (events : list Event) : list str :=
  ev_line <$> filter (λ e, ev_source e = Init) events.
Definition batch (screen : option Screen) (events : list Event)
    : outcome (list str * option (Screen * write_of)) :=
  match screen with
  | None => mret (echoed events, None)
  | Some s => r ← draw (foldl (λ s e, push (ev_line e) s) s events); mret (echoed events, Some r)
  end.

(** *** Where the events come from *)

(** One [read] of [/dev/kmsg], which gives one record. *)
Inductive kmsg_read := KmsgEnd | KmsgRecord (bytes : str) | KmsgInterrupted | KmsgFailed.

(** [spawn_kmsg]: what its thread sends, when the receiver takes [room] more
    events before it goes away. *)
Fixpoint kmsg_events (room : nat) (reads : list kmsg_read) : list Event :=
  match reads with
  | [] | KmsgEnd :: _ | KmsgFailed :: _ => []
  | KmsgInterrupted :: reads => kmsg_events room reads
  | KmsgRecord bytes :: reads =>
      match parse_kmsg (utf8_lossy bytes) with
      | None => kmsg_events room reads
      | Some line =>
          match room with
          | O => []
          | S room => mkEvent Kernel line :: kmsg_events room reads
          end
      end
  end.

(** [spawn_fifo]: the lines of the FIFO up to the first that cannot be read. *)
Fixpoint fifo_events (room : nat) (lines : list (result io_error str)) : list Event :=
  match lines, room with
  | Ok line :: lines, S room => mkEvent Init line :: fifo_events room lines
  | _, _ => []
  end.

(** What one turn of the loop of [run] receives: an event, with those already
    waiting; nothing for 200 ms; or that both threads are gone. *)
Inductive received := Received (first : Event) (waiting : list Event) | Timeout | Disconnected.

(** The batches the loop shows, up to its end. *)
Fixpoint batches_of (turns : list received) : list (list Event) :=
  match turns with
  | [] | Disconnected :: _ => []
  | Timeout :: turns => batches_of turns
  | Received first waiting :: turns => (first :: take 500 waiting) :: batches_of turns
  end.

(** What the console shows without a framebuffer. *)
Fixpoint console (turns : list received) : outcome (list str) :=
  match turns with
  | [] | Disconnected :: _ => Ret []
  | Timeout :: turns => console turns
  | Received first waiting :: turns =>
      r ← batch None (first :: take 500 waiting);
      rest ← console turns;
      Ret (fst r ++ rest)
  end.

(** [run] up to its loop: no font is an error, no framebuffer or logo is not. *)
Definition start `{Env} (a : Args) : io (outcome (result str (option (Screen * write_of)))) :=
  f ← font_load (font a);
  match f with
  | Err e => mret (Ret (Err ("font " ++ font a ++ ": " ++ e)))
  | Ok f =>
      cv ← Canvas.open (fb a);
      match cv with
      | Err _ => mret (Ret (Ok None))
      | Ok cv =>
          l ← logo_load (logo a);
          mret (s ← new cv f (ok l); Ret (Ok (Some s)))
      end
  end.

(** ** Lemmas *)

Lemma wrapped_length n cs : 0 < n → Forall (λ line, length line ≤ n + 2) (wrapped n cs).
Proof.
  intros Hn. unfold wrapped. destruct cs as [|c cs]; [by repeat constructor; simpl; lia|].
  apply Forall_lookup. intros i line Hi. rewrite list_lookup_imap in Hi.
  destruct (chunks n (c :: cs) !! i) as [chunk|] eqn:E; [|done]. simpl in Hi. injection Hi as <-.
  destruct (chunks_go_spec (length (c :: cs)) n (c :: cs)) as [_ Hf]; [done|done|].
  rewrite Forall_lookup in Hf. specialize (Hf i chunk E). destruct (i =? 0); simpl; lia.
Qed.

(** Without a framebuffer the console shows every line of init, in order, and
    none of the kernel's. *)
Lemma console_echoes turns : console turns = Ret (echoed (concat (batches_of turns))).
Proof.
  induction turns as [|[first waiting| |] turns IH]; try done. cbn [console batches_of batch].
  cbn [mbind outcome_bind mret outcome_ret]. rewrite IH. cbn [mbind outcome_bind fst concat].
  unfold echoed. by rewrite list.filter_app, fmap_app.
Qed.

(** The kernel's reader sends a prefix of the records it can parse. *)
Lemma kmsg_events_sent room reads :
  length (kmsg_events room reads) ≤ room
  ∧ Forall (λ e, ev_source e = Kernel
      ∧ ∃ bytes, KmsgRecord bytes ∈ reads ∧ parse_kmsg (utf8_lossy bytes) = Some (ev_line e))
      (kmsg_events room reads).
Proof.
  revert room. induction reads as [|r reads IH]; intros room; [split; [simpl; lia|done]|].
  assert (Hmono : ∀ n, length (kmsg_events n reads) ≤ n ∧
    Forall (λ e, ev_source e = Kernel ∧ ∃ bytes, KmsgRecord bytes ∈ r :: reads
      ∧ parse_kmsg (utf8_lossy bytes) = Some (ev_line e)) (kmsg_events n reads)).
  { intros n. destruct (IH n) as [Hl Hf]. split; [done|].
    eapply Stdlib.Lists.List.Forall_impl; [|exact Hf]. intros e (Hs & bytes & Hin & Hp).
    split; [done|]. exists bytes. split; [by apply elem_of_cons; right|done]. }
  destruct r as [|bytes| |]; cbn [kmsg_events]; [split; [simpl; lia|done]| |apply Hmono|split; [simpl; lia|done]].
  destruct (parse_kmsg (utf8_lossy bytes)) as [line|] eqn:E; [|apply Hmono].
  destruct room as [|room]; [split; [simpl; lia|done]|].
  destruct (Hmono room) as [Hl Hf]. split; [simpl; lia|]. constructor; [|done].
  split; [done|]. exists bytes. split; [by apply elem_of_cons; left|done].
Qed.

(** What holds of a screen between operations: drawing is safe, the text area
    lies on the canvas with a margin to its right, and every kept line is at most
    two characters wider than the area. *)
Definition screen_ok (s : Screen) : Prop :=
  fits (canvas s) ∧ font_ok (sc_font s)
  ∧ 64 ≤ sw s ∧ sx s + sw s + margin ≤ width (canvas s) ∧ sy s + sh s ≤ height (canvas s)
  ∧ sx s = margin ∧ sy s = margin
  ∧ length (sc_lines s) ≤ MAX_LINES
  ∧ Forall (λ line, length line ≤ sw s / font_width + 2) (sc_lines s).

Lemma cols_eq s : 64 ≤ sw s → cols s = sw s / font_width.
Proof. unfold cols, font_width. intros. apply Nat.max_l. apply Nat.div_le_lower_bound; lia. Qed.

Lemma push_ok text s : screen_ok s → screen_ok (push text s).
Proof.
  intros (Hf & Hfo & Hw & Hx & Hy & Hsx & Hsy & Hl & Hlines). unfold push.
  assert (0 < sw s / font_width) by (apply Nat.div_str_pos; unfold font_width; lia).
  split_and!; try done; cbn [canvas sc_font sw sx sy sc_lines].
  - rewrite length_drop. lia.
  - apply Forall_drop, Forall_app. split; [done|]. rewrite cols_eq by done. by apply wrapped_length.
Qed.

(** A pixel of the text of a shown line. *)
Definition visible (s : Screen) (px py : nat) : Prop :=
  ∃ row line, (row, line) ∈ shown s
    ∧ inked (sc_font s) 1 (sx s) (sy s + row * font_height (sc_font s)) line (width (canvas s)) px py.
Definition visible_b (s : Screen) (px py : nat) : bool :=
  existsb (λ row, text_ink (width (canvas s)) (sc_font s) 1 (sx s)
                    (sy s + row.1 * font_height (sc_font s)) row.2 px py) (shown s).

Lemma visible_spec s px py : font_ok (sc_font s) → visible_b s px py = true ↔ visible s px py.
Proof.
  intros Hf. unfold visible_b, visible. rewrite existsb_elem. split.
  - intros ([row line] & Hin & H). apply text_ink_spec in H; eauto.
  - intros (row & line & Hin & H). exists (row, line). split; [done|]. by apply text_ink_spec.
Qed.

Lemma shown_elem s row line :
  (row, line) ∈ shown s → row < rows s ∧ line ∈ sc_lines s.
Proof.
  unfold shown. rewrite elem_of_imap_pair. intros H. split.
  - apply lookup_lt_Some in H. rewrite length_drop in H. lia.
  - rewrite lookup_drop in H. by eapply list_elem_of_lookup_2.
Qed.

(** Text stays in the area and its right margin: a line is at most two
    characters too wide, and the rows fit. *)
Lemma visible_inside s px py :
  screen_ok s → visible s px py → in_rect (sx s) (sy s) (sw s + margin) (sh s) px py = true.
Proof.
  intros (_ & Hfo & Hw & _ & _ & _ & _ & _ & Hlines)
    (row & line & Hin & i & c & rws & gy & bits & gx & Hc & _ & Hg & Hb & Hgx & _ & Hr).
  apply shown_elem in Hin as [Hrow Hline]. rewrite Forall_lookup in Hlines.
  apply list_elem_of_lookup in Hline as [k Hk]. specialize (Hlines k line Hk).
  apply lookup_lt_Some in Hc. destruct (glyph_total (sc_font s) c Hfo) as (rws' & Hg' & Hlen).
  rewrite Hg in Hg'. injection Hg' as <-. apply lookup_lt_Some in Hb.
  unfold in_rect in *. bool_norm. rewrite !andb_true_iff, !Nat.leb_le, !Nat.ltb_lt.
  unfold font_width, margin in *. unfold rows in Hrow.
  set (h := font_height (sc_font s)) in *.
  assert (sw s / 8 * 8 ≤ sw s) by (rewrite Nat.mul_comm; apply Nat.Div0.mul_div_le).
  assert (sh s / h * h ≤ sh s) by (rewrite Nat.mul_comm; apply Nat.Div0.mul_div_le).
  assert ((row + 1) * h ≤ sh s / h * h) by (apply Nat.mul_le_mono_r; lia).
  split_and!; lia.
Qed.

(** The drawing part of [draw]. *)
Lemma draws_screen s :
  screen_ok s →
  draws (width (canvas s)) (height (canvas s)) (stride (canvas s)) (device (canvas s))
    (λ x y v, tint (visible_b s) TEXT x y (tint (in_rect (sx s) (sy s) (sw s) (sh s)) BACKGROUND x y v))
    (λ cv, cv ← fill_rect (sx s) (sy s) (sw s) (sh s) BACKGROUND cv;
           for_each (λ '(row, line), text (sc_font s) 1 (sx s) (sy s + row * font_height (sc_font s)) line TEXT)
             (shown s) cv).
Proof.
  intros (_ & Hfo & _). apply draws_bind; [apply draws_fill|].
  apply (draws_for_each_tint _ _ _ _ (λ row, text_ink (width (canvas s)) (sc_font s) 1 (sx s)
    (sy s + row.1 * font_height (sc_font s)) row.2)).
  intros [row line] _. by apply draws_text.
Qed.

Definition with_canvas (cv : Canvas) (s : Screen) : Screen :=
  mkScreen cv (sc_font s) (sx s) (sy s) (sw s) (sh s) (sc_lines s).

Lemma draw_result s :
  screen_ok s →
  ∃ cv w, draw s = Ret (with_canvas cv s, w) ∧ screen_ok (with_canvas cv s)
    ∧ width cv = width (canvas s) ∧ height cv = height (canvas s)
    ∧ after_write w (pixels (canvas s)) = pixels cv
    ∧ ∀ px py, px < width (canvas s) → py < height (canvas s) →
        (visible s px py → view cv px py = bgrx TEXT)
        ∧ (¬ visible s px py → view cv px py =
             if in_rect (sx s) (sy s) (sw s) (sh s) px py then bgrx BACKGROUND else view (canvas s) px py).
Proof.
  intros Hok. pose proof Hok as (Hf & Hfo & Hw & Hx & Hy & Hsx & Hsy & Hl & Hlines).
  pose proof (λ px py, visible_inside s px py Hok) as Hin.
  destruct (draws_screen s Hok (canvas s) (shaped_self _ Hf)) as (cv & E & Hc & Hv & Hp).
  assert (Hrows : take (sy s * stride (canvas s)) (pixels cv) = take (sy s * stride (canvas s)) (pixels (canvas s))
    ∧ drop ((sy s + sh s) * stride (canvas s)) (pixels cv) = drop ((sy s + sh s) * stride (canvas s)) (pixels (canvas s))).
  { eapply rows_same; [by apply shaped_self|done| |done|lia]. intros x y Hx' Hy' Hout. rewrite Hv by done.
    unfold tint. destruct (visible_b s x y) eqn:Ev.
    - apply visible_spec, Hin in Ev; [|done]. unfold in_rect in Ev. bool_norm. lia.
    - destruct (in_rect _ _ _ _ _ _) eqn:Er; [|done]. unfold in_rect in Er. bool_norm. lia. }
  destruct Hc as (Hf' & HW & HH & HS & HD). rewrite <-HS in Hrows. destruct Hrows as [Ht Hd].
  destruct (flush_rows_spec (sy s) (sy s + sh s) cv (pixels (canvas s))) as (w & Ew & Hafter); try done; [lia|lia| |].
  { destruct Hf, Hf'. congruence. }
  exists cv, w. split.
  { unfold draw. destruct (fill_rect _ _ _ _ _ _) as [cv0|]; [|done]. cbn [mbind outcome_bind] in E |- *.
    destruct Hfo as (_ & Hh & _). rewrite (proj2 (Nat.eqb_neq _ 0)) by lia.
    rewrite E. cbn [mbind outcome_bind]. by rewrite Ew. }
  split; [split_and!; cbn; try done; by rewrite ?HW, ?HH|]. split; [done|]. split; [done|]. split; [done|].
  intros px py Hpx Hpy. rewrite Hv by done. pose proof (visible_spec s px py Hfo) as Hvis.
  unfold tint. destruct (visible_b s px py); split; intros H; naive_solver.
Qed.

(** Any number of turns of the loop; the device starts as [dev]. *)
Fixpoint run_loop (s : Screen) (dev : list N) (batches : list (list Event)) : outcome (Screen * list N) :=
  match batches with
  | [] => Ret (s, dev)
  | events :: batches =>
      r ← batch (Some s) events;
      match r.2 with
      | Some (s, w) => run_loop s (after_write w dev) batches
      | None => Ret (s, dev)
      end
  end.

(** Same place on the same canvas, and the same pixels from column [x] on. *)
Definition same_right (x : nat) (s s' : Screen) : Prop :=
  sx s' = sx s ∧ sw s' = sw s ∧ sh s' = sh s
  ∧ width (canvas s') = width (canvas s) ∧ height (canvas s') = height (canvas s)
  ∧ ∀ px py, x ≤ px → px < width (canvas s) → py < height (canvas s) →
      view (canvas s') px py = view (canvas s) px py.
#[global] Instance same_right_refl x : Reflexive (same_right x).
Proof. intros s. by split_and!. Qed.
#[global] Instance same_right_trans x : Transitive (same_right x).
Proof.
  intros s1 s2 s3 (? & ? & ? & HW & HH & Hv) (? & ? & ? & ? & ? & Hv'). split_and!; try congruence.
  intros px py Hx Hpx Hpy. rewrite Hv' by (done || lia). by apply Hv.
Qed.

Lemma push_same x text s : same_right x s (push text s) ∧ canvas (push text s) = canvas s.
Proof. by split_and!. Qed.

Lemma pushes_ok x events s :
  screen_ok s →
  let s' := foldl (λ s e, push (ev_line e) s) s events in
  screen_ok s' ∧ same_right x s s' ∧ canvas s' = canvas s.
Proof.
  revert s. induction events as [|e events IH]; intros s Hs; simpl; [by split_and!|].
  destruct (IH (push (ev_line e) s)) as (Hok & Hr & Hc); [by apply push_ok|].
  destruct (push_same x (ev_line e) s) as [Hr' Hc']. split; [done|]. split; [by transitivity (push (ev_line e) s)|].
  congruence.
Qed.

Lemma draw_same s :
  screen_ok s →
  ∃ s' w, draw s = Ret (s', w) ∧ screen_ok s' ∧ after_write w (pixels (canvas s)) = pixels (canvas s')
    ∧ same_right (sx s + sw s + margin) s s'.
Proof.
  intros Hok. destruct (draw_result s Hok) as (cv & w & E & Hok' & HW & HH & Ha & Hv).
  exists (with_canvas cv s), w. unfold same_right. split_and!; try done. intros px py Hx Hpx Hpy.
  destruct (Hv px py Hpx Hpy) as [_ Hn]. cbn [canvas with_canvas]. rewrite Hn.
  - destruct (in_rect _ _ _ _ _ _) eqn:Er; [|done]. unfold in_rect in Er. bool_norm. lia.
  - intros Hvis. apply visible_inside in Hvis; [|done]. unfold in_rect in Hvis. bool_norm. lia.
Qed.

Lemma run_loop_ok x s batches :
  screen_ok s → x = sx s + sw s + margin →
  ∃ s', run_loop s (pixels (canvas s)) batches = Ret (s', pixels (canvas s')) ∧ screen_ok s' ∧ same_right x s s'.
Proof.
  revert s. induction batches as [|events batches IH]; intros s Hs Hx; simpl; [by exists s|].
  destruct (pushes_ok x events s Hs) as (Hs1 & Hr1 & Hc1). set (s1 := foldl _ s events) in *.
  destruct (draw_same s1 Hs1) as (s2 & w & E & Hs2 & Ha & Hr2). rewrite E. cbn [mbind outcome_bind mret outcome_ret snd].
  rewrite <-Hc1, Ha. assert (Hx2 : x = sx s1 + sw s1 + margin) by (destruct Hr1 as (-> & -> & _); done).
  rewrite <-Hx2 in Hr2.
  destruct (IH s2 Hs2) as (s3 & E3 & Hs3 & Hr3); [destruct Hr2 as (-> & -> & _); done|].
  exists s3. split_and!; try done. transitivity s1; [done|]. by transitivity s2.
Qed.

Lemma usize_sub_ok a b : b ≤ a → usize_sub a b = Ret (a - b).
Proof. intros. unfold usize_sub. by rewrite (proj2 (Nat.leb_le b a)). Qed.

Lemma flush_all_spec cv dev :
  fits cv → length dev = length (pixels cv) →
  ∃ w, flush_all cv = Ret w ∧ after_write w dev = pixels cv.
Proof.
  intros Hf Hl. apply flush_rows_spec; try done; [lia|].
  destruct Hf as [_ Hp]. by rewrite !drop_ge by lia.
Qed.

(** Where the text area ends: before the margin and the logo, or the margin. *)
Definition right_of (cv : Canvas) (lo : option Logo) : nat :=
  match lo with
  | Some _ => width cv - margin - logo_size (width cv) (height cv)
  | None => width cv
  end.

(** What the fresh screen shows: the logo over the background. *)
Definition fresh (lo : option Logo) (w h px py : nat) : list N :=
  match lo with
  | Some l =>
      let size := logo_size w h in
      let lx := w - margin - size in
      if in_rect lx margin size size px py
      then blended l size size (px - lx) (py - margin) (bgrx BACKGROUND)
      else bgrx BACKGROUND
  | None => bgrx BACKGROUND
  end.

Definition background (lo : option Logo) (w h : nat) (cv : Canvas) : outcome Canvas :=
  cv ← fill_rect 0 0 w h BACKGROUND cv;
  match lo with
  | Some l => let size := logo_size w h in blit_scaled l (w - margin - size) margin size size cv
  | None => Ret cv
  end.

Lemma draws_background lo w h st dev :
  (∀ l, lo = Some l → logo_ok l) →
  draws w h st dev (λ x y _, fresh lo w h x y) (background lo w h).
Proof.
  intros Hlo. unfold background, fresh. destruct lo as [l|].
  - eapply draws_ext; [apply draws_bind; [apply draws_fill|apply draws_blit; auto]|].
    intros x y v Hx Hy. unfold tint. cbv zeta.
    replace (in_rect 0 0 w h x y) with true; [done|]. symmetry. unfold in_rect.
    rewrite !andb_true_iff, !Nat.leb_le, !Nat.ltb_lt. lia.
  - eapply draws_ext; [apply draws_bind; [apply draws_fill|apply draws_ret]|].
    intros x y v Hx Hy. unfold tint.
    replace (in_rect 0 0 w h x y) with true; [done|]. symmetry. unfold in_rect.
    rewrite !andb_true_iff, !Nat.leb_le, !Nat.ltb_lt. lia.
Qed.

(** [new] in terms of the background it draws. *)
Lemma new_background cv f lo :
  192 ≤ width cv → 32 ≤ height cv →
  new cv f lo =
    (c ← background lo (width cv) (height cv) cv;
     w ← flush_all c;
     mret (mkScreen c f margin margin (right_of cv lo - 2 * margin) (height cv - 2 * margin) [], w)).
Proof.
  intros HW HH. assert (logo_size (width cv) (height cv) ≤ width cv / 3) by apply Nat.le_min_r.
  pose proof (Nat.Div0.mul_div_le (width cv) 3). unfold new, background, right_of.
  destruct (fill_rect _ _ _ _ _ cv) as [c0|]; [|done]. cbn [mbind outcome_bind].
  rewrite usize_sub_ok by (unfold margin; lia). cbn [mbind outcome_bind]. destruct lo as [l|].
  - set (size := logo_size _ _) in *. cbv zeta.
    repeat (rewrite usize_sub_ok by (unfold margin; lia); cbn [mbind outcome_bind]).
    destruct (blit_scaled _ _ _ _ _ c0) as [c|]; [|done]. cbn [mbind outcome_bind mret outcome_ret].
    repeat (rewrite usize_sub_ok by (unfold margin; lia); cbn [mbind outcome_bind]).
    unfold margin. by replace (width cv - 3 * 16 - size) with (width cv - 16 - size - 2 * 16) by lia.
  - cbn [mbind outcome_bind mret outcome_ret].
    by repeat (rewrite usize_sub_ok by (unfold margin; lia); cbn [mbind outcome_bind]).
Qed.

Lemma new_ok cv f lo dev :
  fits cv → font_ok f → (∀ l, lo = Some l → logo_ok l) → 192 ≤ width cv → 32 ≤ height cv →
  length dev = length (pixels cv) →
  ∃ s w, new cv f lo = Ret (s, w) ∧ screen_ok s ∧ after_write w dev = pixels (canvas s)
    ∧ width (canvas s) = width cv ∧ height (canvas s) = height cv
    ∧ (∀ x y, x < width cv → y < height cv → view (canvas s) x y = fresh lo (width cv) (height cv) x y)
    ∧ sx s + sw s + margin = right_of cv lo.
Proof.
  intros Hf Hfo Hlo HW HH Hdev. rewrite new_background by done.
  destruct (draws_background lo (width cv) (height cv) (stride cv) (device cv) Hlo cv (shaped_self cv Hf))
    as (c & -> & (Hf' & HW' & HH' & HS & _) & Hv & _). cbn [mbind outcome_bind].
  destruct (flush_all_spec c dev Hf') as (w & -> & Ha); [destruct Hf, Hf'; congruence|].
  cbn [mbind outcome_bind]. do 2 eexists. split; [done|].
  assert (logo_size (width cv) (height cv) ≤ width cv / 3) by apply Nat.le_min_r.
  pose proof (Nat.Div0.mul_div_le (width cv) 3).
  assert (Hr : right_of cv lo ≤ width cv ∧ 96 ≤ right_of cv lo) by (unfold right_of, margin; destruct lo; lia).
  split; [|split_and!; cbn [canvas sx sw]; try done; unfold margin; lia].
  unfold screen_ok, margin, MAX_LINES. cbn [canvas sc_font sx sy sw sh sc_lines length].
  split_and!; try done; lia.
Qed.

(** Starting panics only on a framebuffer too small for the layout (or one whose
    size overflows). *)
Lemma start_panics `{Env} a w w' :
  start a w = (Panic, w') →
  ∃ cv w1 w2, Canvas.open (fb a) w1 = (Ok cv, w2) ∧ (¬ fits cv ∨ width cv < 192 ∨ height cv < 32).
Proof.
  unfold start, font_load, logo_load. intros Hs. step_in Hs as f w1 E1. destruct f as [f|e]; [|done].
  step_in E1 as data w2 E2. destruct data as [data|e]; [|done]. injection E1 as E1 _.
  step_in Hs as cv w3 E3. destruct cv as [cv|e]; [|done]. exists cv, w1, w3. split; [done|].
  step_in Hs as l w4 E4. step_in E4 as ldata w5 E5. injection E4 as E4 _.
  destruct (decide (width cv < 192)); [auto|]. destruct (decide (height cv < 32)); [auto|]. left. intros Hf.
  destruct (new_ok cv f (ok l) (pixels cv)) as (s & wr & En & _); try done; try lia.
  - by eapply font_of_ok.
  - intros lg Hl. destruct l as [lg'|]; [|done]. injection Hl as <-.
    destruct ldata as [ldata|]; [|done]. eapply logo_of_ok; [apply bytes_of_bound|done].
  - rewrite En in Hs. discriminate.
Qed.

(** ** Properties *)

(** Redrawing the screen. From a well-formed screen [draw] does not panic;
    a pixel shows the text's colour exactly when it belongs to a shown line; in
    the text area every other pixel is cleared; and every pixel outside the area is
    kept, also in the margin to its right, into which lines reach by two characters.
    Text never reaches beyond that margin, so never the logo; and what is written
    brings a device that showed the old screen exactly to the new one. *)
Theorem draw_spec (s : Screen) :
  screen_ok s →
  ∃ s' w, draw s = Ret (s', w) ∧ screen_ok s' ∧ sc_lines s' = sc_lines s
    ∧ after_write w (pixels (canvas s)) = pixels (canvas s')
    ∧ ∀ px py, px < width (canvas s) → py < height (canvas s) →
        (visible s px py → view (canvas s') px py = bgrx TEXT
           ∧ in_rect (sx s) (sy s) (sw s + margin) (sh s) px py = true)
        ∧ (¬ visible s px py → view (canvas s') px py =
             if in_rect (sx s) (sy s) (sw s) (sh s) px py then bgrx BACKGROUND else view (canvas s) px py).
Proof.
  intros Hok. destruct (draw_result s Hok) as (cv & w & E & Hok' & HW & HH & Ha & Hv).
  exists (with_canvas cv s), w. split_and!; try done. intros px py Hpx Hpy. destruct (Hv px py Hpx Hpy) as [Hvis Hnot].
  split; [|done]. intros Hp. split; [by apply Hvis|by apply visible_inside].
Qed.


(** A kernel record is shown with its time: one with a priority, a sequence
    number, a time in microseconds and flags, then a semicolon and a message, is
    shown as the message after its time, whatever follows on later lines. *)
Lemma parse_kmsg_record (pri seq flags msg rest : str) (usec : N) :
  (usec ≤ u64_max)%N →
  (∀ s, s ∈ [pri; seq] → (","%char ∉ s) ∧ (";"%char ∉ s) ∧ (LF ∉ s)) →
  (";"%char ∉ flags) → (LF ∉ flags) → (LF ∉ msg) → (∀ r, msg ≠ r ++ [CR]) → msg ≠ [] →
  parse_kmsg ((pri ++ ","%char :: seq ++ ","%char :: dec usec ++ ","%char :: flags)
              ++ ";"%char :: msg ++ LF :: rest)
    = Some (stamp usec (trim_end msg)).
Proof.
  intros Hu Hps Hf1 Hf2 Hm Hcr Hne. pose proof (Hps pri ltac:(set_solver)) as (Hp1 & Hp2 & Hp3).
  pose proof (Hps seq ltac:(set_solver)) as (Hs1 & Hs2 & Hs3).
  assert (Hdec : ∀ c : ascii, is_ascii_digit c = false → c ∉ dec usec).
  { intros c Hc Hin. pose proof (forallb_elem _ _ _ (dec_digits usec) Hin). congruence. }
  set (meta := pri ++ ","%char :: seq ++ ","%char :: dec usec ++ ","%char :: flags).
  assert (Hmeta : ∀ c : ascii, c ∉ pri → c ∉ seq → c ∉ dec usec → c ∉ flags → c ≠ ","%char → c ∉ meta)
    by (intros; subst meta; set_solver).
  assert (Hlines : head (lines (meta ++ ";"%char :: msg ++ LF :: rest)) = Some (meta ++ ";"%char :: msg)).
  { unfold lines. rewrite app_comm_cons, app_assoc. rewrite lines_go_app.
    - simpl. f_equal. apply strip_cr_clean. intros r Hr. destruct (exists_last Hne) as (m & c & ->).
      rewrite app_comm_cons, app_assoc in Hr. apply app_inj_tail in Hr as [_ ->]. by eapply Hcr.
    - rewrite not_elem_of_app, not_elem_of_cons. split; [apply Hmeta; try done; by apply Hdec|done]. }
  unfold parse_kmsg. rewrite Hlines. cbn [mbind option_bind].
  rewrite split_once_app by (apply Hmeta; try done; by apply Hdec). cbn [mbind option_bind].
  subst meta.
  rewrite !split_cons; try (by apply is_char_spec); try (intros a Ha; destruct (is_char _ a) eqn:E; [|done];
    apply is_char_spec in E as ->; exfalso; try done; by eapply (Hdec ","%char)).
  cbn [lookup list_lookup mbind option_bind]. by rewrite parse_uint_dec.
Qed.

(** ** Examples *)

Definition example_screen_canvas : Canvas := mkCanvas "/dev/fb0" 192 32 768 (replicate (768 * 32) 0%N).

Lemma example_fits : fits example_screen_canvas.
Proof. split; [apply Nat.le_refl|apply length_replicate]. Qed.

Lemma draw_spec_witness :
  ∃ s' w, draw (mkScreen example_screen_canvas example_font 16 16 64 0 []) = Ret (s', w)
    ∧ sc_lines s' = [] ∧ after_write w (pixels example_screen_canvas) = pixels (canvas s').
Proof.
  destruct (draw_spec (mkScreen example_screen_canvas example_font 16 16 64 0 [])) as (s' & w & E & _ & Hl & Ha & _).
  - split; [exact example_fits|]. split; [exact example_font_ok|].
    unfold MAX_LINES, margin. cbn [sw sx sy sh canvas sc_font sc_lines width height example_screen_canvas length].
    split_and!; first [lia|reflexivity|by constructor].
  - exists s', w. split_and!; assumption.
Defined.

