(* ===== verification/Cli.v ===== *)
(** * abora: the command line client

    Models [cli/abora/src/main.rs]: the daemon's address, the HTTP calls and
    their errors, the summaries, the apply command with its confirmation, the
    configuration check and the token generator. The argument parser ([clap]), the
    HTTP library ([ureq]) and JSON values ([serde_json]) are parameters. A command
    is a computation over what it has sent and printed. *)

From S2P Require Import Prelude Str World Version Types Config Tokens.

(** [serde_json::Value], as far as the client looks at one. *)
Class JsonView := {
  Value : Type;
  index : str → Value → Value;             (* [v["k"]], null when absent *)
  member : str → Value → option Value;     (* [v.get("k")] *)
  as_str : Value → option str;
  as_u64 : Value → option N;
  as_bool : Value → option bool;
  as_array : Value → option (list Value);
  is_object : Value → bool;
  parse_json : str → result str Value;
  pretty : Value → str;                    (* [to_string_pretty], empty on error *)
}.

Section views.
Context {json : JsonView}.
Implicit Types v : Value.

Definition os_pretty (sys : Value) : str :=
  let os := index "os" sys in
  match as_str (index "pretty_name" os), as_str (index "name" os), as_str (index "version" os) with
  | Some p, _, _ => p
  | None, Some n, Some v => n ++ " " ++ v
  | None, Some n, None => n
  | None, None, _ => default ("unknown" : str) (as_str (index "id" os))
  end.

Definition version_str v : str :=
  let fallback := default ("-" : str) (as_str v) in
  match as_u64 (index "major" v), as_u64 (index "minor" v), as_u64 (index "patch" v) with
  | Some major, Some minor, Some patch =>
      let s := dec major ++ "." ++ dec minor ++ "." ++ dec patch in
      let s := match as_str (index "prerelease" v) with Some p => s ++ "-" ++ p | None => s end in
      match as_str (index "build" v) with Some b => s ++ "+" ++ b | None => s end
  | _, _, _ => fallback
  end.

Definition SHOW_AVAILABLE : nat := 10.
Definition SHOW_HISTORY : nat := 5.

Definition array_of (k : str) v : list Value := default [] (as_array (index k v)).
Definition str_of (d k : str) v : str := default d (as_str (index k v)).
Definition is_true (k : str) v : bool := bool_decide (as_bool (index k v) = Some true).

Definition status_line v : str :=
  let status := index "status" v in
  "status:     " ++
  match as_str (index "state" status) with
  | None => "unknown (no check has finished yet)"
  | Some s =>
      if decide (s = ("update_available" : str)) then dec_nat (length (array_of "available" v)) ++ " update(s) available"
      else if decide (s = ("up_to_date" : str)) then "up to date"
      else if decide (s = ("installing" : str)) then "installing an update now"
      else if decide (s = ("error" : str)) then "error: " ++ str_of "unknown" "message" status
      else s
  end.

Definition policy_lines v : list str :=
  match member "schedule" v with
  | Some s =>
      if is_object s then
        let window : str := match as_bool (index "in_maintenance_window" s) with
                            | Some true => "open" | Some false => "closed" | None => "unknown" end in
        let applying : str := if is_true "apply_permitted" s then "permitted now" else "not permitted now" in
        [("policy:     maintenance window " : str) ++ window ++ "; applying is " ++ applying ++ "; checks every "
           ++ dec (default 0%N (as_u64 (index "check_interval_seconds" s))) ++ "s"]
      else []
  | None => []
  end.

Definition reboot_line v : str :=
  let reboot := index "reboot" v in
  if is_true "required" reboot then
    "reboot:     REQUIRED"
    ++ match as_str (index "pending_since" reboot) with Some t => " (since " ++ t ++ ")" | None => [] end
    ++ match as_str (index "reason" reboot) with Some r => ": " ++ r | None => [] end
  else "reboot:     not required".

Definition available_line (u : Value) : str :=
  "  " ++ match as_str (index "summary" u) with Some s => s | None => str_of "-" "component" u end.
Definition available_lines v : list str :=
  let available := array_of "available" v in
  match available with
  | [] => []
  | _ => ([] : str) :: ("available:" : str) :: (available_line <$> take SHOW_AVAILABLE available)
         ++ (if SHOW_AVAILABLE <? length available
             then [("  ... and " : str) ++ dec_nat (length available - SHOW_AVAILABLE)
                   ++ " more (use --json for the full list)"]
             else [])
  end.

Definition history_line (h : Value) : str :=
  "  " ++ str_of "-" "applied_at" h ++ " " ++ (if is_true "succeeded" h then "ok    " else "FAILED") ++ " "
  ++ str_of "" "note" h.
Definition history_lines v : list str :=
  match array_of "history" v with
  | [] => []
  | history => ([] : str) :: ("history (newest first):" : str) :: (history_line <$> take SHOW_HISTORY history)
  end.

Definition format_updates v : list str :=
  [status_line v; ("last check: " : str) ++ str_of "never" "last_check" v]
  ++ policy_lines v ++ [reboot_line v] ++ available_lines v ++ history_lines v.

Definition plan_packages (plan : Value) : list str := omap as_str (array_of "packages" plan).
Definition format_plan (plan : Value) : list str :=
  let packages := plan_packages plan in
  (dec_nat (length packages) ++ " package(s) would be upgraded:")
  :: ((λ chunk, ("  " : str) ++ join " " chunk) <$> chunks 6 packages).

End views.

(** ** Effects: requests and output *)

Record request := mkReq { method : str; url : str; bearer : option str }.
Inductive printed := Out (s : str) | ErrOut (s : str).
Record terminal := mkTerminal { sent : list request; lines_out : list printed }.  (* newest first *)

Definition cmd (A : Type) : Type := terminal → A * terminal.
#[global] Instance cmd_ret : MRet cmd := fun A a t => (a, t).
#[global] Instance cmd_bind : MBind cmd := fun A B f m t => let '(a, t') := m t in f a t'.

Definition println (s : str) : cmd () := λ t, ((), mkTerminal (sent t) (Out s :: lines_out t)).
Definition eprintln (s : str) : cmd () := λ t, ((), mkTerminal (sent t) (ErrOut s :: lines_out t)).
Fixpoint println_all (l : list str) : cmd () :=
  match l with [] => mret () | s :: l => _ ← println s; println_all l end.

(** [ExitCode::SUCCESS] is [true]. *)
Definition SUCCESS : bool := true.
Definition FAILURE : bool := false.

Section commands.
Context {json : JsonView}.
(** The HTTP library's answer to the [n]-th request: a transport error, or a
    status and the body, which may fail to be read. *)
Context (http : nat → request → result str (N * result str str)).
(** Standard input: whether it is a terminal, and the line read from it. *)
Context (stdin_is_terminal : bool) (answer : str).

Definition call_json (m url : str) (token : option str) : cmd (result str Value) := λ t,
  let r := mkReq m url ((λ tk, ("Bearer " : str) ++ tk) <$> token) in
  let reply : result str Value :=
    match http (length (sent t)) r with
    | Err e => Err (("transport error: " : str) ++ e)
    | Ok (_, Err e) => Err (("could not read response body: " : str) ++ e)
    | Ok (status, Ok body) =>
        if (400 <=? status)%N then
          match (v ← ok (parse_json body); member "error" v) with
          | Some err => Err (("HTTP " : str) ++ dec status ++ ": " ++ str_of "unknown error" "message" err
                             ++ " (" ++ str_of "unknown" "code" err ++ ")")
          | None => Err (("HTTP " : str) ++ dec status ++ ": " ++ body)
          end
        else map_err (λ e, ("invalid JSON from " : str) ++ url ++ ": " ++ e) (parse_json body)
    end in
  (reply, mkTerminal (r :: sent t) (lines_out t)).
Definition get_json (url : str) (token : option str) : cmd (result str Value) := call_json "GET" url token.

Definition updates_error (base msg : str) : cmd bool :=
  _ ← eprintln ("error: " ++ msg);
  _ ← (if contains "HTTP 403" msg
       then eprintln "hint: this token does not grant the needed permission (`read:updates` to look, `manage:updates` to apply)."
       else if contains "transport error" msg then eprintln ("hint: is the daemon running at " ++ base ++ "?")
       else if contains "bearer token" msg then eprintln "hint: pass --token or set $ABORA_DAEMON_TOKEN."
       else mret ());
  mret FAILURE.

Definition yes_answer (s : str) : bool :=
  bool_decide (trim s ∈ [("y" : str); ("Y" : str); ("yes" : str); ("YES" : str)]).

(** The confirmation of [apply_updates]; [true] is to go on. *)
Definition confirmed (yes : bool) : cmd bool :=
  if yes then mret true
  else if negb stdin_is_terminal then
    _ ← eprintln "refusing to apply without confirmation: run in a terminal, or pass --yes"; mret false
  else
    _ ← println "Apply these updates now? [y/N] ";  (* printed without a line end *)
    if yes_answer answer then mret true
    else _ ← println "cancelled; nothing was requested"; mret false.

Definition DRY_RUN : str := "/api/v1/updates/apply?dry_run=true".
Definition APPLY : str := "/api/v1/updates/apply".

Definition apply_updates (base : str) (token : option str) (dry_run yes as_json : bool) : cmd bool :=
  plan ← call_json "POST" (base ++ DRY_RUN) token;
  match plan with
  | Err msg => updates_error base msg
  | Ok plan =>
      _ ← (if as_json && dry_run then println (pretty plan) else mret ());
      if negb (is_true "permitted" plan) then
        _ ← eprintln ("cannot apply now: " ++ str_of "not permitted" "reason" plan); mret FAILURE
      else
        _ ← (if negb as_json || negb dry_run then println_all (format_plan plan) else mret ());
        if dry_run then mret SUCCESS
        else
          go ← confirmed yes;
          if negb go then mret FAILURE
          else
            r ← call_json "POST" (base ++ APPLY) token;
            match r with
            | Err msg => updates_error base msg
            | Ok v =>
                _ ← (if as_json then println (pretty v)
                     else println ("accepted (request " ++ str_of "-" "id" v
                            ++ "). Follow it with `abora updates`: status shows `installing`, then a history entry appears."));
                mret SUCCESS
            end
  end.

(** [abora updates], once the daemon's address and the token are known; [None]
    is the summary, [Some (dry_run, yes)] is [apply]. *)
Definition updates_command (base : str) (token : option str) (as_json : bool) (c : option (bool * bool)) : cmd bool :=
  match c with
  | None =>
      body ← get_json (base ++ "/api/v1/updates") token;
      match body with
      | Err msg => updates_error base msg
      | Ok body => _ ← println_all (if as_json then [pretty body] else format_updates body); mret SUCCESS
      end
  | Some (dry_run, yes) => apply_updates base token dry_run yes as_json
  end.

(** [abora status], once the daemon's address and the token are known. *)
Definition unreachable (base msg : str) : cmd bool :=
  _ ← eprintln ("error: could not reach " ++ DAEMON_NAME ++ " at " ++ base ++ [LF] ++ "  " ++ msg);
  _ ← eprintln "hint: is the daemon running? try `cargo run -p aborad` or start the systemd unit.";
  _ ← (if contains "bearer token" msg
       then eprintln "hint: the daemon requires authentication; pass --token or set $ABORA_DAEMON_TOKEN."
       else mret ());
  mret FAILURE.

Definition u64_of (k : str) (v : Value) : N := default 0%N (as_u64 (index k v)).

Definition daemon_lines (health : Value) (version : result str Value) : list str :=
  let daemon := index "daemon" health in
  [("daemon:    " : str) ++ str_of "-" "name" daemon ++ " " ++ version_str (index "version" daemon);
   match version with
   | Ok v => ("framework: " : str) ++ version_str (index "framework_version" v)
   | Err msg => ("framework: unavailable (" : str) ++ msg ++ ")"
   end;
   ("status:    " : str) ++ str_of "unknown" "status" health;
   ("api:       " : str) ++ str_of "-" "name" (index "api" health) ++ " (" ++ str_of "-" "path" (index "api" health) ++ ")";
   ("uptime:    " : str) ++ dec (u64_of "uptime_seconds" health) ++ "s (daemon since " ++ str_of "-" "started_at" health ++ ")"].

Definition system_lines (system : result str Value) : list str :=
  match system with
  | Ok sys =>
      [("hostname:  " : str) ++ str_of "-" "hostname" sys;
       ("os:        " : str) ++ os_pretty sys;
       ("kernel:    " : str) ++ str_of "-" "release" (index "kernel" sys);
       ("arch:      " : str) ++ str_of "-" "architecture" sys ++ " (" ++ str_of "-" "machine" sys ++ ")";
       ("memory:    " : str) ++ dec (u64_of "used_bytes" (index "memory" sys)) ++ "/"
         ++ dec (u64_of "total_bytes" (index "memory" sys)) ++ " bytes used";
       ("uptime:    " : str) ++ dec (u64_of "uptime_seconds" sys) ++ "s (host)"]
  | Err msg => [("system:    unavailable (" : str) ++ msg ++ ")"]
  end.

Definition status_command (base : str) (token : option str) : cmd bool :=
  health ← get_json (base ++ "/api/v1/health") token;
  match health with
  | Err msg => unreachable base msg
  | Ok health =>
      version ← get_json (base ++ "/api/v1/version") token;
      system ← get_json (base ++ "/api/v1/system") token;
      _ ← println_all (daemon_lines health version);
      _ ← println_all (system_lines system);
      mret SUCCESS
  end.

End commands.

(** ** The daemon's address and the configuration *)

Section local.
Context {env : Env} {T : TomlValue} {toml : ConfigToml}.
(** The environment variables [ABORA_CONFIG] and [ABORA_DAEMON_URL]. *)
Context (ABORA_CONFIG ABORA_DAEMON_URL : option str).

Definition DEFAULT_CONFIG_PATH : str := "/etc/abora/abora.toml".

Definition load_file (path : str) : io (result str Config) :=
  r ← Config.load path; mret (map_err config_error_to_string r).

Definition load_config (explicit : option str) : io (result str Config) :=
  match explicit, ABORA_CONFIG with
  | Some path, _ => load_file path
  | None, Some path => load_file path
  | None, None =>
      there ← exists_path DEFAULT_CONFIG_PATH;
      if (there : bool) then load_file DEFAULT_CONFIG_PATH
      else mret (Err ("no configuration file found at " ++ DEFAULT_CONFIG_PATH ++ "; pass a path or set $ABORA_CONFIG"))
  end.

Definition trim_slashes (u : str) : str := trim_end_char "/"%char u.

Definition resolve_daemon_url (explicit : option str) : io (result str str) :=
  match explicit, ABORA_DAEMON_URL with
  | Some u, _ => mret (Ok (trim_slashes u))
  | None, Some u => mret (Ok (trim_slashes u))
  | None, None =>
      cfg ← load_config None;
      let addr := match cfg with Ok c => listen_addr (remote c) | Err _ => DEFAULT_LISTEN_ADDR end in
      mret (Ok (if starts_with "http://" addr || starts_with "https://" addr then trim_slashes addr
                else "http://" ++ addr))
  end.

(** [abora config check]: the exit code and the lines. *)
Definition config_check (path : option str) : io (bool * list printed) :=
  cfg ← load_config path;
  mret (match cfg with
        | Err msg => (FAILURE, [ErrOut ("config check failed: " ++ msg)])
        | Ok c =>
            match validate c with
            | Ok _ => (SUCCESS, Out "config OK" :: ((λ l, Out (("  " : str) ++ l)) <$> summary c))
            | Err errors => (FAILURE, ErrOut "config invalid:" :: ((λ e, ErrOut (("  - " : str) ++ e)) <$> errors))
            end
        end).

End local.

(** ** Tokens *)

Section tokens.
Context {sha : Sha256}.
(** [/dev/urandom]: opening it, and reading bytes from it. *)
Context (open_urandom : option str) (read_urandom : nat → result str (list N)).

Definition random_secret (byte_len : nat) : result str str :=
  if negb ((16 <=? byte_len) && (byte_len <=? 128))
  then Err ("secret length must be between 16 and 128 bytes" : str)
  else
    match open_urandom with
    | Some e => Err (("could not open /dev/urandom: " : str) ++ e)
    | None =>
        match read_urandom byte_len with
        | Err e => Err (("could not read /dev/urandom: " : str) ++ e)
        | Ok bytes => Ok (hex_encode bytes)
        end
    end.

Definition DQ : str := [chr 34].
Definition quoted (p : str) : str := DQ ++ p ++ DQ.

Definition token_lines (name secret : str) (permissions : list str) : list str :=
  let hash := sha256_hex secret in
  [("secret:      " : str) ++ secret;
   ("secret_hash: " : str) ++ hash;
   [];
   "Append this to the file referenced by [security].token_file (e.g. /etc/abora/auth.toml):" : str;
   "  [[tokens]]" : str;
   ("  name = " : str) ++ quoted name;
   ("  permissions = [" : str) ++ join ", " (quoted <$> permissions) ++ "]";
   ("  secret_hash = " : str) ++ quoted hash;
   [];
   "note: the secret is shown only once. The daemon stores hashes only." : str].

(** [abora auth generate-token]. *)
Definition generate_token (name : str) (permissions : list str) (secret_bytes : nat) (explicit_secret : option str)
    : bool * list printed :=
  match (match explicit_secret with Some s => Ok s | None => random_secret secret_bytes end) with
  | Err msg => (FAILURE, [ErrOut ("error: " ++ msg)])
  | Ok secret =>
      let permissions := match permissions with [] => ["read_all" : str] | _ => permissions end in
      (SUCCESS, Out <$> token_lines name secret permissions)
  end.

End tokens.

(** ** The program *)

(** The parsed command line. *)
Inductive UpdatesCommand := Apply (dry_run yes : bool).
Inductive Command :=
| CVersion
| CStatus (url token : option str)
| CUpdates (url token : option str) (as_json : bool) (command : option UpdatesCommand)
| CConfigCheck (path : option str)
| CGenerateToken (name : str) (permissions : list str) (secret_bytes : nat) (secret : option str).

Fixpoint print_all (l : list printed) : cmd () :=
  match l with
  | [] => mret ()
  | Out s :: l => _ ← println s; print_all l
  | ErrOut s :: l => _ ← eprintln s; print_all l
  end.

Section program.
Context {env : Env} {T : TomlValue} {toml : ConfigToml} {sha : Sha256} {json : JsonView}.
Context (ABORA_CONFIG ABORA_DAEMON_URL ABORA_DAEMON_TOKEN : option str).
Context (http : nat → request → result str (N * result str str)).
Context (stdin_is_terminal : bool) (answer : str).
Context (open_urandom : option str) (read_urandom : nat → result str (list N)).

Definition cmd_version : cmd bool :=
  _ ← println (FRAMEWORK_NAME ++ " " ++ FRAMEWORK_VERSION);
  _ ← println ("client: " ++ CLI_NAME ++ " " ++ Version.to_string current);
  _ ← println ("daemon: " ++ DAEMON_NAME ++ " (query `abora status` for the running version)");
  _ ← println ("api:    " ++ API_VERSION);
  mret SUCCESS.

(** The start the commands that talk to a daemon share: its address and the
    token. *)
Definition with_daemon (url token : option str) (f : str → option str → cmd bool) : io (cmd bool) :=
  base ← resolve_daemon_url ABORA_CONFIG ABORA_DAEMON_URL url;
  mret (match base with
        | Err msg => _ ← eprintln ("error: " ++ msg); mret FAILURE
        | Ok base => f base (match token with Some t => Some t | None => ABORA_DAEMON_TOKEN end)
        end).

Definition cmd_status (url token : option str) : io (cmd bool) :=
  with_daemon url token (status_command http).
Definition cmd_updates (url token : option str) (as_json : bool) (c : option UpdatesCommand) : io (cmd bool) :=
  with_daemon url token (λ base token,
    updates_command http stdin_is_terminal answer base token as_json
      ((λ '(Apply dry_run yes), (dry_run, yes)) <$> c)).

(** [main]: what it reads of the host, then what it sends and prints. *)
Definition main (c : Command) : io (cmd bool) :=
  match c with
  | CVersion => mret cmd_version
  | CStatus url token => cmd_status url token
  | CUpdates url token as_json c => cmd_updates url token as_json c
  | CConfigCheck path =>
      '(code, lines) ← config_check ABORA_CONFIG path;
      mret (_ ← print_all lines; mret code)
  | CGenerateToken name permissions secret_bytes secret =>
      let '(code, lines) := generate_token open_urandom read_urandom name permissions secret_bytes secret in
      mret (_ ← print_all lines; mret code)
  end.

End program.

(** ** Lemmas *)

(** Commands that send nothing. *)
Definition silent {A} (m : cmd A) : Prop := ∀ t, sent (m t).2 = sent t.

Lemma silent_ret {A} (a : A) : silent (mret a).
Proof. done. Qed.
Lemma silent_bind {A B} (m : cmd A) (f : A → cmd B) : silent m → (∀ a, silent (f a)) → silent (m ≫= f).
Proof.
  intros Hm Hf t. unfold mbind, cmd_bind. specialize (Hm t). destruct (m t) as [a t1]. simpl in *.
  by rewrite Hf.
Qed.
Lemma silent_println s : silent (println s).
Proof. done. Qed.
Lemma silent_eprintln s : silent (eprintln s).
Proof. done. Qed.
#[export] Hint Resolve silent_ret silent_bind silent_println silent_eprintln : abora.
Lemma silent_println_all l : silent (println_all l).
Proof. induction l; simpl; auto with abora. Qed.
#[export] Hint Resolve silent_println_all : abora.

Ltac silence := repeat first [apply silent_bind; [|intros ?]|case_match]; auto with abora.

(** Step through a command. *)
Lemma cmd_inv {A B} (m : cmd A) (f : A → cmd B) t b t' :
  (m ≫= f) t = (b, t') → ∃ a t1, m t = (a, t1) ∧ f a t1 = (b, t').
Proof. unfold mbind, cmd_bind. destruct (m t) as [a t1]. eauto. Qed.
Lemma silent_inv {A} (m : cmd A) t a t' : silent m → m t = (a, t') → sent t' = sent t.
Proof. intros Hm E. specialize (Hm t). by rewrite E in Hm. Qed.

Section requests.
Context {json : JsonView} (http : nat → request → result str (N * result str str)).
Context (stdin_is_terminal : bool) (answer : str).

(** The [n]-th request was answered with success and the value [v]. *)
Definition replied (n : nat) (r : request) (v : Value) : Prop :=
  ∃ status body, http n r = Ok (status, Ok body) ∧ (status < 400)%N ∧ parse_json body = Ok v.
Definition with_bearer (m url : str) (token : option str) : request :=
  mkReq m url ((λ tk, ("Bearer " : str) ++ tk) <$> token).

Lemma call_json_inv m u token t r t' :
  call_json http m u token t = (r, t') →
  sent t' = with_bearer m u token :: sent t
  ∧ ∀ v, r = Ok v ↔ replied (length (sent t)) (with_bearer m u token) v.
Proof.
  unfold call_json, replied, with_bearer. cbv zeta. set (rq := mkReq _ _ _). intros [= <- <-].
  split; [done|]. intros v. destruct (http _ rq) as [[status [body|e]]|e]; [|naive_solver..].
  destruct (400 <=? status)%N eqn:E; bool_norm.
  - split; [by destruct (_ ≫= _)|]. intros (? & ? & [= <- <-] & ? & _). lia.
  - destruct (parse_json body) as [v'|e] eqn:Ep; cbn [map_err]; split.
    + intros [= <-]. eauto.
    + intros (? & ? & [= <- <-] & _ & H). congruence.
    + done.
    + intros (? & ? & [= <- <-] & _ & H). congruence.
Qed.

Lemma updates_error_inv base msg t code t' :
  updates_error base msg t = (code, t') → sent t' = sent t ∧ code = false.
Proof.
  intros E. split.
  - eapply silent_inv; [|exact E]. unfold updates_error. silence.
  - unfold updates_error in E. apply cmd_inv in E as (? & t1 & _ & E). apply cmd_inv in E as (? & t2 & _ & E).
    by injection E as <- _.
Qed.

(** What is printed of an accepted request. *)
Definition accepted_line (v : Value) : str :=
  "accepted (request " ++ str_of "-" "id" v
    ++ "). Follow it with `abora updates`: status shows `installing`, then a history entry appears.".

Lemma confirmed_inv yes t go t' :
  confirmed stdin_is_terminal answer yes t = (go, t') →
  sent t' = sent t ∧ (go = true ↔ yes = true ∨ (stdin_is_terminal = true ∧ yes_answer answer = true)).
Proof.
  intros E. split.
  - eapply silent_inv; [|exact E]. unfold confirmed. silence.
  - unfold confirmed in E. destruct yes; [injection E as <- _; naive_solver|].
    destruct stdin_is_terminal; simpl in E.
    + apply cmd_inv in E as (? & t1 & _ & E). destruct (yes_answer answer).
      * injection E as <- _. naive_solver.
      * apply cmd_inv in E as (? & t2 & _ & E). injection E as <- _. naive_solver.
    + apply cmd_inv in E as (? & t1 & _ & E). injection E as <- _. naive_solver.
Qed.

(** The requests of [apply_updates], its exit code and its last line. *)
Lemma apply_updates_inv base token dry_run yes as_json t code t' :
  apply_updates http stdin_is_terminal answer base token dry_run yes as_json t = (code, t') →
  let n := length (sent t) in
  let ask := with_bearer "POST" (base ++ DRY_RUN) token in
  let go := with_bearer "POST" (base ++ APPLY) token in
  let permitted := ∃ plan, replied n ask plan ∧ is_true "permitted" plan = true in
  (sent t' = ask :: sent t ∧ (code = true ↔ dry_run = true ∧ permitted))
  ∨ (sent t' = go :: ask :: sent t ∧ dry_run = false ∧ permitted
     ∧ (yes = true ∨ (stdin_is_terminal = true ∧ yes_answer answer = true))
     ∧ if code then ∃ v, replied (S n) go v ∧ (as_json = false → head (lines_out t') = Some (Out (accepted_line v)))
       else ¬ ∃ v, replied (S n) go v).
Proof.
  intros E n ask go permitted. unfold apply_updates in E.
  apply cmd_inv in E as (plan & t1 & E1 & E). apply call_json_inv in E1 as [Hs Hp]. fold ask n in Hs, Hp.
  destruct plan as [plan|msg].
  2:{ apply updates_error_inv in E as [Hs' ->]. left. split; [congruence|]. split; [done|].
      intros (_ & plan & Hr & _). apply Hp in Hr. done. }
  pose proof (proj1 (Hp plan) eq_refl) as Hr.
  apply cmd_inv in E as (u1 & t2 & E2 & E). apply silent_inv in E2; [|silence].
  destruct (is_true "permitted" plan) eqn:Hpl; simpl in E.
  2:{ apply cmd_inv in E as (u2 & t3 & E3 & E). apply silent_inv in E3; [|auto with abora]. injection E as <- <-.
      left. split; [congruence|]. split; [done|]. intros (_ & plan' & Hr' & Hpl').
      apply Hp in Hr'. injection Hr' as <-. congruence. }
  assert (Hperm : permitted) by (exists plan; done).
  apply cmd_inv in E as (u2 & t3 & E3 & E). apply silent_inv in E3; [|silence].
  destruct dry_run; [injection E as <- <-; left; split; [congruence|done]|].
  apply cmd_inv in E as (ok & t4 & E4 & E). apply confirmed_inv in E4 as [Hs4 Hok].
  destruct ok; simpl in E; [|injection E as <- <-; left; split; [congruence|naive_solver]].
  right. apply cmd_inv in E as (r & t5 & E5 & E). apply call_json_inv in E5 as [Hs5 Hr5]. fold go in Hs5, Hr5.
  assert (Hlen : length (sent t4) = S n) by (rewrite Hs4, E3, E2, Hs; done). rewrite Hlen in Hr5.
  assert (sent t' = sent t5 ∧ match r with
      | Ok v => code = true ∧ (as_json = false → head (lines_out t') = Some (Out (accepted_line v)))
      | Err _ => code = false end) as [Hfin Hcode].
  { destruct r as [v|msg]; [|by apply updates_error_inv in E as [Hs' ->]].
    apply cmd_inv in E as (u3 & t6 & E6 & E). injection E as <- <-.
    split; [by apply silent_inv in E6; [|silence]|]. split; [done|]. intros ->. by injection E6 as _ <-. }
  split; [by rewrite Hfin, Hs5, Hs4, E3, E2, Hs|]. split_and!; [done|done|by apply Hok|].
  destruct r as [v|msg]; [destruct Hcode as [-> Hl]; exists v; split; [by apply Hr5|done]|]. subst code.
  intros (v & Hv). by apply Hr5 in Hv.
Qed.

(** ** Properties *)

(** C33: the client never applies unasked. [abora updates apply] first sends the
    dry run, and sends the real request at most once, after it: only when it is
    not itself a dry run, the daemon answered that applying is permitted, and the
    user passed [--yes] or answered yes in a terminal. It succeeds exactly when a
    dry run is permitted or the real request was accepted. *)
Theorem apply_confirmed base token dry_run yes as_json t code t' :
  apply_updates http stdin_is_terminal answer base token dry_run yes as_json t = (code, t') →
  let n := length (sent t) in
  let ask := with_bearer "POST" (base ++ DRY_RUN) token in
  let go := with_bearer "POST" (base ++ APPLY) token in
  let permitted := ∃ plan, replied n ask plan ∧ is_true "permitted" plan = true in
  (sent t' = ask :: sent t ∧ (code = true ↔ dry_run = true ∧ permitted))
  ∨ (sent t' = go :: ask :: sent t ∧ dry_run = false ∧ permitted
     ∧ (yes = true ∨ (stdin_is_terminal = true ∧ yes_answer answer = true))
     ∧ (code = true ↔ ∃ v, replied (S n) go v)).
Proof.
  intros E n ask go permitted. destruct (apply_updates_inv _ _ _ _ _ _ _ _ E) as [H|(Hs & Hd & Hp & Hy & H)]; [by left|].
  right. split_and!; [done..|]. destruct code; naive_solver.
Qed.

End requests.

(** *** The whole program *)

Section whole.
Context {env : Env} {T : TomlValue} {toml : ConfigToml} {sha : Sha256} {json : JsonView}.
Context (ABORA_CONFIG ABORA_DAEMON_URL ABORA_DAEMON_TOKEN : option str).
Context (http : nat → request → result str (N * result str str)).
Context (stdin_is_terminal : bool) (answer : str).
Context (open_urandom : option str) (read_urandom : nat → result str (list N)).

Lemma silent_print_all l : silent (print_all l).
Proof. induction l as [|[s|s] l IH]; simpl; auto with abora. Qed.

(** A command that only reads. *)
Definition reads_only (m : cmd bool) : Prop :=
  ∀ t code t', m t = (code, t') → ∃ new, sent t' = new ++ sent t ∧ Forall (λ r, method r = "GET") new.

Lemma silent_reads_only (m : cmd bool) : silent m → reads_only m.
Proof. intros H t code t' E. exists []. split; [by eapply silent_inv|done]. Qed.

Lemma get_then {A} (u : str) token (f : result str Value → cmd A) (m := get_json http u token ≫= f) t a t' :
  m t = (a, t') → ∃ r t1, sent t1 = with_bearer "GET" u token :: sent t ∧ f r t1 = (a, t').
Proof.
  intros E. apply cmd_inv in E as (r & t1 & E1 & E). apply call_json_inv in E1 as [Hs _]. by exists r, t1.
Qed.

Lemma status_reads_only base token : reads_only (status_command http base token).
Proof.
  intros t code t' E. unfold status_command in E. apply get_then in E as (r & t1 & S1 & E).
  destruct r as [health|msg].
  - apply get_then in E as (r2 & t2 & S2 & E). apply get_then in E as (r3 & t3 & S3 & E).
    apply cmd_inv in E as (u1 & t4 & E4 & E). apply silent_inv in E4; [|auto with abora].
    apply cmd_inv in E as (u2 & t5 & E5 & E). apply silent_inv in E5; [|auto with abora].
    injection E as <- <-. rewrite E5, E4, S3, S2, S1. eexists [_; _; _]. split; [done|]. by repeat constructor.
  - apply silent_inv in E; [|unfold unreachable; silence]. rewrite E, S1. eexists [_]. split; [done|]. by repeat constructor.
Qed.

Lemma summary_reads_only base token as_json :
  reads_only (updates_command http stdin_is_terminal answer base token as_json None).
Proof.
  intros t code t' E. cbn [updates_command] in E. apply get_then in E as (r & t1 & S1 & E).
  apply silent_inv in E; [|destruct r; [silence|unfold updates_error; silence]].
  rewrite E, S1. eexists [_]. split; [done|]. by repeat constructor.
Qed.

(** Only [abora updates apply] ever sends anything but a [GET]; [version],
    [config check] and [auth generate-token] send nothing at all. *)
Theorem main_reads_only c w m w' :
  main ABORA_CONFIG ABORA_DAEMON_URL ABORA_DAEMON_TOKEN http stdin_is_terminal answer
    open_urandom read_urandom c w = (m, w') →
  match c with
  | CVersion | CConfigCheck _ | CGenerateToken _ _ _ _ => silent m
  | CStatus _ _ | CUpdates _ _ _ None => reads_only m
  | CUpdates _ _ _ (Some (Apply _ _)) => True
  end.
Proof.
  destruct c as [|url token|url token as_json [[dry yes]|]|path|name permissions n secret];
    cbn [main]; intros H; try done.
  - injection H as <- _. unfold cmd_version. silence.
  - unfold cmd_status, with_daemon in H. step_in H as base w1 E1. injection H as <- _.
    destruct base; [apply status_reads_only|apply silent_reads_only; silence].
  - unfold cmd_updates, with_daemon in H. step_in H as base w1 E1. injection H as <- _.
    destruct base; [apply summary_reads_only|apply silent_reads_only; silence].
  - step_in H as x w1 E1. destruct x as [code lines]. injection H as <- _.
    apply silent_bind; [apply silent_print_all|]. intros; apply silent_ret.
  - destruct (generate_token _ _ _ _ _ _) as [code lines]. injection H as <- _.
    apply silent_bind; [apply silent_print_all|]. intros; apply silent_ret.
Qed.

End whole.

Section shown.
Context {json : JsonView}.

(** [v] is the JSON form of a version: its numbers, and its optional parts when
    present. *)
Definition is_version (v : Value) (ver : Version) : Prop :=
  as_u64 (index "major" v) = Some (major ver) ∧ as_u64 (index "minor" v) = Some (minor ver)
  ∧ as_u64 (index "patch" v) = Some (patch ver)
  ∧ as_str (index "prerelease" v) = prerelease ver ∧ as_str (index "build" v) = build ver.

(** The client shows versions as the framework prints them: the rendering of
    a version's JSON form is the version's own text, so it parses back to it. *)
Theorem version_str_version (v : Value) (ver : Version) :
  is_version v ver →
  version_str v = Version.to_string ver
  ∧ (displayable ver → Version.parse (version_str v) = Ok ver).
Proof.
  intros (Hma & Hmi & Hpa & Hpre & Hb).
  assert (Hs : version_str v = Version.to_string ver).
  { unfold version_str. rewrite Hma, Hmi, Hpa, Hpre, Hb. rewrite to_string_suffixes. unfold core_string, suffix.
    destruct (prerelease ver), (build ver); simpl; by rewrite <-?app_assoc, ?app_nil_r. }
  split; [done|]. rewrite Hs. apply parse_to_string.
Qed.

(** The plan lists every package, six to a row. *)
Lemma format_plan_rows (plan : Value) :
  ∃ rows, concat rows = plan_packages plan ∧ Forall (λ row, length row ≤ 6) rows
    ∧ format_plan plan = (dec_nat (length (plan_packages plan)) ++ " package(s) would be upgraded:")
                         :: ((λ row, ("  " : str) ++ join " " row) <$> rows).
Proof.
  exists (chunks 6 (plan_packages plan)).
  destruct (chunks_go_spec (length (plan_packages plan)) 6 (plan_packages plan)) as [Hc Hf]; [lia|done|].
  by split_and!.
Qed.

End shown.

Lemma trim_end_char_last c s r : trim_end_char c s ≠ r ++ [c].
Proof.
  intros H. apply (f_equal (@rev ascii)) in H. unfold trim_end_char in H. rewrite rev_involutive, rev_app_distr in H.
  revert H. induction (rev s) as [|a l IH]; simpl; [done|]. destruct (decide (a = c)); [done|]. congruence.
Qed.

(** An address given by the user is taken without its trailing slashes; there is
    always one, and finding it changes nothing. *)
Lemma resolve_daemon_url_ok {env : Env} {T : TomlValue} {toml : ConfigToml} conf_var url_var explicit w r w' :
  resolve_daemon_url conf_var url_var explicit w = (r, w') →
  ∃ u, r = Ok u ∧ (explicit ≠ None ∨ url_var ≠ None → ∀ r, u ≠ r ++ ["/"%char]).
Proof.
  unfold resolve_daemon_url. intros E. destruct explicit as [u|]; [|destruct url_var as [u|]].
  - injection E as <- _. eexists. split; [done|]. intros _. apply trim_end_char_last.
  - injection E as <- _. eexists. split; [done|]. intros _. apply trim_end_char_last.
  - step_in E as cfg w1 E1. injection E as <- _. eexists. split; [done|]. by intros [?|?].
Qed.

(** ** Examples *)

(** A view in which every request is permitted and accepted. *)
Definition example_view : JsonView := {|
  Value := unit; index _ _ := tt; member _ _ := None; as_str _ := None; as_u64 _ := Some 1%N;
  as_bool _ := Some true; as_array _ := Some []; is_object _ := true; parse_json _ := Ok tt; pretty _ := [];
|}.

Lemma apply_confirmed_witness :
  let j := example_view in
  let ok_http (n : nat) (r : request) : result str (N * result str str) := Ok (200%N, Ok ([] : str)) in
  let '(code, t') := apply_updates ok_http false [] "http://d" None false true false (mkTerminal [] []) in
  code = true ∧ method <$> sent t' = [("POST" : str); ("POST" : str)].
Proof.
  intros j ok_http.
  destruct (apply_updates ok_http false [] "http://d" None false true false (mkTerminal [] [])) as [code t'] eqn:E.
  destruct (apply_confirmed ok_http false [] "http://d" None false true false (mkTerminal [] []) code t' E)
    as [[Hs _]|(Hs & _ & _ & _ & Hc)].
  - exfalso. vm_compute in E. injection E as _ <-. discriminate Hs.
  - split; [|rewrite Hs; reflexivity]. apply Hc. exists tt, 200%N, []. split; [reflexivity|]. split; reflexivity.
Defined.

Lemma version_str_version_witness :
  let j := example_view in
  version_str (json := j) tt = "1.1.1" ∧ Version.to_string (mkVersion 1 1 1 None None) = "1.1.1".
Proof.
  intros j. destruct (version_str_version (json := j) tt (mkVersion 1 1 1 None None)) as [H _].
  - split_and!; reflexivity.
  - split; [rewrite H|]; reflexivity.
Defined.
