(* ===== verification/Agree.v ===== *)
(** * The client reads what the daemon serves

    The daemon builds its answers from typed values, the client picks them apart by
    member names. Here the one meets the other: for every answer the daemon can
    give, what the client shows is what the values say. *)

From S2P Require Import Prelude Str World Net Version Log Types Store Apply Api Sysinfo Services Config Schedule Helper Tokens Auth State Server AppState Handlers System Wire Router Cli Derive.

Section agree.
Context {text : JsonText}.
(** The message of the JSON parser for a text that is none. *)
Context (parse_error : str → str).

#[local] Instance wire_view : JsonView := {|
  Value := json;
  index := jindex;
  member := jmember;
  as_str := from_str_json;
  as_u64 v := match v with JNum n => Some n | _ => None end;
  as_bool := from_bool_json;
  as_array v := match v with JArr l => Some l | _ => None end;
  is_object v := match v with JObj _ => true | _ => false end;
  parse_json s := match from_text s with Some v => Ok v | None => Err (parse_error s) end;
  pretty := to_text_pretty;
|}.

(** ** What the typed answers say *)

Definition status_says (r : UpdatesResponse) : str :=
  match ur_status r with
  | None => "unknown (no check has finished yet)"
  | Some UpToDate => "up to date"
  | Some (UpdateAvailable _) => dec_nat (length (ur_available r)) ++ " update(s) available"
  | Some (Installing _ _) => "installing an update now"
  | Some (StatusError message) => "error: " ++ message
  end.
Definition policy_says (i : ScheduleInfo) : str :=
  "policy:     maintenance window "
  ++ match si_in_maintenance_window i with Some true => "open" | Some false => "closed" | None => "unknown" end
  ++ "; applying is " ++ (if si_apply_permitted i then "permitted now" else "not permitted now")
  ++ "; checks every " ++ dec (si_check_interval_seconds i) ++ "s".
Definition reboot_says (r : RebootStatus) : str :=
  if required r then
    "reboot:     REQUIRED" ++ match pending_since r with Some t => " (since " ++ t ++ ")" | None => [] end
    ++ match reason r with Some why => ": " ++ why | None => [] end
  else "reboot:     not required".
Definition available_says (l : list AvailableUpdate) : list str :=
  match l with
  | [] => []
  | _ => [[] : str; "available:" : str] ++ ((λ u, "  " ++ au_summary u) <$> take 10 l)
         ++ (if 10 <? length l
             then [("  ... and " : str) ++ dec_nat (length l - 10) ++ " more (use --json for the full list)"] else [])
  end.
Definition entry_says (e : UpdateHistoryEntry) : str :=
  "  " ++ applied_at e ++ " " ++ (if he_succeeded e then "ok    " else "FAILED") ++ " " ++ default [] (he_note e).
Definition history_says (l : list UpdateHistoryEntry) : list str :=
  match l with
  | [] => []
  | _ => [[] : str; "history (newest first):" : str] ++ (entry_says <$> take 5 l)
  end.
Definition updates_says (r : UpdatesResponse) : list str :=
  [("status:     " : str) ++ status_says r; ("last check: " : str) ++ default ("never" : str) (ur_last_check r)]
  ++ match ur_schedule r with Some i => [policy_says i] | None => [] end
  ++ [reboot_says (ur_reboot r)] ++ available_says (ur_available r) ++ history_says (ur_history r).

(** The name the client finds for an architecture; one the daemon does not know is
    an object, in which the client finds none. *)
Definition architecture_says (a : Architecture) : str :=
  match architecture_to_json a with JStr s => s | _ => "-" end.
Definition os_says (o : OsInfo) : str :=
  match os_pretty_name o, os_name o, os_version o with
  | Some p, _, _ => p
  | None, Some n, Some v => n ++ " " ++ v
  | None, Some n, None => n
  | None, None, _ => os_id o
  end.
Definition daemon_says (h : HealthResponse) (v : VersionResponse) : list str :=
  [("daemon:    " : str) ++ di_name (hr_daemon h) ++ " " ++ Version.to_string (di_version (hr_daemon h));
   ("framework: " : str) ++ Version.to_string (vr_framework_version v);
   ("status:    " : str) ++ health_name (hr_status h);
   ("api:       " : str) ++ av_name (hr_api h) ++ " (" ++ av_path (hr_api h) ++ ")";
   ("uptime:    " : str) ++ dec (hr_uptime_seconds h) ++ "s (daemon since " ++ hr_started_at h ++ ")"].
Definition system_says (s : SystemResponse) : list str :=
  [("hostname:  " : str) ++ sy_hostname s;
   ("os:        " : str) ++ os_says (sy_os s);
   ("kernel:    " : str) ++ k_release (sy_kernel s);
   ("arch:      " : str) ++ architecture_says (sy_architecture s) ++ " (" ++ sy_machine s ++ ")";
   ("memory:    " : str) ++ dec (used_bytes (sy_memory s)) ++ "/" ++ dec (total_bytes (sy_memory s)) ++ " bytes used";
   ("uptime:    " : str) ++ dec (sy_uptime_seconds s) ++ "s (host)"].

(** ** Lemmas *)

Lemma updates_member_available r : array_of "available" (updates_to_json r) = available_to_json <$> ur_available r.
Proof. destruct r as [[] [] ? [] ? ?]; reflexivity. Qed.
Lemma updates_member_history r : array_of "history" (updates_to_json r) = to_json <$> ur_history r.
Proof. destruct r as [[] [] ? [] ? ?]; reflexivity. Qed.

Lemma available_lines_says r : available_lines (updates_to_json r) = available_says (ur_available r).
Proof.
  unfold available_lines. rewrite updates_member_available.
  destruct (ur_available r) as [|u l] eqn:E; [done|]. unfold available_says.
  change ((available_to_json <$> u :: l)) with (available_to_json u :: (available_to_json <$> l)) at 1.
  cbv iota. rewrite <- fmap_take, length_fmap, <- list_fmap_compose.
  change SHOW_AVAILABLE with 10. cbn [app]. do 3 f_equal. apply list_fmap_ext.
  intros i [? ? ? ? [] ? [] []] _; reflexivity.
Qed.

Lemma history_lines_says r : history_lines (updates_to_json r) = history_says (ur_history r).
Proof.
  unfold history_lines. rewrite updates_member_history.
  destruct (ur_history r) as [|e l] eqn:E; [done|]. unfold history_says.
  rewrite fmap_cons. cbv iota. rewrite <- fmap_cons, <- fmap_take, <- list_fmap_compose.
  change SHOW_HISTORY with 5. cbn [app]. do 2 f_equal. apply list_fmap_ext.
  intros i [? ? ? ? ? ok []] _; destruct ok; reflexivity.
Qed.

Lemma version_says (v : Version) : version_str (to_json v) = Version.to_string v.
Proof.
  destruct v as [a b c p u]. set (j := to_json (mkVersion a b c p u)). unfold version_str.
  assert (as_u64 (index "major" j) = Some a) as -> by reflexivity.
  assert (as_u64 (index "minor" j) = Some b) as -> by reflexivity.
  assert (as_u64 (index "patch" j) = Some c) as -> by reflexivity.
  assert (as_str (index "prerelease" j) = p) as -> by (by destruct p).
  assert (as_str (index "build" j) = u) as -> by (by destruct u).
  unfold Version.to_string. cbn [major minor patch prerelease build].
  destruct p, u; by rewrite ?app_nil_r, <-?app_assoc.
Qed.

Lemma reboot_says_line (r : RebootStatus) j : index "reboot" j = to_json r → reboot_line j = reboot_says r.
Proof. unfold reboot_line. intros ->. by destruct r as [[] [] []]. Qed.

Lemma policy_says_lines i j : member "schedule" j = Some (schedule_to_json i) → policy_lines j = [policy_says i].
Proof. unfold policy_lines. intros ->. destruct i as [n [[]|] [] ? ?]; reflexivity. Qed.

(** The text of an answer, as the client gets it over HTTP. *)
Definition error_reply (b : ApiErrorBody) (reply : result str (N * result str str)) : Prop :=
  ∃ body v id, reply = Ok (http_status (er_code b), Ok body) ∧ from_text body = Some v
    ∧ envelope v (er_code b) (er_message b) id.
Definition ok_reply (status : N) (v : json) : result str (N * result str str) := Ok (status, Ok (to_text v)).
Definition error_says (b : ApiErrorBody) : str :=
  "HTTP " ++ dec (http_status (er_code b)) ++ ": " ++ er_message b ++ " (" ++ code_name (er_code b) ++ ")".

Context {text_ok : JsonTextOk text}.

Lemma jmember_members k v m : members v = Some m → jmember k v = m !! k.
Proof.
  destruct v as [| | | | | |l]; try done. intros [= <-]. unfold jmember.
  assert (Hr : rev (filter (λ kv, fst kv = k) l) = filter (λ kv, fst kv = k) (rev l)).
  { induction l as [|x l IH]; [done|]. simpl. rewrite list.filter_app, <-IH, !filter_cons.
    case_decide; [done|]. by rewrite filter_nil, app_nil_r. }
  rewrite Hr. generalize (rev l) as l'. clear. induction l' as [|[x v] l IH]; [done|].
  rewrite filter_cons. simpl. case_decide as E.
  - simpl in E. subst x. by rewrite lookup_insert_eq.
  - by rewrite lookup_insert_ne.
Qed.

Lemma call_error http m url token t b :
  error_reply b (http (length (sent t)) (mkReq m url ((λ tk, ("Bearer " : str) ++ tk) <$> token))) →
  fst (call_json http m url token t) = Err (error_says b).
Proof.
  intros (body & v & id & H & Hv & (o & e & e' & Ho & He & Hm & Hc & Hmsg & _)). unfold call_json. rewrite H. unfold fst.
  assert ((400 <=? http_status (er_code b))%N = true) as -> by (by destruct (er_code b)).
  cbn [parse_json wire_view]. rewrite Hv.
  assert (member "error" v = Some e) as E by (cbn [member wire_view]; by rewrite (jmember_members _ _ _ Ho)).
  assert (∀ k s, e' !! k = Some (JStr s) → ∀ d, str_of d k e = s) as Hs.
  { intros k s Hk d. unfold str_of. cbn [index as_str wire_view]. unfold jindex.
    by rewrite (jmember_members _ _ _ Hm), Hk. }
  cbv [ok]. cbn [mbind option_bind]. rewrite E. by rewrite (Hs _ _ Hmsg), (Hs _ _ Hc).
Qed.

Lemma call_ok http m url token t status v :
  (status < 400)%N →
  http (length (sent t)) (mkReq m url ((λ tk, ("Bearer " : str) ++ tk) <$> token)) = ok_reply status v →
  fst (call_json http m url token t) = Ok v.
Proof.
  intros Hs H. unfold call_json. rewrite H. unfold ok_reply, fst.
  assert ((400 <=? status)%N = false) as -> by (apply N.leb_gt; lia).
  cbn [parse_json wire_view]. by rewrite from_to_text.
Qed.

Lemma println_all_out l t :
  println_all l t = ((), mkTerminal (sent t) (rev (Out <$> l) ++ lines_out t)).
Proof.
  revert t. induction l as [|x l IH]; intros t; [by destruct t|].
  cbn [println_all]. unfold mbind, cmd_bind. cbn [println]. rewrite IH. cbn. by rewrite <- app_assoc.
Qed.

Lemma plan_says r : plan_packages (apply_to_json r) = ap_packages r.
Proof.
  unfold plan_packages. assert (array_of "packages" (apply_to_json r) = JStr <$> ap_packages r) as ->
    by (destruct r as [? ? [] [] ?]; reflexivity).
  generalize (ap_packages r) as l. induction l as [|x l IH]; [done|]. change (x :: omap as_str (JStr <$> l) = x :: l). by rewrite IH.
Qed.
Lemma permitted_says r : is_true "permitted" (apply_to_json r) = ap_permitted r.
Proof. destruct r as [? [] [] [] ?]; reflexivity. Qed.
Lemma reason_says r d : str_of d "reason" (apply_to_json r) = default d (ap_reason r).
Proof. destruct r as [? ? [] [] ?]; reflexivity. Qed.
Lemma id_says r d : str_of d "id" (apply_to_json r) = default d (ap_id r).
Proof. destruct r as [? ? [] [] ?]; reflexivity. Qed.

Lemma format_says r : format_updates (updates_to_json r) = updates_says r.
Proof.
  unfold format_updates, updates_says. rewrite available_lines_says, history_lines_says.
  assert (status_line (updates_to_json r) = "status:     " ++ status_says r) as ->.
  { unfold status_line, status_says. rewrite updates_member_available, length_fmap.
    by destruct r as [[[| |? []|]|] [] ? [] ? ?]. }
  assert (str_of "never" "last_check" (updates_to_json r) = default ("never" : str) (ur_last_check r)) as ->
    by (destruct r as [[] [] ? [] ? ?]; reflexivity).
  rewrite (reboot_says_line (ur_reboot r)) by (destruct r as [[] [] ? [] ? ?]; reflexivity).
  cbn [app]. do 2 f_equal. destruct (ur_schedule r) as [i|] eqn:E.
  - rewrite (policy_says_lines i); [done|]. destruct r as [[] [] ? [] ? ?]; simpl in E; by simplify_eq.
  - assert (policy_lines (updates_to_json r) = []) as ->; [|done].
    destruct r as [[] [] ? [] ? ?]; simpl in E; by simplify_eq.
Qed.

Lemma daemon_says_lines h v :
  daemon_lines (health_to_json h) (Ok (version_response_to_json v)) = daemon_says h v.
Proof.
  unfold daemon_lines, daemon_says. destruct h as [hs [dn dv] [an ap] up at_ cs], v as [fn fv vd va [c|]].
  all: rewrite <- !version_says; reflexivity.
Qed.
Lemma os_says_pretty j o : index "os" j = os_to_json o → os_pretty j = os_says o.
Proof. unfold os_pretty. intros ->. by destruct o as [? [] [] [] ? ? ?]. Qed.
Lemma system_says_lines r : system_lines (Ok (system_to_json r)) = system_says r.
Proof.
  unfold system_lines, system_says. rewrite (os_says_pretty _ (sy_os r)) by (by destruct r as [? [] [] [] ? ? ? ? ? ? ?]).
  destruct r as [h [d|] [o|] a m up os [kn kr kv] [? ? ? ? ? ?] cpu v]; destruct a; reflexivity.
Qed.

Lemma call_run http m url token t r :
  fst (call_json http m url token t) = r →
  call_json http m url token t = (r, mkTerminal (with_bearer m url token :: sent t) (lines_out t)).
Proof. by intros <-. Qed.

Lemma updates_error_out base msg t :
  ∃ t', updates_error base msg t = (false, t') ∧ ErrOut ("error: " ++ msg) ∈ lines_out t'.
Proof.
  unfold updates_error, mbind, cmd_bind. cbn [eprintln].
  destruct (contains "HTTP 403" msg); [eexists; split; [reflexivity|]; cbn; set_solver|].
  destruct (contains "transport error" msg); [eexists; split; [reflexivity|]; cbn; set_solver|].
  destruct (contains "bearer token" msg); eexists; (split; [reflexivity|]); cbn; set_solver.
Qed.

Context (http : nat → request → result str (N * result str str)).
Context (stdin_is_terminal : bool) (answer : str).

Lemma updates_shown base token t r :
  http (length (sent t)) (with_bearer "GET" (base ++ "/api/v1/updates") token) = ok_reply 200 (updates_to_json r) →
  ∃ rq, updates_command http stdin_is_terminal answer base token false None t
    = (true, mkTerminal (rq :: sent t) (rev (Out <$> updates_says r) ++ lines_out t)).
Proof.
  intros H. unfold updates_command, get_json, mbind, cmd_bind.
  rewrite (call_run _ _ _ _ _ _ (call_ok http _ _ _ t 200 _ ltac:(lia) H)), println_all_out, format_says.
  by eexists.
Qed.
Lemma updates_refused base token t b :
  error_reply b (http (length (sent t)) (with_bearer "GET" (base ++ "/api/v1/updates") token)) →
  ∃ t', updates_command http stdin_is_terminal answer base token false None t = (false, t')
    ∧ ErrOut ("error: " ++ error_says b) ∈ lines_out t'.
Proof.
  intros H. unfold updates_command, get_json, mbind, cmd_bind.
  rewrite (call_run _ _ _ _ _ _ (call_error http _ _ _ t b H)). apply updates_error_out.
Qed.

(** ** Over HTTP *)

(** The client's request as the daemon receives it from this machine, and the
    daemon's answer as the client's HTTP library returns it. *)
Definition received (base : str) (r : request) : Request :=
  mkRequest (method r) (drop (length base) (url r)) None (bearer r) (Some (V4 [127; 0; 0; 1]%N)) None None.
Definition answered (closed : str) (o : outcome Response) : result str (N * result str str) :=
  match o with Ret r => Ok (rs_status r, Ok (rs_body r)) | Panic => Err closed end.

Section daemon.
Context {env : Env} {sha : Sha256} {T : TomlValue} {X : Axum} {axum_ok : AxumOk X}.
Context {serde : Serde StoreData} {request_serde : Serde ApplyRequest}.
Context (random_hash : nat → str → N) (fresh_id : nat → str).
Context {F : Type} (parse_f64 : str → option F) (is_finite is_negative : F → bool)
        (from_secs_f64 : F → outcome N) (ARCH : str) (BUILD_COMMIT : option str) (closed : str).

Lemma updates_route : dispatch (routes "/api/v1") "GET" "/api/v1/updates" = Matched 6 [].
Proof.
  apply dispatch_exact; [reflexivity|reflexivity|]. intros j r Hj Hr.
  do 7 (destruct j as [|j]; [injection Hj as <-; try done; vm_compute in Hr; discriminate Hr|]). done.
Qed.

Lemma apply_route : dispatch (routes "/api/v1") "POST" APPLY = Matched 5 [].
Proof.
  apply dispatch_exact; [reflexivity|reflexivity|]. intros j r Hj Hr.
  do 7 (destruct j as [|j]; [injection Hj as <-; try done; vm_compute in Hr; discriminate Hr|]). done.
Qed.
(** The two targets of [apply_updates] and their parameters. *)
Lemma dry_run_target :
  dispatch (routes "/api/v1") "POST" DRY_RUN = Matched 5 [] ∧ query_map DRY_RUN = Some [("dry_run" : str, "true" : str)].
Proof.
  split.
  - rewrite <-apply_route. apply (dispatch_query (routes "/api/v1") "POST" APPLY "dry_run=true"). reflexivity.
  - apply (query_one APPLY "dry_run" "true"); reflexivity.
Qed.
Lemma apply_target : dispatch (routes "/api/v1") "POST" APPLY = Matched 5 [] ∧ query_map APPLY = Some [].
Proof. split; [apply apply_route|by apply query_none]. Qed.

Abbreviation handle' :=
  (handle random_hash fresh_id parse_f64 is_finite is_negative from_secs_f64 ARCH BUILD_COMMIT "/api/v1").

Lemma error_answered e id : er_request_id e = None →
  error_reply e (answered closed (Ret (with_id id (error_response encode_error e)))).
Proof.
  intros Hn. destruct (with_id_error e id Hn) as (v & Hv & Hen). unfold answered.
  destruct (with_id_fields id (error_response encode_error e)) as [_ ->]. by eexists _, v, id.
Qed.

(** A request to the apply endpoint is denied, or the handler answers it. *)
Lemma apply_answered base token target params s w o s' w' :
  dispatch (routes "/api/v1") "POST" target = Matched 5 [] → query_map target = Some params →
  let rq := received base (with_bearer "POST" (base ++ target) token) in
  handle' s rq w = ((o, s'), w') →
  (files w' = files w ∧ ∃ e, error_reply e (answered closed o))
  ∨ ∃ w1 b, files w1 = files w ∧ decide_request (config s) (tokens s) ManageUpdates rq = Allowed
      ∧ Handlers.apply_updates random_hash (Some (caller_of s rq)) params s w1 = (b, w')
      ∧ match b with
        | Ok (n, a) => (n = 200%N ∨ n = 202%N) ∧ answered closed o = ok_reply n (apply_to_json a)
        | Err e => error_reply e (answered closed o)
        end.
Proof.
  intros Hd Hq rq H. unfold handle in H. step_in H as x w2 E. destruct x as [r a].
  assert (Ep : rq_path rq = target) by (simpl; by rewrite drop_app_length).
  unfold respond in E. rewrite Ep in E. change (rq_method rq) with ("POST" : str) in E. rewrite Hd in E.
  apply serve_cases in E as (id & w1 & F1 & T1 & _ & [(-> & -> & body & -> & d & Hd' & Hdd & Hb)|
    (res & req' & r0 & [= <-] & Hall & Hc & Hp & E & ->)]).
  - left. injection H as <- <- <-. split; [done|]. exists body. rewrite finish_other by done.
    apply error_answered. by destruct d; try done; injection Hb as <-.
  - right. simpl in E. rewrite Hp, Ep, Hq in E. step_in E as b w3 E3. injection E as <- <- <-.
    injection H as <- <- <-. rewrite finish_other by done. rewrite Hc in E3. exists w1, b. split_and!; try done.
    destruct (apply_answer random_hash _ _ _ _ _ _ E3) as [H1 H2]. destruct b as [[n v]|e].
    + specialize (H1 _ eq_refl). simpl in H1. split; [done|]. unfold answered. cbn [reply fst snd].
      destruct (with_id_fields id (json_reply n (apply_to_json v))) as [_ ->]. rewrite with_id_success by (simpl; lia). done.
    + apply error_answered. by apply H2.
Qed.

Section request_file.
Context (rqf rs st : str) (l : list str) `{!Calm rqf rs st}.

(** Nothing about the request file but its content is in the way. *)
Definition clear (s : AppState) (w : world) : Prop :=
  good_updates rqf rs st l (AppState.updates s) ∧ ∀ p, p ∈ mine rqf rs st → not_link (files w) p.

Lemma clear_after s w w1 caller params b w' : clear s w → files w1 = files w →
  Handlers.apply_updates random_hash caller params s w1 = (b, w') →
  (files w' !! rqf = files w !! rqf ∧ ∀ r, b = Ok r → fst r = 200%N)
  ∨ ∃ a, b = Ok (202%N, a) ∧ requested (config s) (default ("unknown" : str) caller) (AppState.updates s) a w1 w'.
Proof.
  intros [Hu Hl] Fw E.
  assert (Ht : tidy rqf rs st (λ x, x = files w1 !! rqf) (files w1)) by (split; [by rewrite Fw|done]).
  destruct (apply_request_file_after random_hash rqf rs st l _ _ _ _ _ _ Hu Ht E)
    as [[Hf Hn]|(a & Hb & _ & Hq)]; [left|right; by eexists]. by rewrite Hf, Fw.
Qed.

(** A dry run over HTTP leaves the request file alone. *)
Lemma dry_run_unchanged base token s w o s' w' : clear s w →
  handle' s (received base (with_bearer "POST" (base ++ DRY_RUN) token)) w = ((o, s'), w') →
  files w' !! rqf = files w !! rqf.
Proof.
  intros Hc H. destruct dry_run_target as [Hd Hq].
  destruct (apply_answered _ _ _ _ _ _ _ _ _ Hd Hq H) as [[Fw _]|(w1 & b & F1 & _ & E & _)]; [by rewrite Fw|].
  destruct (clear_after _ _ _ _ _ _ _ Hc F1 E) as [[Hf _]|(a & -> & _)]; [done|]. exfalso.
  unfold Handlers.apply_updates in E. change (dry_run_of _ _) with (@Ok ApiErrorBody bool true) in E. cbv iota in E.
  step_in E as x w3 E3. by destruct x as [|[]].
Qed.

(** A request over HTTP is refused, or its file is there. *)
Lemma apply_written base token s w o s' w' : clear s w →
  let req := received base (with_bearer "POST" (base ++ APPLY) token) in
  handle' s req w = ((o, s'), w') →
  (files w' !! rqf = files w !! rqf ∧ ∃ e, error_reply e (answered closed o))
  ∨ ∃ a id caller now tm m mt,
      answered closed o = ok_reply 202 (apply_to_json a) ∧ ap_id a = Some id ∧ manager s req caller
      ∧ told tm ∧ apply_permitted (permissions (config s) tm) = true
      ∧ files w' !! rqf = Some (Regular (encode_json (Apply.mkRequest id now caller (wanted (AppState.updates s)))) m mt).
Proof.
  intros Hc req H. destruct apply_target as [Hd Hq].
  destruct (apply_answered _ _ _ _ _ _ _ _ _ Hd Hq H) as [[Fw He]|(w1 & b & F1 & Hall & E & Hb)];
    [left; by rewrite Fw|].
  destruct (clear_after _ _ _ _ _ _ _ Hc F1 E) as [[Hf Hn]|(a & -> & Hr)].
  - left. split; [done|]. destruct b as [[n a]|e]; [|by eexists]. exfalso. specialize (Hn _ eq_refl). simpl in Hn. subst n.
    unfold Handlers.apply_updates in E. change (dry_run_of _ _) with (@Ok ApiErrorBody bool false) in E. cbv iota in E.
    step_in E as x w3 E3. by destruct x as [|[]].
  - right. destruct Hr as (id & now & tm & m & mt & H1 & _ & _ & _ & H5 & H6 & _ & H8).
    destruct Hc as [Hu _]. rewrite (gu_request _ _ _ _ _ Hu) in H8. destruct Hb as [_ Hb].
    exists a, id, (caller_of s req), now, tm, m, mt. split_and!; try done. by apply admitted_manager.
Qed.

End request_file.

(** C7: from the daemon's state to the terminal. [abora updates], run against the
    daemon of the same machine: when the daemon's authorization admits the request,
    the command succeeds and prints exactly what the update state of the daemon
    says at that moment - through the layers, the route table, the handler, the
    bytes of the answer and the client's reading of them; when it does not, nothing
    in the daemon changes and the command fails with the status, message and code
    of that denial. *)
Theorem updates_end_to_end base token t s w o s' w' :
  let rq := with_bearer "GET" (base ++ "/api/v1/updates") token in
  let run := updates_command http stdin_is_terminal answer base token false None t in
  handle random_hash fresh_id parse_f64 is_finite is_negative from_secs_f64 ARCH BUILD_COMMIT "/api/v1"
    s (received base rq) w = ((o, s'), w') →
  http (length (sent t)) rq = answered closed o →
  match decide_request (config s) (tokens s) ReadUpdates (received base rq) with
  | Allowed => ∃ r u w1 rq', files w1 = files w ∧ trace w1 = trace w
      ∧ State.response (AppState.updates s) w1 = ((r, u), w') ∧ s' = set_updates u s
      ∧ run = (true, mkTerminal (rq' :: sent t) (rev (Out <$> updates_says r) ++ lines_out t))
  | d => s' = s ∧ files w' = files w
      ∧ ∃ body t', into_denial d ReadUpdates = Some body ∧ run = (false, t')
         ∧ ErrOut ("error: " ++ error_says body) ∈ lines_out t'
  end.
Proof.
  intros rq run H Hh. unfold handle in H. step_in H as x w2 E. destruct x as [r a].
  assert (Ep : rq_path (received base rq) = ("/api/v1/updates" : str)) by (simpl; by rewrite drop_app_length).
  unfold respond in E. rewrite Ep in E. change (rq_method (received base rq)) with ("GET" : str) in E.
  rewrite updates_route in E.
  apply serve_cases in E as (id & w1 & F1 & T1 & _ & [(-> & -> & body & -> & d & Hd & Hdd & Hb)|
    (res & req' & r0 & [= <-] & Hd & _ & _ & E & ->)]).
  - injection H as <- <- <-. rewrite finish_other in Hh by done.
    change (route_permission Updates) with ReadUpdates in *. rewrite Hdd.
    assert (Hn : er_request_id body = None) by (by destruct d; try done; injection Hb as <-).
    destruct (with_id_error body id Hn) as (v & Hv & Hen).
    destruct (updates_refused base token t body) as (t' & Hr & Ht).
    { change (http _ _) with (http (length (sent t)) rq). rewrite Hh. unfold answered.
      destruct (with_id_fields id (error_response encode_error body)) as [_ ->]. by eexists _, v, id. }
    by destruct d; try done; (split; [done|]; split; [done|]; exists body, t').
  - change (route_permission Updates) with ReadUpdates in Hd. rewrite Hd.
    simpl in E. step_in E as b w3 E3. destruct b as [b s2]. injection E as <- <- <-.
    unfold Handlers.updates in E3. step_in E3 as y w4 E4. destruct y as [y u]. injection E3 as <- <- <-.
    injection H as <- <- <-. rewrite finish_other in Hh by done.
    destruct (updates_shown base token t y) as [rq' Hr].
    { change (http _ _) with (http (length (sent t)) rq). by rewrite Hh. }
    exists y, u, w1, rq'. by split_and!.
Qed.

(** A successful answer, and an error, as the client reads them. *)
Lemma ok_replied n rq status v v' : (status < 400)%N → http n rq = ok_reply status v → replied http n rq v' → v' = v.
Proof.
  intros Hs H (st & body & Hr & _ & Hv). rewrite H in Hr. injection Hr as <- <-.
  cbn [parse_json wire_view] in Hv. rewrite from_to_text in Hv. by injection Hv.
Qed.
Lemma ok_is_replied n rq status v : (status < 400)%N → http n rq = ok_reply status v → replied http n rq v.
Proof.
  intros Hs H. exists status, (to_text v). split_and!; [done..|]. cbn [parse_json wire_view]. by rewrite from_to_text.
Qed.
Lemma error_not_replied b n rq v : error_reply b (http n rq) → ¬ replied http n rq v.
Proof.
  intros (body & x & id & H & _) (st & body' & Hr & Hs & _). rewrite H in Hr. injection Hr as <- <-.
  by destruct (er_code b).
Qed.

(** C6: a confirmed apply, from the terminal to the request file. Run [abora
    updates apply] against the daemon of the same machine, which answers the dry run
    in one state and, if it is sent, the real request in another. The dry run leaves
    the request file as it is. When the command succeeds, a token holder with the
    manage permission asked, the schedule permitted it at the hour the daemon looked,
    the request file holds exactly the updates the daemon knew of, in the name of that
    holder, and the last line printed names the id written in the file. When it fails,
    the request it may have sent left the request file as it was. *)
Theorem apply_end_to_end rqf rs st l1 l2 `{!Calm rqf rs st} base token yes t s1 w1 o1 s1' w1' s2 w2 o2 s2' w2' :
  clear rqf rs st l1 s1 w1 → clear rqf rs st l2 s2 w2 →
  let n := length (sent t) in
  let ask := with_bearer "POST" (base ++ DRY_RUN) token in
  let go := with_bearer "POST" (base ++ APPLY) token in
  handle random_hash fresh_id parse_f64 is_finite is_negative from_secs_f64 ARCH BUILD_COMMIT "/api/v1"
    s1 (received base ask) w1 = ((o1, s1'), w1') → http n ask = answered closed o1 →
  handle random_hash fresh_id parse_f64 is_finite is_negative from_secs_f64 ARCH BUILD_COMMIT "/api/v1"
    s2 (received base go) w2 = ((o2, s2'), w2') → http (S n) go = answered closed o2 →
  let '(good, t') := Cli.apply_updates http stdin_is_terminal answer base token false yes false t in
  files w1' !! rqf = files w1 !! rqf
  ∧ if good then
      sent t' = go :: ask :: sent t
      ∧ (yes = true ∨ (stdin_is_terminal = true ∧ yes_answer answer = true))
      ∧ ∃ id caller now tm m mt, manager s2 (received base go) caller
          ∧ told tm ∧ apply_permitted (permissions (config s2) tm) = true
          ∧ files w2' !! rqf = Some (Regular (encode_json (Apply.mkRequest id now caller (wanted (AppState.updates s2)))) m mt)
          ∧ head (lines_out t') = Some (Out ("accepted (request " ++ id
              ++ "). Follow it with `abora updates`: status shows `installing`, then a history entry appears."))
    else sent t' = go :: ask :: sent t → files w2' !! rqf = files w2 !! rqf.
Proof.
  intros H1 H2 n ask go E1 A1 E2 A2.
  destruct (Cli.apply_updates _ _ _ _ _ _ _ _ _) as [good t'] eqn:E. split; [by eapply dry_run_unchanged|].
  apply apply_updates_inv in E. fold ask go n in E.
  destruct (apply_written _ _ _ _ _ _ _ _ _ _ _ H2 E2) as [[Hf (e & He)]|(a & id & caller & now & tm & m & mt & Ha & Hid & Hr)].
  - rewrite <-A2 in He.
    destruct E as [(_ & Hg)|(Hs & _ & _ & _ & Hg)]; (destruct good; [|by intros _]).
    + by destruct (proj1 Hg eq_refl).
    + destruct Hg as (v & Hv & _). by apply (error_not_replied _ _ _ _ He) in Hv.
  - rewrite Ha in A2. destruct E as [(Hs & Hg)|(Hs & _ & _ & Hy & Hg)]; destruct good.
    + by destruct (proj1 Hg eq_refl).
    + intros Hs'. rewrite Hs in Hs'. by apply (f_equal length) in Hs'; simpl in Hs'; lia.
    + destruct Hg as (v & Hv & Hl). rewrite (ok_replied _ _ 202 _ _ ltac:(done) A2 Hv) in Hl.
      specialize (Hl eq_refl). unfold accepted_line in Hl. rewrite id_says, Hid in Hl.
      split_and!; [done..|]. destruct Hr as (Hm & Ht & Hp & Hw). by exists id, caller, now, tm, m, mt.
    + exfalso. apply Hg. eexists. by eapply ok_is_replied, A2.
Qed.

End daemon.

(** ** Properties *)

(** [abora updates] shows what the daemon said. When the daemon answers with
    an update state, the command succeeds and prints exactly the lines that state
    says, member for member: status, last check, policy, reboot, the first ten
    updates and the five newest entries; when the daemon answers with an error, it
    fails and prints the status, the message and the code of that error. *)
Theorem client_shows_updates base token t :
  let reply := http (length (sent t)) (with_bearer "GET" (base ++ "/api/v1/updates") token) in
  (∀ r, reply = ok_reply 200 (updates_to_json r) →
     ∃ rq, updates_command http stdin_is_terminal answer base token false None t
       = (true, mkTerminal (rq :: sent t) (rev (Out <$> updates_says r) ++ lines_out t)))
  ∧ (∀ b, error_reply b reply →
       ∃ t', updates_command http stdin_is_terminal answer base token false None t = (false, t')
         ∧ ErrOut ("error: " ++ error_says b) ∈ lines_out t').
Proof.
  intros reply. split; intros x Hx; [by apply updates_shown|by apply updates_refused].
Qed.

(** [abora status] shows what the daemon said: when the daemon answers the
    three requests, the command succeeds and prints exactly the lines the health,
    the version and the system facts say; of an architecture that the daemon does
    not know by name it prints [-] (the daemon sends an object, the client looks for
    a text). *)
Theorem client_shows_status base token h v y t :
  let n := length (sent t) in
  http n (with_bearer "GET" (base ++ "/api/v1/health") token) = ok_reply 200 (health_to_json h) →
  http (S n) (with_bearer "GET" (base ++ "/api/v1/version") token) = ok_reply 200 (version_response_to_json v) →
  http (S (S n)) (with_bearer "GET" (base ++ "/api/v1/system") token) = ok_reply 200 (system_to_json y) →
  (∃ sent', status_command http base token t
     = (true, mkTerminal sent' (rev (Out <$> system_says y) ++ rev (Out <$> daemon_says h v) ++ lines_out t)))
  ∧ ∀ s, sy_architecture y = Other s → architecture_says (sy_architecture y) = "-".
Proof.
  intros n Hh Hv Hy. split; [|by intros s ->]. unfold status_command, get_json, mbind, cmd_bind.
  rewrite (call_run _ _ _ _ _ _ (call_ok http _ _ _ t 200 _ ltac:(lia) Hh)). set (t1 := mkTerminal _ _).
  rewrite (call_run _ _ _ _ _ _ (call_ok http _ _ _ t1 200 _ ltac:(lia) Hv)). set (t2 := mkTerminal _ _).
  rewrite (call_run _ _ _ _ _ _ (call_ok http _ _ _ t2 200 _ ltac:(lia) Hy)).
  rewrite println_all_out, daemon_says_lines, println_all_out, system_says_lines. by eexists.
Qed.

(** [abora updates apply] reports what the daemon did. With a daemon that
    answers the dry run and then the request, the command sends the second only if
    the first permits; it says why not in the daemon's words; and it succeeds
    exactly when the daemon accepts, naming the id of the request. *)
Theorem client_reports_apply base token plan t :
  http (length (sent t)) (with_bearer "POST" (base ++ DRY_RUN) token) = ok_reply 200 (apply_to_json plan) →
  let second := http (S (length (sent t))) (with_bearer "POST" (base ++ APPLY) token) in
  let run := apply_updates http stdin_is_terminal answer base token false true false t in
  (ap_permitted plan = false →
     ∃ rq, run = (false, mkTerminal (rq :: sent t)
       (ErrOut ("cannot apply now: " ++ default ("not permitted" : str) (ap_reason plan)) :: lines_out t)))
  ∧ (ap_permitted plan = true →
       (∀ r, second = ok_reply 202 (apply_to_json r) →
          ∃ t', run = (true, t') ∧ length (sent t') = S (S (length (sent t)))
            ∧ head (lines_out t') = Some (Out ("accepted (request " ++ default ("-" : str) (ap_id r)
                ++ "). Follow it with `abora updates`: status shows `installing`, then a history entry appears.")))
       ∧ (∀ b, error_reply b second →
            ∃ t', run = (false, t') ∧ ErrOut ("error: " ++ error_says b) ∈ lines_out t')).
Proof.
  intros Hplan second run. subst run. unfold apply_updates.
  unfold mbind, cmd_bind. rewrite (call_run _ _ _ _ _ _ (call_ok http _ _ _ t 200 _ ltac:(lia) Hplan)).
  cbn [andb negb orb mret cmd_ret]. rewrite permitted_says. split; intros Hp; rewrite Hp; cbn [negb].
  - rewrite reason_says. by eexists.
  - rewrite println_all_out. cbn [confirmed sent].
    set (t1 := mkTerminal _ _). cbn [mret cmd_ret negb]. split; intros x Hx.
    + rewrite (call_run _ _ _ _ _ _ (call_ok http _ _ _ t1 202 _ ltac:(lia) Hx)), id_says.
      eexists. by split_and!.
    + rewrite (call_run _ _ _ _ _ _ (call_error http _ _ _ t1 x Hx)). apply updates_error_out.
Qed.
End agree.

(** ** Examples *)

Definition example_updates : UpdatesResponse :=
  mkUpdatesResponse (Some (UpdateAvailable ["1.0-2" : str])) (Some ("2024-01-01" : str)) reboot_default None
    [mkAvailable Stable current "openssl" "openssl 1.0-1 -> 1.0-2" None 0 None None] [].
Definition example_health : HealthResponse :=
  mkHealthResponse HealthOk (mkDaemon "aborad" current) api_current 7 "2024-01-01" [].
Definition example_versions : VersionResponse :=
  mkVersionResponse "Abora" current (mkDaemon "aborad" current) api_current None.
Definition example_system : SystemResponse :=
  mkSystemResponse "host" None None (Other "loong64") "loong64" 9 os_unknown (mkKernel "Linux" "6.1" "")
    (mkMemory 2 1 1 1 0 0) cpu_default current.

Lemma client_shows_updates_witness :
  ∃ rq, @updates_command (wire_view (text := example_text) (λ _, []))
    (λ _ _, ok_reply (text := example_text) 200 (updates_to_json example_updates)) false [] "http://h" None false None (mkTerminal [] [])
  = (true, mkTerminal [rq] (rev (Out <$> updates_says example_updates) ++ [])).
Proof.
  destruct (client_shows_updates (text := example_text) (λ _, [])
    (λ _ _, ok_reply (text := example_text) 200 (updates_to_json example_updates)) false [] "http://h" None
    (mkTerminal [] [])) as [H _].
  exact (H example_updates eq_refl).
Defined.

Lemma client_shows_status_witness :
  architecture_says (sy_architecture example_system) = "-".
Proof.
  destruct (client_shows_status (text := example_text) (λ _, [])
    (λ n _, ok_reply (text := example_text) 200 match n with
        | 0 => health_to_json example_health | 1 => version_response_to_json example_versions
        | _ => system_to_json example_system end) "http://h" None example_health example_versions example_system
    (mkTerminal [] []) eq_refl eq_refl eq_refl) as [_ H].
  exact (H "loong64" eq_refl).
Defined.

Section end_to_end.
#[local] Instance e_env : Env := Helper.example_env.
#[local] Instance e_T : TomlValue := Helper.example_toml.
#[local] Instance e_request : Serde ApplyRequest := request_codec.
#[local] Instance e_store : Serde StoreData := Helper.example_serde store_default.
#[local] Existing Instance example_sha.

Definition e_app : AppState := mkAppState Helper.example_config 0 None 0 "t" example_state.
Definition e_request_sent : Cli.request := with_bearer "GET" ("http://h" ++ "/api/v1/updates") None.
Definition e_http (n : nat) (r : Cli.request) : result str (N * result str str) :=
  answered [] (fst (fst (example_handle "/api/v1" e_app (received "http://h" r) empty_world))).

Lemma updates_end_to_end_witness :
  ∃ r rq, @updates_command (wire_view (text := example_text) (λ _, [])) e_http false [] "http://h" None false None
      (mkTerminal [] []) = (true, mkTerminal [rq] (rev (Out <$> updates_says r) ++ [])).
Proof.
  pose proof (updates_end_to_end (text := example_text) (X := example_axum) (λ _, []) e_http false [] ex_hash
    (λ _, "0123456789abcdef" : str) (λ _ : str, None : option ()) (λ _, true) (λ _, false) (λ _, Panic) "x86_64" None []
    "http://h" None (mkTerminal [] []) e_app empty_world _ _ _ (triple _) eq_refl) as H.
  assert (Hd : decide_request (config e_app) (tokens e_app) ReadUpdates (received "http://h" e_request_sent) = Allowed)
    by (vm_compute; reflexivity).
  unfold e_request_sent in Hd. cbv zeta in H. rewrite Hd in H.
  destruct H as (r & u & w1 & rq & _ & _ & _ & _ & H). exists r, rq. exact H.
Defined.

Definition a_app : AppState := mkAppState Helper.example_config 0 (Some example_store) 0 "t" example_state.
Definition a_token : option str := Some ("two" : str).
Definition a_handled (target : str) :=
  example_handle "/api/v1" a_app (received "http://h" (with_bearer "POST" ("http://h" ++ target) a_token)) empty_world.
Definition a_http (n : nat) (r : Cli.request) : result str (N * result str str) :=
  match n with 0 => answered [] (fst (fst (a_handled DRY_RUN))) | _ => answered [] (fst (fst (a_handled APPLY))) end.
Definition a_run : bool * terminal :=
  @Cli.apply_updates (wire_view (text := example_text) (λ _, [])) a_http false [] "http://h" a_token false true false
    (mkTerminal [] []).
#[local] Instance a_calm : Calm (apply_request_file example_state) "/r/result" "/s/u".
Proof. done. Qed.
Lemma a_clear :
  clear (apply_request_file example_state) "/r/result" "/s/u" (au_component <$> available example_state) a_app empty_world.
Proof.
  split; [|intros p _ t Hp; discriminate Hp]. split; [reflexivity|reflexivity|intros p Hp; discriminate Hp|].
  intros x Hx. apply list_elem_of_fmap. exists x. split; [reflexivity|exact Hx].
Qed.
#[local] Strategy expand [a_handled a_http a_run].

Lemma apply_end_to_end_witness :
  fst a_run = true
  ∧ ∃ id now m mt, files (snd (a_handled APPLY)) !! apply_request_file example_state
      = Some (Regular (encode_json (Apply.mkRequest id now "operator" ["apt" : str; "zlib1g" : str])) m mt)
    ∧ head (lines_out (snd a_run)) = Some (Out ("accepted (request " ++ id
        ++ "). Follow it with `abora updates`: status shows `installing`, then a history entry appears.")).
Proof.
  pose proof (triple (a_handled DRY_RUN)) as E1. pose proof (triple (a_handled APPLY)) as E2. unfold a_handled in E1, E2.
  pose proof (apply_end_to_end (text := example_text) (X := example_axum) (λ _, []) a_http false [] ex_hash
    (λ _, "0123456789abcdef" : str) (λ _ : str, None : option ()) (λ _, true) (λ _, false) (λ _, Panic) "x86_64" None []
    _ _ _ _ _ "http://h" a_token true (mkTerminal [] []) _ _ _ _ _ _ _ _ _ _
    a_clear a_clear E1 eq_refl E2 eq_refl) as H.
  assert (Hr : fst a_run = true) by (vm_compute; reflexivity). split; [exact Hr|].
  unfold a_run in Hr |- *. destruct (Cli.apply_updates _ _ _ _ _ _ _ _ _) as [good t']. simpl in Hr. subst good.
  destruct H as (_ & _ & _ & id & caller & now & tm & m & mt & Hm & _ & _ & Hf & Hl).
  assert (Hc : caller = ("operator" : str)).
  { destruct Hm as [_ (ks & b & tk & Hk & _ & Hb & Hfd & _ & ->)]. injection Hk as <-.
    vm_compute in Hb. injection Hb as <-. vm_compute in Hfd. by injection Hfd as <-. }
  subst caller. exists id, now, m, mt. split; [exact Hf|exact Hl].
Defined.
End end_to_end.
