(* ===== verification/Kit.v ===== *)
(** * A workbench for the repository's own tests

    Concrete stand-ins for what the program gets from libraries and from its host,
    so that the unit tests of the source can be run on the model: SHA-256, JSON as
    text, and a host whose programs answer what a test says. *)

From S2P Require Import Prelude Str World Types Tokens Derive.

(** ** SHA-256 (FIPS 180-4) *)

Definition word (n : N) : N := N.land n (N.ones 32).
Definition rotr (k x : N) : N := N.lor (N.shiftr x k) (word (N.shiftl x (32 - k))).
Definition xor3 (a b c : N) : N := N.lxor a (N.lxor b c).

(** The constants of the standard: the first 32 bits of the fractional parts of the
    roots of the first primes. *)
Definition is_prime (n : nat) : bool := forallb (λ d, negb (n mod d =? 0)%nat) (seq 2 (n - 2)).
Definition PRIMES : list N := Eval vm_compute in N.of_nat <$> List.filter is_prime (seq 2 310).
Fixpoint root_bits (bits : nat) (x acc : N) : N :=
  match bits with
  | O => acc
  | S bits => let t := (acc + 2 ^ N.of_nat bits)%N in root_bits bits x (if (t * t * t <=? x)%N then t else acc)
  end.
Definition cube_root (x : N) : N := root_bits 36 x 0.
Definition ROUNDS : list N := Eval vm_compute in (λ p, word (cube_root (p * 2 ^ 96))) <$> PRIMES.

Record hash := mkHash { ha : N; hb : N; hc : N; hd : N; he : N; hf : N; hg : N; hh : N }.
Definition INITIAL : hash := Eval vm_compute in
  match (λ p, word (N.sqrt (p * 2 ^ 64))) <$> take 8 PRIMES with
  | [a; b; c; d; e; f; g; h] => mkHash a b c d e f g h
  | _ => mkHash 0 0 0 0 0 0 0 0
  end.

(** The words of the schedule, newest first. *)
Fixpoint extend (n : nat) (ws : list N) : list N :=
  match n with
  | O => ws
  | S n =>
      let w2 := nth 1 ws 0%N in
      let w15 := nth 14 ws 0%N in
      let s0 := xor3 (rotr 7 w15) (rotr 18 w15) (N.shiftr w15 3) in
      let s1 := xor3 (rotr 17 w2) (rotr 19 w2) (N.shiftr w2 10) in
      extend n (word (nth 15 ws 0 + s0 + nth 6 ws 0 + s1)%N :: ws)
  end.
Definition round (h : hash) (kw : N * N) : hash :=
  let s1 := xor3 (rotr 6 (he h)) (rotr 11 (he h)) (rotr 25 (he h)) in
  let ch := N.lxor (N.land (he h) (hf h)) (N.land (N.lxor (he h) (N.ones 32)) (hg h)) in
  let t1 := (hh h + s1 + ch + fst kw + snd kw)%N in
  let s0 := xor3 (rotr 2 (ha h)) (rotr 13 (ha h)) (rotr 22 (ha h)) in
  let maj := xor3 (N.land (ha h) (hb h)) (N.land (ha h) (hc h)) (N.land (hb h) (hc h)) in
  mkHash (word (t1 + s0 + maj)) (ha h) (hb h) (hc h) (word (hd h + t1)) (he h) (hf h) (hg h).
Definition add_hash (h k : hash) : hash :=
  mkHash (word (ha h + ha k)) (word (hb h + hb k)) (word (hc h + hc k)) (word (hd h + hd k))
         (word (he h + he k)) (word (hf h + hf k)) (word (hg h + hg k)) (word (hh h + hh k)).

Fixpoint words_of (bytes : list N) : list N :=
  match bytes with
  | a :: b :: c :: d :: rest => (a * 16777216 + b * 65536 + c * 256 + d)%N :: words_of rest
  | _ => []
  end.
Definition compress (h : hash) (block : list N) : hash :=
  add_hash h (foldl round h (zip ROUNDS (rev (extend 48 (rev (words_of block)))))).
Fixpoint blocks (fuel : nat) (h : hash) (bytes : list N) : hash :=
  match fuel with
  | O => h
  | S fuel => match bytes with [] => h | _ => blocks fuel (compress h (take 64 bytes)) (drop 64 bytes) end
  end.

Definition byte_of (n i : N) : N := N.land (N.shiftr n (8 * i)) 255.
Definition padded (s : str) : list N :=
  let n := length s in
  (code <$> s) ++ [128%N] ++ replicate ((119 - n mod 64) mod 64) 0%N
  ++ ((λ i, byte_of (8 * N.of_nat n) (7 - N.of_nat i)) <$> seq 0 8).
Definition digest (h : hash) : list N :=
  concat ((λ x, [byte_of x 3; byte_of x 2; byte_of x 1; byte_of x 0])
          <$> [ha h; hb h; hc h; hd h; he h; hf h; hg h; hh h]).
Definition sha256_digest (s : str) : list N :=
  let bytes := padded s in digest (blocks (length bytes) INITIAL bytes).

Lemma byte_of_bound n i : (byte_of n i < 256)%N.
Proof. unfold byte_of. rewrite (N.land_ones _ 8 : N.land _ 255 = _). apply N.mod_lt. done. Qed.
#[global] Instance real_sha : Sha256.
Proof.
  refine {| sha256 := sha256_digest |}.
  - done.
  - intros s. unfold sha256_digest, digest. cbn [fmap list_fmap concat app].
    repeat constructor; apply byte_of_bound.
Defined.

(** ** JSON as text (RFC 8259) *)

Definition json_escape (c : ascii) : str :=
  if decide (c = "034"%char) then ["\"%char; "034"%char]
  else if decide (c = "\"%char) then "\\"
  else if decide (c = LF) then "\n"
  else if decide (c = CR) then "\r"
  else if (code c <? 32)%N then "\u00" ++ [HEX (N.shiftr (code c) 4); HEX (N.land (code c) 15)]
  else [c].
Definition json_quote (s : str) : str := ["034"%char] ++ concat (json_escape <$> s) ++ ["034"%char].

Fixpoint json_print (v : json) : str :=
  match v with
  | JNull => "null"
  | JBool b => if b then "true" else "false"
  | JNum n => dec n
  | JOther s => s
  | JStr s => json_quote s
  | JArr l => "[" ++ join "," (json_print <$> l) ++ "]"
  | JObj l => "{" ++ join "," ((λ kv, json_quote (fst kv) ++ ":" ++ json_print (snd kv)) <$> l) ++ "}"
  end.

Fixpoint skip_space (s : str) : str :=
  match s with
  | c :: rest => if bool_decide (c = " "%char ∨ c = LF ∨ c = CR ∨ c = "009"%char) then skip_space rest else s
  | [] => []
  end.
Definition hex_digit (c : ascii) : option N :=
  if in_range 48 57 c then Some (code c - 48)%N
  else if in_range 97 102 c then Some (code c - 87)%N
  else if in_range 65 70 c then Some (code c - 55)%N else None.
(** A character of the basic plane, as UTF-8. *)
Definition utf8_of (n : N) : str :=
  if (n <? 128)%N then [chr n]
  else if (n <? 2048)%N then [chr (192 + N.shiftr n 6); chr (128 + N.land n 63)]
  else [chr (224 + N.shiftr n 12); chr (128 + N.land (N.shiftr n 6) 63); chr (128 + N.land n 63)].
Definition unescape_char (c : ascii) : option ascii :=
  if decide (c = "n"%char) then Some LF else if decide (c = "r"%char) then Some CR
  else if decide (c = "t"%char) then Some "009"%char else if decide (c = "b"%char) then Some "008"%char
  else if decide (c = "f"%char) then Some "012"%char
  else if bool_decide (c = "034"%char ∨ c = "\"%char ∨ c = "/"%char) then Some c else None.
(** The rest of a string, after its opening quote. *)
Fixpoint read_string (acc s : str) : option (str * str) :=
  match s with
  | "034"%char :: rest => Some (rev acc, rest)
  | "\"%char :: "u"%char :: a :: b :: c :: d :: rest =>
      a ← hex_digit a; b ← hex_digit b; c ← hex_digit c; d ← hex_digit d;
      read_string (rev (utf8_of (a * 4096 + b * 256 + c * 16 + d)) ++ acc) rest
  | "\"%char :: e :: rest => c ← unescape_char e; read_string (c :: acc) rest
  | c :: rest => if (code c <? 32)%N then None else read_string (c :: acc) rest
  | [] => None
  end.

Definition number_char (c : ascii) : bool := is_ascii_digit c || bool_decide (c ∈ ("+-.eE" : str)).
Fixpoint take_number (s : str) : str * str :=
  match s with
  | c :: rest => if number_char c then let '(n, r) := take_number rest in (c :: n, r) else ([], s)
  | [] => ([], [])
  end.
(** The shape of a number: digits after an optional sign. *)
Definition read_number (s : str) : option (json * str) :=
  let '(n, rest) := take_number s in
  match parse_uint u64_max n with
  | Some k => if starts_with "+" n then None else Some (JNum k, rest)
  | None =>
      match n with
      | c :: d :: _ => if is_ascii_digit c || (bool_decide (c = "-"%char) && is_ascii_digit d)
                       then Some (JOther n, rest) else None
      | [c] => None
      | [] => None
      end
  end.

Fixpoint read_json (fuel : nat) (s : str) : option (json * str) :=
  match fuel with
  | O => None
  | S fuel =>
      match skip_space s with
      | "034"%char :: rest => '(t, rest) ← read_string [] rest; Some (JStr t, rest)
      | "["%char :: rest =>
          match skip_space rest with
          | "]"%char :: rest => Some (JArr [], rest)
          | _ => '(l, rest) ← read_items fuel rest; Some (JArr l, rest)
          end
      | "{"%char :: rest =>
          match skip_space rest with
          | "}"%char :: rest => Some (JObj [], rest)
          | _ => '(l, rest) ← read_members fuel rest; Some (JObj l, rest)
          end
      | s => match strip_prefix "null" s, strip_prefix "true" s, strip_prefix "false" s with
             | Some rest, _, _ => Some (JNull, rest)
             | _, Some rest, _ => Some (JBool true, rest)
             | _, _, Some rest => Some (JBool false, rest)
             | _, _, _ => read_number s
             end
      end
  end
with read_items (fuel : nat) (s : str) : option (list json * str) :=
  match fuel with
  | O => None
  | S fuel =>
      '(v, rest) ← read_json fuel s;
      match skip_space rest with
      | "]"%char :: rest => Some ([v], rest)
      | ","%char :: rest => '(l, rest) ← read_items fuel rest; Some (v :: l, rest)
      | _ => None
      end
  end
with read_members (fuel : nat) (s : str) : option (list (str * json) * str) :=
  match fuel with
  | O => None
  | S fuel =>
      match skip_space s with
      | "034"%char :: rest =>
          '(k, rest) ← read_string [] rest;
          match skip_space rest with
          | ":"%char :: rest =>
              '(v, rest) ← read_json fuel rest;
              match skip_space rest with
              | "}"%char :: rest => Some ([(k, v)], rest)
              | ","%char :: rest => '(l, rest) ← read_members fuel rest; Some ((k, v) :: l, rest)
              | _ => None
              end
          | _ => None
          end
      | _ => None
      end
  end.
(** A document and nothing after it. Each call consumes a byte, so twice the
    length is enough fuel. *)
Definition json_parse (s : str) : option json :=
  match read_json (2 * length s + 2) s with
  | Some (v, rest) => match skip_space rest with [] => Some v | _ => None end
  | None => None
  end.

#[global] Instance real_text : JsonText :=
  {| to_text := json_print; to_text_pretty := json_print; from_text := json_parse |}.

(** ** Assertions and hosts *)

(** [assert_eq!], several assertions, and [unwrap_err]. *)
Definition same {A : Type} `{EqDecision A} (a b : A) : bool := bool_decide (a = b).
Definition check (l : list bool) : bool := forallb id l.
Definition fails {E A : Type} (r : result E A) : bool := negb (is_ok r).
Definition error_has (needle : str) {A : Type} (r : result str A) : bool :=
  match r with Err e => contains needle e | Ok _ => false end.
Definition none {A : Type} (o : option A) : bool := match o with None => true | Some _ => false end.
Definition holds {A : Type} (o : option A) (p : A → bool) : bool := match o with Some a => p a | None => false end.
Definition ok_and {E A : Type} (r : result E A) (p : A → bool) : bool := match r with Ok a => p a | Err _ => false end.

(** A host on which no call fails, at a time in nanoseconds, whose programs end as
    the test says. *)
Definition test_host (clock : N) (runs : str → list str → process_end) : Env := {|
  io_fault _ := None;
  short _ := 0;
  command_end _ := runs;
  command_effect _ _ _ fs := fs;
  system_time _ := clock;
  umask := 18;
|}.
(** A test of effects: what it says at the end of a run. *)
Definition on (w : world) (m : io bool) : bool := fst (m w).
Definition disk (l : list (str * node)) : world := mkWorld (list_to_map l) 0 [].
(** [fs::write], [fs::remove_file] and [symlink] of the test itself, before or
    between calls of the program. *)
Definition put_file (p bytes : str) (mtime : N) : io () :=
  λ w, ((), mkWorld (<[p := Regular bytes 420 mtime]> (files w)) (calls w) (trace w)).
Definition put_node (p : str) (n : node) : io () :=
  λ w, ((), mkWorld (<[p := n]> (files w)) (calls w) (trace w)).
Definition drop_file (p : str) : io () :=
  λ w, ((), mkWorld (delete p (files w)) (calls w) (trace w)).
Definition node_at (p : str) : io (option node) := λ w, (files w !! p, w).
Definition bytes_at (p : str) : io (option str) :=
  n ← node_at p; mret (match n with Some (Regular b _ _) => Some b | _ => None end).
Definition mode_at (p : str) : io (option N) :=
  n ← node_at p; mret (match n with Some (Regular _ m _) => Some m | _ => None end).
(** The names in a directory. *)
Definition listing (dir : str) : io (list str) :=
  λ w, (filter (λ p, parent p = Some dir) (fst <$> map_to_list (files w)), w).

(** Floating-point seconds as a sign and nanoseconds. *)
Definition decimal (s : str) : option (bool * N) :=
  let '(negative, s) := match strip_prefix "-" s with Some s => (true, s) | None => (false, s) end in
  match split_once "." s with
  | Some (i, f) =>
      i ← parse_uint u64_max i; f ← parse_uint u64_max (take 9 (f ++ replicate 9 "0"%char));
      Some (negative, i * 1000000000 + f)%N
  | None => i ← parse_uint u64_max s; Some (negative, i * 1000000000)%N
  end.
Definition decimal_finite (_ : bool * N) : bool := true.
Definition decimal_negative (x : bool * N) : bool := fst x.
Definition decimal_secs (x : bool * N) : outcome N := Ret (snd x).

(** The files of a Linux host that the facts of the system are read from. *)
Definition file_of (lines : list str) : node := Regular (unlines lines) 292 0.
Definition LINUX : list (str * node) := [
  ("/proc/sys/kernel/hostname" : str, file_of ["node-01" : str]);
  ("/proc/sys/kernel/ostype" : str, file_of ["Linux" : str]);
  ("/proc/sys/kernel/osrelease" : str, file_of ["6.10.0" : str]);
  ("/proc/sys/kernel/version" : str, file_of ["#1 SMP" : str]);
  ("/proc/uptime" : str, file_of ["12345.67 98765.43" : str]);
  ("/proc/meminfo" : str, file_of ["MemTotal: 1000 kB" : str; "MemFree: 400 kB" : str]);
  ("/etc/os-release" : str, file_of ["ID=pop" : str]);
  ("/proc/cpuinfo" : str, file_of ["processor: 0" : str])].
