(* ===== verification/KitToml.v ===== *)
(** * TOML as text, for the tests

    A parser and a printer of the part of TOML that the repository's tests and its
    shipped configuration file use: tables, arrays of tables, dotted keys, strings,
    integers, booleans, arrays and inline tables. *)

From S2P Require Import Prelude Str Toml Kit.

Definition DQ : ascii := "034"%char.
Definition SQ : ascii := "'"%char.
Definition NL : ascii := LF.

(** ** Reading *)

Fixpoint drop_line (s : str) : str :=
  match s with [] => [] | c :: rest => if decide (c = NL) then s else drop_line rest end.
Definition is_blank (c : ascii) : bool := bool_decide (c = " "%char ∨ c = "009"%char ∨ c = CR).
Fixpoint blanks (s : str) : str :=
  match s with c :: rest => if is_blank c then blanks rest else s | [] => [] end.
(** Spaces, line ends and comments. *)
Fixpoint gap (fuel : nat) (s : str) : str :=
  match fuel with
  | O => s
  | S fuel =>
      match blanks s with
      | "#"%char :: rest => gap fuel (drop_line rest)
      | c :: rest => if decide (c = NL) then gap fuel rest else c :: rest
      | [] => []
      end
  end.

Definition bare_char (c : ascii) : bool := is_ascii_alphanumeric c || bool_decide (c ∈ ("_-" : str)).
Fixpoint take_bare (s : str) : str * str :=
  match s with
  | c :: rest => if bare_char c then let '(k, r) := take_bare rest in (c :: k, r) else ([], s)
  | [] => ([], [])
  end.
Fixpoint take_literal (s : str) : option (str * str) :=
  match s with
  | [] => None
  | c :: rest =>
      if decide (c = SQ) then Some ([], rest)
      else if decide (c = NL) then None
      else '(t, r) ← take_literal rest; Some (c :: t, r)
  end.
Definition read_key_part (s : str) : option (str * str) :=
  match s with
  | [] => None
  | c :: rest =>
      if decide (c = DQ) then read_string [] rest
      else if decide (c = SQ) then take_literal rest
      else match take_bare s with ([], _) => None | kr => Some kr end
  end.
(** A key, with its parts. *)
Fixpoint read_key (fuel : nat) (s : str) : option (list str * str) :=
  match fuel with
  | O => None
  | S fuel =>
      '(k, rest) ← read_key_part (blanks s);
      match blanks rest with
      | "."%char :: rest => '(ks, rest) ← read_key fuel rest; Some (k :: ks, rest)
      | rest => Some ([k], rest)
      end
  end.

(** A value at a key path: through tables, and the last table of an array; no key
    twice. *)
Fixpoint insert_at (path : list str) (v : toml) (l : document) : option document :=
  match path with
  | [] => None
  | [k] => match lookup_key k l with None => Some (l ++ [(k, v)]) | Some _ => None end
  | k :: path =>
      match lookup_key k l with
      | None => m ← insert_at path v []; Some (l ++ [(k, TTable m)])
      | Some t =>
          t' ← match t with
               | TTable m => m ← insert_at path v m; Some (TTable m)
               | TArr ts =>
                   match rev ts with
                   | TTable m :: ts => m ← insert_at path v m; Some (TArr (rev (TTable m :: ts)))
                   | _ => None
                   end
               | _ => None
               end;
          Some ((λ kv, if decide (fst kv = k) then (k, t') else kv) <$> l)
      end
  end.
Fixpoint get_at (path : list str) (l : document) : option toml :=
  match path with
  | [] => Some (TTable l)
  | k :: path =>
      t ← lookup_key k l;
      match path, t with
      | [], _ => Some t
      | _, TTable m => get_at path m
      | _, TArr ts => match rev ts with TTable m :: _ => get_at path m | _ => None end
      | _, _ => None
      end
  end.
(** [[[path]]]: one more table of an array. *)
Fixpoint append_at (path : list str) (l : document) : option document :=
  match path with
  | [] => None
  | [k] =>
      match lookup_key k l with
      | None => Some (l ++ [(k, TArr [TTable []])])
      | Some (TArr ts) => Some ((λ kv, if decide (fst kv = k) then (k, TArr (ts ++ [TTable []])) else kv) <$> l)
      | Some _ => None
      end
  | k :: path =>
      match lookup_key k l with
      | None => m ← append_at path []; Some (l ++ [(k, TTable m)])
      | Some (TTable m) =>
          m ← append_at path m; Some ((λ kv, if decide (fst kv = k) then (k, TTable m) else kv) <$> l)
      | Some _ => None
      end
  end.

Definition read_integer (s : str) : option (toml * str) :=
  let '(t, rest) := take_number s in
  match t with
  | "-"%char :: digits => n ← parse_uint u64_max digits; Some (TInt (- Z.of_N n), rest)
  | digits => n ← parse_uint u64_max digits; Some (TInt (Z.of_N n), rest)
  end.

Fixpoint read_value (fuel : nat) (s : str) : option (toml * str) :=
  match fuel with
  | O => None
  | S fuel =>
      match s with
      | "["%char :: rest =>
          match gap fuel rest with
          | "]"%char :: rest => Some (TArr [], rest)
          | rest => '(l, rest) ← read_array fuel rest; Some (TArr l, rest)
          end
      | "{"%char :: rest =>
          match blanks rest with
          | "}"%char :: rest => Some (TTable [], rest)
          | rest => '(l, rest) ← read_inline fuel [] rest; Some (TTable l, rest)
          end
      | c :: rest =>
          if decide (c = DQ) then '(t, rest) ← read_string [] rest; Some (TStr t, rest)
          else if decide (c = SQ) then '(t, rest) ← take_literal rest; Some (TStr t, rest)
          else match strip_prefix "true" s, strip_prefix "false" s with
               | Some rest, _ => Some (TBool true, rest)
               | _, Some rest => Some (TBool false, rest)
               | _, _ => read_integer s
               end
      | [] => None
      end
  end
with read_array (fuel : nat) (s : str) : option (list toml * str) :=
  match fuel with
  | O => None
  | S fuel =>
      '(v, rest) ← read_value fuel (gap fuel s);
      match gap fuel rest with
      | "]"%char :: rest => Some ([v], rest)
      | ","%char :: rest =>
          match gap fuel rest with
          | "]"%char :: rest => Some ([v], rest)
          | rest => '(l, rest) ← read_array fuel rest; Some (v :: l, rest)
          end
      | _ => None
      end
  end
with read_inline (fuel : nat) (acc : document) (s : str) : option (document * str) :=
  match fuel with
  | O => None
  | S fuel =>
      '(path, rest) ← read_key fuel s;
      match rest with
      | "="%char :: rest =>
          '(v, rest) ← read_value fuel (blanks rest);
          acc ← insert_at path v acc;
          match blanks rest with
          | "}"%char :: rest => Some (acc, rest)
          | ","%char :: rest => read_inline fuel acc rest
          | _ => None
          end
      | _ => None
      end
  end.

(** Nothing but a comment up to the end of the line. *)
Definition end_of_line (s : str) : option str :=
  match blanks s with
  | [] => Some []
  | "#"%char :: rest => Some (drop_line rest)
  | c :: rest => if decide (c = NL) then Some rest else None
  end.

(** The headers and the keys under them; [at_] is the table that is open. *)
Fixpoint read_document (fuel : nat) (at_ : list str) (acc : document) (s : str) : option document :=
  match fuel with
  | O => None
  | S fuel =>
      match gap fuel s with
      | [] => Some acc
      | "["%char :: "["%char :: rest =>
          '(path, rest) ← read_key fuel rest;
          rest ← strip_prefix "]]" rest;
          rest ← end_of_line rest;
          acc ← append_at path acc;
          read_document fuel path acc rest
      | "["%char :: rest =>
          '(path, rest) ← read_key fuel rest;
          rest ← strip_prefix "]" rest;
          rest ← end_of_line rest;
          acc ← match get_at path acc with
                | None => insert_at path (TTable []) acc
                | Some (TTable _) => Some acc
                | Some _ => None
                end;
          read_document fuel path acc rest
      | s =>
          '(path, rest) ← read_key fuel s;
          rest ← strip_prefix "=" rest;
          '(v, rest) ← read_value fuel (blanks rest);
          rest ← end_of_line rest;
          acc ← insert_at (at_ ++ path) v acc;
          read_document fuel at_ acc rest
      end
  end.
(** Each call consumes a byte, and a value is at most as deep as its text. *)
Definition parse_toml (s : str) : option document := read_document (2 * length s + 2) [] [] s.

(** ** Writing *)

Definition print_z (z : Z) : str := if (z <? 0)%Z then "-" ++ dec (Z.to_N (- z)) else dec (Z.to_N z).
Fixpoint print_value (v : toml) : str :=
  match v with
  | TStr s => json_quote s
  | TInt z => print_z z
  | TFloat s | TDate s => s
  | TBool b => if b then "true" else "false"
  | TArr l => "[" ++ join ", " (print_value <$> l) ++ "]"
  | TTable l => "{" ++ join ", " ((λ kv, json_quote (fst kv) ++ " = " ++ print_value (snd kv)) <$> l) ++ "}"
  end.
Definition print_member (kv : str * toml) : str := json_quote (fst kv) ++ " = " ++ print_value (snd kv).
(** Values first, then each table under its header. *)
Definition print_document (l : document) : str :=
  let is_table kv := match snd kv with TTable _ => true | _ => false end in
  unlines ((print_member <$> List.filter (λ kv, negb (is_table kv)) l)
    ++ concat ((λ kv, ("[" ++ json_quote (fst kv) ++ "]")
                      :: match snd kv with TTable m => print_member <$> m | _ => [] end)
               <$> List.filter is_table l)).

Definition name_list (l : list str) : str := join ", " ((λ s, "`" ++ s ++ "`") <$> l).
Definition message (e : de_error) : str :=
  match e with
  | UnknownField k expected => "unknown field `" ++ k ++ "`, expected one of " ++ name_list expected
  | UnknownVariant k expected => "unknown variant `" ++ k ++ "`, expected one of " ++ name_list expected
  | MissingField k => "missing field `" ++ k ++ "`"
  | DuplicateField k => "duplicate field `" ++ k ++ "`"
  | InvalidLength => "invalid length"
  | Invalid _ expected => "invalid type, expected " ++ expected
  end.

#[global] Instance real_toml : TomlText := {|
  toml_parse s := ok_or ("TOML parse error" : str) (parse_toml s);
  toml_print := print_document;
  de_message := message;
  ser_message _ := "out-of-range value";
  unit_payload v := match v with TTable [] | TArr [] => true | _ => false end;
  extra_items := true;
|}.

(** A text with its quotes written as circumflexes. *)
Definition quotes (s : str) : str := (λ c, if decide (c = "^"%char) then DQ else c) <$> s.
Definition quoted_lines (l : list string) : str := unlines (List.map (λ s : string, quotes (s : str)) l).
