(* ===== verification/TestsUpdate.v ===== *)
(** * The unit tests of abora-core and abora-update

    Each test of [crates/abora-core] and [crates/abora-update] whose subject is
    modelled, as a boolean of the same name, and their evaluation. What a test gets
    from [serde_json] or from the host it gets from [Kit]. *)

From S2P Require Import Prelude Str World Version Log Types Store Host Apply Config Schedule Tokens Api Sysinfo Services Handlers Wire Derive Kit Toml KitToml.

(** ** abora-core *)

Module CoreTests.

Definition parse_full_version : bool :=
  match parse "1.2.3-alpha.1+build.7" with
  | Ok v => check [same v (mkVersion 1 2 3 (Some ("alpha.1" : str)) (Some ("build.7" : str)));
                   same (to_string v) "1.2.3-alpha.1+build.7"]
  | Err _ => false
  end.
Definition parse_simple_version : bool :=
  match parse "0.1.0" with
  | Ok v => check [same (to_string v) "0.1.0"; none (prerelease v); none (build v)]
  | Err _ => false
  end.
Definition reject_malformed_versions : bool :=
  check [fails (parse ""); fails (parse "1.2"); fails (parse "1.2.x"); fails (parse "1..3")].
(** [CARGO_PKG_VERSION] is the version of the crate. *)
Definition current_is_valid_semver_shape : bool := same (to_string current) FRAMEWORK_VERSION.
Definition serializes_to_plain_object : bool :=
  let json := to_json (new 1 2 3) in
  check [same (jindex "major" json) (JNum 1); same (jindex "minor" json) (JNum 2); same (jindex "patch" json) (JNum 3)].

Lemma core_tests : check [parse_full_version; parse_simple_version; reject_malformed_versions;
  current_is_valid_semver_shape; serializes_to_plain_object] = true.
Proof. vm_compute. reflexivity. Qed.

End CoreTests.

(** ** abora-update *)

Module UpdateTests.

Definition TomlWrap : Struct Channel :=
  mkStruct [mkField "channel" true from_channel to_channel id (λ x _, x)] Stable false.
Definition channel_round_trips_via_toml : bool :=
  let quoted raw := if starts_with "channel" raw then raw else "channel = " ++ json_quote raw in
  forallb (λ case : str * Channel,
      ok_and (toml_parse (quoted (fst case))) (λ l, ok_and (from_struct TomlWrap (TTable l)) (same (snd case))))
    [("stable" : str, Stable); ("beta" : str, Beta); ("nightly" : str, Nightly);
     ("channel = { custom = 'edge' }" : str, Custom "edge")].

Definition custom_channel_json_round_trip : bool :=
  let c := Custom "george" in
  let json := to_text (to_json c) in
  let DQ := ["034"%char] in
  check [same json ("{" ++ DQ ++ "custom" ++ DQ ++ ":" ++ DQ ++ "george" ++ DQ ++ "}");
         same (v ← from_text json; from_json v) (Some c)].
Definition maintenance_window_default_is_empty : bool :=
  let w := mkWindow [Saturday] "02:00" "04:00" None in
  none (jmember "max_duration_minutes" (window_to_json w)).
Definition update : AvailableUpdate := mkAvailable Stable (new 2 0 0) "framework" "test" None 42 None None.
Definition provider_default_apply_refuses : bool :=
  match default_apply update () with Err (NotImplemented _) => true | _ => false end.

Lemma update_tests : check [channel_round_trips_via_toml; custom_channel_json_round_trip;
  maintenance_window_default_is_empty; provider_default_apply_refuses] = true.
Proof. vm_compute. reflexivity. Qed.

End UpdateTests.

(** ** abora-update: applying *)

Module ApplyTests.

Definition request (packages : list str) : ApplyRequest :=
  mkRequest "req-0123abcd" "2026-09-21T02:00:00Z" "ops" packages.
Definition with_id (id : str) (r : ApplyRequest) : ApplyRequest :=
  mkRequest id (ar_requested_at r) (ar_requested_by r) (ar_packages r).

Definition a_good_request_validates : bool :=
  is_ok (validate_request (request ["openssl" : str; "libc6" : str; "g++-13" : str; "libssl3t64:amd64" : str])).
Definition bad_requests_are_refused : bool :=
  check [fails (validate_request (request []));
    forallb (λ bad : str, fails (validate_request (request ["ok" : str; bad])))
      ["-evil" : str; "../etc" : str; "a b" : str; "A" : str; "x;rm" : str; []; ("a" : str) ++ LF :: "b"; "--yes" : str];
    fails (validate_request (with_id "short" (request ["ok" : str])));
    fails (validate_request (with_id "has space in it" (request ["ok" : str])));
    fails (validate_request (request ((λ i, ("pkg" : str) ++ dec_nat i) <$> seq 0 (S MAX_PACKAGES))))].
Definition the_error_does_not_echo_untrusted_input : bool :=
  match validate_request (request ["$(reboot)" : str]) with
  | Err e => negb (contains "reboot" e)
  | Ok _ => false
  end.
Fixpoint position (x : str) (l : list str) : option nat :=
  match l with [] => None | y :: l => if decide (y = x) then Some 0 else S <$> position x l end.
Definition install_args_are_fixed_and_end_options_before_packages : bool :=
  let args := install_args ["openssl" : str; "libc6" : str] in
  match position "--" args with
  | Some dashdash =>
      check [same (drop (dashdash + 1) args) ["openssl" : str; "libc6" : str];
        forallb (λ needed, bool_decide (needed ∈ take dashdash args))
          ["-y" : str; "--no-remove" : str; "--only-upgrade" : str; "install" : str];
        negb (existsb (λ a, contains "dist-upgrade" a || (contains "remove" a && negb (same a "--no-remove"))) args)]
  | None => false
  end.

Definition NOW : N := 1790000000000000000.
#[local] Instance host : Env := test_host NOW (λ _ _, SpawnFailed "no").

Definition atomic_write_is_private_and_leaves_no_temp_file : bool :=
  on (disk [("/t" : str, Directory)])
    (r ← write_atomic "/t/nested/r.json" "{}" 384;
     bytes ← bytes_at "/t/nested/r.json"; mode ← mode_at "/t/nested/r.json";
     names ← listing "/t/nested";
     mret (check [is_ok r; same bytes (Some ("{}" : str)); same mode (Some 384%N); same (length names) 1])).
Definition symlinks_and_directories_are_not_read : bool :=
  on (disk [("/t" : str, Directory); ("/t/real.json" : str, Regular "{}" 420 NOW);
            ("/t/link.json" : str, Symlink "/t/real.json")])
    (real ← read_regular_file "/t/real.json" None;
     link ← read_regular_file "/t/link.json" None;
     dir ← read_regular_file "/t" None;
     mret (check [is_ok real; error_has "not a regular file" link; fails dir])).
Definition oversized_and_stale_files_are_refused : bool :=
  on (disk [("/t/big.json" : str, Regular (replicate (S (N.to_nat MAX_FILE_BYTES)) " "%char) 420 NOW);
            ("/t/fresh.json" : str, Regular "{}" 420 NOW)])
    (big ← read_regular_file "/t/big.json" None;
     fresh ← read_regular_file "/t/fresh.json" (Some MAX_REQUEST_AGE);
     _ ← put_file "/t/fresh.json" "{}" (NOW - from_secs (20 * 60));
     stale ← read_regular_file "/t/fresh.json" (Some MAX_REQUEST_AGE);
     unlimited ← read_regular_file "/t/fresh.json" None;
     mret (check [error_has "larger" big; is_ok fresh; error_has "older than" stale; is_ok unlimited])).
Definition request_and_result_round_trip_as_json : bool :=
  let r := request ["openssl" : str] in
  let res := mkResult (ar_id r) "a" "b" false [] (Some ("boom" : str)) false in
  check [same (v ← from_text (to_text (to_json r)); from_json v) (Some r);
         same (v ← from_text (to_text (to_json res)); from_json v) (Some res)].

Lemma apply_tests : check [a_good_request_validates; bad_requests_are_refused; the_error_does_not_echo_untrusted_input;
  install_args_are_fixed_and_end_options_before_packages; atomic_write_is_private_and_leaves_no_temp_file;
  symlinks_and_directories_are_not_read; oversized_and_stale_files_are_refused;
  request_and_result_round_trip_as_json] = true.
Proof. vm_compute. reflexivity. Qed.

End ApplyTests.

(** ** abora-update: the store *)

Module StoreTests.

#[local] Instance host : Env := test_host 1789963200000000000 (λ _ _, SpawnFailed "no").
#[local] Instance serde : Serde StoreData := serde_of StoreData.

Definition file : str := "/t/updates.json".
Definition scratch : world := disk [("/t" : str, Directory)].
Definition entry (n : N) (ok : bool) : UpdateHistoryEntry :=
  mkEntry ("2026-09-21T00:00:" ++ pad_left "0"%char 2 (dec (n mod 60)) ++ "Z")
    (mkVersion 0 1 n None None) (mkVersion 0 1 (n + 1) None None) Stable "framework" ok None.

Definition opened_is (o : Opened) (kind : nat) : bool :=
  match o, kind with Fresh, 0 => true | Loaded, 1 => true | Recovered _, 2 => true | _, _ => false end.

Definition state_survives_a_reopen : bool :=
  on scratch
    (first ← Store.open file;
     match first with
     | Err _ => mret false
     | Ok (store, opened) =>
         '(r1, store) ← record_check "2026-09-21T01:00:00Z" store;
         '(r2, store) ← record_update (entry 1 true) store;
         '(r3, store) ← record_update (entry 2 false) store;
         '(r4, store) ← set_reboot (mkReboot true (Some ("kernel" : str)) (Some ("2026-09-21T01:05:00Z" : str))) store;
         again ← Store.open file;
         mret (check [opened_is opened 0; is_ok r1; is_ok r2; is_ok r3; is_ok r4;
           ok_and again (λ '(again, opened), check
             [opened_is opened 1; same (last_check again) (Some ("2026-09-21T01:00:00Z" : str));
              required (Store.reboot again);
              match history again with
              | [h0; h1] => check [negb (he_succeeded h0); same (patch (from_version h1)) 1%N]
              | _ => false
              end])])
     end).

Fixpoint record_all (l : list UpdateHistoryEntry) (s : UpdateStore) : io (bool * UpdateStore) :=
  match l with
  | [] => mret (true, s)
  | e :: l => '(r, s) ← record_update e s; if is_ok r then record_all l s else mret (false, s)
  end.
Definition history_is_bounded_to_the_newest_entries : bool :=
  on scratch
    ('(recorded, store) ← record_all ((λ n, entry (N.of_nat n) true) <$> seq 0 (MAX_HISTORY + 25)) in_memory;
     let history := history store in
     mret (check [recorded; same (length history) MAX_HISTORY;
       same (patch ∘ from_version <$> head history) (Some (N.of_nat MAX_HISTORY + 24)%N);
       same (patch ∘ from_version <$> list.last history) (Some 25%N)])).
Definition a_corrupt_file_is_moved_aside_not_deleted : bool :=
  on (disk [("/t" : str, Directory); (file, Regular "{ this is not json" 420 0)])
    (r ← Store.open file;
     match r with
     | Ok (store, Recovered backup) =>
         kept ← bytes_at backup;
         '(r1, store') ← record_check "2026-09-21T02:00:00Z" store;
         again ← Store.open file;
         mret (check [same kept (Some ("{ this is not json" : str)); same (history store) []; is_ok r1;
           ok_and again (λ '(_, o), opened_is o 1)])
     | _ => mret false
     end).
Definition newer : str :=
  to_text (JObj [("schema" : str, JNum 99); ("history" : str, JArr [])]).
Definition a_newer_schema_is_refused_and_left_alone : bool :=
  on (disk [("/t" : str, Directory); (file, Regular newer 420 0)])
    (r ← Store.open file;
     left ← bytes_at file;
     mret (check [match r with Err (NewerSchema _ found _) => same found 99%N | _ => false end;
                  same left (Some newer)])).
Definition a_failed_save_leaves_the_state_unchanged : bool :=
  on (disk [("/t" : str, Directory); ("/t/state" : str, Directory)])
    (r ← Store.open "/t/state/updates.json";
     match r with
     | Err _ => mret false
     | Ok (store, _) =>
         _ ← put_file "/t/state" "x" 0;
         '(r, store) ← record_update (entry 1 true) store;
         mret (check [fails r; same (history store) []; same (last_check store) None])
     end).
Definition the_file_is_private_and_no_temp_file_is_left : bool :=
  on scratch
    (r ← Store.open file;
     match r with
     | Err _ => mret false
     | Ok (store, _) =>
         '(r, store) ← record_check "2026-09-21T03:00:00Z" store;
         mode ← mode_at file; names ← listing "/t";
         mret (check [is_ok r; same mode (Some 384%N); same (length names) 1])
     end).
Definition in_memory_store_works_without_a_path : bool :=
  on scratch
    ('(r, store) ← record_check "t" in_memory;
     mret (check [is_ok r; same (last_check store) (Some ("t" : str))])).

Lemma store_tests : check [state_survives_a_reopen; history_is_bounded_to_the_newest_entries;
  a_corrupt_file_is_moved_aside_not_deleted; a_newer_schema_is_refused_and_left_alone;
  a_failed_save_leaves_the_state_unchanged; the_file_is_private_and_no_temp_file_is_left;
  in_memory_store_works_without_a_path] = true.
Proof. vm_compute. reflexivity. Qed.

End StoreTests.

(** ** abora-update: host packages *)

Module HostTests.

#[local] Instance serde : Serde StoreData := serde_of StoreData.

Definition SAMPLE : str := unlines [
  "NOTE: This is only a simulation!" : str;
  "Reading package lists..." : str;
  "The following packages will be upgraded:" : str;
  "  libssl3t64 openssl" : str;
  "Inst libssl3t64 [3.0.13-0ubuntu3.4] (3.0.13-0ubuntu3.5 Ubuntu:24.04/noble-updates, Ubuntu:24.04/noble-security [amd64])" : str;
  "Inst openssl [3.0.13-0ubuntu3.4] (3.0.13-0ubuntu3.5 Ubuntu:24.04/noble-updates [amd64])" : str;
  "Inst newdep (2:1.2-1 Ubuntu:24.04/noble [amd64])" : str;
  "Inst libc6-dev [2.39-0ubuntu8.7] (2.39-0ubuntu8.9 Ubuntu:24.04/noble-updates [amd64]) []" : str;
  "Conf libssl3t64 (3.0.13-0ubuntu3.5 Ubuntu:24.04/noble-updates [amd64])" : str;
  "Inst ../etc/passwd [1] (2 x)" : str;
  "Inst -evil [1] (2 x)" : str;
  "Inst broken line without parens" : str].

(** The fake runner: only the fixed, read-only simulation is answered. The clock
    is at 2026-09-21T04:00:00Z. *)
Definition fake (result : process_end) : Env :=
  test_host 1789963200000000000 (λ program args,
    if decide (program = ("apt-get" : str) ∧ args = SIMULATE) then result else SpawnFailed "unexpected").
Definition answering (text : str) : Env := fake (Exited true "exit status: 0" text []).
Definition NOW : str := "2026-09-21T04:00:00.000Z".
Definition provider (marker : str) : HostPackageProvider := mkHost in_memory marker None.

Definition parses_inst_lines_and_ignores_everything_else : bool :=
  let up := parse_simulation SAMPLE in
  check [same (pu_name <$> up) ["libssl3t64" : str; "openssl" : str; "newdep" : str; "libc6-dev" : str];
    match up with
    | [u0; u1; u2; u3] => check
        [same (pu_source u3) "Ubuntu:24.04/noble-updates [amd64]";
         same (pu_from u0) (Some ("3.0.13-0ubuntu3.4" : str)); same (pu_to u0) "3.0.13-0ubuntu3.5";
         contains "noble-security" (pu_source u0);
         same (pu_from u2) None; same (pu_to u2) "2:1.2-1"]
    | _ => false
    end].
Definition debian_versions_map_to_best_effort_semver : bool :=
  check [same (version_from_debian "3.0.13-0ubuntu3.5") (new 3 0 13);
         same (version_from_debian "2:1.2-1") (new 1 2 0);
         same (version_from_debian "1.4.7+dfsg-3") (new 1 4 7);
         same (version_from_debian "weird") (new 0 0 0)].
Definition check_reports_updates_and_status_and_records_the_time : bool :=
  let e := answering SAMPLE in
  let p := provider "/nonexistent/reboot-required" in
  on (disk [])
    ('(found, p') ← host_check Stable p;
     mret (check [match host_status p with Err (Conflict _) => true | _ => false end;
       ok_and found (λ found, match aus_updates found with
         | u0 :: _ => check [same (length (aus_updates found)) 4;
             starts_with "libssl3t64: 3.0.13-0ubuntu3.4 -> 3.0.13-0ubuntu3.5" (au_summary u0);
             same (au_component u0) "libssl3t64"]
         | [] => false
         end);
       same (last_check (hp_store p')) (Some NOW);
       match host_status p' with
       | Ok (UpdateAvailable versions) => same (nth 1 versions []) "openssl 3.0.13-0ubuntu3.5"
       | _ => false
       end])).
Definition nothing_to_upgrade_is_up_to_date : bool :=
  let e := answering (unlines ["Reading package lists..." : str; "0 upgraded, 0 newly installed" : str]) in
  on (disk [])
    ('(found, p) ← host_check Stable (provider "/nonexistent/x");
     mret (check [ok_and found (λ found, same (aus_updates found) []);
                  match host_status p with Ok UpToDate => true | _ => false end])).
Definition a_failed_check_is_an_error_status_and_does_not_touch_the_store : bool :=
  let e := fake (Exited false "exit status: 100" [] []) in
  on (disk [])
    ('(found, p) ← host_check Stable (provider "/nonexistent/x");
     mret (check [match found with Err (Source _) => true | _ => false end;
                  match host_status p with Ok (StatusError _) => true | _ => false end;
                  same (last_check (hp_store p)) None])).
Definition reboot_marker_is_noticed_remembered_and_cleared : bool :=
  let e := answering [] in
  let marker : str := "/t/reboot-required" in
  on (disk [("/t" : str, Directory)])
    ('(before, p) ← host_reboot_required (provider marker);
     _ ← put_file marker ("*** System restart required ***" ++ [LF]) 0;
     _ ← put_file "/t/reboot-required.pkgs" (unlines ["linux-image-6.8" : str; "libc6" : str]) 0;
     '(status, p) ← host_reboot_required p;
     _ ← drop_file marker;
     '(after, p') ← host_reboot_required p;
     mret (check [ok_and before (λ r, negb (required r));
       ok_and status (λ r, check [required r; same (pending_since r) (Some NOW);
                                  holds (reason r) (contains "linux-image-6.8, libc6")]);
       required (Store.reboot (hp_store p));
       ok_and after (λ r, negb (required r));
       negb (required (Store.reboot (hp_store p')))])).
Definition apply_is_refused : bool :=
  let e := answering SAMPLE in
  on (disk [])
    ('(found, p) ← host_check Stable (provider "/nonexistent/x");
     mret (match found with
           | Ok found => match aus_updates found with
                         | update :: _ => match default_apply update p with Err (NotImplemented _) => true | _ => false end
                         | [] => false
                         end
           | Err _ => false
           end)).

Lemma host_tests : check [parses_inst_lines_and_ignores_everything_else; debian_versions_map_to_best_effort_semver;
  check_reports_updates_and_status_and_records_the_time; nothing_to_upgrade_is_up_to_date;
  a_failed_check_is_an_error_status_and_does_not_touch_the_store;
  reboot_marker_is_noticed_remembered_and_cleared; apply_is_refused] = true.
Proof. vm_compute. reflexivity. Qed.

End HostTests.
