(* ===== verification/TestsCrates.v ===== *)
(** * The unit tests of the other crates

    Each test of [crates/abora-config], [abora-log], [abora-api], [abora-sysinfo]
    and [abora-services] whose subject is modelled, as a boolean of the same name,
    and their evaluation. *)

From S2P Require Import Prelude Str World Version Types Apply Config Schedule Log Api Sysinfo Services Handlers Wire Derive Kit Toml KitToml.

(** ** abora-config *)

Module ConfigTests.

Definition with_state_file (p : str) (c : Config) : Config :=
  let u := Config.updates c in
  mkConfig _ (Config.system c) (mkUpdates (channel u) (automatic u) (check_interval u) (reboot_policy u) p (apply_result_file u))
    (maintenance c) (remote c) (security c) (logging c) (api c) (features c) (extensions c).
Definition relative_state_file_is_rejected : bool :=
  match validate (with_state_file "updates.json" config_default) with
  | Err errors => existsb (contains "state_file") errors
  | Ok _ => false
  end.

Definition VALID : str := quoted_lines [
  "[system]";
  "hostname = ^node-01^";
  "";
  "[updates]";
  "channel = ^beta^";
  "automatic = false";
  "check_interval = ^12h^";
  "";
  "[maintenance]";
  "enabled = true";
  "windows = [{ days = [^saturday^], start = ^02:00^, end = ^04:00^ }]";
  "";
  "[remote]";
  "listen_addr = ^127.0.0.1:8000^";
  "";
  "[security]";
  "require_authentication = false";
  "";
  "[features]";
  "experimental_x = true";
  "";
  "[cloud.telemetry]";
  "enabled = true"]%string.
Definition parses_a_documented_configuration : bool :=
  match Config.from_str VALID with
  | Ok cfg => check
      [same (Config.hostname (Config.system cfg)) (Some ("node-01" : str)); same (channel (Config.updates cfg)) Beta;
       negb (automatic (Config.updates cfg)); same (check_interval (Config.updates cfg)) "12h";
       same (length (windows (maintenance cfg))) 1; negb (require_authentication (security cfg));
       flag "experimental_x" (features cfg); negb (flag "missing" (features cfg))]
  | Err _ => false
  end.
(** Its one field. *)
Definition telemetry_ext : Struct bool :=
  mkStruct [mkField "enabled" true from_bool to_bool id (λ x _, x)] false false.
Definition preserves_unknown_top_level_sections : bool :=
  match Config.from_str VALID with
  | Ok cfg => check
      [match typed_extension (λ v, map_err de_message (from_struct telemetry_ext v)) "cloud.telemetry" cfg with
       | Ok (Some true) => true | _ => false end;
       negb (none (extension "cloud.telemetry" cfg)); same (size (extensions cfg)) 1]
  | Err _ => false
  end.
Definition defaults_are_secure_and_sensible : bool :=
  let cfg : Config := config_default in
  check [same (listen_addr (remote cfg)) "127.0.0.1:7360"; negb (r_enabled (remote cfg));
         require_authentication (security cfg); negb (automatic (Config.updates cfg));
         same (channel (Config.updates cfg)) Stable; same (base_path (api cfg)) "/api/v1"].
Definition partial_config_overlays_defaults : bool :=
  ok_and (Config.from_str (quoted_lines ["[updates]"; "channel = ^nightly^"]%string))
    (λ cfg, check [same (channel (Config.updates cfg)) Nightly; negb (automatic (Config.updates cfg));
                   same (Config.hostname (Config.system cfg)) None]).
Definition rejects_unknown_keys_in_framework_sections : bool :=
  match Config.from_str (quoted_lines ["[system]"; "hostnaem = ^typo^"]%string) with
  | Err e => contains "hostnaem" (config_error_to_string e)
  | Ok _ => false
  end.
Definition validation_reports_all_problems : bool :=
  let raw := quoted_lines [
    "";
    "[updates]";
    "check_interval = ^zz^";
    "";
    "[maintenance]";
    "windows = [{ days = [], start = ^25:00^, end = ^02:00^ }]";
    "";
    "[remote]";
    "listen_addr = ^not-an-address^";
    "";
    "[api]";
    "base_path = ^no-slash^";
    "max_payload_bytes = 0"]%string in
  match Config.from_str raw with
  | Err e =>
      let text := config_error_to_string e in
      forallb (λ needle, contains needle text)
        ["check_interval" : str; "window #0" : str; "listen_addr" : str; "base_path" : str; "max_payload_bytes" : str]
  | Ok _ => false
  end.
(** [assert_eq!] of two configurations, part by part. *)
Definition same_config (a b : Config) : bool :=
  check [same (Config.hostname (Config.system a)) (Config.hostname (Config.system b));
    same (description (Config.system a)) (description (Config.system b));
    same (channel (Config.updates a)) (channel (Config.updates b));
    same (automatic (Config.updates a)) (automatic (Config.updates b));
    same (check_interval (Config.updates a)) (check_interval (Config.updates b));
    same (reboot_policy (Config.updates a)) (reboot_policy (Config.updates b));
    same (state_file (Config.updates a)) (state_file (Config.updates b));
    same (apply_result_file (Config.updates a)) (apply_result_file (Config.updates b));
    same (m_enabled (maintenance a)) (m_enabled (maintenance b)); same (windows (maintenance a)) (windows (maintenance b));
    same (r_enabled (remote a)) (r_enabled (remote b)); same (listen_addr (remote a)) (listen_addr (remote b));
    same (advertise_hostname (remote a)) (advertise_hostname (remote b));
    same (require_authentication (security a)) (require_authentication (security b));
    same (token_file (security a)) (token_file (security b));
    same (log_level (logging a)) (log_level (logging b)); same (log_format (logging a)) (log_format (logging b));
    same (base_path (api a)) (base_path (api b)); same (max_payload_bytes (api a)) (max_payload_bytes (api b));
    same (request_timeout_secs (api a)) (request_timeout_secs (api b));
    same (map_to_list (flags (features a))) (map_to_list (flags (features b)));
    same (size (extensions a)) 0; same (size (extensions b)) 0].
Definition default_toml_round_trips : bool :=
  ok_and (to_toml config_default) (λ text, ok_and (Config.from_str text) (same_config config_default)).
Definition gives {A : Type} `{EqDecision A} (r : result str A) (a : A) : bool := ok_and r (same a).
Definition parse_clock_and_duration : bool :=
  check [gives (parse_clock "00:00") 0%N; gives (parse_clock "23:59") 1439%N; fails (parse_clock "24:00");
         fails (parse_clock "2:00"); fails (parse_clock "02:2");
         gives (parse_duration "30s") 30%N; gives (parse_duration "5m") 300%N; gives (parse_duration "6h") 21600%N;
         gives (parse_duration "1d") 86400%N; fails (parse_duration "6"); fails (parse_duration "x6h");
         fails (parse_duration "0h")].

Lemma config_tests : check [relative_state_file_is_rejected; parses_a_documented_configuration;
  preserves_unknown_top_level_sections; defaults_are_secure_and_sensible; partial_config_overlays_defaults;
  rejects_unknown_keys_in_framework_sections; validation_reports_all_problems; default_toml_round_trips;
  parse_clock_and_duration] = true.
Proof. vm_compute. reflexivity. Qed.

End ConfigTests.

(** ** abora-config: the shipped default file *)

Module DefaultFileTests.

(** [config/abora.toml.default]. *)
Definition SHIPPED_DEFAULT : str := quoted_lines [
  "# Abora Framework default configuration.";
  "#";
  "# This file mirrors the compiled-in defaults exactly (verified by";
  "# `crates/abora-config/tests/default_file.rs`). Copy it to /etc/abora/abora.toml";
  "# and edit as needed. Full reference: docs/configuration.md.";
  "#";
  "# Framework owns the sections below. Abora Cloud and Abora Atlas may add";
  "# their OWN top-level sections (e.g. [cloud.*], [atlas.*]) which are";
  "# preserved untouched and never rejected. Unknown keys inside the framework";
  "# sections below are rejected on purpose so typos fail loudly.";
  "";
  "# ---------------------------------------------------------------------------";
  "# [system] — identity";
  "# ---------------------------------------------------------------------------";
  "[system]";
  "# Optional hostname override. Omit (default) to use the OS hostname.";
  "# hostname = ^my-server^";
  "# Free-form description surfaced by GET /api/v1/system.";
  "# description = ^Abora Cloud node^";
  "# ---------------------------------------------------------------------------";
  "";
  "# ---------------------------------------------------------------------------";
  "# [updates] — automatic update behaviour (abstraction only, see docs/update.md)";
  "# ---------------------------------------------------------------------------";
  "[updates]";
  "# Update channel: ^stable^, ^beta^, ^nightly^, or { custom = ^name^ }.";
  "channel = ^stable^";
  "# Apply available updates by itself, inside maintenance windows (needs [maintenance] windows).";
  "# OFF by default: nothing is installed unless you turn this on or ask for it (abora updates apply).";
  "automatic = false";
  "# How often to poll for updates: <n>s|m|h|d, e.g. ^30m^, ^6h^, ^1d^.";
  "check_interval = ^6h^";
  "# Reboot outside a maintenance window: ^ask^, ^always^, ^never^.";
  "reboot_policy = ^ask^";
  "# Where update history and state are kept (absolute path; restart to change).";
  "state_file = ^/var/lib/abora/updates.json^";
  "# Where the root update helper (abora-apply) writes the outcome of an apply. Absolute path.";
  "apply_result_file = ^/var/lib/abora-apply/result.json^";
  "# ---------------------------------------------------------------------------";
  "";
  "# ---------------------------------------------------------------------------";
  "# [maintenance] — scheduled windows for automatic update/reboot work";
  "# ---------------------------------------------------------------------------";
  "[maintenance]";
  "# Enable enforcement of maintenance windows.";
  "enabled = true";
  "# Windows are local-time, half-open [start, end), HH:MM. Days: monday..sunday.";
  "# windows = [";
  "#   { days = [^saturday^, ^sunday^], start = ^02:00^, end = ^04:00^, max_duration_minutes = 90 },";
  "# ]";
  "# ---------------------------------------------------------------------------";
  "";
  "# ---------------------------------------------------------------------------";
  "# [remote] — remote management (NOT implemented in this milestone)";
  "# ---------------------------------------------------------------------------";
  "[remote]";
  "# Reserved. The daemon ignores this and refuses to bind a non-loopback";
  "# address until real (authenticated) remote management exists.";
  "enabled = false";
  "# Socket the daemon binds. Loopback only, for now.";
  "listen_addr = ^127.0.0.1:7360^";
  "# Optional FQDN advertised by the API for discovery.";
  "# advertise_hostname = ^server1.internal^";
  "# ---------------------------------------------------------------------------";
  "";
  "# ---------------------------------------------------------------------------";
  "# [security]";
  "# ---------------------------------------------------------------------------";
  "[security]";
  "# Require a valid bearer token for every API operation. Token files are";
  "# loaded from [security].token_file when set.";
  "require_authentication = true";
  "# Bearer-token store (root-owned, mode 0600). Generate entries with:";
  "#   abora auth generate-token";
  "# Without a store, loopback clients are trusted (preview mode) and remote";
  "# clients are refused. Example:";
  "#   token_file = ^/etc/abora/auth.toml^";
  "# ---------------------------------------------------------------------------";
  "";
  "# ---------------------------------------------------------------------------";
  "# [logging] — structured logging (stderr; captured by systemd/journald)";
  "# ---------------------------------------------------------------------------";
  "[logging]";
  "# Threshold: off, error, warn, info, debug, trace.";
  "level = ^info^";
  "# Encoding: ^json^ (one object per line) or ^text^.";
  "format = ^json^";
  "# ---------------------------------------------------------------------------";
  "";
  "# ---------------------------------------------------------------------------";
  "# [api] — runtime limits for the daemon HTTP API";
  "# ---------------------------------------------------------------------------";
  "[api]";
  "# Path prefix for the current API version.";
  "base_path = ^/api/v1^";
  "# Maximum accepted request body size in bytes.";
  "max_payload_bytes = 1048576";
  "# Per-request timeout in seconds.";
  "request_timeout_secs = 30";
  "# ---------------------------------------------------------------------------";
  "";
  "# ---------------------------------------------------------------------------";
  "# [features] — dynamic feature flags (any key/value)";
  "# ---------------------------------------------------------------------------";
  "# [features]";
  "# experimental_thing = false";
  "";
  "# ---------------------------------------------------------------------------";
  "# Extension example (belongs to Abora Cloud, not Framework):";
  "# [cloud.telemetry]";
  "# enabled = true";
  "# ---------------------------------------------------------------------------"]%string.
Definition shipped_default_matches_config_default : bool :=
  ok_and (Config.from_str SHIPPED_DEFAULT) (λ shipped, ConfigTests.same_config shipped config_default).
Definition shipped_default_renders_expected_level_and_format : bool :=
  ok_and (Config.from_str SHIPPED_DEFAULT) (λ shipped, check
    [same (level_to_string (log_level (logging shipped))) "info"; same (log_format (logging shipped)) Log.Json]).

Lemma default_file_tests : check [shipped_default_matches_config_default;
  shipped_default_renders_expected_level_and_format] = true.
Proof. vm_compute. reflexivity. Qed.

End DefaultFileTests.

(** ** abora-config: the schedule *)

Module ScheduleTests.

#[local] Instance toml : TomlValue := {| tval := unit; as_table _ := None |}.

Definition window (days : list Weekday) (start end_ : str) : MaintenanceWindow := mkWindow days start end_ None.
Definition at_time (d : Weekday) (h m : N) : LocalTime := mkTime d (h * 60 + m).
Definition config (automatic enabled : bool) (policy : RebootPolicy) (windows : list MaintenanceWindow) : Config :=
  mkConfig _ system_default
    (mkUpdates (channel updates_default) automatic (check_interval updates_default) policy
       (state_file updates_default) (apply_result_file updates_default))
    (mkMaintenance enabled windows) remote_default security_default logging_default api_default (mkFeatures ∅) ∅.
Definition sunday_window : list MaintenanceWindow := [window [Sunday] "02:00" "04:00"].

Definition windows_are_half_open_and_day_specific : bool :=
  let w := sunday_window in
  check [negb (in_window w (at_time Sunday 1 59)); in_window w (at_time Sunday 2 0); in_window w (at_time Sunday 3 59);
         negb (in_window w (at_time Sunday 4 0)); negb (in_window w (at_time Monday 3 0))].
Definition any_of_several_windows_counts : bool :=
  let w := [window [Saturday] "01:00" "02:00"; window [Wednesday; Thursday] "23:00" "23:59"] in
  check [in_window w (at_time Saturday 1 30); in_window w (at_time Thursday 23 30);
         negb (in_window w (at_time Friday 23 30)); negb (in_window [] (at_time Sunday 3 0))].
Definition installs_need_automatic_enabled_and_a_window : bool :=
  let w := sunday_window in
  let inside := Some (at_time Sunday 3 0) in
  let outside := Some (at_time Sunday 12 0) in
  check [installs_permitted (permissions (config true true Ask w) inside);
         negb (installs_permitted (permissions (config true true Ask w) outside));
         negb (installs_permitted (permissions (config false true Ask w) inside));
         negb (installs_permitted (permissions (config true false Ask w) inside));
         negb (installs_permitted (permissions (config true true Ask []) inside))].
Definition reboot_follows_the_policy : bool :=
  let w := sunday_window in
  let inside := Some (at_time Sunday 3 0) in
  let outside := Some (at_time Tuesday 15 0) in
  check [reboot_permitted (permissions (config true true Ask w) inside);
         negb (reboot_permitted (permissions (config true true Ask w) outside));
         reboot_permitted (permissions (config true true Always w) outside);
         negb (reboot_permitted (permissions (config true true Never w) inside))].
Definition unknown_time_permits_nothing_except_an_always_reboot_policy : bool :=
  let w := [window [Sunday] "00:00" "23:59"] in
  check [same (permissions (config true true Ask w) None) (mkPermissions None false false false);
         reboot_permitted (permissions (config true true Always w) None)].
Definition disabled_maintenance_never_counts_as_inside_for_policy : bool :=
  let p := permissions (config true false Ask sunday_window) (Some (at_time Sunday 3 0)) in
  negb (reboot_permitted p) && negb (installs_permitted p).
Definition checks_are_due_after_the_interval_and_retried_sooner_after_a_failure : bool :=
  let six_hours := from_secs (6 * 3600) in
  check [negb (check_is_due (from_secs 3600) true six_hours); check_is_due six_hours true six_hours;
         negb (check_is_due (from_secs 600) false six_hours); check_is_due RETRY_AFTER_FAILURE false six_hours;
         check_is_due (from_secs 60) false (from_secs 60)].
Definition interval_comes_from_the_config : bool :=
  let c : Config := config_default in
  let u := Config.updates c in
  let c' := mkConfig _ (Config.system c)
    (mkUpdates (channel u) (automatic u) "30m" (reboot_policy u) (state_file u) (apply_result_file u))
    (maintenance c) (remote c) (security c) (logging c) (api c) (features c) (extensions c) in
  check [same (check_interval_of c) (from_secs (6 * 3600)); same (check_interval_of c') (from_secs 1800)].
Definition a_requested_apply_needs_a_window_but_not_the_automatic_switch : bool :=
  let w := sunday_window in
  let inside := Some (at_time Sunday 3 0) in
  let outside := Some (at_time Sunday 12 0) in
  let manual_only := config false true Ask w in
  check [apply_permitted (permissions manual_only inside); negb (installs_permitted (permissions manual_only inside));
         negb (apply_permitted (permissions manual_only outside));
         negb (apply_permitted (permissions (config true false Ask w) inside));
         negb (apply_permitted (permissions (config true true Ask []) inside));
         negb (apply_permitted (permissions manual_only None))].
Definition date_output_is_parsed : bool :=
  check [same (parse_date_output ("7 03:15" ++ [LF])) (Some (at_time Sunday 3 15));
         same (parse_date_output "1 00:00") (Some (at_time Monday 0 0));
         forallb (λ bad : str, none (parse_date_output bad))
           [[] : str; "0 01:00" : str; "8 01:00" : str; "3 25:00" : str; "3 12:60" : str; "Tue 10:00" : str; "3" : str;
            "3 10-30" : str]].
Definition auto_apply_needs_every_condition : bool :=
  let hour := from_secs 3600 in
  let ok := mkPermissions (Some true) true true false in
  let off := mkPermissions (Some true) true false false in
  check [should_auto_apply ok true false None hour; should_auto_apply ok true false (Some hour) hour;
         negb (should_auto_apply ok false false None hour); negb (should_auto_apply ok true true None hour);
         negb (should_auto_apply ok true false (Some (from_secs 60)) hour);
         negb (should_auto_apply off true false None hour)].

Lemma schedule_tests : check [windows_are_half_open_and_day_specific; any_of_several_windows_counts;
  installs_need_automatic_enabled_and_a_window; reboot_follows_the_policy;
  unknown_time_permits_nothing_except_an_always_reboot_policy;
  disabled_maintenance_never_counts_as_inside_for_policy;
  checks_are_due_after_the_interval_and_retried_sooner_after_a_failure; interval_comes_from_the_config;
  a_requested_apply_needs_a_window_but_not_the_automatic_switch; date_output_is_parsed;
  auto_apply_needs_every_condition] = true.
Proof. vm_compute. reflexivity. Qed.

End ScheduleTests.

(** ** abora-log *)

Module LogTests.

(** Values as JSON documents; the clock of the tests. *)
Definition NOW : str := "2026-09-21T04:00:00.000Z".
Definition level_json (l : Level) : json := JStr (level_to_string l).
Definition object_json (m : gmap str json) : str := json_print (JObj (map_to_list m)).
Definition emits (r : RecordBuilder) (msg : str) (lg : Logger) : Logger :=
  emit JStr level_json json_print object_json NOW true lg r msg.
Abbreviation logs f := (f JStr level_json json_print object_json NOW true).

(** What the sink holds after [f]. *)
Definition capture (l : Level) (format : Format) (f : Logger → Logger) : str :=
  concat (written (f (build_logger (builder_format format (builder_level l builder))))).
Definition parsed (out : str) (p : json → bool) : bool := holds (from_text (trim out)) p.

Definition json_record_has_expected_shape : bool :=
  let out := capture Info Json
    (emits (Log.field "port" (Some (JNum 7360)) (Log.field "event" (Some (JStr "started")) (component "aborad" (record Info))))
       ("listening on " ++ "127.0.0.1:7360")) in
  parsed out (λ v, check
    [same (jindex "level" v) (JStr "info"); same (jindex "component" v) (JStr "aborad");
     same (jindex "message" v) (JStr "listening on 127.0.0.1:7360"); same (jindex "event" v) (JStr "started");
     same (jindex "port" v) (JNum 7360); holds (from_str_json (jindex "timestamp" v)) (ends_with "Z")]).
Definition DQ : str := ["034"%char].
Definition level_filtering : bool :=
  let out := capture Info Json (λ l, logs log_info "kept too" (logs log_debug "dropped" (logs log_warn "kept" l))) in
  let lines := lines out in
  let has l line := contains (DQ ++ "level" ++ DQ ++ ":" ++ DQ ++ l ++ DQ) line in
  check [same (length lines) 2; forallb (λ line, has "info" line || has "warn" line) lines].
Definition off_level_emits_nothing : bool := same (capture Off Text (logs log_error "nope")) [].
Definition set_level_reconfigures_a_shared_logger : bool :=
  let l0 := build_logger (builder_format Text (builder_level Info builder)) in
  let l1 := set_level Debug (logs log_info "before" l0) in
  let l2 := set_level Off (logs log_debug "after" l1) in
  let out := concat (written (logs log_error "silenced" l2)) in
  check [same (level l0) Info; same (level l1) Debug; contains "before" out; contains "after" out;
         negb (contains "silenced" out)].
Definition text_format_is_human_readable : bool :=
  let out := capture Info Text
    (emits (Log.field "channel" (Some (JStr "stable")) (component "cli" (record Info))) "config ok") in
  let line := trim out in
  check [starts_with "20" line; contains (" [cli] config ok channel=" ++ DQ ++ "stable" ++ DQ) line].
Definition redacted_json {A : Type} (r : Redacted A) : json := JStr (redacted_to_string r).
Definition redacted_values_never_leak : bool :=
  let secret : str := "hunter2-secret" in
  let out := capture Info Json (emits (Log.field "token" (Some (redacted_json (redact secret))) (record Info)) "auth ok") in
  check [negb (contains secret out); contains "<redacted>" out].
Definition text_and_json_print_lowercase_levels : bool :=
  forallb (λ format, contains "debug" (capture Debug format (logs log_debug "x"))) [Json; Text].
Definition known_epochs_format_correctly : bool :=
  check [same (utc_rfc3339_millis 0 0) "1970-01-01T00:00:00.000Z";
         same (utc_rfc3339_millis 1700000000 0) "2023-11-14T22:13:20.000Z";
         same (utc_rfc3339_millis 1700000000 123) "2023-11-14T22:13:20.123Z";
         same (utc_rfc3339_millis 0 1) "1970-01-01T00:00:00.001Z"].
Definition nullable_field_and_integer_field_round_trip : bool :=
  let out := capture Info Json
    (emits (Log.field "f" (Some (JOther "2.5")) (Log.field "n" (Some (JNum 7)) (record Info))) "m") in
  parsed out (λ v, check [same (jindex "n" v) (JNum 7); same (jindex "f" v) (JOther "2.5")]).
Definition level_from_str_round_trips : bool :=
  check [forallb (λ lv, ok_and (level_from_str (level_to_string lv)) (same lv)) [Off; Error; Warn; Info; Debug; Trace];
         fails (level_from_str "loud")].
Definition redacted_is_serialize_safe : bool :=
  same (jindex "token" (JObj [("token" : str, redacted_json (redact ("abc" : str)))])) (JStr "<redacted>").

(** [tests/panic_hook.rs]: two panics, of a named thread and of the main one. The
    place of a panic is recorded as the text of its location. *)
Definition panicking (payload thread : str) : Logger → Logger :=
  logs panic_record payload (Some ("crates/abora-log/tests/panic_hook.rs:41:19" : str)) (λ o, JStr <$> o) thread None.
Definition panics_become_structured_error_records : bool :=
  let out := capture Info Json (λ l, panicking "bad value 42" "main" (panicking "disk on fire" "worker-7" l)) in
  match mapM from_text (lines out) with
  | Some [r0; r1] => check
      [same (jindex "level" r0) (JStr "error"); same (jindex "component" r0) (JStr "panic");
       same (jindex "message" r0) (JStr "panic: disk on fire"); same (jindex "thread" r0) (JStr "worker-7");
       holds (from_str_json (jindex "location" r0)) (contains "panic_hook.rs:");
       same (jindex "message" r1) (JStr "panic: bad value 42")]
  | _ => false
  end.

Lemma log_tests : check [json_record_has_expected_shape; level_filtering; off_level_emits_nothing;
  set_level_reconfigures_a_shared_logger; text_format_is_human_readable; redacted_values_never_leak;
  text_and_json_print_lowercase_levels; known_epochs_format_correctly;
  nullable_field_and_integer_field_round_trip; level_from_str_round_trips; redacted_is_serialize_safe;
  panics_become_structured_error_records] = true.
Proof. vm_compute. reflexivity. Qed.

End LogTests.

(** ** abora-api *)

Module ApiTests.

Definition error_codes_have_expected_statuses : bool :=
  check [same (http_status InvalidRequest) 400%N; same (http_status Unauthorized) 401%N;
         same (http_status Forbidden) 403%N; same (http_status CodeNotFound) 404%N;
         same (http_status CodeNotImplemented) 501%N; same (http_status Internal) 500%N].
Definition error_envelope_serializes_as_spec : bool :=
  let body := with_request_id "req-1" (error_new CodeNotImplemented "planned") in
  let error := jindex "error" (error_to_json body) in
  check [same (jindex "code" error) (JStr "not_implemented"); same (jindex "message" error) (JStr "planned");
         same (jindex "request_id" error) (JStr "req-1")].
Definition endpoint_join_normalizes_slashes : bool :=
  check [same (endpoint "/api/v1" "health") "/api/v1/health"; same (endpoint "/api/v1/" "/health") "/api/v1/health";
         same (endpoint "/custom/base" "system") "/custom/base/system"].
Definition health_response_omits_absent_optional_fields : bool :=
  let health := mkHealthResponse HealthOk (mkDaemon DAEMON_NAME current) api_current 12 "2026-09-16T00:00:00.000Z" [] in
  let json := health_to_json health in
  check [same (jindex "status" json) (JStr "ok"); same (jindex "name" (jindex "api" json)) (JStr "v1");
         same (jindex "components" json) (JArr [])].
Definition system_response_can_embed_sysinfo_types : bool :=
  let response := mkSystemResponse "node-01" None (Some ("node-01" : str)) X86_64 "x86_64" 5 os_unknown
    (mkKernel "Linux" "6.10.0" "#1 SMP") (from_fields 1000 500 200 0 0) cpu_default current in
  let json := system_to_json response in
  check [same (jindex "architecture" json) (JStr "x86_64"); none (jmember "description" json);
         same (jindex "hostname_override" json) (JStr "node-01")].

Lemma api_tests : check [error_codes_have_expected_statuses; error_envelope_serializes_as_spec;
  endpoint_join_normalizes_slashes; health_response_omits_absent_optional_fields;
  system_response_can_embed_sysinfo_types] = true.
Proof. vm_compute. reflexivity. Qed.

End ApiTests.

(** ** abora-sysinfo *)

Module SysinfoTests.

Definition DQ : str := ["034"%char].
Definition TAB : str := ["009"%char].

Definition architecture_mapping : bool :=
  check [same (from_machine "x86_64") X86_64; same (from_machine "AMD64") X86_64; same (from_machine "aarch64") Aarch64;
         same (from_machine "armv7l") Arm; same (from_machine "riscv64") Riscv64;
         same (from_machine "weird-cpu") (Other "weird-cpu"); same (canonical (from_machine "weird-cpu")) "weird-cpu";
         same (canonical Aarch64) "aarch64"].
Definition memory_used_is_total_minus_available : bool :=
  let m := from_fields 1000 250 100 500 100 in
  check [same (used_bytes m) 750%N; same (swap_used_bytes m) 400%N].
Definition memory_used_saturates_when_inconsistent : bool :=
  let m := from_fields 100 200 0 0 10 in
  check [same (used_bytes m) 0%N; same (swap_used_bytes m) 0%N].
Definition collects_real_system_information : bool :=
  let e := test_host 0 (λ _ _, SpawnFailed "no") in
  on (disk LINUX)
    (info ← Sysinfo.collect decimal decimal_finite decimal_negative decimal_secs "x86_64";
     mret (match info with
           | Ret (Ok info) => check
               [negb (same (Sysinfo.hostname info) []); negb (same (k_release (kernel info)) []);
                (0 <? total_bytes (memory info))%N; (0 <? uptime info)%N; negb (same (machine info) [])]
           | _ => false
           end)).

Definition secs (text : str) : option N :=
  match parse_uptime decimal decimal_finite decimal_negative decimal_secs text with
  | Ret (Ok d) => Some (d / 1000000000)%N
  | _ => None
  end.
Definition parses_uptime : bool :=
  check [same (secs ("12345.67 98765.43" ++ [LF])) (Some 12345%N); none (secs []); none (secs "abc 1"); none (secs "-5 1")].
Definition parses_meminfo : bool :=
  let sample := unlines ["MemTotal:       16384000 kB" : str; "MemFree:         2048000 kB" : str;
    "MemAvailable:    8192000 kB" : str; "Buffers:          100000 kB" : str;
    "SwapTotal:       2097152 kB" : str; "SwapFree:        1048576 kB" : str] in
  ok_and (parse_meminfo sample) (λ m, check
    [same (total_bytes m) (16384000 * 1024)%N; same (available_bytes m) (8192000 * 1024)%N;
     same (free_bytes m) (2048000 * 1024)%N; same (used_bytes m) ((16384000 - 8192000) * 1024)%N;
     same (swap_total_bytes m) (2097152 * 1024)%N; same (swap_used_bytes m) (1048576 * 1024)%N]).
Definition meminfo_available_falls_back_to_free : bool :=
  ok_and (parse_meminfo (unlines ["MemTotal: 1000 kB" : str; "MemFree: 400 kB" : str])) (λ m, check
    [same (available_bytes m) (400 * 1024)%N; same (swap_total_bytes m) 0%N]).
Definition meminfo_requires_total : bool := fails (parse_meminfo (unlines ["MemFree: 1 kB" : str])).
Definition quoted (s : str) : str := DQ ++ s ++ DQ.
Definition parses_os_release_quoted_and_unquoted : bool :=
  let sample := unlines [[] : str; "NAME=" ++ quoted "Pop!_OS"; "VERSION=" ++ quoted "24.04 LTS (Jammy)"; "ID=pop" : str;
    "ID_LIKE=" ++ quoted "ubuntu debian"; "VERSION_ID=" ++ quoted "24.04";
    "PRETTY_NAME=" ++ quoted "Pop!_OS 24.04 LTS"; "HOME_URL=" ++ quoted "https://pop.system76.com";
    "ANSI_COLOR='38;2;48;167;212'" : str; "# a comment" : str] in
  let os := parse_os_release sample in
  check [same (os_id os) "pop"; same (os_name os) (Some ("Pop!_OS" : str));
         same (os_pretty_name os) (Some ("Pop!_OS 24.04 LTS" : str)); same (os_version_id os) (Some ("24.04" : str));
         same (os_id_like os) ["ubuntu" : str; "debian" : str];
         same (os_home_url os) (Some ("https://pop.system76.com" : str))].
Definition parses_escaped_os_release_values : bool :=
  let inner := "A " ++ "\" ++ DQ ++ "quoted" ++ "\" ++ DQ ++ " name" in
  let os := parse_os_release (unlines ["NAME=" ++ quoted inner; "ID=test" : str]) in
  same (os_name os) (Some ("A " ++ DQ ++ "quoted" ++ DQ ++ " name")).
Definition unknown_os_when_fields_missing : bool :=
  let os := parse_os_release (unlines ["PRETTY_NAME=Nothing" : str]) in
  check [same (os_id os) "unknown"; same (os_id_like os) []].
Definition RYZEN : str := "AMD Ryzen 9 5900X 12-Core Processor".
Definition parses_cpuinfo_x86 : bool :=
  let core n := [("processor" : str) ++ TAB ++ ": " ++ n; ("model name" : str) ++ TAB ++ ": " ++ RYZEN;
                 ("cpu cores" : str) ++ TAB ++ ": 12"] in
  let cpu := parse_cpuinfo (unlines (core "0" ++ [[]] ++ core "1")) in
  check [same (logical_cores cpu) (Some 2%N); same (physical_cores cpu) (Some 12%N); same (cpu_model cpu) (Some RYZEN)].
Definition parses_cpuinfo_arm_without_counts : bool :=
  let cpu := parse_cpuinfo (unlines [("Hardware" : str) ++ TAB ++ ": BCM2835"]) in
  check [same (cpu_model cpu) (Some ("BCM2835" : str)); none (logical_cores cpu); none (physical_cores cpu)].

Lemma sysinfo_tests : check [architecture_mapping; memory_used_is_total_minus_available;
  memory_used_saturates_when_inconsistent; collects_real_system_information; parses_uptime; parses_meminfo;
  meminfo_available_falls_back_to_free; meminfo_requires_total; parses_os_release_quoted_and_unquoted;
  parses_escaped_os_release_values; unknown_os_when_fields_missing; parses_cpuinfo_x86;
  parses_cpuinfo_arm_without_counts] = true.
Proof. vm_compute. reflexivity. Qed.

End SysinfoTests.

(** ** abora-services *)

Module ServicesTests.

Definition LIST_UNITS_SAMPLE : str := unlines [
  "accounts-daemon.service                          loaded    active   running Accounts Service" : str;
  "acpid.service                                    loaded    inactive dead    ACPI event daemon" : str;
  "apparmor.service                                 loaded    active   exited  Load AppArmor profiles" : str;
  "ssh.service                                      loaded    failed   failed  OpenBSD Secure Shell server" : str;
  "snapd.seeded.service                             loaded    active   exited  " : str;
  "broken.service                                   loaded    active   " : str].
Definition LIST_UNIT_FILES_SAMPLE : str := unlines [
  "accounts-daemon.service                          enabled         enabled" : str;
  "acpid.service                                    disabled        enabled" : str;
  "apparmor.service                                 enabled         enabled" : str;
  "alsa-utils.service                               masked          enabled" : str;
  "ssh.service                                      enabled         enabled" : str;
  "dbus.service                                     static          -" : str].

Definition list_units_parses_name_state_and_description : bool :=
  match parse_list_units LIST_UNITS_SAMPLE with
  | [accounts; acpi; apparmor; ssh; snapd] => check
      [same (ru_name accounts) "accounts-daemon.service"; same (ru_state accounts) Running;
       same (ru_description accounts) (Some ("Accounts Service" : str)); same (ru_state acpi) Stopped;
       same (ru_state apparmor) Running; same (ru_state ssh) Failed; same (ru_description snapd) None]
  | _ => false
  end.
Definition list_units_preserves_empty_description : bool :=
  match parse_list_units "foo.service loaded active running" with
  | u :: _ => same (ru_description u) None
  | [] => false
  end.
Definition list_unit_files_maps_states_to_enabled_hint : bool :=
  let states := parse_list_unit_files LIST_UNIT_FILES_SAMPLE in
  let hint (n : str) := mjoin (states !! n) in
  check [same (hint "accounts-daemon.service") (Some true); same (hint "acpid.service") (Some false);
         same (hint "alsa-utils.service") (Some false); same (hint "dbus.service") None].

Lemma services_tests : check [list_units_parses_name_state_and_description; list_units_preserves_empty_description;
  list_unit_files_maps_states_to_enabled_hint] = true.
Proof. vm_compute. reflexivity. Qed.

End ServicesTests.
