(* ===== verification/TestsDaemon.v ===== *)
(** * The unit tests of the daemon, the helper, the client and the boot screen

    Each test of [services/aborad] (those of the HTTP server are in [TestsServer]),
    [services/abora-apply], [cli/abora] and [boot/abora-boot] whose subject is
    modelled, as a boolean of the same name, and their evaluation. *)

From S2P Require Import Prelude Str World Net Version Log Types Store Host Apply Config Schedule Tokens Api Auth State AppState Reload Helper Canvas Boot Cli Wire Agree Derive Kit Toml KitToml.

(** A token file with one token. *)
Definition token_text (secret : str) (permissions : list str) (name : str) : str :=
  unlines ["[[tokens]]" : str; "name = " ++ json_quote name;
    "permissions = [" ++ join ", " (json_quote <$> permissions) ++ "]"; "secret_hash = " ++ json_quote (sha256_hex secret)].
Definition one_token (secret : str) (permissions : list str) (name : str) : TokenStore :=
  match Tokens.from_str (token_text secret permissions name) with Ret (Ok s) => s | _ => [] end.
Definition found (bearer : str) (s : TokenStore) (p : StoredToken → bool) : bool := holds (Tokens.find bearer s) p.

(** ** Tokens *)

Module TokensTests.

Definition finds_token_by_exact_secret : bool :=
  let store := one_token "s3cret" ["read:health" : str] "op" in
  found "s3cret" store (λ t, check [same (tk_name t) (Some ("op" : str)); grants "read:health" t]).
Definition unknown_and_wrong_secrets_are_not_found : bool :=
  let store := one_token "correct-horse" ["read:health" : str] "op" in
  forallb (λ secret : str, none (Tokens.find secret store))
    ["battery-staple" : str; [] : str; " correct-horse" : str; "correct-horse " : str].
Definition read_all_grants_any_permission : bool :=
  let store := one_token "root" ["read_all" : str] "operator" in
  forallb (λ id : str, found "root" store (grants id))
    ["read:health" : str; "read:version" : str; "read:system" : str; "read:updates" : str].
Definition empty_permissions_grant_nothing : bool :=
  found "x" (one_token "x" [] "nobody") (λ t, negb (grants "read:health" t)).
Definition refused (text : str) : bool := match Tokens.from_str text with Ret (Err _) => true | _ => false end.
Definition malformed_files_are_rejected : bool :=
  check [refused "not toml [[[["; refused (quoted_lines ["[tokens]"; "secret_hash = ^md5:abc^"]%string);
         refused (quoted_lines ["[[tokens]]"; "secret_hash = ^sha256:short^"]%string);
         refused (unlines ["[[tokens]]" : str; "secret_hash = " ++ json_quote ("sha256:" ++ replicate 64 "z"%char)])].
Definition empty_file_is_valid_but_useless : bool :=
  match Tokens.from_str [] with
  | Ret (Ok store) => check [is_empty store; same (len store) 0; none (Tokens.find "anything" store)]
  | _ => false
  end.
Definition collision_behavior_is_sound : bool :=
  let store := one_token (replicate 64 "a"%char) ["read_all" : str] "a" in
  none (Tokens.find (replicate 61 "a"%char ++ "b") store).

Lemma tokens_tests : check [finds_token_by_exact_secret; unknown_and_wrong_secrets_are_not_found;
  read_all_grants_any_permission; empty_permissions_grant_nothing; malformed_files_are_rejected;
  empty_file_is_valid_but_useless; collision_behavior_is_sound] = true.
Proof. vm_compute. reflexivity. Qed.

End TokensTests.

(** ** Authorization *)

Module AuthTests.

Definition LOOPBACK : IpAddr := V4 [127; 0; 0; 1]%N.
Definition REMOTE : IpAddr := V4 [10; 0; 0; 5]%N.
Definition LOCALHOST6 : IpAddr := V6 [0; 0; 0; 0; 0; 0; 0; 1]%N.
Definition store (secret : str) (permissions : list str) : TokenStore := one_token secret permissions "test".

Definition loopback_is_allowed_without_a_store : bool :=
  check [same (authorize LOOPBACK ReadHealth None None) Allowed; same (authorize LOCALHOST6 ReadHealth None None) Allowed].
Definition remote_clients_are_refused_even_with_valid_tokens : bool :=
  check [same (authorize REMOTE ReadHealth (Some ("secret" : str)) (Some (store "secret" ["read_all" : str]))) RemoteNotAllowed;
         same (authorize REMOTE ReadSystem None None) RemoteNotAllowed].
Definition missing_header_is_401_when_a_store_exists : bool :=
  same (authorize LOOPBACK ReadHealth None (Some (store "secret" ["read_all" : str]))) AuthenticationRequired.
Definition unknown_token_is_401 : bool :=
  same (authorize LOOPBACK ReadHealth (Some ("wrong" : str)) (Some (store "right" ["read_all" : str]))) AuthenticationRequired.
Definition valid_token_without_permission_is_403 : bool :=
  same (authorize LOOPBACK ReadSystem (Some ("ops" : str)) (Some (store "ops" ["read:health" : str]))) InsufficientPermission.
Definition valid_token_with_permission_is_allowed : bool :=
  same (authorize LOOPBACK ReadHealth (Some ("ops" : str)) (Some (store "ops" ["read:health" : str]))) Allowed.
Definition read_all_grant_covers_every_permission : bool :=
  let store := store "admin" ["read_all" : str] in
  forallb (λ p, same (authorize LOOPBACK p (Some ("admin" : str)) (Some store)) Allowed)
    [ReadHealth; ReadVersion; ReadSystem; ReadServices; ReadUpdates].
Definition permission_ids_are_stable_identifiers : bool :=
  check [same (permission_id ReadSystem) "read:system"; negb (is_mutating ReadHealth)].
Definition denial_maps_to_expected_error_codes : bool :=
  check [same (er_code <$> into_denial RemoteNotAllowed ReadSystem) (Some Forbidden);
         same (er_code <$> into_denial AuthenticationRequired ReadHealth) (Some Unauthorized);
         same (er_code <$> into_denial InsufficientPermission ReadHealth) (Some Forbidden);
         none (into_denial Allowed ReadHealth)].
Definition read_all_never_grants_a_mutating_permission : bool :=
  let s := Some (store "secret" ["read_all" : str]) in
  check [same (authorize LOOPBACK ManageUpdates (Some ("secret" : str)) s) InsufficientPermission;
         same (authorize LOOPBACK ReadUpdates (Some ("secret" : str)) s) Allowed].
Definition a_mutating_permission_must_be_named_explicitly : bool :=
  let s := Some (store "secret" ["manage:updates" : str]) in
  check [same (authorize LOOPBACK ManageUpdates (Some ("secret" : str)) s) Allowed;
         same (authorize LOOPBACK ReadUpdates (Some ("secret" : str)) s) InsufficientPermission].
Definition preview_mode_never_allows_mutation : bool :=
  check [same (authorize LOOPBACK ManageUpdates None None) TokensRequired;
         same (authorize LOOPBACK ReadUpdates None None) Allowed;
         negb (is_mutating ReadUpdates) && is_mutating ManageUpdates].

Lemma auth_tests : check [loopback_is_allowed_without_a_store; remote_clients_are_refused_even_with_valid_tokens;
  missing_header_is_401_when_a_store_exists; unknown_token_is_401; valid_token_without_permission_is_403;
  valid_token_with_permission_is_allowed; read_all_grant_covers_every_permission;
  permission_ids_are_stable_identifiers; denial_maps_to_expected_error_codes;
  read_all_never_grants_a_mutating_permission; a_mutating_permission_must_be_named_explicitly;
  preview_mode_never_allows_mutation] = true.
Proof. vm_compute. reflexivity. Qed.

End AuthTests.

(** ** The update state *)

(** The real codecs, in files. *)
#[local] Instance store_serde : Serde StoreData := serde_of StoreData.
#[local] Instance request_serde : Serde ApplyRequest := serde_of ApplyRequest.
#[local] Instance result_serde : Serde ApplyResult := serde_of ApplyResult.

(** [UpdatesState::with_runner]: the runner's answer to [apt-get] and the clock are
    those of the host. *)
Definition with_runner (dir : str) : UpdatesState :=
  mkUpdatesState (mkHost in_memory "/nonexistent/abora-reboot-required" None) [] None
    (join_path dir REQUEST_FILE_NAME) (join_path dir "result.json").
Definition clock_says (local : option LocalTime) : process_end :=
  match local with Some t => Exited true "exit status: 0" (date_text t) [] | None => SpawnFailed "no clock" end.
Definition daemon_host (apt : process_end) (local : option LocalTime) : Env :=
  test_host 1789963200000000000 (λ program _,
    if decide (program = ("date" : str)) then clock_says local
    else if decide (program = ("apt-get" : str)) then apt else SpawnFailed "not found").
Definition answers (text : str) : process_end := Exited true "exit status: 0" text [].
(** [UpdatesState::disabled]. *)
Definition no_checks : process_end := SpawnFailed "update checks are disabled".
Definition disabled : UpdatesState := with_runner "/t".
Definition scratch : world := disk [("/t" : str, Directory)].

Definition sunday_3am : option LocalTime := Some (mkTime Sunday (3 * 60)).
Definition sunday_noon : option LocalTime := Some (mkTime Sunday (12 * 60)).
Definition window_config : Config :=
  mkConfig _ system_default updates_default (mkMaintenance true [mkWindow [Sunday] "02:00" "04:00" None])
    remote_default security_default logging_default api_default (mkFeatures ∅) ∅.
Definition hash : nat → str → N := λ n _, (11400714819323198485 * N.of_nat (S n))%N.

Module StateTests.

Definition canned : process_end := answers (unlines
  ["Inst openssl [3.0.13-0ubuntu3.4] (3.0.13-0ubuntu3.5 Ubuntu:24.04/noble-updates [amd64])" : str]).
Definition conflict (r : result ApplyRefusal ApplyResponse) (p : str → bool) : bool :=
  match r with Err (RefusedConflict m) => p m | _ => false end.

Definition a_refresh_fills_in_the_response : bool :=
  let e := daemon_host canned None in
  on scratch
    ('(before, u) ← response (with_runner "/t");
     '(count, u) ← refresh Stable u;
     '(r, _) ← response u;
     mret (check [none (ur_status before); ok_and count (same 1); negb (none (ur_last_check r));
       same (au_component <$> ur_available r) ["openssl" : str];
       same (ur_status r) (Some (UpdateAvailable ["openssl 3.0.13-0ubuntu3.5" : str]))])).
Definition a_failed_refresh_reports_an_error_status_and_keeps_the_old_list : bool :=
  let e := daemon_host no_checks None in
  on scratch
    ('(count, u) ← refresh Stable disabled;
     '(r, _) ← response u;
     mret (check [fails count; match ur_status r with Some (StatusError _) => true | _ => false end;
                  same (ur_available r) []])).
Definition health_is_ok_before_a_check_and_degraded_after_a_failed_one : bool :=
  let e := daemon_host no_checks None in
  on scratch
    ('(count, u) ← refresh Stable disabled;
     let h := health u in
     mret (check [same (ch_status (health disabled)) HealthOk; fails count; same (ch_status h) Degraded;
                  negb (none (ch_detail h))])).
Definition apply_needs_something_to_apply : bool :=
  let e := daemon_host canned sunday_3am in
  on scratch
    (let u := with_runner "/t" in
     dry ← request_apply hash window_config "ops" true u;
     wet ← request_apply hash window_config "ops" false u;
     mret (check [ok_and dry (λ d, check [negb (ap_permitted d); holds (ap_reason d) (contains "no updates")]);
                  conflict wet (λ _, true)])).
Definition a_request_names_only_packages_and_passes_the_helpers_own_validation : bool :=
  let e := daemon_host canned sunday_3am in
  on scratch
    ('(count, u) ← refresh Stable (with_runner "/t");
     response ← request_apply hash window_config "ops" false u;
     bytes ← bytes_at (join_path "/t" REQUEST_FILE_NAME);
     again ← request_apply hash window_config "ops" false u;
     mret (check [is_ok count;
       holds (b ← bytes; decode_json b) (λ request : ApplyRequest, check
         [ok_and response (λ r, same (ap_id r) (Some (ar_id request))); same (ar_requested_by request) "ops";
          same (ar_packages request) ["openssl" : str]; is_ok (validate_request request)]);
       conflict again (contains "already")])).
Definition a_helper_result_becomes_one_history_entry : bool :=
  let e := daemon_host canned None in
  let result := mkResult "apply-00aa11bb22cc33dd" "2026-09-21T03:00:00Z" "2026-09-21T03:02:00Z" true
    ["openssl" : str; "libc6" : str] (Some ("a reboot is needed but policy does not allow one now" : str)) false in
  on scratch
    ('(count, u) ← refresh Stable (with_runner "/t");
     '(r0, u) ← response u;
     w ← write_atomic "/t/result.json" (to_text (to_json result)) 420;
     '(first, u) ← ingest_apply_result Stable u;
     '(second, u) ← ingest_apply_result Stable u;
     '(r, _) ← response u;
     mret (check [is_ok count; same (length (ur_available r0)) 1; is_ok w; first; negb second;
       match ur_history r with
       | [h] => check [he_succeeded h; same (applied_at h) "2026-09-21T03:02:00Z";
           holds (he_note h) (λ note, check [starts_with "apply apply-00aa11bb22cc33dd: 2 package(s)" note;
                                             contains "policy does not allow" note])]
       | _ => false
       end;
       same (ur_available r) []])).
Definition garbage_in_the_result_file_is_ignored : bool :=
  let e := daemon_host canned None in
  on scratch
    (_ ← put_file "/t/result.json" "{ nope" 0;
     '(recorded, u) ← ingest_apply_result Stable (with_runner "/t");
     '(r, _) ← response u;
     mret (check [negb recorded; same (ur_history r) []])).

Lemma state_tests : check [a_refresh_fills_in_the_response;
  a_failed_refresh_reports_an_error_status_and_keeps_the_old_list;
  health_is_ok_before_a_check_and_degraded_after_a_failed_one; apply_needs_something_to_apply;
  a_request_names_only_packages_and_passes_the_helpers_own_validation;
  a_helper_result_becomes_one_history_entry; garbage_in_the_result_file_is_ignored] = true.
Proof. vm_compute. reflexivity. Qed.

End StateTests.

(** ** Reloading *)

Module ReloadTests.

Definition test_state_with (c : Config) (l : Level) (tokens : option TokenStore) : AppState :=
  mkAppState c (as_rank l) tokens 0 "2026-09-21T04:00:00.000Z" disabled.
Definition with_sections (sys : SystemConfig) (sec : SecurityConfig) (log : LoggingConfig) : Config :=
  mkConfig _ sys updates_default maintenance_default remote_default sec log api_default (mkFeatures ∅) ∅.
Definition default_config : Config := config_default.
#[local] Instance host : Env := daemon_host no_checks None.

Definition changed_settings_reports_modified_fields : bool :=
  let fresh := with_sections (mkSystem (Some ("node-7" : str)) None) (mkSecurity false None) (mkLogging Debug Json) in
  let changes := changed_settings default_config fresh in
  check [existsb (contains "hostname = node-7") changes; existsb (contains "require_authentication = false") changes;
         existsb (λ c, contains "log level" c || contains "[logging] level = debug" c) changes;
         negb (existsb (contains "listen_addr") changes)].

Definition reload_from_missing_file_keeps_previous_config : bool :=
  on scratch
    (r ← reload (test_state_with default_config Trace None) (File "/t/abora-reload-missing.toml");
     mret (same (Config.hostname (Config.system (AppState.config (after r)))) None)).
Definition reload_applies_new_config_and_log_level : bool :=
  let path : str := "/t/abora-reload-ok.toml" in
  on scratch
    (_ ← put_file path (quoted_lines ["[system]"; "hostname = ^reloaded^"; ""; "[logging]"; "level = ^warn^"]%string) 0;
     r ← reload (test_state_with default_config Trace None) (File path);
     let s := after r in
     mret (check [same (Config.hostname (Config.system (AppState.config s))) (Some ("reloaded" : str));
                  same (from_rank (AppState.level_rank s)) Warn])).
Definition reload_swaps_token_store : bool :=
  let auth : str := "/t/abora-reload-auth.toml" in
  let config_file : str := "/t/abora-reload-with-auth.toml" in
  on scratch
    (_ ← put_file auth (token_text "op-secret" ["read_all" : str] "op") 0;
     _ ← put_file config_file (unlines ["[security]" : str; "token_file = " ++ json_quote auth]) 0;
     r ← reload (test_state_with default_config Off None) (File config_file);
     mret (same (len <$> AppState.tokens (after r)) (Some 1))).
Definition refresh_tokens_keeps_previous_store_on_bad_file : bool :=
  let keep := Some (one_token "keep-me" ["read_all" : str] "t") in
  let bad : str := "/t/abora-reload-bad.toml" in
  on scratch
    (unset ← refresh_tokens (test_state_with default_config Off keep);
     _ ← put_file bad (unlines ["[[tokens]]" : str; "not a valid store" : str]) 0;
     let c := with_sections system_default (mkSecurity true (Some bad)) logging_default in
     r ← refresh_tokens (set_tokens keep (set_config c (after unset)));
     mret (check [none (AppState.tokens (after unset)); negb (none (AppState.tokens (after r)))])).

Lemma reload_tests : check [changed_settings_reports_modified_fields;
  reload_from_missing_file_keeps_previous_config; reload_applies_new_config_and_log_level;
  reload_swaps_token_store; refresh_tokens_keeps_previous_store_on_bad_file] = true.
Proof. vm_compute. reflexivity. Qed.

End ReloadTests.

(** ** The helper *)

Module HelperTests.

Definition SIM : str := unlines [
  "Inst openssl [3.0.13-0ubuntu3.4] (3.0.13-0ubuntu3.5 Ubuntu:24.04/noble-updates [amd64])" : str;
  "Inst libc6 [2.39-0ubuntu8.7] (2.39-0ubuntu8.9 Ubuntu:24.04/noble-security [amd64])" : str].
Definition NOW : N := 1789959600000000000.
#[local] Instance host : Env := test_host NOW (λ _ _, SpawnFailed "no").

(** The runner of the tests: it records every command and answers from a script. *)
Definition fake (install_error : option str) (program : str) (args : list str) : io (result str str) :=
  λ w, (if bool_decide (("-s" : str) ∈ args) then Ok SIM
        else match install_error with
             | Some e => if bool_decide (("install" : str) ∈ args) then Err e else Ok []
             | None => Ok []
             end,
        mkWorld (files w) (S (calls w)) (Ran program args :: trace w)).
Definition helper_config (policy : RebootPolicy) : Config :=
  mkConfig _ system_default
    (mkUpdates (channel updates_default) (automatic updates_default) (check_interval updates_default) policy
       (state_file updates_default) (apply_result_file updates_default))
    (mkMaintenance true [mkWindow [Sunday] "02:00" "04:00" None])
    remote_default security_default logging_default api_default (mkFeatures ∅) ∅.
Definition env (local : option LocalTime) (policy : RebootPolicy) (install_error : option str) : Ctx :=
  mkCtx (join_path "/t" REQUEST_FILE_NAME) (helper_config policy) (fake install_error)
    (mret ("2026-09-21T03:00:00Z" : str)) (mret local) "/t/reboot-required".
Definition put_request (ctx : Ctx) (packages : list str) : io (result io_error ()) :=
  write_atomic (request_path ctx)
    (to_text (to_json (Apply.mkRequest "req-0123abcd" "2026-09-21T02:59:00Z" "ops" packages))) 384.
(** Every command so far, oldest first, and those that install. *)
Definition called : io (list (str * list str)) := λ w, (rev (commands w), w).
Definition installs : io (list (str * list str)) :=
  c ← called; mret (filter (λ x, ("install" : str) ∈ snd x) c).
Definition note_has (needle : str) (o : Outcome) : bool := holds (res_note (oc_result o)) (contains needle).

Definition no_request_means_nothing_to_do : bool :=
  on scratch
    (out ← process (env sunday_3am Ask None); c ← called; mret (check [none out; same c []])).
(** One [apt-get install] of exactly the two packages, upgrades only. *)
Definition one_upgrade (i : list (str * list str)) : bool :=
  match i with
  | [(program, args)] =>
      check [same program "apt-get";
        same (drop (length args - 2) args) ["openssl" : str; "libc6" : str];
        bool_decide (("--only-upgrade" : str) ∈ args); bool_decide (("--no-remove" : str) ∈ args)]
  | _ => false
  end.
Definition a_valid_request_in_the_window_upgrades_exactly_the_listed_packages : bool :=
  let e := env sunday_3am Ask None in
  on scratch
    (_ ← put_request e ["openssl" : str; "libc6" : str];
     out ← process e; i ← installs;
     mret (check [holds out (λ out, check [res_succeeded (oc_result out);
                    same (res_packages (oc_result out)) ["openssl" : str; "libc6" : str]; negb (oc_reboot out)]);
       one_upgrade i])).
Definition outside_the_window_nothing_is_installed : bool :=
  let e := env sunday_noon Ask None in
  on scratch
    (_ ← put_request e ["openssl" : str];
     out ← process e; c ← called;
     mret (check [holds out (λ out, check [negb (res_succeeded (oc_result out)); note_has "maintenance window" out]);
                  same c []])).
Definition unknown_local_time_installs_nothing : bool :=
  let e := env None Always None in
  on scratch
    (_ ← put_request e ["openssl" : str];
     out ← process e; i ← installs;
     mret (check [holds out (λ out, negb (res_succeeded (oc_result out))); same i []])).
Definition hostile (bad : list str) : bool :=
  let e := env sunday_3am Ask None in
  on scratch
    (_ ← put_request e bad;
     out ← process e; c ← called;
     mret (check [holds out (λ out, negb (res_succeeded (oc_result out))); same c [];
                  holds out (λ out, holds (res_note (oc_result out)) (λ n, negb (contains "reboot" n)))])).
Definition a_hostile_request_is_refused_before_any_command_runs : bool :=
  forallb hostile [["openssl" : str; "--yes" : str]; ["$(reboot)" : str]; ["../../etc/passwd" : str]; ["a b" : str]].
Definition garbage_json_is_refused : bool :=
  let e := env sunday_3am Ask None in
  on scratch
    (_ ← write_atomic (request_path e) "{ not json" 384;
     out ← process e; c ← called;
     mret (check [holds out (λ out, check [negb (res_succeeded (oc_result out)); same (res_id (oc_result out)) "invalid"]);
                  same c []])).
Definition a_stale_request_is_not_replayed : bool :=
  let e := env sunday_3am Ask None in
  on scratch
    (_ ← put_request e ["openssl" : str];
     bytes ← bytes_at (request_path e);
     _ ← put_file (request_path e) (default [] bytes) (NOW - from_secs (30 * 60));
     out ← process e; c ← called;
     mret (check [holds out (λ out, check [negb (res_succeeded (oc_result out)); note_has "older than" out]);
                  same c []])).
Definition a_symlinked_request_is_refused : bool :=
  let e := env sunday_3am Ask None in
  on (disk [("/t" : str, Directory); ("/t/elsewhere.json" : str, Regular "{}" 420 NOW);
            (request_path e, Symlink "/t/elsewhere.json")])
    (out ← process e;
     mret (holds out (λ out, check [negb (res_succeeded (oc_result out)); note_has "not a regular file" out]))).
Definition packages_that_are_no_longer_upgradable_are_skipped : bool :=
  let e := env sunday_3am Ask None in
  on scratch
    (_ ← put_request e ["openssl" : str; "vim-tiny" : str];
     out ← process e; i ← installs;
     mret (check [holds out (λ out, check [res_succeeded (oc_result out);
                    same (res_packages (oc_result out)) ["openssl" : str]; note_has "skipped" out]);
                  holds (head i) (λ x, negb (bool_decide (("vim-tiny" : str) ∈ snd x)))])).
Definition if_none_are_upgradable_it_succeeds_without_installing : bool :=
  let e := env sunday_3am Ask None in
  on scratch
    (_ ← put_request e ["vim-tiny" : str];
     out ← process e; i ← installs;
     mret (check [holds out (λ out, check [res_succeeded (oc_result out); same (res_packages (oc_result out)) [];
                                           note_has "nothing to do" out]);
                  same i []])).
Definition an_install_failure_is_reported_and_never_reboots : bool :=
  let e := env sunday_3am Always (Some ("apt-get exited with exit status: 100: E: dpkg was interrupted" : str)) in
  on (disk [("/t" : str, Directory); ("/t/reboot-required" : str, Regular [] 420 NOW)])
    (_ ← put_request e ["openssl" : str];
     out ← process e;
     mret (holds out (λ out, check [negb (res_succeeded (oc_result out)); negb (oc_reboot out);
                                    note_has "dpkg was interrupted" out]))).
(** One of the three runs: is a restart needed, and the outcome. *)
Definition reboot_run (policy : RebootPolicy) (needed : bool) (p : Outcome → bool) : bool :=
  let e := env sunday_3am policy None in
  on (disk ([("/t" : str, Directory)] ++ if needed then [("/t/reboot-required" : str, Regular [] 420 NOW)] else []))
    (_ ← put_request e ["openssl" : str]; out ← process e; mret (holds out p)).
Definition reboot_follows_policy_and_only_when_one_is_needed : bool :=
  check [reboot_run Ask true (λ out, oc_reboot out && res_reboot_started (oc_result out));
         reboot_run Never true (λ out, negb (oc_reboot out) && note_has "policy does not allow" out);
         reboot_run Always false (λ out, negb (oc_reboot out))].

Lemma helper_tests : check [no_request_means_nothing_to_do;
  a_valid_request_in_the_window_upgrades_exactly_the_listed_packages; outside_the_window_nothing_is_installed;
  unknown_local_time_installs_nothing; a_hostile_request_is_refused_before_any_command_runs;
  garbage_json_is_refused; a_stale_request_is_not_replayed; a_symlinked_request_is_refused;
  packages_that_are_no_longer_upgradable_are_skipped; if_none_are_upgradable_it_succeeds_without_installing;
  an_install_failure_is_reported_and_never_reboots; reboot_follows_policy_and_only_when_one_is_needed] = true.
Proof. vm_compute. reflexivity. Qed.

End HelperTests.

(** ** The client *)

Module CliTests.

#[local] Instance view : JsonView := wire_view (λ _, "expected value" : str).
#[local] Instance host : Env := test_host 0 (λ _ _, SpawnFailed "no").

Definition daemon_url_resolution_defaults_to_loopback : bool :=
  on scratch
    (base ← resolve_daemon_url None None (Some ("http://127.0.0.1:7360/" : str));
     mret (ok_and base (same ("http://127.0.0.1:7360" : str)))).
Definition os_pretty_prefers_pretty_name : bool :=
  check [same (os_pretty (JObj [("os" : str, JObj [("pretty_name" : str, JStr "Pop!_OS 24.04 LTS"); ("id" : str, JStr "pop")])]))
           "Pop!_OS 24.04 LTS";
         same (os_pretty (JObj [("os" : str, JObj [("id" : str, JStr "unknown")])])) "unknown"].
Definition sha256_hex_matches_known_vector : bool :=
  same (sha256_hex "test") "sha256:9f86d081884c7d659a2feaa0c55ad015a3bf4f1b2b0b822cd15d6c15b0f00a08".
Definition hex_encode_is_lowercase_and_padded : bool :=
  check [same (hex_encode [0x0f; 0xaa; 0x01]%N) "0faa01"; same (hex_encode []) []].
Definition is_hexdigit (c : ascii) : bool := match Kit.hex_digit c with Some _ => true | None => false end.
Definition random_secret_is_expected_length_and_readable : bool :=
  let urandom (n : nat) : result str (list N) := Ok ((λ i, N.of_nat i * 37 mod 256)%N <$> seq 0 n) in
  check [ok_and (random_secret None urandom 32) (λ secret, check [same (length secret) 64; forallb is_hexdigit secret]);
         fails (random_secret None urandom 8)].

Definition obj (l : list (string * json)) : json := JObj (List.map (λ x : string * json, (fst x : str, snd x)) l).
Definition text (s : string) : json := JStr s.
Definition sample : json := obj
  [("status", obj [("state", text "update_available"); ("versions", JArr [text "a 1"])]);
   ("last_check", text "2026-09-21T01:00:00Z");
   ("reboot", obj [("required", JBool true); ("reason", text "kernel"); ("pending_since", text "2026-09-21T00:30:00Z")]);
   ("schedule", obj [("check_interval_seconds", JNum 21600); ("in_maintenance_window", JBool true);
      ("apply_permitted", JBool true); ("installs_permitted", JBool false); ("reboot_permitted", JBool true)]);
   ("available", JArr [obj [("summary", text "openssl: 1 -> 2 (x)"); ("component", text "openssl")]]);
   ("history", JArr [obj [("applied_at", text "2026-09-20T03:00:00Z"); ("succeeded", JBool false);
      ("note", text "apply x: 0 package(s); boom")]])]%string.
Definition printed (v : json) : str := join [LF] (format_updates v).

Definition updates_summary_shows_status_policy_reboot_available_and_history : bool :=
  let text := printed sample in
  forallb (λ needle : str, contains needle text)
    ["status:     1 update(s) available" : str; "last check: 2026-09-21T01:00:00Z" : str;
     "maintenance window open; applying is permitted now; checks every 21600s" : str;
     "reboot:     REQUIRED (since 2026-09-21T00:30:00Z): kernel" : str; "  openssl: 1 -> 2 (x)" : str;
     "FAILED apply x: 0 package(s); boom" : str].
Definition updates_summary_is_honest_before_the_first_check : bool :=
  let text := printed (obj [("reboot", obj [("required", JBool false)]); ("available", JArr []); ("history", JArr [])]%string) in
  check [contains "unknown (no check has finished yet)" text; contains "last check: never" text;
         contains "reboot:     not required" text; negb (contains "policy:" text)].
Definition long_lists_are_cut_with_a_pointer_to_json : bool :=
  let many := (λ i, JObj [("summary" : str, JStr ("pkg" ++ dec_nat i))]) <$> seq 0 25 in
  let text := printed (obj [("status", obj [("state", text "update_available")]); ("available", JArr many);
                            ("reboot", obj []); ("history", JArr [])]%string) in
  check [contains "pkg9" text; negb (contains "pkg10" text); contains "and 15 more (use --json" text].
Definition the_plan_lists_packages_in_rows : bool :=
  let plan := obj [("packages", JArr (text <$> ["a"; "b"; "c"; "d"; "e"; "f"; "g"]))]%string in
  same (format_plan plan) ["7 package(s) would be upgraded:" : str; "  a b c d e f" : str; "  g" : str].

Lemma cli_tests : check [daemon_url_resolution_defaults_to_loopback; os_pretty_prefers_pretty_name;
  sha256_hex_matches_known_vector; hex_encode_is_lowercase_and_padded; random_secret_is_expected_length_and_readable;
  updates_summary_shows_status_policy_reboot_available_and_history;
  updates_summary_is_honest_before_the_first_check; long_lists_are_cut_with_a_pointer_to_json;
  the_plan_lists_packages_in_rows] = true.
Proof. vm_compute. reflexivity. Qed.

End CliTests.

(** ** The boot screen *)

Module BootTests.

Definition kmsg_records_are_formatted_with_a_timestamp : bool :=
  let rec := unlines ["6,339,5140900,-;NET: Registered PF_INET" : str; " SUBSYSTEM=net" : str] in
  check [same (parse_kmsg rec) (Some ("[    5.140] NET: Registered PF_INET" : str)); none (parse_kmsg "garbage")].
Definition logo (px : list (list N)) (w h : nat) : Logo := mkLogo w h (concat px).
Definition solid_pixels_keep_their_colour_and_alpha_when_scaled : bool :=
  let l := logo (replicate 4 [200; 100; 50; 255]%N) 2 2 in
  match sample l 3 3 8 8 with Ret p => same p (200, 100, 50, 255)%N | Panic => false end.
Definition transparent_pixels_stay_transparent_and_do_not_bleed_colour : bool :=
  let l := logo [[255; 0; 0; 0]; [0; 255; 0; 255]; [255; 0; 0; 0]; [0; 255; 0; 255]]%N 2 2 in
  match sample l 2 0 4 4, sample l 0 0 4 4 with
  | Ret (r, _, _, a), Ret (_, _, _, a0) => check [(0 <? a)%N; same r 0%N; same a0 0%N]
  | _, _ => false
  end.

Lemma boot_tests : check [kmsg_records_are_formatted_with_a_timestamp;
  solid_pixels_keep_their_colour_and_alpha_when_scaled;
  transparent_pixels_stay_transparent_and_do_not_bleed_colour] = true.
Proof. vm_compute. reflexivity. Qed.

End BootTests.
