(* ===== verification/TestsServer.v ===== *)
(** * The unit tests of the HTTP server

    Each test of [services/aborad/src/server.rs] as a boolean of the same name: the
    requests go through [Router.handle], with SHA-256, JSON text and the codecs
    computed, and their evaluation. *)

From S2P Require Import Prelude Str World Net Version Types Store Host Apply Config Schedule Tokens Api Services Auth Server State AppState Wire Router Derive Kit Toml KitToml TestsDaemon.

#[local] Instance store_serde : Serde StoreData := serde_of StoreData.
#[local] Instance request_serde : Serde ApplyRequest := serde_of ApplyRequest.
#[local] Instance result_serde : Serde ApplyResult := serde_of ApplyResult.
#[local] Existing Instance example_axum.

(** The [n]-th eight bytes of [/dev/urandom]. *)
Definition urandom (n : nat) : list N := (λ i, (N.of_nat (n * 8 + i) * 37) mod 256)%N <$> seq 0 8.
Definition fresh_id (n : nat) : str := generate_request_id (Some (urandom n)) 0 0 0.

(** [build(state)] with [oneshot]: the answer and the state after it. *)
Definition oneshot `{Env} (s : AppState) (req : Request) : io (outcome Response * AppState) :=
  handle hash fresh_id decimal decimal_finite decimal_negative decimal_secs "x86_64" None
    (base_path (Config.api (AppState.config s))) s req.
Definition call `{Env} (s : AppState) (req : Request) : io (option Response) :=
  '(r, _) ← oneshot s req; mret (match r with Ret r => Some r | Panic => None end).

Definition test_app_with_tokens (c : Config) (tokens : option TokenStore) : AppState :=
  mkAppState c 0 tokens 0 "2026-09-21T04:00:00.000Z" disabled.
Definition test_app (c : Config) : AppState := test_app_with_tokens c None.
Definition request_with_peer_and_token (uri : str) (ip : IpAddr) (token : option str) : Request :=
  mkRequest "GET" uri None ((λ t, ("Bearer " : str) ++ t) <$> token) (Some ip) None None.
Definition request_with_peer (uri : str) (ip : IpAddr) : Request := request_with_peer_and_token uri ip None.
Definition LOCALHOST : IpAddr := V4 [127; 0; 0; 1]%N.
Definition REMOTE : IpAddr := V4 [10; 1; 2; 3]%N.
Definition loopback_request (uri : str) : Request := request_with_peer uri LOCALHOST.
Definition loopback_request_with_token (uri token : str) : Request := request_with_peer_and_token uri LOCALHOST (Some token).
Definition token_store (secret : str) (permissions : list str) : TokenStore := one_token secret permissions "test".
Definition with_request_id (id : str) (r : Request) : Request :=
  mkRequest (rq_method r) (rq_path r) (Some id) (rq_authorization r) (rq_peer r) None None.
Definition post (uri : str) (token : option str) : Request :=
  let r := request_with_peer_and_token uri LOCALHOST token in
  mkRequest "POST" uri None (rq_authorization r) (rq_peer r) None None.

Definition status_of (r : option Response) : N := match r with Some r => rs_status r | None => 0 end.
Definition body_json (r : option Response) : json := default JNull (r ← r; json_parse (rs_body r)).
Definition id_of (r : option Response) : option str := r ← r; rs_request_id r.
(** [v["a"]["b"]], as text, and whether a member is there. *)
Definition at_path (v : json) (path : list string) : json := foldl (λ v (k : string), jindex (k : str) v) v path.
Definition text_at (v : json) (path : list string) : str := match at_path v path with JStr s => s | _ => [] end.
Definition items (v : json) : list json := match v with JArr l => l | _ => [] end.
Definition is_hex (s : str) : bool := forallb (λ c, match hex_digit c with Some _ => true | None => false end) s.

(** Whether the test host has [systemctl], which several tests branch on. *)
Definition UNITS : str := unlines [
  "ssh.service    loaded active   running OpenBSD Secure Shell server" : str;
  "cron.service   loaded inactive dead    Regular background program processing daemon" : str].
Definition UNIT_FILES : str := unlines ["ssh.service  enabled enabled" : str; "cron.service disabled enabled" : str].
Definition systemctl (args : list str) : process_end :=
  if bool_decide (("list-units" : str) ∈ args) then answers UNITS
  else if bool_decide (("list-unit-files" : str) ∈ args) then answers UNIT_FILES
  else answers (unlines ["LoadState=not-found" : str; "ActiveState=inactive" : str]).
Definition server_host (systemctl_available : bool) : Env :=
  test_host 1789963200000000000 (λ program args,
    if decide (program = ("systemctl" : str)) then
      (if systemctl_available then systemctl args else SpawnFailed "No such file or directory")
    else SpawnFailed "not found").
Definition machine : world := disk (LINUX ++ [("/t" : str, Directory)]).

Section tests.
Context (systemctl_available : bool).
#[local] Instance the_host : Env := server_host systemctl_available.

Definition default_config : Config := config_default.
Definition get_json (uri : str) : io (N * option Response * json) :=
  r ← call (test_app default_config) (loopback_request uri); mret (status_of r, r, body_json r).

Definition health_returns_ok : bool :=
  on machine
    (r ← call (test_app default_config) (loopback_request "/api/v1/health");
     let v := body_json r in
     mret (check [same (status_of r) 200%N; same (text_at v ["status"%string]) "ok";
       same (text_at v ["daemon"; "name"]%string) "aborad"; same (text_at v ["api"; "name"]%string) "v1";
       same ((λ c, text_at c ["name"%string]) <$> items (jindex "components" v)) ["updates" : str]])).
Definition version_returns_framework_and_daemon_versions : bool :=
  on machine
    (r ← call (test_app default_config) (loopback_request "/api/v1/version");
     let v := body_json r in
     mret (check [same (status_of r) 200%N; negb (none (jmember "major" (jindex "framework_version" v)));
       match at_path v ["framework_version"; "patch"]%string with JNum _ => true | _ => false end;
       same (text_at v ["daemon"; "name"]%string) "aborad"; same (text_at v ["api"; "path"]%string) "/api/v1"])).
Definition system_returns_real_machine_facts : bool :=
  on machine
    (r ← call (test_app default_config) (loopback_request "/api/v1/system");
     let v := body_json r in
     mret (check [same (status_of r) 200%N; negb (same (text_at v ["hostname"%string]) []);
       negb (same (text_at v ["kernel"; "release"]%string) []);
       match at_path v ["memory"; "total_bytes"]%string with JNum n => (0 <? n)%N | _ => false end;
       same (text_at v ["architecture"%string]) "x86_64"])).
Definition services_lists_systemd_units_else_503 : bool :=
  on machine
    (r ← call (test_app default_config) (loopback_request "/api/v1/services");
     let list := items (body_json r) in
     mret (if systemctl_available then
       check [same (status_of r) 200%N; negb (same list []);
         forallb (λ e, check [ends_with ".service" (text_at e ["name"%string]);
                              negb (same (text_at e ["state"%string]) [])]) list]
     else same (status_of r) 503%N)).

Fixpoint all {A} (f : A → io bool) (l : list A) : io bool :=
  match l with [] => mret true | x :: l => b ← f x; c ← all f l; mret (b && c) end.

Definition services_query_rejects_bad_input_with_the_error_envelope : bool :=
  on machine (all (λ uri : str,
      '(status, _, v) ← get_json uri;
      mret (check [same status 400%N; same (text_at v ["error"; "code"]%string) "invalid_request"]))
    ["/api/v1/services?state=sleeping" : str; "/api/v1/services?enabled=maybe" : str;
     "/api/v1/services?limit=0" : str; "/api/v1/services?limit=100000" : str; "/api/v1/services?limit=abc" : str;
     "/api/v1/services?offset=-1" : str; "/api/v1/services?stat=failed" : str]).
Definition total (r : option Response) : option N := r ← r; rs_total_count r.
Definition services_pagination_and_total_count : bool :=
  if negb systemctl_available then true else
  on machine
    ('(status, everything, v) ← get_json "/api/v1/services";
     '(_, paged, page) ← get_json "/api/v1/services?limit=1&offset=1";
     '(_, _, nothing) ← get_json "/api/v1/services?q=zzz-no-such-unit-zzz";
     let n := length (items v) in
     mret (check [same status 200%N; same (total everything) (Some (N.of_nat n));
       same (length (items page)) (Nat.min 1 (n - 1)); same (total paged) (Some (N.of_nat n)); same nothing (JArr [])])).
Definition service_detail_validates_and_reports_missing_units : bool :=
  on machine
    ('(status, _, v) ← get_json "/api/v1/services/not-a-unit";
     '(evil, _, _) ← get_json "/api/v1/services/-evil.service";
     '(missing, _, w) ← get_json "/api/v1/services/zzz-no-such-unit-zzz.service";
     mret (check [same status 400%N; same (text_at v ["error"; "code"]%string) "invalid_request"; same evil 400%N;
       negb systemctl_available
         || check [same missing 404%N; same (text_at w ["error"; "code"]%string) "not_found"]])).
Definition updates_before_any_check_reports_nothing_known : bool :=
  on machine
    ('(status, _, v) ← get_json "/api/v1/updates";
     mret (check [same status 200%N; none (jmember "status" v); none (jmember "last_check" v);
       same (at_path v ["reboot"; "required"]%string) (JBool false);
       same (jindex "available" v) (JArr []); same (jindex "history" v) (JArr [])])).
Definition unknown_routes_are_404 : bool :=
  on machine
    (r ← call (test_app default_config) (loopback_request "/api/v1/nope"); mret (same (status_of r) 404%N)).

Definition request_id_validation : bool :=
  check [incoming_request_id "abc-123_DEF.9:0"; incoming_request_id "a"; incoming_request_id (replicate 128 "x"%char);
    negb (incoming_request_id []); negb (incoming_request_id (replicate 129 "x"%char));
    negb (incoming_request_id "has space"); negb (incoming_request_id ("tab" ++ ["009"%char] ++ "here"));
    negb (incoming_request_id ("quote" ++ ["034"%char] ++ "here"))].
Definition generate_request_id_is_16_hex_chars : bool :=
  check [same (length (fresh_id 0)) 16; is_hex (fresh_id 0); negb (same (fresh_id 0) (fresh_id 1))].
Definition success_echoes_generated_request_id : bool :=
  on machine
    (r ← call (test_app default_config) (loopback_request "/api/v1/health");
     mret (holds (id_of r) (λ id, check [same (length id) 16; is_hex id]))).
Definition caller_supplied_request_id_is_honored : bool :=
  on machine
    (r ← call (test_app default_config) (with_request_id "client-123" (loopback_request "/api/v1/health"));
     mret (same (id_of r) (Some ("client-123" : str)))).
Definition invalid_request_id_is_rejected : bool :=
  on machine
    (r ← call (test_app default_config) (with_request_id (replicate 200 "x"%char) (loopback_request "/api/v1/health"));
     mret (holds (id_of r) (λ id, same (length id) 16))).
Definition error_envelope_carries_request_id : bool :=
  on machine
    (r ← call (test_app default_config) (with_request_id "trace-42" (loopback_request "/api/v1/services?limit=0"));
     mret (check [same (status_of r) 400%N; same (id_of r) (Some ("trace-42" : str));
       same (text_at (body_json r) ["error"; "code"]%string) "invalid_request";
       same (text_at (body_json r) ["error"; "request_id"]%string) "trace-42"])).
Definition unknown_route_returns_envelope_with_request_id : bool :=
  on machine
    (r ← call (test_app default_config) (with_request_id "t-1" (loopback_request "/api/v1/nope"));
     mret (check [same (status_of r) 404%N; same (text_at (body_json r) ["error"; "code"]%string) "not_found";
       same (text_at (body_json r) ["error"; "request_id"]%string) "t-1"])).

Definition ops_app : AppState := test_app_with_tokens default_config (Some (token_store "ops" ["read:health" : str])).
Definition auth_denial_envelope_carries_request_id : bool :=
  on machine
    (r ← call ops_app (with_request_id "deny-1" (loopback_request_with_token "/api/v1/system" "ops"));
     mret (check [same (status_of r) 403%N; same (text_at (body_json r) ["error"; "code"]%string) "forbidden";
       same (text_at (body_json r) ["error"; "request_id"]%string) "deny-1"])).
Definition remote_peer_is_forbidden : bool :=
  on machine
    (r ← call (test_app default_config) (request_with_peer "/api/v1/health" REMOTE);
     mret (check [same (status_of r) 403%N; same (text_at (body_json r) ["error"; "code"]%string) "forbidden"])).
Definition v2_config : Config :=
  mkConfig _ system_default updates_default maintenance_default remote_default security_default logging_default
    (mkApi "/api/v2" (max_payload_bytes api_default) (request_timeout_secs api_default)) (mkFeatures ∅) ∅.
Definition custom_base_path_is_honored : bool :=
  on machine
    (old ← call (test_app v2_config) (loopback_request "/api/v1/health");
     r ← call (test_app v2_config) (loopback_request "/api/v2/health");
     mret (check [same (status_of old) 404%N; same (status_of r) 200%N])).
Definition token_required_when_store_configured : bool :=
  on machine
    (a ← call ops_app (loopback_request "/api/v1/health");
     b ← call ops_app (loopback_request_with_token "/api/v1/health" "wrong");
     c ← call ops_app (loopback_request_with_token "/api/v1/system" "ops");
     d ← call ops_app (loopback_request_with_token "/api/v1/health" "ops");
     mret (same (status_of <$> [a; b; c; d]) [401; 401; 403; 200]%N)).
Definition remote_peer_is_refused_even_with_a_valid_token : bool :=
  on machine
    (r ← call (test_app_with_tokens default_config (Some (token_store "ops" ["read_all" : str])))
           (request_with_peer_and_token "/api/v1/health" REMOTE (Some ("ops" : str)));
     mret (check [same (status_of r) 403%N; same (text_at (body_json r) ["error"; "code"]%string) "forbidden"])).
Definition token_missing_permission_returns_error_envelope : bool :=
  on machine
    (r ← call ops_app (loopback_request_with_token "/api/v1/system" "ops");
     mret (check [same (text_at (body_json r) ["error"; "code"]%string) "forbidden";
       contains "read:system" (text_at (body_json r) ["error"; "message"]%string)])).
Definition read_all_token_accesses_every_route : bool :=
  let app := test_app_with_tokens default_config (Some (token_store "admin" ["read_all" : str])) in
  on machine (all (λ path : str,
      r ← call app (loopback_request_with_token path "admin");
      mret (if bool_decide (path = ("/api/v1/services" : str)) && negb systemctl_available
            then same (status_of r) 503%N else same (status_of r) 200%N))
    ["/api/v1/health" : str; "/api/v1/version" : str; "/api/v1/system" : str; "/api/v1/services" : str]).

End tests.

Definition get_tests (systemctl_available : bool) : list bool := [
  health_returns_ok systemctl_available; version_returns_framework_and_daemon_versions systemctl_available;
  system_returns_real_machine_facts systemctl_available; services_lists_systemd_units_else_503 systemctl_available;
  services_query_rejects_bad_input_with_the_error_envelope systemctl_available;
  services_pagination_and_total_count systemctl_available;
  service_detail_validates_and_reports_missing_units systemctl_available;
  updates_before_any_check_reports_nothing_known systemctl_available; unknown_routes_are_404 systemctl_available;
  request_id_validation; generate_request_id_is_16_hex_chars;
  success_echoes_generated_request_id systemctl_available; caller_supplied_request_id_is_honored systemctl_available;
  invalid_request_id_is_rejected systemctl_available; error_envelope_carries_request_id systemctl_available;
  unknown_route_returns_envelope_with_request_id systemctl_available;
  auth_denial_envelope_carries_request_id systemctl_available; remote_peer_is_forbidden systemctl_available;
  custom_base_path_is_honored systemctl_available; token_required_when_store_configured systemctl_available;
  remote_peer_is_refused_even_with_a_valid_token systemctl_available;
  token_missing_permission_returns_error_envelope systemctl_available;
  read_all_token_accesses_every_route systemctl_available].

Lemma get_tests_pass : check (get_tests true) && check (get_tests false) = true.
Proof. vm_compute. reflexivity. Qed.

(** ** POST /api/v1/updates/apply *)

Definition Canned : process_end := answers (unlines
  ["Inst openssl [1.0-1] (1.0-2 Ubuntu:24.04/noble-updates [amd64])" : str;
   "Inst libc6 [2.0-1] (2.0-2 Ubuntu:24.04/noble-security [amd64])" : str]).
Definition apply_host (local : option LocalTime) : Env := daemon_host Canned local.

(** The state behind the router of a test, its update state having "found" two
    packages. *)
Definition apply_app `{Env} (tokens : option TokenStore) : io (bool * AppState) :=
  '(count, u) ← refresh Stable (with_runner "/t");
  mret (ok_and count (same 2), mkAppState window_config 0 tokens 0 "2026-09-21T04:00:00.000Z" u).
Definition request_path : str := join_path "/t" REQUEST_FILE_NAME.
Definition requested : io bool := n ← node_at request_path; mret (negb (none n)).
Definition m_token : option TokenStore := Some (token_store "m" ["manage:updates" : str]).
Definition APPLY : str := "/api/v1/updates/apply".

Definition preview_mode_never_allows_applying_updates : bool :=
  let e := apply_host sunday_3am in
  on scratch
    ('(ok, app) ← apply_app None;
     r ← call app (post APPLY None);
     written ← requested;
     mret (check [ok; same (status_of r) 403%N; same (text_at (body_json r) ["error"; "code"]%string) "forbidden";
       contains "token" (text_at (body_json r) ["error"; "message"]%string); negb written])).
Definition read_all_cannot_apply_and_manage_cannot_read : bool :=
  let e := apply_host sunday_3am in
  on scratch
    ('(ok, app) ← apply_app (Some (token_store "rw" ["read_all" : str]));
     r ← call app (post APPLY (Some ("rw" : str)));
     written ← requested;
     '(ok2, app2) ← apply_app m_token;
     r2 ← call app2 (loopback_request_with_token "/api/v1/updates" "m");
     mret (check [ok; ok2; same (status_of r) 403%N; negb written; same (status_of r2) 403%N])).
Definition a_dry_run_reports_the_plan_and_changes_nothing : bool :=
  let e := apply_host sunday_3am in
  on scratch
    ('(ok, app) ← apply_app m_token;
     r ← call app (post (APPLY ++ "?dry_run=true") (Some ("m" : str)));
     written ← requested;
     let v := body_json r in
     mret (check [ok; same (status_of r) 200%N; same (jindex "dry_run" v) (JBool true);
       same (jindex "permitted" v) (JBool true);
       same (jindex "packages" v) (JArr [JStr "libc6"; JStr "openssl"]); none (jmember "id" v); negb written])).
Definition an_accepted_request_is_written_once_and_marks_the_update_as_installing : bool :=
  let e := apply_host sunday_3am in
  on scratch
    ('(ok, app) ← apply_app (Some (token_store "m" ["manage:updates" : str; "read:updates" : str]));
     r ← call app (post APPLY (Some ("m" : str)));
     bytes ← bytes_at request_path;
     mode ← mode_at request_path;
     r2 ← call app (loopback_request_with_token "/api/v1/updates" "m");
     r3 ← call app (post APPLY (Some ("m" : str)));
     let id := text_at (body_json r) ["id"%string] in
     mret (check [ok; same (status_of r) 202%N; same (jindex "permitted" (body_json r)) (JBool true);
       starts_with "apply-" id;
       holds (b ← bytes; decode_json b) (λ request : ApplyRequest, check
         [same (ar_id request) id; same (ar_requested_by request) "test";
          same (ar_packages request) ["libc6" : str; "openssl" : str]; is_ok (validate_request request)]);
       same mode (Some 384%N);
       same (text_at (body_json r2) ["status"; "state"]%string) "installing";
       same (status_of r3) 409%N; same (text_at (body_json r3) ["error"; "code"]%string) "conflict"])).
Definition outside_a_window_apply_is_refused_and_a_dry_run_explains_why : bool :=
  let e := apply_host sunday_noon in
  on scratch
    ('(ok, app) ← apply_app m_token;
     r ← call app (post APPLY (Some ("m" : str)));
     written ← requested;
     r2 ← call app (post (APPLY ++ "?dry_run=true") (Some ("m" : str)));
     mret (check [ok; same (status_of r) 409%N; negb written; same (status_of r2) 200%N;
       same (jindex "permitted" (body_json r2)) (JBool false);
       contains "maintenance window" (text_at (body_json r2) ["reason"%string])])).
Definition apply_rejects_unknown_or_bad_query_parameters : bool :=
  let e := apply_host sunday_3am in
  on scratch
    ('(ok, app) ← apply_app m_token;
     r ← call app (post (APPLY ++ "?dry_run=maybe") (Some ("m" : str)));
     r2 ← call app (post (APPLY ++ "?packages=evil") (Some ("m" : str)));
     written ← requested;
     mret (check [ok; same (status_of r) 400%N; same (status_of r2) 400%N; negb written])).

Lemma apply_route_tests : check [preview_mode_never_allows_applying_updates;
  read_all_cannot_apply_and_manage_cannot_read; a_dry_run_reports_the_plan_and_changes_nothing;
  an_accepted_request_is_written_once_and_marks_the_update_as_installing;
  outside_a_window_apply_is_refused_and_a_dry_run_explains_why;
  apply_rejects_unknown_or_bad_query_parameters] = true.
Proof. vm_compute. reflexivity. Qed.
